(** * CinemaVerse client: dual-tier persistence, cart, favorites, session

    A shallow embedding of the browser-side state synchronisation code of
    the CinemaVerse front end:

    - [StorageService]  (src/Frontend/src/app/services/storage.service.ts)
    - [FavoriteService] (same file, second document)
    - [CartService]     (src/Frontend/src/app/services/cart.service.ts)
    - [AuthService]     (same file, second document)

    Modelling conventions.

    - JavaScript strings are byte strings ([string]); algorithms that walk a
      string work on its list of characters.  Lone surrogates, which make
      [encodeURIComponent] throw, do not exist in this model.
    - JavaScript numbers that the code uses as counts, prices, stock levels
      and epoch milliseconds are integers ([Z]).  Fractions, NaN and the
      infinities are outside the model.
    - A JavaScript value that goes through [JSON.stringify] / [JSON.parse]
      is a [json] tree; [null] is [JNull].
    - Methods run in a state-and-exception monad over one [World] record
      holding the two browser storage tiers, the console and the fields of
      the three services.  [try { } catch { }] is [try_catch]. *)

From Stdlib Require Import ZArith Ascii String List Bool Lia.
From Stdlib Require Import DecimalString DecimalZ DecimalPos DecimalFacts.
From Stdlib Require Import Sorted Permutation.
From stdpp Require Import gmap strings list.

Local Open Scope Z_scope.

(** Characters of a string, and back. *)
Abbreviation chars := list_ascii_of_string.
Abbreviation text := string_of_list_ascii.

(* ================================================================= *)
(** ** Keyed collections in insertion order *)

(** A JavaScript [Map] with string keys, and likewise the members of an
    object and the cookies of a page: entries in insertion order; setting
    a present key replaces its value in place. *)
Module JsMap.

Fixpoint set {V} (k : string) (v : V) (m : list (string * V))
  : list (string * V) :=
  match m with
  | [] => [(k, v)]
  | (k', v') :: r =>
      if String.eqb k k' then (k', v) :: r else (k', v') :: set k v r
  end.

Fixpoint get {V} (k : string) (m : list (string * V)) : option V :=
  match m with
  | [] => None
  | (k', v') :: r => if String.eqb k k' then Some v' else get k r
  end.

Definition values {V} (m : list (string * V)) : list V := map snd m.

Definition keys {V} (m : list (string * V)) : list string := map fst m.

End JsMap.

(** The double quote character. *)
Definition dq : ascii := "034"%char.

(* ================================================================= *)
(** ** JSON values, [JSON.stringify] and [JSON.parse] *)

Module Json.

#[local] Unset Elimination Schemes.

Inductive json :=
| JNull
| JBool (b : bool)
| JNum (n : Z)
| JStr (s : string)
| JArr (items : list json)
| JObj (members : list (string * json)).

#[local] Set Elimination Schemes.

(** JavaScript truthiness of a value: [null], [false], [0] and the empty
    string are falsy, arrays and objects are always truthy. *)
Definition truthy (v : json) : bool :=
  match v with
  | JNull => false
  | JBool b => b
  | JNum n => negb (n =? 0)
  | JStr s => negb (String.eqb s "")
  | JArr _ | JObj _ => true
  end.

(** [a || b] on values. *)
Definition js_or (a b : json) : json := if truthy a then a else b.

(** *** Printing *)

Definition hex_digit (n : N) : ascii :=
  match n with
  | 0 => "0" | 1 => "1" | 2 => "2" | 3 => "3" | 4 => "4" | 5 => "5"
  | 6 => "6" | 7 => "7" | 8 => "8" | 9 => "9" | 10 => "a" | 11 => "b"
  | 12 => "c" | 13 => "d" | 14 => "e" | _ => "f"
  end%N%char.

(** One character of a string literal, as [JSON.stringify] writes it. *)
Definition escape_char (c : ascii) : list ascii :=
  (if c =? dq then ["\"; dq]
   else if c =? "\" then ["\"; "\"]
   else if c =? "008" then ["\"; "b"]
   else if c =? "012" then ["\"; "f"]
   else if c =? "010" then ["\"; "n"]
   else if c =? "013" then ["\"; "r"]
   else if c =? "009" then ["\"; "t"]
   else if (N_of_ascii c <? 32)%N
        then ["\"; "u"; "0"; "0"; hex_digit (N_of_ascii c / 16);
              hex_digit (N_of_ascii c mod 16)]
   else [c])%char.

Definition quote (s : string) : list ascii :=
  dq :: flat_map escape_char (chars s) ++ [dq].

Fixpoint uint_chars (d : Decimal.uint) : list ascii :=
  match d with
  | Decimal.Nil => []
  | Decimal.D0 d => "0"%char :: uint_chars d
  | Decimal.D1 d => "1"%char :: uint_chars d
  | Decimal.D2 d => "2"%char :: uint_chars d
  | Decimal.D3 d => "3"%char :: uint_chars d
  | Decimal.D4 d => "4"%char :: uint_chars d
  | Decimal.D5 d => "5"%char :: uint_chars d
  | Decimal.D6 d => "6"%char :: uint_chars d
  | Decimal.D7 d => "7"%char :: uint_chars d
  | Decimal.D8 d => "8"%char :: uint_chars d
  | Decimal.D9 d => "9"%char :: uint_chars d
  end.

Definition print_Z (z : Z) : list ascii :=
  match Z.to_int z with
  | Decimal.Pos d => uint_chars d
  | Decimal.Neg d => "-"%char :: uint_chars d
  end.

(** Items separated by commas. *)
Fixpoint commas (l : list (list ascii)) : list ascii :=
  match l with
  | [] => []
  | [x] => x
  | x :: r => x ++ ","%char :: commas r
  end.

Fixpoint print (v : json) : list ascii :=
  match v with
  | JNull => chars "null"
  | JBool true => chars "true"
  | JBool false => chars "false"
  | JNum n => print_Z n
  | JStr s => quote s
  | JArr l => "["%char :: commas (map print l) ++ ["]"%char]
  | JObj l =>
      "{"%char
        :: commas (map (fun kv => quote (fst kv) ++ ":"%char :: print (snd kv)) l)
        ++ ["}"%char]
  end.

(** [JSON.stringify(v)] for a value that is a [json] tree. *)
Definition JSON_stringify (v : json) : string := text (print v).

(** *** Parsing *)

Definition is_ws (c : ascii) : bool :=
  ((c =? " ") || (c =? "009") || (c =? "010") || (c =? "013"))%char.

Fixpoint skip_ws (s : list ascii) : list ascii :=
  match s with
  | c :: r => if is_ws c then skip_ws r else s
  | [] => []
  end.

(** The rest of [s] after the literal [lit], when [s] starts with it. *)
Fixpoint expect (lit s : list ascii) : option (list ascii) :=
  match lit, s with
  | [], _ => Some s
  | a :: lit', b :: s' => if (a =? b)%char then expect lit' s' else None
  | _ :: _, [] => None
  end.

Definition hex_value (c : ascii) : option N :=
  let n := N_of_ascii c in
  (if (48 <=? n) && (n <=? 57) then Some (n - 48)
   else if (97 <=? n) && (n <=? 102) then Some (n - 87)
   else if (65 <=? n) && (n <=? 70) then Some (n - 55)
   else None)%N.

(** UTF-8 bytes of a code point of the basic plane; surrogate halves are
    outside the model. *)
Definition utf8 (cp : N) : option (list ascii) :=
  (if cp <? 128 then Some [ascii_of_N cp]
   else if cp <? 2048 then
     Some [ascii_of_N (192 + cp / 64); ascii_of_N (128 + cp mod 64)]
   else if (55296 <=? cp) && (cp <=? 57343) then None
   else Some [ascii_of_N (224 + cp / 4096);
              ascii_of_N (128 + (cp / 64) mod 64);
              ascii_of_N (128 + cp mod 64)])%N.

Definition unescape (e : ascii) : option ascii :=
  (if e =? dq then Some dq
   else if e =? "\" then Some "\"
   else if e =? "/" then Some "/"
   else if e =? "b" then Some "008"
   else if e =? "f" then Some "012"
   else if e =? "n" then Some "010"
   else if e =? "r" then Some "013"
   else if e =? "t" then Some "009"
   else None)%char.

(** The characters of a string literal after its opening quote, up to and
    including the closing quote. *)
Fixpoint parse_string (s : list ascii) : option (list ascii * list ascii) :=
  match s with
  | [] => None
  | c :: r =>
      if (c =? dq)%char then Some ([], r)
      else if (c =? "\")%char then
        match r with
        | [] => None
        | e :: r1 =>
            if (e =? "u")%char then
              match r1 with
              | h1 :: h2 :: h3 :: h4 :: r2 =>
                  match hex_value h1, hex_value h2, hex_value h3, hex_value h4 with
                  | Some a, Some b, Some c', Some d =>
                      match utf8 (((a * 16 + b) * 16 + c') * 16 + d)%N,
                            parse_string r2 with
                      | Some bs, Some (str, rest) => Some (bs ++ str, rest)
                      | _, _ => None
                      end
                  | _, _, _, _ => None
                  end
              | _ => None
              end
            else
              match unescape e, parse_string r1 with
              | Some x, Some (str, rest) => Some (x :: str, rest)
              | _, _ => None
              end
        end
      else if (N_of_ascii c <? 32)%N then None
      else
        match parse_string r with
        | Some (str, rest) => Some (c :: str, rest)
        | None => None
        end
  end.

Definition digit_of (c : ascii) : option (Decimal.uint -> Decimal.uint) :=
  (if c =? "0" then Some Decimal.D0
   else if c =? "1" then Some Decimal.D1
   else if c =? "2" then Some Decimal.D2
   else if c =? "3" then Some Decimal.D3
   else if c =? "4" then Some Decimal.D4
   else if c =? "5" then Some Decimal.D5
   else if c =? "6" then Some Decimal.D6
   else if c =? "7" then Some Decimal.D7
   else if c =? "8" then Some Decimal.D8
   else if c =? "9" then Some Decimal.D9
   else None)%char.

Fixpoint read_digits (s : list ascii) : Decimal.uint * list ascii :=
  match s with
  | [] => (Decimal.Nil, [])
  | c :: r =>
      match digit_of c with
      | Some D => let '(d, r') := read_digits r in (D d, r')
      | None => (Decimal.Nil, s)
      end
  end.

(** What may not follow the digits of an integer literal: a further digit
    is impossible after [read_digits]; a fraction or an exponent would
    make the literal a non-integer number, which this model does not
    have. *)
Definition continues_number (s : list ascii) : bool :=
  match s with
  | c :: _ => ((c =? ".") || (c =? "e") || (c =? "E"))%char
              || (match digit_of c with Some _ => true | None => false end)
  | [] => false
  end.

Definition well_formed_digits (d : Decimal.uint) : bool :=
  match d with
  | Decimal.Nil => false
  | Decimal.D0 Decimal.Nil => true
  | Decimal.D0 _ => false
  | _ => true
  end.

Definition parse_number (s : list ascii) : option (Z * list ascii) :=
  let '(neg, s') :=
    match s with
    | c :: r => if (c =? "-")%char then (true, r) else (false, s)
    | [] => (false, s)
    end in
  let '(d, rest) := read_digits s' in
  if well_formed_digits d && negb (continues_number rest)
  then Some (if neg then Z.of_int (Decimal.Neg d) else Z.of_int (Decimal.Pos d), rest)
  else None.

(** The object built from the members in source order: a later member
    with the same key replaces the value of the first. *)
Definition obj_of_members (l : list (string * json)) : list (string * json) :=
  fold_left (fun acc kv => JsMap.set (fst kv) (snd kv) acc) l [].

Fixpoint parse_value (fuel : nat) (s : list ascii) {struct fuel}
  : option (json * list ascii) :=
  match fuel with
  | O => None
  | S fuel =>
      match skip_ws s with
      | [] => None
      | c :: r =>
          if (c =? "n")%char then
            option_map (pair JNull) (expect (chars "ull") r)
          else if (c =? "t")%char then
            option_map (pair (JBool true)) (expect (chars "rue") r)
          else if (c =? "f")%char then
            option_map (pair (JBool false)) (expect (chars "alse") r)
          else if (c =? dq)%char then
            match parse_string r with
            | Some (str, rest) => Some (JStr (text str), rest)
            | None => None
            end
          else if (c =? "[")%char then
            match skip_ws r with
            | [] => None
            | c' :: r' =>
                if (c' =? "]")%char then Some (JArr [], r')
                else match parse_elems fuel r with
                     | Some (vs, rest) => Some (JArr vs, rest)
                     | None => None
                     end
            end
          else if (c =? "{")%char then
            match skip_ws r with
            | [] => None
            | c' :: r' =>
                if (c' =? "}")%char then Some (JObj [], r')
                else match parse_members fuel r with
                     | Some (ms, rest) => Some (JObj (obj_of_members ms), rest)
                     | None => None
                     end
            end
          else
            match parse_number (c :: r) with
            | Some (n, rest) => Some (JNum n, rest)
            | None => None
            end
      end
  end
with parse_elems (fuel : nat) (s : list ascii) {struct fuel}
  : option (list json * list ascii) :=
  match fuel with
  | O => None
  | S fuel =>
      match parse_value fuel s with
      | None => None
      | Some (v, r) =>
          match skip_ws r with
          | [] => None
          | c :: r' =>
              if (c =? ",")%char then
                match parse_elems fuel r' with
                | Some (vs, rest) => Some (v :: vs, rest)
                | None => None
                end
              else if (c =? "]")%char then Some ([v], r')
              else None
          end
      end
  end
with parse_members (fuel : nat) (s : list ascii) {struct fuel}
  : option (list (string * json) * list ascii) :=
  match fuel with
  | O => None
  | S fuel =>
      match skip_ws s with
      | [] => None
      | q :: r0 =>
          if negb (q =? dq)%char then None
          else
            match parse_string r0 with
            | None => None
            | Some (k, r1) =>
                match skip_ws r1 with
                | [] => None
                | colon :: r2 =>
                    if negb (colon =? ":")%char then None
                    else
                      match parse_value fuel r2 with
                      | None => None
                      | Some (v, r3) =>
                          match skip_ws r3 with
                          | [] => None
                          | c :: r4 =>
                              if (c =? ",")%char then
                                match parse_members fuel r4 with
                                | Some (ms, rest) =>
                                    Some ((text k, v) :: ms, rest)
                                | None => None
                                end
                              else if (c =? "}")%char
                              then Some ([(text k, v)], r4)
                              else None
                          end
                      end
                end
            end
      end
  end.

(** [JSON.parse(s)]; [None] is the [SyntaxError] it throws.  The numbers
    of the model are the integers: a text in which a number has a
    fraction or an exponent, which [JSON.parse] reads, is outside the
    model and not read by it, and so is the rounding of an integer of
    more than fifteen digits.  [JsonSpec.exact_text] says of a text that
    it is within the model; what is stated of texts that the code did not
    write itself is stated of those. *)
Definition JSON_parse (s : string) : option json :=
  let cs := chars s in
  match parse_value (S (length cs)) cs with
  | Some (v, rest) =>
      match skip_ws rest with
      | [] => Some v
      | _ :: _ => None
      end
  | None => None
  end.

End Json.

(* ================================================================= *)
(** ** [encodeURIComponent] and [decodeURIComponent] *)

Module Uri.

(** The characters [encodeURIComponent] leaves alone: letters, digits and
    [- _ . ! ~ * ' ( )]. *)
Definition unreserved (c : ascii) : bool :=
  let n := N_of_ascii c in
  ((65 <=? n) && (n <=? 90) || (97 <=? n) && (n <=? 122)
   || (48 <=? n) && (n <=? 57))%N
  || ((c =? "-") || (c =? "_") || (c =? ".") || (c =? "!") || (c =? "~")
      || (c =? "*") || (c =? "'") || (c =? "(") || (c =? ")"))%char.

Definition hex_upper (n : N) : ascii :=
  match n with
  | 0 => "0" | 1 => "1" | 2 => "2" | 3 => "3" | 4 => "4" | 5 => "5"
  | 6 => "6" | 7 => "7" | 8 => "8" | 9 => "9" | 10 => "A" | 11 => "B"
  | 12 => "C" | 13 => "D" | 14 => "E" | _ => "F"
  end%N%char.

Definition encode_char (c : ascii) : list ascii :=
  if unreserved c then [c]
  else ["%"%char; hex_upper (N_of_ascii c / 16); hex_upper (N_of_ascii c mod 16)].

Definition encode (s : list ascii) : list ascii := flat_map encode_char s.

Definition encodeURIComponent (s : string) : string := text (encode (chars s)).

(** [None] is the [URIError] thrown at a malformed escape.  Strings are
    their UTF-8 bytes and an escape is decoded to its byte; that the
    escapes above [%7F] must form UTF-8 sequences, for which
    [decodeURIComponent] throws as well when they do not, is not checked:
    what [encode] wrote always does, and of other values
    [StoreSpec.ascii_escapes] says that they have no such escape. *)
Fixpoint decode (s : list ascii) : option (list ascii) :=
  match s with
  | [] => Some []
  | c :: r =>
      if (c =? "%")%char then
        match r with
        | h1 :: h2 :: r' =>
            match Json.hex_value h1, Json.hex_value h2, decode r' with
            | Some a, Some b, Some t => Some (ascii_of_N (a * 16 + b) :: t)
            | _, _, _ => None
            end
        | _ => None
        end
      else option_map (cons c) (decode r)
  end.

Definition decodeURIComponent (s : list ascii) : option (list ascii) := decode s.

End Uri.

(* ================================================================= *)
(** ** String helpers used by the cookie code *)

(** [s.split(sep)] for a one-character separator. *)
Fixpoint split_on (sep : ascii) (s : list ascii) : list (list ascii) :=
  match s with
  | [] => [[]]
  | c :: r =>
      if (c =? sep)%char then [] :: split_on sep r
      else match split_on sep r with
           | w :: ws => (c :: w) :: ws
           | [] => [[c]]
           end
  end.

(** [c.indexOf(p) === 0]. *)
Fixpoint starts_with (p s : list ascii) : bool :=
  match p, s with
  | [], _ => true
  | a :: p', b :: s' => (a =? b)%char && starts_with p' s'
  | _ :: _, [] => false
  end.

(** [while (c.charAt(0) === ' ') c = c.substring(1, c.length)]. *)
Fixpoint strip_spaces (s : list ascii) : list ascii :=
  match s with
  | c :: r => if (c =? " ")%char then strip_spaces r else s
  | [] => []
  end.

(** ** String helpers used by the services *)

(** [s.toUpperCase()] on the letters of ASCII; the letters beyond ASCII
    are outside the model. *)
Definition to_upper (c : ascii) : ascii :=
  let n := N_of_ascii c in
  if ((97 <=? n) && (n <=? 122))%N then ascii_of_N (n - 32) else c.

Definition toUpperCase (s : list ascii) : list ascii := map to_upper s.

(** The white space [s.trim()] removes, as far as ASCII has it. *)
Definition is_space (c : ascii) : bool :=
  let n := N_of_ascii c in ((9 <=? n) && (n <=? 13) || (n =? 32))%N.

Fixpoint trim_start (s : list ascii) : list ascii :=
  match s with
  | c :: r => if is_space c then trim_start r else s
  | [] => []
  end.

Definition js_trim (s : list ascii) : list ascii :=
  rev (trim_start (rev (trim_start s))).

(* ================================================================= *)
(** ** State and exceptions *)

Inductive exn :=
| SecurityError   (* storage access denied *)
| SyntaxError     (* JSON.parse *)
| URIError        (* decodeURIComponent *)
| RangeError      (* Date.prototype.toISOString *)
| Thrown (msg : string).

Inductive Res (A : Type) :=
| Ok (a : A)
| Throw (e : exn).
Arguments Ok {A} a.
Arguments Throw {A} e.

(** A computation over a state [S] that returns or throws. *)
Definition SE (S A : Type) : Type := S -> Res A * S.

Definition ret {S A} (a : A) : SE S A := fun s => (Ok a, s).

Definition throw {S A} (e : exn) : SE S A := fun s => (Throw e, s).

Definition bind {S A B} (m : SE S A) (k : A -> SE S B) : SE S B :=
  fun s =>
    match m s with
    | (Ok a, s') => k a s'
    | (Throw e, s') => (Throw e, s')
    end.

(** [try { m } catch (e) { h e }]: the state changes made before the throw
    stay. *)
Definition try_catch {S A} (m : SE S A) (h : exn -> SE S A) : SE S A :=
  fun s =>
    match m s with
    | (Ok a, s') => (Ok a, s')
    | (Throw e, s') => h e s'
    end.

Definition gets {S A} (f : S -> A) : SE S A := fun s => (Ok (f s), s).

Definition modify {S} (f : S -> S) : SE S unit := fun s => (Ok tt, f s).

(** Run a computation on a component of the state. *)
Definition lift {S T A} (get : S -> T) (set : T -> S -> S) (m : SE T A)
  : SE S A :=
  fun s => let '(r, t) := m (get s) in (r, set t s).

Notation "x <- m ;; k" := (bind m (fun x => k))
  (at level 62, m at next level, right associativity).
Notation "m1 ;;; m2" := (bind m1 (fun _ => m2))
  (at level 62, right associativity).

(** [l.forEach(f)]: an exception in [f] ends the loop and propagates. *)
Fixpoint forEach {S A} (l : list A) (f : A -> SE S unit) : SE S unit :=
  match l with
  | [] => ret tt
  | x :: r => f x ;;; forEach r f
  end.

(** A computation is total at a state when it returns normally there. *)
Definition returns {S A} (m : SE S A) (s : S) : Prop :=
  exists a s', m s = (Ok a, s').

(* ================================================================= *)
(** ** The browser: [sessionStorage], [document.cookie], clock, console *)

Module Browser.

Record t := mk {
  sessionStorage : gmap string string;
  (** the cookies of the page, oldest first: name and value *)
  cookieJar : list (string * string);
  (** every access to [sessionStorage] throws (storage disabled) *)
  sessionFault : bool;
  (** every access to [document.cookie] throws *)
  cookieFault : bool;
  (** [Date.now()] in epoch milliseconds *)
  now : Z;
  (** what [console.error] and [console.warn] printed, oldest first *)
  console : list string
}.

Definition set_sessionStorage (m : gmap string string) (b : t) : t :=
  mk m (cookieJar b) (sessionFault b) (cookieFault b) (now b) (console b).

Definition set_cookieJar (j : list (string * string)) (b : t) : t :=
  mk (sessionStorage b) j (sessionFault b) (cookieFault b) (now b) (console b).

Definition set_console (c : list string) (b : t) : t :=
  mk (sessionStorage b) (cookieJar b) (sessionFault b) (cookieFault b) (now b) c.

Definition console_error (msg : string) : SE t unit :=
  modify (fun b => set_console (console b ++ [msg]) b).

Definition console_warn (msg : string) : SE t unit :=
  modify (fun b => set_console (console b ++ [msg]) b).

Definition Date_now : SE t Z := gets now.

Definition set_now (n : Z) (b : t) : t :=
  mk (sessionStorage b) (cookieJar b) (sessionFault b) (cookieFault b) n (console b).

(** Time passes between two calls: the clock reads [n] from now on. *)
Definition clock_reads (n : Z) : SE t unit := modify (set_now n).

(** *** [sessionStorage] *)

Definition sessionStorage_getItem (key : string) : SE t (option string) :=
  fun b =>
    if sessionFault b then (Throw SecurityError, b)
    else (Ok (sessionStorage b !! key), b).

Definition sessionStorage_setItem (key value : string) : SE t unit :=
  fun b =>
    if sessionFault b then (Throw SecurityError, b)
    else (Ok tt, set_sessionStorage (<[key := value]> (sessionStorage b)) b).

Definition sessionStorage_removeItem (key : string) : SE t unit :=
  fun b =>
    if sessionFault b then (Throw SecurityError, b)
    else (Ok tt, set_sessionStorage (delete key (sessionStorage b)) b).

Definition sessionStorage_clear : SE t unit :=
  fun b =>
    if sessionFault b then (Throw SecurityError, b)
    else (Ok tt, set_sessionStorage empty b).

(** *** [document.cookie]

    Reading yields the cookies as [name=value] joined by [; ].  An
    assignment carries one [name=value] pair and attributes; of the
    attributes only the expiry instant matters here, so an assignment is
    the pair text and that instant.  The page is assumed to be a secure
    context and the cookie to fit the size limit, so that the browser
    accepts the [Secure] cookies the code writes. *)

Definition render_cookie (c : string * string) : list ascii :=
  if String.eqb (fst c) "" then chars (snd c)
  else chars (fst c) ++ "="%char :: chars (snd c).

Fixpoint render_jar (j : list (string * string)) : list ascii :=
  match j with
  | [] => []
  | [c] => render_cookie c
  | c :: r => render_cookie c ++ ";"%char :: " "%char :: render_jar r
  end.

Definition document_cookie : SE t string :=
  fun b =>
    if cookieFault b then (Throw SecurityError, b)
    else (Ok (text (render_jar (cookieJar b))), b).

Definition is_blank (c : ascii) : bool := ((c =? " ") || (c =? "009"))%char.

Fixpoint strip_blanks (s : list ascii) : list ascii :=
  match s with
  | c :: r => if is_blank c then strip_blanks r else s
  | [] => []
  end.

Definition trim (s : list ascii) : list ascii :=
  rev (strip_blanks (rev (strip_blanks s))).

(** The text before the first [sep], and the text after it if there is
    one. *)
Fixpoint cut (sep : ascii) (s : list ascii) : list ascii * option (list ascii) :=
  match s with
  | [] => ([], None)
  | c :: r =>
      if (c =? sep)%char then ([], Some r)
      else let '(a, b) := cut sep r in (c :: a, b)
  end.

(** Name and value of the pair of an assignment: the text up to the first
    semicolon, split at its first equals sign; without an equals sign the
    cookie has no name. *)
Definition parse_pair (s : list ascii) : string * string :=
  let p := fst (cut ";" s) in
  match cut "=" p with
  | (n, Some v) => (text (trim n), text (trim v))
  | (v, None) => ("", text (trim v))
  end.

Definition jar_remove (n : string) (j : list (string * string))
  : list (string * string) :=
  List.filter (fun c => negb (String.eqb n (fst c))) j.

(** [document.cookie = pair;expires=...;path=/;...]. *)
Definition document_cookie_assign (pair : string) (expires : Z) : SE t unit :=
  fun b =>
    if cookieFault b then (Throw SecurityError, b)
    else
      let '(n, v) := parse_pair (chars pair) in
      if String.eqb n "" && String.eqb v "" then (Ok tt, b)
      else if expires <=? now b
           then (Ok tt, set_cookieJar (jar_remove n (cookieJar b)) b)
           else (Ok tt, set_cookieJar (JsMap.set n v (cookieJar b)) b).

End Browser.

(* ================================================================= *)
(** ** [StorageService] (storage.service.ts) *)

Module StorageService.

Import Json Browser.

Definition COOKIE_EXPIRY_DAYS : Z := 30.

(** [JSON.parse] as a computation: a syntax error is thrown. *)
Definition parse {S} (s : string) : SE S json :=
  match JSON_parse s with
  | Some v => ret v
  | None => throw SyntaxError
  end.

Definition setSessionItem (key : string) (value : json) : SE Browser.t unit :=
  try_catch
    (sessionStorage_setItem key (JSON_stringify value))
    (fun _ => console_error "Error setting session item:").

(** [item ? JSON.parse(item) : null]: an absent item and the empty string
    are both falsy. *)
Definition getSessionItem (key : string) : SE Browser.t json :=
  try_catch
    (item <- sessionStorage_getItem key ;;
     match item with
     | Some s => if String.eqb s "" then ret JNull else parse s
     | None => ret JNull
     end)
    (fun _ => console_error "Error getting session item:" ;;; ret JNull).

Definition removeSessionItem (key : string) : SE Browser.t unit :=
  try_catch
    (sessionStorage_removeItem key)
    (fun _ => console_error "Error removing session item:").

Definition clearSession : SE Browser.t unit :=
  try_catch
    sessionStorage_clear
    (fun _ => console_error "Error clearing session:").

(** [typeof value === 'string' ? value : JSON.stringify(value)]. *)
Definition cookieValue (value : json) : string :=
  match value with
  | JStr s => s
  | _ => JSON_stringify value
  end.

Definition setCookie (name : string) (value : json) (days : Z)
  : SE Browser.t unit :=
  try_catch
    (t <- Date_now ;;
     let expires := t + days * 24 * 60 * 60 * 1000 in
     document_cookie_assign
       (name +:+ "=" +:+ Uri.encodeURIComponent (cookieValue value))
       expires)
    (fun _ => console_error "Error setting cookie:").

(** The loop of [getCookie] over the pieces of [document.cookie]. *)
Fixpoint getCookie_loop (nameEQ : list ascii) (ca : list (list ascii))
  : SE Browser.t json :=
  match ca with
  | [] => ret JNull
  | c :: rest =>
      let c := strip_spaces c in
      if starts_with nameEQ c then
        match Uri.decodeURIComponent (drop (length nameEQ) c) with
        | Some value =>
            try_catch (parse (text value)) (fun _ => ret (JStr (text value)))
        | None => throw URIError
        end
      else getCookie_loop nameEQ rest
  end.

Definition getCookie (name : string) : SE Browser.t json :=
  try_catch
    (let nameEQ := chars (name +:+ "=") in
     cookie <- document_cookie ;;
     getCookie_loop nameEQ (split_on ";" (chars cookie)))
    (fun _ => console_error "Error getting cookie:" ;;; ret JNull).

(** [expires=Thu, 01 Jan 1970 00:00:01 GMT] is one second after the
    epoch. *)
Definition deleteCookie (name : string) : SE Browser.t unit :=
  try_catch
    (document_cookie_assign (name +:+ "=") 1000)
    (fun _ => console_error "Error deleting cookie:").

(** No [try] here: [return sessionStorage.getItem(key) !== null]. *)
Definition hasSessionItem (key : string) : SE Browser.t bool :=
  item <- sessionStorage_getItem key ;;
  ret (match item with Some _ => true | None => false end).

Definition hasCookie (name : string) : SE Browser.t bool :=
  v <- getCookie name ;;
  ret (match v with JNull => false | _ => true end).

Definition clearAll (cookieNames : list string) : SE Browser.t unit :=
  clearSession ;;;
  forEach cookieNames (fun name => deleteCookie name).

End StorageService.

(** The two-tier write and read that every caller spells out: write the
    session tier and then the cookie tier ([saveCartToStorage],
    [saveFavoritesToStorage], [handleAuthSuccess]); read the session tier
    and fall back to the cookie tier when it yields nothing truthy
    ([loadCartFromStorage], [loadFavoritesFromStorage], [getToken]). *)
Module DualTier.

Import Json StorageService.

Definition set (key : string) (value : json) : SE Browser.t unit :=
  setSessionItem key value ;;;
  setCookie key value 30.

Definition get (key : string) : SE Browser.t json :=
  a <- getSessionItem key ;;
  if truthy a then ret a else getCookie key.

End DualTier.

(* ================================================================= *)
(** ** Data model *)

(** [arr.findIndex(p)]; [None] is [-1]. *)
Fixpoint findIndex {A} (p : A -> bool) (l : list A) : option nat :=
  match l with
  | [] => None
  | x :: r => if p x then Some O else option_map S (findIndex p r)
  end.

(** [arr.sort(compare)]: the sort is stable, so for a consistent [compare]
    the result is the one below: each element goes in front of the first
    element of the sorted rest that it does not come after. *)
Fixpoint sort_insert {A} (compare : A -> A -> Z) (x : A) (l : list A) : list A :=
  match l with
  | [] => [x]
  | y :: r => if compare x y <=? 0 then x :: y :: r
              else y :: sort_insert compare x r
  end.

Definition sort {A} (compare : A -> A -> Z) (l : list A) : list A :=
  fold_right (sort_insert compare) [] l.

(** Truthiness of an optional number ([undefined], [0]) and of an optional
    string ([null], [undefined], the empty string). *)
Definition truthy_num (n : option Z) : bool :=
  match n with Some k => negb (k =? 0) | None => false end.

Definition truthy_str (s : option string) : bool :=
  match s with Some k => negb (String.eqb k "") | None => false end.

(** Reading the members of a parsed object. *)
Module Field.
Import Json.

Definition get (k : string) (l : list (string * json)) : option json :=
  option_map snd (List.find (fun kv => String.eqb k (fst kv)) l).

Definition str (k : string) (l : list (string * json)) : option string :=
  match get k l with Some (JStr s) => Some s | _ => None end.

Definition num (k : string) (l : list (string * json)) : option Z :=
  match get k l with Some (JNum n) => Some n | _ => None end.

(** An optional member: absent, or present with the right type. *)
Definition opt_str (k : string) (l : list (string * json))
  : option (option string) :=
  match get k l with
  | None => Some None
  | Some (JStr s) => Some (Some s)
  | Some _ => None
  end.

Definition opt_num (k : string) (l : list (string * json))
  : option (option Z) :=
  match get k l with
  | None => Some None
  | Some (JNum n) => Some (Some n)
  | Some _ => None
  end.

Definition opt {A} (k : string) (f : A -> json) (o : option A)
  : list (string * json) :=
  match o with Some a => [(k, f a)] | None => [] end.

(** All of a list, when every element converts. *)
Fixpoint all {A B} (f : A -> option B) (l : list A) : option (list B) :=
  match l with
  | [] => Some []
  | x :: r =>
      match f x, all f r with
      | Some y, Some ys => Some (y :: ys)
      | _, _ => None
      end
  end.

End Field.

(** [Omit<CartItem, 'quantity'>] and [Omit<FavoriteItem, 'addedAt'>]. *)
Module Product.
Record t := mk {
  id : string;
  productId : string;
  name : string;
  price : Z;
  image : option string;
  maxStock : option Z
}.
End Product.

Module CartItem.
Import Json.

Record t := mk {
  id : string;
  productId : string;
  name : string;
  price : Z;
  quantity : Z;
  image : option string;
  maxStock : option Z
}.

(** [{ ...item, quantity: q }]. *)
Definition with_quantity (q : Z) (c : t) : t :=
  mk (id c) (productId c) (name c) (price c) q (image c) (maxStock c).

(** [{ ...product, quantity }]. *)
Definition of_product (p : Product.t) (q : Z) : t :=
  mk (Product.id p) (Product.productId p) (Product.name p) (Product.price p)
     q (Product.image p) (Product.maxStock p).

(** The object as [JSON.stringify] sees it; an [undefined] member is left
    out. *)
Definition to_json (c : t) : json :=
  JObj ([("id", JStr (id c)); ("productId", JStr (productId c));
         ("name", JStr (name c)); ("price", JNum (price c));
         ("quantity", JNum (quantity c))]
        ++ Field.opt "image" JStr (image c)
        ++ Field.opt "maxStock" JNum (maxStock c)).

(** A parsed value read at the declared type [CartItem]. *)
Definition of_json (v : json) : option t :=
  match v with
  | JObj l =>
      match Field.str "id" l, Field.str "productId" l, Field.str "name" l,
            Field.num "price" l, Field.num "quantity" l,
            Field.opt_str "image" l, Field.opt_num "maxStock" l with
      | Some i, Some p, Some n, Some pr, Some q, Some im, Some ms =>
          Some (mk i p n pr q im ms)
      | _, _, _, _, _, _, _ => None
      end
  | _ => None
  end.

Definition list_to_json (l : list t) : json := JArr (map to_json l).

Definition list_of_json (v : json) : option (list t) :=
  match v with
  | JArr l => Field.all of_json l
  | _ => None
  end.

End CartItem.

Module FavoriteItem.
Import Json.

(** [addedAt] is the instant of the [Date], in epoch milliseconds. *)
Record t := mk {
  id : string;
  productId : string;
  name : string;
  price : Z;
  image : option string;
  addedAt : Z
}.

(** [{ ...product, addedAt }]. *)
Definition of_product (p : Product.t) (at_ : Z) : t :=
  mk (Product.id p) (Product.productId p) (Product.name p) (Product.price p)
     (Product.image p) at_.

(** [{ ...item, addedAt: d }]. *)
Definition with_addedAt (d : Z) (f : t) : t :=
  mk (id f) (productId f) (name f) (price f) (image f) d.

(** In JSON a [Date] is written as the ISO text of its instant and
    [new Date(text)] reads the same instant back; the model keeps the
    instant itself. *)
Definition to_json (f : t) : json :=
  JObj ([("id", JStr (id f)); ("productId", JStr (productId f));
         ("name", JStr (name f)); ("price", JNum (price f))]
        ++ Field.opt "image" JStr (image f)
        ++ [("addedAt", JNum (addedAt f))]).

Definition of_json (v : json) : option t :=
  match v with
  | JObj l =>
      match Field.str "id" l, Field.str "productId" l, Field.str "name" l,
            Field.num "price" l, Field.opt_str "image" l,
            Field.num "addedAt" l with
      | Some i, Some p, Some n, Some pr, Some im, Some a =>
          Some (mk i p n pr im a)
      | _, _, _, _, _, _ => None
      end
  | _ => None
  end.

Definition list_to_json (l : list t) : json := JArr (map to_json l).

Definition list_of_json (v : json) : option (list t) :=
  match v with
  | JArr l => Field.all of_json l
  | _ => None
  end.

End FavoriteItem.

Module User.
Import Json.

Record t := mk {
  id : string;
  name : string;
  email : string;
  avatar : option string
}.

Definition to_json (u : t) : json :=
  JObj ([("id", JStr (id u)); ("name", JStr (name u));
         ("email", JStr (email u))]
        ++ Field.opt "avatar" JStr (avatar u)).

(** A parsed value read at the declared type [User]. *)
Definition of_json (v : json) : option t :=
  match v with
  | JObj l =>
      match Field.str "id" l, Field.str "name" l, Field.str "email" l,
            Field.opt_str "avatar" l with
      | Some i, Some n, Some e, Some a => Some (mk i n e a)
      | _, _, _, _ => None
      end
  | _ => None
  end.

End User.

Record AuthResponse := {
  user : User.t;
  token : string;
  expiresIn : option Z
}.

Record CartSyncResponse := {
  cart_success : bool;
  cart : option (list CartItem.t)
}.

Record FavoriteSyncResponse := {
  fav_success : bool;
  favorites : option (list FavoriteItem.t)
}.

(** [{ valid: boolean; invalidItems: string[] }]. *)
Module CartValidation.
Record t := mk {
  valid : bool;
  invalidItems : list string
}.
End CartValidation.

(** [{ valid: boolean }]. *)
Module SessionCheck.
Record t := mk {
  valid : bool
}.
End SessionCheck.

(** How a request to the backend ends. *)
Inductive Http (A : Type) :=
| HttpOk (a : A)
| HttpError (e : exn).
Arguments HttpOk {A} a.
Arguments HttpError {A} e.

(** What an observable delivers to its subscriber. *)
Inductive Notification (A : Type) :=
| Next (a : A)
| Error (e : exn).
Arguments Next {A} a.
Arguments Error {A} e.

(** The services that register callbacks with [AuthService]. *)
Inductive subscriber := CartSubscriber | FavoriteSubscriber.

(** The browser and the fields of the three services. *)
Record World := mkWorld {
  browser : Browser.t;
  cartItems : list CartItem.t;             (* CartService.cartItems *)
  cartUserId : option string;              (* CartService.currentUserId *)
  favoriteItems : list FavoriteItem.t;     (* FavoriteService.favoriteItems *)
  favUserId : option string;               (* FavoriteService.currentUserId *)
  currentUser : option User.t;             (* AuthService.currentUser *)
  isAuthenticated : bool;                  (* AuthService.isAuthenticated *)
  onLoginCallbacks : list subscriber;
  onLogoutCallbacks : list subscriber;
  navigations : list string                (* router.navigate targets *)
}.

Definition set_browser (b : Browser.t) (w : World) : World :=
  mkWorld b (cartItems w) (cartUserId w) (favoriteItems w) (favUserId w)
    (currentUser w) (isAuthenticated w) (onLoginCallbacks w)
    (onLogoutCallbacks w) (navigations w).

Definition set_cartItems (l : list CartItem.t) (w : World) : World :=
  mkWorld (browser w) l (cartUserId w) (favoriteItems w) (favUserId w)
    (currentUser w) (isAuthenticated w) (onLoginCallbacks w)
    (onLogoutCallbacks w) (navigations w).

Definition set_cartUserId (u : option string) (w : World) : World :=
  mkWorld (browser w) (cartItems w) u (favoriteItems w) (favUserId w)
    (currentUser w) (isAuthenticated w) (onLoginCallbacks w)
    (onLogoutCallbacks w) (navigations w).

Definition set_favoriteItems (l : list FavoriteItem.t) (w : World) : World :=
  mkWorld (browser w) (cartItems w) (cartUserId w) l (favUserId w)
    (currentUser w) (isAuthenticated w) (onLoginCallbacks w)
    (onLogoutCallbacks w) (navigations w).

Definition set_favUserId (u : option string) (w : World) : World :=
  mkWorld (browser w) (cartItems w) (cartUserId w) (favoriteItems w) u
    (currentUser w) (isAuthenticated w) (onLoginCallbacks w)
    (onLogoutCallbacks w) (navigations w).

Definition set_currentUser (u : option User.t) (w : World) : World :=
  mkWorld (browser w) (cartItems w) (cartUserId w) (favoriteItems w)
    (favUserId w) u (isAuthenticated w) (onLoginCallbacks w)
    (onLogoutCallbacks w) (navigations w).

Definition set_isAuthenticated (a : bool) (w : World) : World :=
  mkWorld (browser w) (cartItems w) (cartUserId w) (favoriteItems w)
    (favUserId w) (currentUser w) a (onLoginCallbacks w)
    (onLogoutCallbacks w) (navigations w).

Definition set_onLoginCallbacks (l : list subscriber) (w : World) : World :=
  mkWorld (browser w) (cartItems w) (cartUserId w) (favoriteItems w)
    (favUserId w) (currentUser w) (isAuthenticated w) l
    (onLogoutCallbacks w) (navigations w).

Definition set_onLogoutCallbacks (l : list subscriber) (w : World) : World :=
  mkWorld (browser w) (cartItems w) (cartUserId w) (favoriteItems w)
    (favUserId w) (currentUser w) (isAuthenticated w) (onLoginCallbacks w)
    l (navigations w).

Definition set_navigations (l : list string) (w : World) : World :=
  mkWorld (browser w) (cartItems w) (cartUserId w) (favoriteItems w)
    (favUserId w) (currentUser w) (isAuthenticated w) (onLoginCallbacks w)
    (onLogoutCallbacks w) l.

(** A [StorageService] or browser call made from a service. *)
Definition storage {A} (m : SE Browser.t A) : SE World A :=
  lift browser set_browser m.

(** [pipe(tap(f))]: run [f] on a delivered value; an exception in [f]
    becomes the error of the stream. *)
Definition tap {A} (f : A -> SE World unit)
  (src : SE World (Notification A)) : SE World (Notification A) :=
  n <- src ;;
  match n with
  | Next a => try_catch (f a ;;; ret (Next a)) (fun e => ret (Error e))
  | Error e => ret (Error e)
  end.

(** [pipe(catchError(h))]: replace an error by the stream [h] returns. *)
Definition catchError {A} (h : exn -> SE World (Notification A))
  (src : SE World (Notification A)) : SE World (Notification A) :=
  n <- src ;;
  match n with
  | Next a => ret (Next a)
  | Error e => h e
  end.

(** [pipe(map(f))]. *)
Definition rx_map {A B} (f : A -> B)
  (src : SE World (Notification A)) : SE World (Notification B) :=
  n <- src ;;
  match n with
  | Next a => ret (Next (f a))
  | Error e => ret (Error e)
  end.

(** The reply of the backend as the source of a stream. *)
Definition http {A} (reply : Http A) : SE World (Notification A) :=
  match reply with
  | HttpOk a => ret (Next a)
  | HttpError e => ret (Error e)
  end.

(** [of(x)]. *)
Definition of_ {A} (a : A) : SE World (Notification A) := ret (Next a).

(* ================================================================= *)
(** ** [CartService] (cart.service.ts) *)

Module CartService.

Import Json Browser StorageService.

Definition CART_STORAGE_PREFIX : string := "cart_user_".
Definition MAX_QUANTITY_PER_ITEM : Z := 99.

(** [(item) => item.productId === productId]. *)
Definition has_id (productId : string) (item : CartItem.t) : bool :=
  String.eqb (CartItem.productId item) productId.

(** [maxStock && q > maxStock]. *)
Definition over_stock (maxStock : option Z) (q : Z) : bool :=
  match maxStock with
  | Some m => negb (m =? 0) && (q >? m)
  | None => false
  end.

(** [maxStock || MAX_QUANTITY_PER_ITEM]. *)
Definition stock_or_max (maxStock : option Z) : Z :=
  match maxStock with
  | Some m => if m =? 0 then MAX_QUANTITY_PER_ITEM else m
  | None => MAX_QUANTITY_PER_ITEM
  end.

Definition cartCount (w : World) : Z :=
  fold_left (fun total item => total + CartItem.quantity item) (cartItems w) 0.

Definition cartTotal (w : World) : Z :=
  fold_left (fun total item => total + CartItem.price item * CartItem.quantity item)
    (cartItems w) 0.

Definition getStorageKey : SE World string :=
  u <- gets cartUserId ;;
  ret (match u with
       | Some id => if String.eqb id "" then "cart_guest"
                    else CART_STORAGE_PREFIX +:+ id
       | None => "cart_guest"
       end).

(** A stored value read at the declared type [CartItem[]].  A value of
    another shape has no counterpart in the typed signal and reads as the
    empty cart. *)
Definition as_cart (v : json) : list CartItem.t :=
  match CartItem.list_of_json v with
  | Some l => l
  | None => []
  end.

(** The session tier first; when it has nothing truthy, the cookie tier;
    otherwise the empty cart. *)
Definition loadCartFromStorage : SE World unit :=
  u <- gets cartUserId ;;
  if negb (truthy_str u) then modify (set_cartItems [])
  else
    try_catch
      (storageKey <- getStorageKey ;;
       cartJson <- storage (getSessionItem storageKey) ;;
       if negb (truthy cartJson) then
         cookieCart <- storage (getCookie storageKey) ;;
         if truthy cookieCart
         then modify (set_cartItems (as_cart cookieCart))
         else modify (set_cartItems [])
       else modify (set_cartItems (as_cart cartJson)))
      (fun _ =>
         storage (console_error "Error loading cart from storage:") ;;;
         modify (set_cartItems [])).

Definition saveCartToStorage : SE World unit :=
  u <- gets cartUserId ;;
  if negb (truthy_str u) then ret tt
  else
    try_catch
      (storageKey <- getStorageKey ;;
       cartData <- gets cartItems ;;
       storage (setSessionItem storageKey (CartItem.list_to_json cartData)) ;;;
       storage (setCookie storageKey (CartItem.list_to_json cartData) 30))
      (fun _ => storage (console_error "Error saving cart to storage:")).

Definition loadCartForUser (userId : string) : SE World unit :=
  modify (set_cartUserId (Some userId)) ;;;
  loadCartFromStorage.

Definition clearCartOnLogout : SE World unit :=
  modify (set_cartItems []) ;;;
  modify (set_cartUserId None).

Definition getCartItems : SE World (list CartItem.t) := gets cartItems.

Definition addToCart (product : Product.t) (quantity : Z) : SE World unit :=
  currentItems <- gets cartItems ;;
  match findIndex (has_id (Product.productId product)) currentItems with
  | Some existingItemIndex =>
      match currentItems !! existingItemIndex with
      | Some existingItem =>
          let newQuantity := CartItem.quantity existingItem + quantity in
          if over_stock (Product.maxStock product) newQuantity then
            storage (console_warn "Cannot add more. Max stock")
          else if newQuantity >? MAX_QUANTITY_PER_ITEM then
            storage (console_warn "Cannot add more. Max quantity per item")
          else
            modify (set_cartItems
                      (<[existingItemIndex :=
                           CartItem.with_quantity newQuantity existingItem]>
                         currentItems)) ;;;
            saveCartToStorage
      | None => ret tt   (* the index [findIndex] found is in range *)
      end
  | None =>
      if over_stock (Product.maxStock product) quantity then
        storage (console_warn "Cannot add. Max stock")
      else if quantity >? MAX_QUANTITY_PER_ITEM then
        storage (console_warn "Cannot add. Max quantity")
      else
        modify (set_cartItems
                  (currentItems ++ [CartItem.of_product product quantity])) ;;;
        saveCartToStorage
  end.

Definition removeFromCart (productId : string) : SE World unit :=
  items <- gets cartItems ;;
  modify (set_cartItems (List.filter (fun item => negb (has_id productId item)) items)) ;;;
  saveCartToStorage.

Definition updateQuantity (productId : string) (quantity : Z) : SE World unit :=
  if quantity <=? 0 then removeFromCart productId
  else if quantity >? MAX_QUANTITY_PER_ITEM then
    storage (console_warn "Max quantity is")
  else
    currentItems <- gets cartItems ;;
    match findIndex (has_id productId) currentItems with
    | Some itemIndex =>
        match currentItems !! itemIndex with
        | Some item =>
            if over_stock (CartItem.maxStock item) quantity then
              storage (console_warn "Max stock available")
            else
              modify (set_cartItems
                        (<[itemIndex := CartItem.with_quantity quantity item]>
                           currentItems)) ;;;
              saveCartToStorage
        | None => ret tt   (* the index [findIndex] found is in range *)
        end
    | None => ret tt
    end.

Definition incrementQuantity (productId : string) : SE World unit :=
  items <- gets cartItems ;;
  match List.find (has_id productId) items with
  | Some item => updateQuantity productId (CartItem.quantity item + 1)
  | None => ret tt
  end.

Definition decrementQuantity (productId : string) : SE World unit :=
  items <- gets cartItems ;;
  match List.find (has_id productId) items with
  | Some item => updateQuantity productId (CartItem.quantity item - 1)
  | None => ret tt
  end.

Definition clearCart : SE World unit :=
  modify (set_cartItems []) ;;;
  u <- gets cartUserId ;;
  if truthy_str u then
    storageKey <- getStorageKey ;;
    storage (removeSessionItem storageKey) ;;;
    storage (deleteCookie storageKey)
  else ret tt.

Definition isInCart (productId : string) (w : World) : bool :=
  existsb (has_id productId) (cartItems w).

Definition getCartItem (productId : string) (w : World) : option CartItem.t :=
  List.find (has_id productId) (cartItems w).

Definition getItemQuantity (productId : string) (w : World) : Z :=
  match getCartItem productId w with
  | Some item => CartItem.quantity item
  | None => 0
  end.

(** The completion of the request [syncCartWithBackend] sends; [reply] is
    what the backend answered. *)
Definition syncCartWithBackend (reply : Http CartSyncResponse)
  : SE World (Notification CartSyncResponse) :=
  catchError
    (fun _ =>
       storage (console_error "Error syncing cart with backend:") ;;;
       items <- gets cartItems ;;
       of_ {| cart_success := false; cart := Some items |})
    (tap
       (fun response =>
          match cart response with
          | Some c =>
              if cart_success response
              then modify (set_cartItems c) ;;; saveCartToStorage
              else ret tt
          | None => ret tt
          end)
       (http reply)).

Definition loadCartFromBackend (reply : Http (list CartItem.t))
  : SE World (Notification (list CartItem.t)) :=
  catchError
    (fun _ =>
       storage (console_error "Error loading cart from backend:") ;;;
       of_ [])
    (tap
       (fun c => modify (set_cartItems c) ;;; saveCartToStorage)
       (http reply)).

(** One turn of the [forEach] of [mergeCartOnLogin].  The source updates
    the quantity of the object in place; the merged array is the same. *)
Definition merge_step (mergedCart : list CartItem.t) (localItem : CartItem.t)
  : list CartItem.t :=
  match findIndex (has_id (CartItem.productId localItem)) mergedCart with
  | Some existingIndex =>
      match mergedCart !! existingIndex with
      | Some existing =>
          let combinedQuantity :=
            CartItem.quantity existing + CartItem.quantity localItem in
          let maxQuantity :=
            Z.min (Z.min combinedQuantity (stock_or_max (CartItem.maxStock localItem)))
                  MAX_QUANTITY_PER_ITEM in
          <[existingIndex := CartItem.with_quantity maxQuantity existing]> mergedCart
      | None => mergedCart   (* the index [findIndex] found is in range *)
      end
  | None => mergedCart ++ [localItem]
  end.

Definition merge (serverCart localCart : list CartItem.t) : list CartItem.t :=
  fold_left merge_step localCart serverCart.

(** The synchronous part: the sync it subscribes to completes later, as a
    [syncCartWithBackend] step. *)
Definition mergeCartOnLogin (serverCart : list CartItem.t) : SE World unit :=
  localCart <- gets cartItems ;;
  modify (set_cartItems (merge serverCart localCart)) ;;;
  saveCartToStorage.

Definition validateCart (reply : Http CartValidation.t)
  : SE World (Notification CartValidation.t) :=
  catchError
    (fun _ =>
       storage (console_error "Error validating cart:") ;;;
       of_ (CartValidation.mk true []))
    (tap
       (fun response =>
          if negb (CartValidation.valid response)
             && (0 <? Z.of_nat (length (CartValidation.invalidItems response)))
          then forEach (CartValidation.invalidItems response)
                 (fun productId => removeFromCart productId)
          else ret tt)
       (http reply)).

End CartService.

(* ================================================================= *)
(** ** [FavoriteService] (storage.service.ts, second document) *)


Module FavoriteService.

Import Json Browser StorageService.

Definition STORAGE_PREFIX : string := "fav_user_".

Definition has_id (productId : string) (item : FavoriteItem.t) : bool :=
  String.eqb (FavoriteItem.productId item) productId.

(** [new Date(x).getTime()]: the instant itself. *)
Definition new_Date (instant : Z) : Z := instant.

Definition favoriteCount (w : World) : nat := length (favoriteItems w).

Definition favoriteIds (w : World) : list string :=
  map FavoriteItem.productId (favoriteItems w).

Definition getStorageKey : SE World string :=
  u <- gets favUserId ;;
  ret (match u with
       | Some id => if String.eqb id "" then "fav_guest"
                    else STORAGE_PREFIX +:+ id
       | None => "fav_guest"
       end).

Definition parseFavorites (favorites : list FavoriteItem.t)
  : list FavoriteItem.t :=
  map (fun item =>
         FavoriteItem.with_addedAt (new_Date (FavoriteItem.addedAt item)) item)
      favorites.

(** A stored value read at the declared type [FavoriteItem[]]; another
    shape reads as the empty list. *)
Definition as_favorites (v : json) : list FavoriteItem.t :=
  match FavoriteItem.list_of_json v with
  | Some l => l
  | None => []
  end.

Definition loadFavoritesFromStorage : SE World unit :=
  u <- gets favUserId ;;
  if negb (truthy_str u) then modify (set_favoriteItems [])
  else
    try_catch
      (storageKey <- getStorageKey ;;
       favoritesJson <- storage (getSessionItem storageKey) ;;
       if negb (truthy favoritesJson) then
         cookieFavorites <- storage (getCookie storageKey) ;;
         if truthy cookieFavorites
         then modify (set_favoriteItems
                        (parseFavorites (as_favorites cookieFavorites)))
         else modify (set_favoriteItems [])
       else modify (set_favoriteItems
                      (parseFavorites (as_favorites favoritesJson))))
      (fun _ =>
         storage (console_error "Error loading favorites from storage:") ;;;
         modify (set_favoriteItems [])).

Definition saveFavoritesToStorage : SE World unit :=
  u <- gets favUserId ;;
  if negb (truthy_str u) then ret tt
  else
    try_catch
      (storageKey <- getStorageKey ;;
       favorites <- gets favoriteItems ;;
       storage (setSessionItem storageKey (FavoriteItem.list_to_json favorites)) ;;;
       storage (setCookie storageKey (FavoriteItem.list_to_json favorites) 30))
      (fun _ => storage (console_error "Error saving favorites to storage:")).

Definition loadFavoritesForUser (userId : string) : SE World unit :=
  modify (set_favUserId (Some userId)) ;;;
  loadFavoritesFromStorage.

Definition clearFavoritesOnLogout : SE World unit :=
  modify (set_favoriteItems []) ;;;
  modify (set_favUserId None).

Definition getFavoriteItems : SE World (list FavoriteItem.t) :=
  gets favoriteItems.

Definition addToFavorites (product : Product.t) : SE World unit :=
  currentItems <- gets favoriteItems ;;
  let exists_ := existsb (has_id (Product.productId product)) currentItems in
  if negb exists_ then
    t <- storage Date_now ;;
    let newItem := FavoriteItem.of_product product t in
    modify (set_favoriteItems (currentItems ++ [newItem])) ;;;
    saveFavoritesToStorage
  else ret tt.

Definition removeFromFavorites (productId : string) : SE World unit :=
  items <- gets favoriteItems ;;
  modify (set_favoriteItems
            (List.filter (fun item => negb (has_id productId item)) items)) ;;;
  saveFavoritesToStorage.

Definition isFavorite (productId : string) (w : World) : bool :=
  existsb (has_id productId) (favoriteItems w).

Definition getFavoriteItem (productId : string) (w : World)
  : option FavoriteItem.t :=
  List.find (has_id productId) (favoriteItems w).

Definition toggleFavorite (product : Product.t) : SE World unit :=
  fav <- gets (isFavorite (Product.productId product)) ;;
  if fav then removeFromFavorites (Product.productId product)
  else addToFavorites product.

Definition addMultipleToFavorites (products : list Product.t)
  : SE World unit :=
  currentItems <- gets favoriteItems ;;
  t <- storage Date_now ;;
  let newItems :=
    map (fun product => FavoriteItem.of_product product t)
      (List.filter
         (fun product =>
            negb (existsb (has_id (Product.productId product)) currentItems))
         products) in
  if (0 <? Z.of_nat (length newItems)) then
    modify (set_favoriteItems (currentItems ++ newItems)) ;;;
    saveFavoritesToStorage
  else ret tt.

Definition removeMultipleFromFavorites (productIds : list string)
  : SE World unit :=
  items <- gets favoriteItems ;;
  modify (set_favoriteItems
            (List.filter
               (fun item =>
                  negb (existsb (String.eqb (FavoriteItem.productId item))
                          productIds))
               items)) ;;;
  saveFavoritesToStorage.

Definition clearFavorites : SE World unit :=
  modify (set_favoriteItems []) ;;;
  u <- gets favUserId ;;
  if truthy_str u then
    storageKey <- getStorageKey ;;
    storage (removeSessionItem storageKey) ;;;
    storage (deleteCookie storageKey)
  else ret tt.

Definition getFavoritesByPriceRange (minPrice maxPrice : Z) (w : World)
  : list FavoriteItem.t :=
  List.filter
    (fun item => (minPrice <=? FavoriteItem.price item)
                 && (FavoriteItem.price item <=? maxPrice))
    (favoriteItems w).

(** The completion of the request [syncFavoritesWithBackend] sends. *)
Definition syncFavoritesWithBackend (reply : Http FavoriteSyncResponse)
  : SE World (Notification FavoriteSyncResponse) :=
  catchError
    (fun _ =>
       storage (console_error "Error syncing favorites with backend:") ;;;
       items <- gets favoriteItems ;;
       of_ {| fav_success := false; favorites := Some items |})
    (tap
       (fun response =>
          match favorites response with
          | Some f =>
              if fav_success response
              then modify (set_favoriteItems (parseFavorites f)) ;;;
                   saveFavoritesToStorage
              else ret tt
          | None => ret tt
          end)
       (http reply)).

Definition loadFavoritesFromBackend (reply : Http (list FavoriteItem.t))
  : SE World (Notification (list FavoriteItem.t)) :=
  catchError
    (fun _ =>
       storage (console_error "Error loading favorites from backend:") ;;;
       of_ [])
    (tap
       (fun f => modify (set_favoriteItems (parseFavorites f)) ;;;
                 saveFavoritesToStorage)
       (http reply)).

(** [serverFavorites.forEach(item => mergedMap.set(item.productId, item))]. *)
Definition seed (serverFavorites : list FavoriteItem.t)
  : list (string * FavoriteItem.t) :=
  fold_left (fun m item => JsMap.set (FavoriteItem.productId item) item m)
    serverFavorites [].

(** One turn of the loop over the local favorites. *)
Definition merge_step (mergedMap : list (string * FavoriteItem.t))
  (localItem : FavoriteItem.t) : list (string * FavoriteItem.t) :=
  match JsMap.get (FavoriteItem.productId localItem) mergedMap with
  | Some existing =>
      let localDate := new_Date (FavoriteItem.addedAt localItem) in
      let existingDate := new_Date (FavoriteItem.addedAt existing) in
      if localDate <? existingDate
      then JsMap.set (FavoriteItem.productId localItem) localItem mergedMap
      else mergedMap
  | None => JsMap.set (FavoriteItem.productId localItem) localItem mergedMap
  end.

Definition merge (serverFavorites localFavorites : list FavoriteItem.t)
  : list FavoriteItem.t :=
  JsMap.values (fold_left merge_step localFavorites (seed serverFavorites)).

(** The synchronous part; the sync it subscribes to completes later. *)
Definition mergeFavoritesOnLogin (serverFavorites : list FavoriteItem.t)
  : SE World unit :=
  localFavorites <- gets favoriteItems ;;
  modify (set_favoriteItems (merge serverFavorites localFavorites)) ;;;
  saveFavoritesToStorage.

Inductive order := asc | desc.

Definition getFavoritesSorted (order : order) (w : World) : list FavoriteItem.t :=
  sort
    (fun a b =>
       let dateA := new_Date (FavoriteItem.addedAt a) in
       let dateB := new_Date (FavoriteItem.addedAt b) in
       match order with
       | desc => dateB - dateA
       | asc => dateA - dateB
       end)
    (favoriteItems w).

End FavoriteService.

(* ================================================================= *)
(** ** [AuthService] (cart.service.ts, second document) *)

Module AuthService.

Import Json Browser StorageService.

Definition STORAGE_KEY : string := "auth_user".
Definition TOKEN_KEY : string := "auth_token".
Definition TOKEN_EXPIRY_KEY : string := "auth_token_expiry".
Definition DEFAULT_TOKEN_EXPIRY : Z := 30 * 24 * 60 * 60.

(** Leading zeros taken off. *)
Fixpoint strip_zeros (s : list ascii) : list ascii :=
  match s with
  | c :: r => if (c =? "0")%char then strip_zeros r else s
  | [] => []
  end.

(** The exponent form of a number given by its digits: the first digit,
    the further digits up to the last one that is not zero behind a
    point, [e+] and the exponent. *)
Definition exponent_form (digits : list ascii) : list ascii :=
  match digits with
  | d :: rest =>
      d :: match rev (strip_zeros (rev rest)) with
           | [] => []
           | fraction => "."%char :: fraction
           end
        ++ chars "e+" ++ print_Z (Z.of_nat (length rest))
  | [] => []
  end.

(** [String(n)] of an integer: below 10^21 its digits, from there on the
    exponent form.  The digits are those of the integer itself: the
    rounding of a double to at most seventeen digits is left out. *)
Definition number_text (n : Z) : list ascii :=
  if Z.abs n <? 10 ^ 21 then print_Z n
  else if n <? 0 then "-"%char :: exponent_form (print_Z (- n))
  else exponent_form (print_Z n).

(** [n.toString()] of an integer. *)
Definition toString (n : Z) : string := text (number_text n).

(** [String(v)], the text [JSON.parse(v)] and [parseInt(v, 10)] read when
    [v] is not a string. *)
Fixpoint js_String (v : json) : list ascii :=
  match v with
  | JNull => chars "null"
  | JBool true => chars "true"
  | JBool false => chars "false"
  | JNum n => number_text n
  | JStr s => chars s
  | JArr l =>
      commas (map (fun x => match x with
                            | JNull => []
                            | _ => js_String x
                            end) l)
  | JObj _ => chars "[object Object]"
  end.

Fixpoint digits_value (acc : Z) (s : list ascii) : Z :=
  match s with
  | c :: r =>
      let n := N_of_ascii c in
      if ((48 <=? n) && (n <=? 57))%N
      then digits_value (acc * 10 + Z.of_N (n - 48)) r
      else acc
  | [] => acc
  end.

Definition starts_with_digit (s : list ascii) : bool :=
  match s with
  | c :: _ => let n := N_of_ascii c in ((48 <=? n) && (n <=? 57))%N
  | [] => false
  end.

(** [parseInt(x, 10)]; [None] is [NaN].  The argument is turned into a
    string; the string is read after leading white space as an optional
    sign and its leading digits. *)
Definition parseInt (x : json) : option Z :=
  match trim_start (js_String x) with
  | c :: r =>
      if (c =? "-")%char then
        if starts_with_digit r then Some (- digits_value 0 r) else None
      else if (c =? "+")%char then
        if starts_with_digit r then Some (digits_value 0 r) else None
      else if starts_with_digit (c :: r)
           then Some (digits_value 0 (c :: r)) else None
  | [] => None
  end.

(** [new Date(t).toISOString()], of which the model keeps the failure: a
    time value more than 8.64e15 ms from the epoch is no date, and
    [toISOString] throws a [RangeError] for it. *)
Definition MAX_TIME : Z := 8640000000000000.

Definition valid_time (t : Z) : bool := (- MAX_TIME <=? t) && (t <=? MAX_TIME).

Definition toISOString (t : Z) : SE World unit :=
  if valid_time t then ret tt else throw RangeError.

(** [this.onLoginCallbacks.push(callback)]. *)
Definition onLogin (callback : subscriber) : SE World unit :=
  modify (fun w => set_onLoginCallbacks (onLoginCallbacks w ++ [callback]) w).

Definition onLogout (callback : subscriber) : SE World unit :=
  modify (fun w => set_onLogoutCallbacks (onLogoutCallbacks w ++ [callback]) w).

(** The callbacks the two caches register in their constructors. *)
Definition login_callback (s : subscriber) (userId : string) : SE World unit :=
  match s with
  | CartSubscriber => CartService.loadCartForUser userId
  | FavoriteSubscriber => FavoriteService.loadFavoritesForUser userId
  end.

Definition logout_callback (s : subscriber) : SE World unit :=
  match s with
  | CartSubscriber => CartService.clearCartOnLogout
  | FavoriteSubscriber => FavoriteService.clearFavoritesOnLogout
  end.

Definition getCurrentUserId (w : World) : option string :=
  match currentUser w with
  | Some u => Some (User.id u)
  | None => None
  end.

(** The body of [notifyLogin] over any list of callbacks. *)
Definition notifyLogin_with (callbacks : list (string -> SE World unit))
  (userId : string) : SE World unit :=
  forEach callbacks
    (fun callback =>
       try_catch (callback userId)
         (fun _ => storage (console_error "Error in login callback:"))).

Definition notifyLogout_with (callbacks : list (SE World unit))
  : SE World unit :=
  forEach callbacks
    (fun callback =>
       try_catch callback
         (fun _ => storage (console_error "Error in logout callback:"))).

Definition notifyLogin (userId : string) : SE World unit :=
  callbacks <- gets onLoginCallbacks ;;
  notifyLogin_with (map login_callback callbacks) userId.

Definition notifyLogout : SE World unit :=
  callbacks <- gets onLogoutCallbacks ;;
  notifyLogout_with (map logout_callback callbacks).

(** [res.expiresIn || DEFAULT_TOKEN_EXPIRY]. *)
Definition expiry_seconds (res : AuthResponse) : Z :=
  match expiresIn res with
  | Some n => if n =? 0 then DEFAULT_TOKEN_EXPIRY else n
  | None => DEFAULT_TOKEN_EXPIRY
  end.

Definition handleAuthSuccess (res : AuthResponse) : SE World unit :=
  modify (set_currentUser (Some (user res))) ;;;
  modify (set_isAuthenticated true) ;;;
  t <- storage Date_now ;;
  let expiryDate := t + expiry_seconds res * 1000 in
  (* console.log(..., new Date(expiryDate).toISOString()) *)
  toISOString expiryDate ;;;
  storage (setSessionItem STORAGE_KEY
             (JStr (JSON_stringify (User.to_json (user res))))) ;;;
  storage (setSessionItem TOKEN_KEY (JStr (token res))) ;;;
  storage (setSessionItem TOKEN_EXPIRY_KEY (JStr (toString expiryDate))) ;;;
  storage (setCookie "auth_user" (User.to_json (user res)) 30) ;;;
  storage (setCookie "auth_token" (JStr (token res)) 30) ;;;
  storage (setCookie "auth_token_expiry" (JStr (toString expiryDate)) 30) ;;;
  (* console.log(..., sessionStorage.getItem('auth_token')?.substring(0, 20)) *)
  _ <- storage (sessionStorage_getItem "auth_token") ;;
  notifyLogin (User.id (user res)).

Definition logout : SE World unit :=
  modify (set_currentUser None) ;;;
  modify (set_isAuthenticated false) ;;;
  notifyLogout ;;;
  storage (removeSessionItem STORAGE_KEY) ;;;
  storage (removeSessionItem TOKEN_KEY) ;;;
  storage (removeSessionItem TOKEN_EXPIRY_KEY) ;;;
  storage (deleteCookie "auth_user") ;;;
  storage (deleteCookie "auth_token") ;;;
  storage (deleteCookie "auth_token_expiry") ;;;
  modify (fun w => set_navigations (navigations w ++ ["/"]) w).

(** [throwError(() => err)]. *)
Definition throwError {A} (e : exn) : SE World (Notification A) :=
  ret (Error e).

(** The completion of the sign-in request. *)
Definition login (reply : Http AuthResponse)
  : SE World (Notification AuthResponse) :=
  catchError
    (fun err => storage (console_error "Login failed") ;;; throwError err)
    (tap (fun res => handleAuthSuccess res) (http reply)).

Definition register (reply : Http AuthResponse)
  : SE World (Notification AuthResponse) :=
  catchError
    (fun err => storage (console_error "Register failed") ;;; throwError err)
    (tap (fun res => handleAuthSuccess res) (http reply)).

Definition loginWithGoogleBackend (reply : Http AuthResponse)
  : SE World (Notification AuthResponse) :=
  catchError
    (fun err =>
       storage (console_error "Google login backend failed:") ;;; throwError err)
    (tap (fun res => handleAuthSuccess res) (http reply)).

(** The stream [handleGoogleToken] subscribes to; [None] is the [null] it
    delivers after a failure. *)
Definition handleGoogleToken (reply : Http AuthResponse)
  : SE World (Notification (option AuthResponse)) :=
  catchError
    (fun _ => storage (console_error "Google login failed") ;;; of_ None)
    (rx_map Some (tap (fun res => handleAuthSuccess res) (http reply))).

Definition refreshToken (reply : Http AuthResponse)
  : SE World (Notification AuthResponse) :=
  catchError
    (fun err =>
       storage (console_error "Token refresh failed") ;;;
       logout ;;; throwError err)
    (tap (fun res => handleAuthSuccess res) (http reply)).

(** [getSessionItem(k) || getCookie(k)]: the cookie is read only when the
    session value is falsy. *)
Definition session_or_cookie (key : string) : SE World json :=
  a <- storage (getSessionItem key) ;;
  if truthy a then ret a else storage (getCookie key).

Definition getToken : SE World json := session_or_cookie TOKEN_KEY.

(** A comparison with [NaN] is false. *)
Definition isTokenExpiringSoon : SE World bool :=
  expiry <- session_or_cookie TOKEN_EXPIRY_KEY ;;
  if negb (truthy expiry) then ret false
  else
    t <- storage Date_now ;;
    let oneDayFromNow := t + 24 * 60 * 60 * 1000 in
    ret (match parseInt expiry with
         | Some expiryTime => expiryTime <? oneDayFromNow
         | None => false
         end).

Definition isTokenExpired : SE World bool :=
  expiry <- session_or_cookie TOKEN_EXPIRY_KEY ;;
  if negb (truthy expiry) then ret true
  else
    t <- storage Date_now ;;
    ret (match parseInt expiry with
         | Some expiryTime => t >=? expiryTime
         | None => false
         end).

(** The stream carries the reply, or the [false] put in its place after a
    failure; [map] turns either into a boolean. *)
Definition verifySession (reply : Http SessionCheck.t)
  : SE World (Notification bool) :=
  rx_map
    (fun res : bool + SessionCheck.t =>
       match res with
       | inl b => b
       | inr r => SessionCheck.valid r
       end)
    (catchError
       (fun _ => logout ;;; of_ (inl false))
       (rx_map inr
          (tap
             (fun res => if negb (SessionCheck.valid res) then logout else ret tt)
             (http reply)))).

Definition updateUserProfile (reply : Http User.t)
  : SE World (Notification User.t) :=
  catchError
    (fun err =>
       storage (console_error "Profile update failed") ;;; throwError err)
    (tap
       (fun user =>
          modify (set_currentUser (Some user)) ;;;
          storage (setSessionItem STORAGE_KEY
                     (JStr (JSON_stringify (User.to_json user)))) ;;;
          storage (setCookie "auth_user" (User.to_json user) 30))
       (http reply)).

(** [a + b] for two characters either of which may be [undefined]: with
    one of them [undefined] the text [undefined] is concatenated; with
    both the sum is [NaN], which has no [toUpperCase]. *)
Definition plus_chars (a b : option ascii) : Res (list ascii) :=
  match a, b with
  | Some x, Some y => Ok [x; y]
  | None, Some y => Ok (chars "undefined" ++ [y])
  | Some x, None => Ok (x :: chars "undefined")
  | None, None => Throw (Thrown "TypeError")
  end.

Definition getUserInitials : SE World string :=
  user <- gets currentUser ;;
  match user with
  | None => ret ""
  | Some user =>
      let names := split_on " " (chars (User.name user)) in
      if 2 <=? Z.of_nat (length names) then
        match plus_chars (head (nth 0 names [])) (head (nth 1 names [])) with
        | Ok s => ret (text (toUpperCase s))
        | Throw e => throw e
        end
      else ret (text (toUpperCase (firstn 2 (chars (User.name user)))))
  end.

(** [Date.now() < parseInt(expiry, 10)]; a comparison with [NaN] is
    false. *)
Definition before_expiry (t : Z) (expiry : json) : bool :=
  match parseInt expiry with
  | Some expiryTime => t <? expiryTime
  | None => false
  end.

(** The constructor's [loadUserFromStorage].  The result is the user id
    of the [notifyLogin] it schedules with [setTimeout], if it schedules
    one.  A stored user is read at the declared type [User]; a value of
    another shape has no counterpart in the typed signal: the model
    leaves [currentUser] at [null] and schedules nothing for it. *)
Definition loadUserFromStorage : SE World (option string) :=
  userJson <- storage (getSessionItem STORAGE_KEY) ;;
  token <- storage (getSessionItem TOKEN_KEY) ;;
  expiry <- storage (getSessionItem TOKEN_EXPIRY_KEY) ;;
  if negb (truthy userJson) || negb (truthy token) || negb (truthy expiry) then
    cookieUser <- storage (getCookie "auth_user") ;;
    cookieToken <- storage (getCookie "auth_token") ;;
    cookieExpiry <- storage (getCookie "auth_token_expiry") ;;
    if truthy cookieUser && truthy cookieToken && truthy cookieExpiry then
      t <- storage Date_now ;;
      if before_expiry t cookieExpiry then
        modify (set_currentUser (User.of_json cookieUser)) ;;;
        modify (set_isAuthenticated true) ;;;
        storage (setSessionItem STORAGE_KEY cookieUser) ;;;
        storage (setSessionItem TOKEN_KEY cookieToken) ;;;
        storage (setSessionItem TOKEN_EXPIRY_KEY cookieExpiry) ;;;
        ret (option_map User.id (User.of_json cookieUser))
      else logout ;;; ret None
    else ret None
  else
    t <- storage Date_now ;;
    if before_expiry t expiry then
      user <- parse (text (js_String userJson)) ;;
      modify (set_currentUser (User.of_json user)) ;;;
      modify (set_isAuthenticated true) ;;;
      ret (option_map User.id (User.of_json user))
    else logout ;;; ret None.

(** The timer of [loadUserFromStorage] firing. *)
Definition runScheduled (scheduled : option string) : SE World unit :=
  match scheduled with
  | Some userId => notifyLogin userId
  | None => ret tt
  end.

End AuthService.

(* ================================================================= *)
(** ** [authInterceptor] (auth.interceptor.ts) *)

Module AuthInterceptor.

Import Browser.

(** What the interceptor hands to [next]: the request with an
    [Authorization] header set, or the request as it came. *)
Inductive forwarded :=
| WithAuthorization (value : string)
| Unchanged.

Definition authInterceptor : SE Browser.t forwarded :=
  token <- sessionStorage_getItem "auth_token" ;;
  token <-
    (if negb (truthy_str token) then
       cookie <- document_cookie ;;
       let cookies := split_on ";" (chars cookie) in
       match List.find
               (fun c => starts_with (chars "auth_token=") (js_trim c)) cookies with
       | Some tokenCookie =>
           ret (Some (text (nth 1 (split_on "=" tokenCookie) [])))
       | None => ret token
       end
     else ret token) ;;
  match token with
  | Some t =>
      if negb (String.eqb t "") then ret (WithAuthorization ("Bearer " +:+ t))
      else ret Unchanged
  | None => ret Unchanged
  end.

End AuthInterceptor.

(* ================================================================= *)
(** ** The services coming to life *)

Module App.

Import AuthService.

(** The constructors of the two caches register their callbacks with
    [AuthService]. *)
Definition CartService_constructor : SE World unit :=
  onLogin CartSubscriber ;;;
  onLogout CartSubscriber.

Definition FavoriteService_constructor : SE World unit :=
  onLogin FavoriteSubscriber ;;;
  onLogout FavoriteSubscriber.

(** A page load: [AuthService] is constructed first, being injected into
    the caches, and its constructor runs [loadUserFromStorage]; the
    caches are constructed, the cart first; then the timer set by
    [loadUserFromStorage] fires.  [BookingService], which registers
    callbacks of its own, is not part of the model. *)
Definition bootstrap : SE World unit :=
  scheduled <- loadUserFromStorage ;;
  CartService_constructor ;;;
  FavoriteService_constructor ;;;
  runScheduled scheduled.

End App.

(* ================================================================= *)
(** * Vocabulary of the properties

    Nothing below is in the source: these are the notions the theorems
    are stated with. *)

(** ** How a method behaves *)

Module Behaviour.

(** A computation that returns normally at every state. *)
Definition total {S A} (m : SE S A) : Prop := forall s, returns m s.

(** A method that changes nothing but the browser. *)
Definition browser_only {A} (m : SE World A) : Prop :=
  forall w, exists r b, m w = (r, set_browser b w).

(** [console.error(msg)]. *)
Definition log (msg : string) (b : Browser.t) : Browser.t :=
  Browser.set_console (Browser.console b ++ [msg]) b.

Definition log_error (msg : string) (w : World) : World :=
  set_browser (log msg (browser w)) w.

(** One callback run in isolation: its effects stay; if it throws, the
    error is printed and nothing else happens. *)
Definition settle (msg : string) (m : SE World unit) (w : World) : World :=
  match m w with
  | (Ok _, w') => w'
  | (Throw _, w') => log_error msg w'
  end.

(** Two browsers that differ at most in what the console shows. *)
Definition same_store (b b' : Browser.t) : Prop :=
  Browser.sessionStorage b' = Browser.sessionStorage b
  /\ Browser.cookieJar b' = Browser.cookieJar b
  /\ Browser.sessionFault b' = Browser.sessionFault b
  /\ Browser.cookieFault b' = Browser.cookieFault b
  /\ Browser.now b' = Browser.now b.

(** Two worlds with the same cart, the same registered callbacks and the
    same stored data. *)
Definition cart_untouched (w w' : World) : Prop :=
  cartItems w' = cartItems w /\ cartUserId w' = cartUserId w
  /\ onLoginCallbacks w' = onLoginCallbacks w
  /\ onLogoutCallbacks w' = onLogoutCallbacks w
  /\ same_store (browser w) (browser w').

Definition keeps_cart {A} (m : SE World A) : Prop :=
  forall w, cart_untouched w (snd (m w)).

Definition reads_only {A} (m : SE Browser.t A) : Prop :=
  forall b, same_store b (snd (m b)).

End Behaviour.

(** ** JSON values *)

Module JsonSpec.
Import Json.

Definition is_digit (c : ascii) : bool :=
  match digit_of c with Some _ => true | None => false end.

Fixpoint distinct (l : list string) : bool :=
  match l with
  | [] => true
  | k :: r => negb (existsb (String.eqb k) r) && distinct r
  end.

(** A JavaScript object has each key once: the values [JSON.stringify]
    can be given. *)
Fixpoint unique_keys (v : json) : bool :=
  match v with
  | JArr l => forallb unique_keys l
  | JObj l => distinct (map fst l) && forallb (fun kv => unique_keys (snd kv)) l
  | _ => true
  end.

(** Fuel that suffices to parse the text of a value. *)
Fixpoint size (v : json) : nat :=
  match v with
  | JArr l => S (list_sum (map (fun x => S (size x)) l))
  | JObj l => S (list_sum (map (fun kv => S (size (snd kv))) l))
  | _ => 1
  end.

(** The text of a value starts with a character that is neither white
    space nor a closing bracket. *)
Definition opens_value (s : list ascii) : Prop :=
  exists c tl, s = c :: tl /\ is_ws c = false
               /\ (c =? "]")%char = false /\ (c =? "}")%char = false.

Definition print_member (kv : string * json) : list ascii :=
  quote (fst kv) ++ ":"%char :: print (snd kv).

(** *** The texts the model reads as [JSON.parse] does

    The model has the integers for numbers and bytes for strings.  A
    text written by somebody else is within it when no number in it has a
    fraction or an exponent, or more than fifteen digits, and no string
    in it has an escaped surrogate half.  This is stated on the
    characters, and so asks a little more: no digit is followed by [.],
    [e] or [E]; no sixteen digits stand in a row; no [\u] is followed by
    [d] or [D]. *)
Definition no_mark (s : list ascii) : bool :=
  match s with
  | c :: _ => negb ((c =? ".") || (c =? "e") || (c =? "E"))%char
  | [] => true
  end.

Definition no_surrogate (s : list ascii) : bool :=
  match s with
  | u :: d :: _ => negb ((u =? "u") && ((d =? "d") || (d =? "D")))%char
  | _ => true
  end.

Fixpoint exact_chars (run : nat) (s : list ascii) : bool :=
  match s with
  | [] => true
  | c :: r =>
      if is_digit c then (run <? 15)%nat && no_mark r && exact_chars (S run) r
      else (if (c =? "\")%char then no_surrogate r else true) && exact_chars 0 r
  end.

(** A text whose first character is no white space and opens no JSON
    value: [JSON.parse] throws at that character. *)
Definition opens_no_value (s : string) : bool :=
  match chars s with
  | c :: _ =>
      negb (is_ws c || is_digit c
            || ((c =? "-") || (c =? dq) || (c =? "[") || (c =? "{")
                || (c =? "t") || (c =? "f") || (c =? "n"))%char)
  | [] => false
  end.

Definition exact_text (s : string) : bool :=
  opens_no_value s || exact_chars 0 (chars s).

(** A value that is no string, or a string with such a text: the values
    that [getCookie] reads back as the model says. *)
Definition exact_value (v : json) : bool :=
  match v with
  | JStr s => exact_text s
  | _ => true
  end.

(** What the round trip says of one value. *)
Definition parses_back (v : json) : Prop :=
  unique_keys v = true ->
  forall fuel rest, (size v <= fuel)%nat -> continues_number rest = false ->
    parse_value fuel (print v ++ rest) = Some (v, rest).

End JsonSpec.

(** ** The two tiers *)

Module StoreSpec.
Import Json Browser StorageService.

(** A character that may stand in a cookie name as the code writes it. *)
Definition plain (c : ascii) : bool :=
  negb ((c =? ";") || (c =? "=") || (c =? " ") || (c =? "009"))%char.

(** A key the cookie tier can hold: not empty, and free of the separators
    and blanks of the cookie syntax. *)
Definition cookie_name (s : string) : bool :=
  negb (String.eqb s "") && forallb plain (chars s).

Definition no_semicolon (s : string) : bool :=
  forallb (fun c => negb (c =? ";")%char) (chars s).

(** The jar the browser keeps: named cookies whose values have no
    semicolon. *)
Definition jar_ok (j : list (string * string)) : bool :=
  forallb (fun c => cookie_name (fst c) && no_semicolon (snd c)) j.

(** The cookie values the model decodes as [decodeURIComponent] does: no
    escape stands for a byte above [%7F], that is, no [%] is followed by
    a hexadecimal digit from [8] on.  (An escape above [%7F] must be part
    of a UTF-8 sequence for the real function not to throw; the model
    decodes byte by byte.) *)
Fixpoint ascii_escapes (s : list ascii) : bool :=
  match s with
  | c :: r =>
      (if (c =? "%")%char then
         match r with
         | h :: _ => match hex_value h with
                     | Some n => (n <? 8)%N
                     | None => true
                     end
         | [] => true
         end
       else true)
      && ascii_escapes r
  | [] => true
  end.

(** What [getCookie] makes of a stored value once it has found it. *)
Definition read_value (v : string) : SE Browser.t json :=
  match Uri.decodeURIComponent (chars v) with
  | Some value => try_catch (parse (text value)) (fun _ => ret (JStr (text value)))
  | None => throw URIError
  end.

(** The value read back from a cookie that holds the encoding of [s]:
    what [s] parses to, or [s] itself when it is not JSON. *)
Definition reread (s : string) : json :=
  match JSON_parse s with
  | Some j => j
  | None => JStr s
  end.

(** What the cookie tier gives back for a value written to it. *)
Definition through_cookie (v : json) : json :=
  match v with
  | JStr s => reread s
  | _ => v
  end.

(** The browser after [DualTier.set key v] when both tiers work. *)
Definition written (key : string) (v : json) (b : Browser.t) : Browser.t :=
  set_cookieJar
    (JsMap.set key (Uri.encodeURIComponent (cookieValue v)) (cookieJar b))
    (set_sessionStorage (<[key := JSON_stringify v]> (sessionStorage b)) b).

(** The key of the cart of user [A]. *)
Definition cart_key (A : string) : string := CartService.CART_STORAGE_PREFIX +:+ A.

(** Both tiers work and hold the cart [C] under the key of [A]. *)
Definition stored (A : string) (C : list CartItem.t) (b : Browser.t) : Prop :=
  sessionFault b = false /\ cookieFault b = false
  /\ jar_ok (cookieJar b) = true
  /\ sessionStorage b !! cart_key A = Some (JSON_stringify (CartItem.list_to_json C))
  /\ JsMap.get (cart_key A) (cookieJar b)
     = Some (Uri.encodeURIComponent (JSON_stringify (CartItem.list_to_json C))).

End StoreSpec.

(** ** The cart *)

Module CartSpec.
Import CartService Behaviour.

Definition ids (l : list CartItem.t) : list string := map CartItem.productId l.

(** The clamp of [mergeCartOnLogin]. *)
Definition clamp (serverLine localLine : CartItem.t) : Z :=
  Z.min (Z.min (CartItem.quantity serverLine + CartItem.quantity localLine)
               (stock_or_max (CartItem.maxStock localLine)))
        MAX_QUANTITY_PER_ITEM.

(** The merge as the specification words it: every server line, with the
    clamped sum when the local cart has the product; then the local lines
    the server does not have. *)
Definition merged_line (localCart : list CartItem.t) (s : CartItem.t) : CartItem.t :=
  match List.find (has_id (CartItem.productId s)) localCart with
  | Some l => CartItem.with_quantity (clamp s l) s
  | None => s
  end.

Definition merge_spec (serverCart localCart : list CartItem.t) : list CartItem.t :=
  map (merged_line localCart) serverCart
  ++ List.filter (fun l => negb (existsb (has_id (CartItem.productId l)) serverCart))
       localCart.

(** The mutations of the cart. *)
Inductive cart_op :=
| Add (product : Product.t) (quantity : Z)
| Update (productId : string) (quantity : Z)
| Increment (productId : string)
| Decrement (productId : string)
| Remove (productId : string).

Definition run_op (o : cart_op) : SE World unit :=
  match o with
  | Add product quantity => addToCart product quantity
  | Update productId quantity => updateQuantity productId quantity
  | Increment productId => incrementQuantity productId
  | Decrement productId => decrementQuantity productId
  | Remove productId => removeFromCart productId
  end.

Definition run_ops (ops : list cart_op) : SE World unit := forEach ops run_op.

(** The bound the specification states for a line. *)
Definition within_bounds (c : CartItem.t) : Prop :=
  1 <= CartItem.quantity c
  /\ CartItem.quantity c <= MAX_QUANTITY_PER_ITEM
  /\ forall m, CartItem.maxStock c = Some m -> CartItem.quantity c <= m.

(** The same with a stock level of [0] read as no stock level, as the
    truthiness test of the code reads it. *)
Definition within_bounds_truthy (c : CartItem.t) : Prop :=
  1 <= CartItem.quantity c
  /\ CartItem.quantity c <= MAX_QUANTITY_PER_ITEM
  /\ forall m, CartItem.maxStock c = Some m -> m <> 0 -> CartItem.quantity c <= m.

(** How a method changes the cart: it returns, leaves [items'] as the
    lines, and touches only the browser besides. *)
Definition cart_step (m : SE World unit) (w : World) (items' : list CartItem.t) : Prop :=
  exists b, m w = (Ok tt, set_browser b (set_cartItems items' w)).

(** The lines after [addToCart]. *)
Definition added (product : Product.t) (quantity : Z) (items : list CartItem.t)
  : list CartItem.t :=
  match findIndex (has_id (Product.productId product)) items with
  | Some i =>
      match items !! i with
      | Some existing =>
          let q := CartItem.quantity existing + quantity in
          if over_stock (Product.maxStock product) q || (q >? MAX_QUANTITY_PER_ITEM)
          then items
          else <[i := CartItem.with_quantity q existing]> items
      | None => items
      end
  | None =>
      if over_stock (Product.maxStock product) quantity
         || (quantity >? MAX_QUANTITY_PER_ITEM)
      then items
      else items ++ [CartItem.of_product product quantity]
  end.

Definition removed (productId : string) (items : list CartItem.t) : list CartItem.t :=
  List.filter (fun item => negb (has_id productId item)) items.

(** The lines after [updateQuantity]. *)
Definition updated (productId : string) (quantity : Z) (items : list CartItem.t)
  : list CartItem.t :=
  if quantity <=? 0 then removed productId items
  else if quantity >? MAX_QUANTITY_PER_ITEM then items
  else
    match findIndex (has_id productId) items with
    | Some i =>
        match items !! i with
        | Some item =>
            if over_stock (CartItem.maxStock item) quantity then items
            else <[i := CartItem.with_quantity quantity item]> items
        | None => items
        end
    | None => items
    end.

Definition after (o : cart_op) (items : list CartItem.t) : list CartItem.t :=
  match o with
  | Add product quantity => added product quantity items
  | Update productId quantity => updated productId quantity items
  | Increment productId =>
      match List.find (has_id productId) items with
      | Some item => updated productId (CartItem.quantity item + 1) items
      | None => items
      end
  | Decrement productId =>
      match List.find (has_id productId) items with
      | Some item => updated productId (CartItem.quantity item - 1) items
      | None => items
      end
  | Remove productId => removed productId items
  end.

(** An add that respects the contract the bounds rely on: a positive
    quantity, and the stock level quoted with the product is the one
    recorded on the line the cart already has for it. *)
Definition respectful (items : list CartItem.t) (o : cart_op) : Prop :=
  match o with
  | Add product quantity =>
      1 <= quantity
      /\ forall c, In c items ->
           CartItem.productId c = Product.productId product ->
           CartItem.maxStock c = Product.maxStock product
  | _ => True
  end.

Fixpoint respectful_run (items : list CartItem.t) (ops : list cart_op) : Prop :=
  match ops with
  | [] => True
  | o :: rest => respectful items o /\ respectful_run (after o items) rest
  end.

End CartSpec.

(** ** The favorites *)

Module FavoriteSpec.
Import FavoriteService.

Definition ids (l : list FavoriteItem.t) : list string :=
  map FavoriteItem.productId l.

(** What the merged map holds for one product id after the server list:
    the last server entry with that id. *)
Definition seeded (k : string) (serverFavorites : list FavoriteItem.t)
  : option FavoriteItem.t :=
  fold_left (fun cur s => if has_id k s then Some s else cur) serverFavorites None.

(** One local entry against the entry held for its product id. *)
Definition pick (k : string) (cur : option FavoriteItem.t) (l : FavoriteItem.t)
  : option FavoriteItem.t :=
  if has_id k l then
    match cur with
    | Some e => if FavoriteItem.addedAt l <? FavoriteItem.addedAt e
                then Some l else Some e
    | None => Some l
    end
  else cur.

(** The entry kept for product id [k]. *)
Definition kept (k : string) (serverFavorites localFavorites : list FavoriteItem.t)
  : option FavoriteItem.t :=
  fold_left (pick k) localFavorites (seeded k serverFavorites).

Definition well_keyed (m : list (string * FavoriteItem.t)) : Prop :=
  List.NoDup (JsMap.keys m)
  /\ forall k v, In (k, v) m -> FavoriteItem.productId v = k.

End FavoriteSpec.

(** ** States and values of the examples *)

Module Worlds.

Definition fresh_browser : Browser.t :=
  Browser.mk empty [] false false 1700000000000 [].

(** A browser whose [sessionStorage] refuses access. *)
Definition blocked_browser : Browser.t :=
  Browser.mk empty [] true false 1700000000000 [].

(** Nobody signed in; the two caches have registered their callbacks. *)
Definition guest (localCart : list CartItem.t) (localFavorites : list FavoriteItem.t)
  : World :=
  mkWorld fresh_browser localCart None localFavorites None None false
    [CartSubscriber; FavoriteSubscriber] [CartSubscriber; FavoriteSubscriber] [].

(** User [A] signed in, with an empty cart and nothing stored. *)
Definition signed_in : World :=
  mkWorld fresh_browser [] (Some "A") [] (Some "A")
    (Some (User.mk "A" "Ann" "ann@example.org" None)) true
    [CartSubscriber; FavoriteSubscriber] [CartSubscriber; FavoriteSubscriber] [].

Definition ann : AuthResponse :=
  {| user := User.mk "A" "Ann" "ann@example.org" None;
     token := "t0k3n";
     expiresIn := None |}.

Definition ticket : Product.t := Product.mk "i1" "p1" "Ticket" 120 None None.
Definition ticket_stock5 : Product.t := Product.mk "i1" "p1" "Ticket" 120 None (Some 5).
Definition popcorn : Product.t := Product.mk "i2" "p2" "Popcorn" 30 None None.

Definition server_p1 : CartItem.t :=
  CartItem.mk "s1" "p1" "Ticket" 120 2 None (Some 5).
Definition local_p1 : CartItem.t :=
  CartItem.mk "l1" "p1" "Ticket" 120 4 None None.
Definition local_p1_stock : CartItem.t :=
  CartItem.mk "l1" "p1" "Ticket" 120 4 None (Some 5).
Definition local_p2 : CartItem.t :=
  CartItem.mk "l2" "p2" "Popcorn" 30 1 None None.

Definition server_fav : FavoriteItem.t := FavoriteItem.mk "s1" "p1" "Dune" 120 None 100.
Definition local_fav1 : FavoriteItem.t := FavoriteItem.mk "l1" "p1" "Dune" 120 None 50.
Definition local_fav2 : FavoriteItem.t := FavoriteItem.mk "l2" "p2" "Heat" 90 None 200.

(** An earlier entry of [p1] on the server, and a local entry between
    the two. *)
Definition server_fav0 : FavoriteItem.t := FavoriteItem.mk "s0" "p1" "Dune" 120 None 50.
Definition local_fav0 : FavoriteItem.t := FavoriteItem.mk "l0" "p1" "Dune" 120 None 70.

(** A login callback that prints its name and the user id, and then
    throws if told to. *)
Definition noisy (name : string) (fails : bool) (userId : string) : SE World unit :=
  storage (Browser.console_warn (name +:+ " got " +:+ userId)) ;;;
  if fails then throw (Thrown name) else ret tt.

End Worlds.

(** ** The cart and its stored copy *)

Module CartStore.
Import Browser StoreSpec Behaviour.

(** What a method does to the cart: it sets the lines to [items'] and
    saves them, or it leaves the lines and both tiers as they are. *)
Definition saves_or_keeps (m : SE World unit) (w : World)
  (items' : list CartItem.t) : Prop :=
  m w = (modify (set_cartItems items') ;;; CartService.saveCartToStorage) w
  \/ (items' = cartItems w
      /\ exists b, m w = (Ok tt, set_browser b w) /\ same_store (browser w) b).

(** Nothing is stored for user [A]. *)
Definition nothing_stored (A : string) (b : Browser.t) : Prop :=
  sessionStorage b !! cart_key A = None
  /\ JsMap.get (cart_key A) (cookieJar b) = None.

(** User [A] is the user of the cart, both tiers work, and they hold the
    cart that is in memory; an empty cart may also be stored as
    nothing. *)
Definition cart_synced (A : string) (w : World) : Prop :=
  cartUserId w = Some A
  /\ sessionFault (browser w) = false /\ cookieFault (browser w) = false
  /\ jar_ok (cookieJar (browser w)) = true
  /\ (stored A (cartItems w) (browser w)
      \/ (cartItems w = [] /\ nothing_stored A (browser w))).

(** The sum of [f] over the lines, as [reduce] computes it. *)
Definition sum_of (f : CartItem.t -> Z) (items : list CartItem.t) : Z :=
  fold_left (fun total item => total + f item) items 0.

End CartStore.

(** ** The favorites and their stored copy *)

Module FavoriteOps.
Import Json FavoriteService Browser StoreSpec.

(** The mutations of the favorites. *)
Inductive fav_op :=
| AddFav (product : Product.t)
| RemoveFav (productId : string)
| ToggleFav (product : Product.t)
| AddManyFav (products : list Product.t)
| RemoveManyFav (productIds : list string)
| MergeFav (serverFavorites : list FavoriteItem.t).

Definition run_fav_op (o : fav_op) : SE World unit :=
  match o with
  | AddFav product => addToFavorites product
  | RemoveFav productId => removeFromFavorites productId
  | ToggleFav product => toggleFavorite product
  | AddManyFav products => addMultipleToFavorites products
  | RemoveManyFav productIds => removeMultipleFromFavorites productIds
  | MergeFav serverFavorites => mergeFavoritesOnLogin serverFavorites
  end.

Definition run_fav_ops (ops : list fav_op) : SE World unit :=
  forEach ops run_fav_op.

(** The favorites after [toggleFavorite] at time [t]. *)
Definition toggled (product : Product.t) (t : Z) (items : list FavoriteItem.t)
  : list FavoriteItem.t :=
  if existsb (has_id (Product.productId product)) items
  then List.filter (fun item => negb (has_id (Product.productId product) item)) items
  else items ++ [FavoriteItem.of_product product t].

(** The favorites after a mutation at time [t]. *)
Definition fav_after (t : Z) (o : fav_op) (items : list FavoriteItem.t)
  : list FavoriteItem.t :=
  match o with
  | AddFav product =>
      if existsb (has_id (Product.productId product)) items then items
      else items ++ [FavoriteItem.of_product product t]
  | RemoveFav productId =>
      List.filter (fun item => negb (has_id productId item)) items
  | ToggleFav product => toggled product t items
  | AddManyFav products =>
      items
      ++ map (fun product => FavoriteItem.of_product product t)
           (List.filter
              (fun product =>
                 negb (existsb (has_id (Product.productId product)) items))
              products)
  | RemoveManyFav productIds =>
      List.filter
        (fun item =>
           negb (existsb (String.eqb (FavoriteItem.productId item)) productIds))
        items
  | MergeFav serverFavorites => merge serverFavorites items
  end.

(** A bulk add that names no product twice. *)
Definition one_each (o : fav_op) : Prop :=
  match o with
  | AddManyFav products => List.NoDup (map Product.productId products)
  | _ => True
  end.

(** The key of the favorites of user [A]. *)
Definition fav_key (A : string) : string := STORAGE_PREFIX +:+ A.

(** Both tiers work and hold the favorites [F] under the key of [A]. *)
Definition fav_stored (A : string) (F : list FavoriteItem.t) (b : Browser.t) : Prop :=
  sessionFault b = false /\ cookieFault b = false
  /\ jar_ok (cookieJar b) = true
  /\ sessionStorage b !! fav_key A = Some (JSON_stringify (FavoriteItem.list_to_json F))
  /\ JsMap.get (fav_key A) (cookieJar b)
     = Some (Uri.encodeURIComponent (JSON_stringify (FavoriteItem.list_to_json F))).

(** Ordered from the latest to the earliest, and the other way. *)
Definition latest_first (l : list FavoriteItem.t) : Prop :=
  Sorted.StronglySorted
    (fun a b => FavoriteItem.addedAt b <= FavoriteItem.addedAt a) l.

Definition earliest_first (l : list FavoriteItem.t) : Prop :=
  Sorted.StronglySorted
    (fun a b => FavoriteItem.addedAt a <= FavoriteItem.addedAt b) l.

(** Nothing is stored for user [A]. *)
Definition no_fav_stored (A : string) (b : Browser.t) : Prop :=
  sessionStorage b !! fav_key A = None
  /\ JsMap.get (fav_key A) (cookieJar b) = None.

(** User [A] is the user of the favorites, both tiers work, and they
    hold the favorites that are in memory; an empty list may also be
    stored as nothing. *)
Definition fav_synced (A : string) (w : World) : Prop :=
  favUserId w = Some A
  /\ sessionFault (browser w) = false /\ cookieFault (browser w) = false
  /\ jar_ok (cookieJar (browser w)) = true
  /\ (fav_stored A (favoriteItems w) (browser w)
      \/ (favoriteItems w = [] /\ no_fav_stored A (browser w))).

(** How a mutation ends: it changes nothing at all, or it sets the
    favorites and saves them. *)
Definition saves_or_skips (m : SE World unit) (w : World)
  (items' : list FavoriteItem.t) : Prop :=
  (m w = (Ok tt, w) /\ items' = favoriteItems w)
  \/ m w = (modify (set_favoriteItems items') ;;; saveFavoritesToStorage) w.

End FavoriteOps.

(** ** The session *)

Module SessionSpec.
Import Json Browser StoreSpec Behaviour AuthService.

(** Two worlds with the same signed-in user, the same registered
    callbacks, the same navigations and the same stored data. *)
Definition session_untouched (w w' : World) : Prop :=
  currentUser w' = currentUser w /\ isAuthenticated w' = isAuthenticated w
  /\ navigations w' = navigations w
  /\ onLoginCallbacks w' = onLoginCallbacks w
  /\ onLogoutCallbacks w' = onLogoutCallbacks w
  /\ same_store (browser w) (browser w').

Definition keeps_session {A} (m : SE World A) : Prop :=
  forall w, session_untouched w (snd (m w)).

(** The instant at which the token of [res], received at [t], expires. *)
Definition expiry_of (res : AuthResponse) (t : Z) : Z :=
  t + expiry_seconds res * 1000.

(** The digits of an integer, with its sign. *)
Definition digits (n : Z) : string := text (print_Z n).

(** What [handleAuthSuccess] leaves in the session tier: the user as
    JSON text, the token, and the expiry in digits. *)
Definition session_credentials (res : AuthResponse) (expiry : Z) (b : Browser.t)
  : Prop :=
  sessionStorage b !! "auth_user"
  = Some (JSON_stringify (JStr (JSON_stringify (User.to_json (user res)))))
  /\ sessionStorage b !! "auth_token" = Some (JSON_stringify (JStr (token res)))
  /\ sessionStorage b !! "auth_token_expiry"
     = Some (JSON_stringify (JStr (digits expiry))).

(** What it leaves in the cookie tier. *)
Definition cookie_credentials (res : AuthResponse) (expiry : Z) (b : Browser.t)
  : Prop :=
  JsMap.get "auth_user" (cookieJar b)
  = Some (Uri.encodeURIComponent (JSON_stringify (User.to_json (user res))))
  /\ JsMap.get "auth_token" (cookieJar b)
     = Some (Uri.encodeURIComponent (token res))
  /\ JsMap.get "auth_token_expiry" (cookieJar b)
     = Some (Uri.encodeURIComponent (digits expiry)).

(** Both tiers work. *)
Definition working (b : Browser.t) : Prop :=
  sessionFault b = false /\ cookieFault b = false
  /\ jar_ok (cookieJar b) = true.

(** Neither tier holds a credential. *)
Definition no_credentials (b : Browser.t) : Prop :=
  (sessionStorage b !! "auth_user" = None
   /\ sessionStorage b !! "auth_token" = None
   /\ sessionStorage b !! "auth_token_expiry" = None)
  /\ (JsMap.get "auth_user" (cookieJar b) = None
      /\ JsMap.get "auth_token" (cookieJar b) = None
      /\ JsMap.get "auth_token_expiry" (cookieJar b) = None).

(** A token that cannot be mistaken for JSON, as a signed token is: it
    is not empty, it is no JSON text, and it is a text the model reads as
    [JSON.parse] does. *)
Definition opaque (token : string) : Prop :=
  String.eqb token "" = false /\ JSON_parse token = None
  /\ JsonSpec.exact_text token = true.

(** A character of ASCII that is not white space. *)
Definition token_char (a : ascii) : bool :=
  negb (is_space a) && (N_of_ascii a <? 128)%N.

(** The names of the cookies are made of such characters, as in the jar
    of a browser. *)
Definition token_names (jar : list (string * string)) : bool :=
  forallb (fun c => forallb token_char (chars (fst c))) jar.

(** Text in ASCII, on which [toUpperCase] of the model is that of
    JavaScript. *)
Definition ascii_text (s : list ascii) : bool :=
  forallb (fun a => (N_of_ascii a <? 128)%N) s.

(** A new tab: the session tier starts empty. *)
Definition new_tab (b : Browser.t) : Browser.t := set_sessionStorage empty b.

(** The page just loaded in a browser: nothing in memory, nothing
    registered. *)
Definition page_load (b : Browser.t) : World :=
  mkWorld b [] None [] None None false [] [] [].

(** What the two tiers hold of the cart [C] of user [A]: the cart, or
    nothing when the cart is empty. *)
Definition cart_held (A : string) (C : list CartItem.t) (b : Browser.t) : Prop :=
  stored A C b \/ (C = [] /\ CartStore.nothing_stored A b).

Definition favorites_held (A : string) (F : list FavoriteItem.t) (b : Browser.t)
  : Prop :=
  FavoriteOps.fav_stored A F b \/ (F = [] /\ FavoriteOps.no_fav_stored A b).

End SessionSpec.

(** ** More states and values of the examples *)

Module Scenes.

(** A browser whose cookies cannot be read or written. *)
Definition no_cookies : Browser.t :=
  Browser.mk empty [] false true 1700000000000 [].

(** A browser holding a session item that is not JSON. *)
Definition garbled_session : Browser.t :=
  Browser.mk (<["k" := "{oops"]> empty) [] false false 1700000000000 [].

(** A browser holding cookies some other code wrote. *)
Definition foreign_cookies : Browser.t :=
  Browser.mk empty [("theme", "dark%20mode"); ("n", "%7B%7D")] false false
    1700000000000 [].

Definition dune : Product.t := Product.mk "f1" "p1" "Dune" 120 None None.
Definition heat : Product.t := Product.mk "f2" "p2" "Heat" 90 None None.
Definition alien : Product.t := Product.mk "f3" "p3" "Alien" 75 None None.

(** Nobody signed in, on a browser that refuses [sessionStorage]. *)
Definition refused : World :=
  mkWorld Worlds.blocked_browser [] None [] None None false
    [CartSubscriber; FavoriteSubscriber] [CartSubscriber; FavoriteSubscriber] [].

(** The instant at which the token of Ann's login expires. *)
Definition ann_expiry : Z := SessionSpec.expiry_of Worlds.ann 1700000000000.

(** The browser Ann comes back to: both tiers hold what her login left
    there, and neither holds a cart or favorites. *)
Definition returning : Browser.t :=
  Browser.mk
    (<["auth_token_expiry" := Json.JSON_stringify (Json.JStr (SessionSpec.digits ann_expiry))]>
       (<["auth_token" := Json.JSON_stringify (Json.JStr (token Worlds.ann))]>
          (<["auth_user" :=
               Json.JSON_stringify
                 (Json.JStr (Json.JSON_stringify (User.to_json (user Worlds.ann))))]>
             empty)))
    (JsMap.set "auth_token_expiry" (Uri.encodeURIComponent (SessionSpec.digits ann_expiry))
       (JsMap.set "auth_token" (Uri.encodeURIComponent (token Worlds.ann))
          (JsMap.set "auth_user"
             (Uri.encodeURIComponent (Json.JSON_stringify (User.to_json (user Worlds.ann))))
             [])))
    false false 1700000000000 [].

(** A user who wrote her name in small letters. *)
Definition named : World :=
  set_currentUser (Some (User.mk "A" "ann lee" "ann@example.org" None))
    Worlds.signed_in.

End Scenes.

(* ================================================================= *)
(** * Properties *)

Import Json StorageService Behaviour.



(** * Lists *)
Section ListFacts.
Context {A : Type}.

Lemma findIndex_Some (p : A -> bool) (l : list A) (i : nat) :
  findIndex p l = Some i ->
  exists x, l !! i = Some x /\ p x = true /\
            forall j y, (j < i)%nat -> l !! j = Some y -> p y = false.
Proof.
  revert i. induction l as [|a l IH]; intros i H; simpl in H; [discriminate|].
  destruct (p a) eqn:Ha.
  - injection H as <-. exists a. split; [reflexivity|]. split; [exact Ha|].
    intros j y Hj. lia.
  - destruct (findIndex p l) as [k|] eqn:Hk; [|discriminate].
    injection H as <-. destruct (IH k eq_refl) as (x & Hx & Hpx & Hlt).
    exists x. split; [exact Hx|]. split; [exact Hpx|].
    intros [|j] y Hj Hy; simpl in Hy.
    + injection Hy as <-. exact Ha.
    + apply (Hlt j); [lia | exact Hy].
Qed.

Lemma findIndex_None (p : A -> bool) (l : list A) :
  findIndex p l = None <-> existsb p l = false.
Proof.
  induction l as [|a l IH]; simpl; [tauto|].
  destruct (p a); simpl.
  - split; discriminate.
  - destruct (findIndex p l); simpl.
    + split; [discriminate|]. intros H. apply IH in H. discriminate.
    + split; intros _; [apply IH; reflexivity | reflexivity].
Qed.

Lemma findIndex_find (p : A -> bool) (l : list A) (i : nat) (x : A) :
  findIndex p l = Some i -> l !! i = Some x -> List.find p l = Some x.
Proof.
  revert i. induction l as [|a l IH]; intros i H Hx; simpl in *; [discriminate|].
  destruct (p a).
  - injection H as <-. simpl in Hx. exact Hx.
  - destruct (findIndex p l) as [k|]; [|discriminate].
    injection H as <-. simpl in Hx. exact (IH k eq_refl Hx).
Qed.

End ListFacts.

Lemma existsb_map_ext {A B} (f : B -> bool) (g : A -> B) (h : A -> bool) l :
  (forall x, f (g x) = h x) -> existsb f (map g l) = existsb h l.
Proof.
  intros H. induction l as [|a l IH]; simpl; [reflexivity|].
  rewrite H, IH. reflexivity.
Qed.





(** * Computations that always return *)


Lemma total_ret {S A} (a : A) : total (@ret S A a).
Proof. intros s. exists a, s. reflexivity. Qed.

Lemma total_gets {S A} (f : S -> A) : total (gets f).
Proof. intros s. exists (f s), s. reflexivity. Qed.

Lemma total_modify {S} (f : S -> S) : total (modify f).
Proof. intros s. exists tt, (f s). reflexivity. Qed.

Lemma total_bind {S A B} (m : SE S A) (k : A -> SE S B) :
  total m -> (forall a, total (k a)) -> total (bind m k).
Proof.
  intros Hm Hk s. destruct (Hm s) as (a & s' & E). unfold returns, bind.
  rewrite E. apply Hk.
Qed.

Lemma total_try_catch {S A} (m : SE S A) (h : exn -> SE S A) :
  (forall e, total (h e)) -> total (try_catch m h).
Proof.
  intros Hh s. unfold returns, try_catch. destruct (m s) as [[a|e] s'].
  - exists a, s'. reflexivity.
  - apply Hh.
Qed.

Lemma total_lift {S T A} (get : S -> T) (set : T -> S -> S) (m : SE T A) :
  total m -> total (lift get set m).
Proof.
  intros Hm s. destruct (Hm (get s)) as (a & t & E). unfold returns, lift.
  rewrite E.
  exists a, (set t s). reflexivity.
Qed.

Lemma total_forEach {S A} (l : list A) (f : A -> SE S unit) :
  (forall x, total (f x)) -> total (forEach l f).
Proof.
  intros Hf. induction l as [|x l IH]; simpl.
  - apply total_ret.
  - apply total_bind; [apply Hf | intros _; exact IH].
Qed.

Lemma total_if {S A} (c : bool) (m1 m2 : SE S A) :
  total m1 -> total m2 -> total (if c then m1 else m2).
Proof. destruct c; auto. Qed.

Create HintDb total.
#[export] Hint Resolve total_ret total_gets total_modify total_bind
  total_try_catch total_lift total_forEach total_if : total.

Lemma total_console_error msg : total (Browser.console_error msg).
Proof. apply total_modify. Qed.

Lemma total_console_warn msg : total (Browser.console_warn msg).
Proof. apply total_modify. Qed.

Lemma total_Date_now : total Browser.Date_now.
Proof. apply total_gets. Qed.

#[export] Hint Resolve total_console_error total_console_warn total_Date_now : total.

(** ** The guarded methods of [StorageService] *)

Lemma total_setSessionItem key value : total (setSessionItem key value).
Proof. unfold setSessionItem. auto with total. Qed.

Lemma total_getSessionItem key : total (getSessionItem key).
Proof. unfold getSessionItem. auto with total. Qed.

Lemma total_removeSessionItem key : total (removeSessionItem key).
Proof. unfold removeSessionItem. auto with total. Qed.

Lemma total_clearSession : total clearSession.
Proof. unfold clearSession. auto with total. Qed.

Lemma total_setCookie name value days : total (setCookie name value days).
Proof. unfold setCookie. auto with total. Qed.

Lemma total_getCookie name : total (getCookie name).
Proof. unfold getCookie. auto with total. Qed.

Lemma total_deleteCookie name : total (deleteCookie name).
Proof. unfold deleteCookie. auto with total. Qed.

Lemma total_hasCookie name : total (hasCookie name).
Proof.
  unfold hasCookie. apply total_bind; [apply total_getCookie|]. auto with total.
Qed.

Lemma total_clearAll names : total (clearAll names).
Proof.
  unfold clearAll. apply total_bind; [apply total_clearSession|].
  intros _. apply total_forEach. intros x. apply total_deleteCookie.
Qed.

#[export] Hint Resolve total_setSessionItem total_getSessionItem
  total_removeSessionItem total_clearSession total_setCookie total_getCookie
  total_deleteCookie total_hasCookie total_clearAll : total.

(** C4.  [hasSessionItem] has no [try]: for every key, on every browser
    whose [sessionStorage] refuses access, it throws the browser's error
    to its caller and prints nothing. *)
Theorem hasSessionItem_raises (key : string) (b : Browser.t) :
  Browser.sessionFault b = true ->
  hasSessionItem key b = (Throw SecurityError, b).
Proof.
  intros H. unfold hasSessionItem, bind, Browser.sessionStorage_getItem.
  rewrite H. reflexivity.
Qed.

Lemma hasSessionItem_raises_witness :
  hasSessionItem "cart_user_A" Worlds.blocked_browser
  = (Throw SecurityError, Worlds.blocked_browser).
Proof. apply (hasSessionItem_raises "cart_user_A" Worlds.blocked_browser). reflexivity. Defined.

(** Every other method of [StorageService] returns normally on every
    browser and for every argument. *)
Lemma storage_methods_total :
  (forall key value, total (setSessionItem key value))
  /\ (forall key, total (getSessionItem key))
  /\ (forall key, total (removeSessionItem key))
  /\ total clearSession
  /\ (forall name value days, total (setCookie name value days))
  /\ (forall name, total (getCookie name))
  /\ (forall name, total (deleteCookie name))
  /\ (forall name, total (hasCookie name))
  /\ (forall names, total (clearAll names)).
Proof. repeat split; auto with total. Qed.



(** * Methods that touch nothing but the browser *)

Lemma set_browser_same w : set_browser (browser w) w = w.
Proof. destruct w. reflexivity. Qed.

Lemma set_browser_twice b b' w : set_browser b' (set_browser b w) = set_browser b' w.
Proof. reflexivity. Qed.

Lemma browser_only_ret {A} (a : A) : browser_only (ret a).
Proof. intros w. exists (Ok a), (browser w). unfold ret. rewrite set_browser_same. reflexivity. Qed.

Lemma browser_only_gets {A} (f : World -> A) : browser_only (gets f).
Proof. intros w. exists (Ok (f w)), (browser w). unfold gets. rewrite set_browser_same. reflexivity. Qed.

Lemma browser_only_storage {A} (m : SE Browser.t A) : browser_only (storage m).
Proof.
  intros w. unfold storage, lift. destruct (m (browser w)) as [r b].
  exists r, b. reflexivity.
Qed.

Lemma browser_only_bind {A B} (m : SE World A) (k : A -> SE World B) :
  browser_only m -> (forall a, browser_only (k a)) -> browser_only (bind m k).
Proof.
  intros Hm Hk w. destruct (Hm w) as (r & b & E). unfold bind. rewrite E.
  destruct r as [a|e].
  - destruct (Hk a (set_browser b w)) as (r' & b' & E'). rewrite E'.
    exists r', b'. reflexivity.
  - exists (Throw e), b. reflexivity.
Qed.

Lemma browser_only_try_catch {A} (m : SE World A) (h : exn -> SE World A) :
  browser_only m -> (forall e, browser_only (h e)) -> browser_only (try_catch m h).
Proof.
  intros Hm Hh w. destruct (Hm w) as (r & b & E). unfold try_catch. rewrite E.
  destruct r as [a|e].
  - exists (Ok a), b. reflexivity.
  - destruct (Hh e (set_browser b w)) as (r' & b' & E'). rewrite E'.
    exists r', b'. reflexivity.
Qed.

Lemma browser_only_if {A} (c : bool) (m1 m2 : SE World A) :
  browser_only m1 -> browser_only m2 -> browser_only (if c then m1 else m2).
Proof. destruct c; auto. Qed.

Create HintDb frame.
#[export] Hint Resolve browser_only_ret browser_only_gets browser_only_storage
  browser_only_bind browser_only_try_catch browser_only_if : frame.

Lemma total_storage {A} (m : SE Browser.t A) : total m -> total (storage m).
Proof. apply total_lift. Qed.
#[export] Hint Resolve total_storage : total.

(** A method that always returns and touches only the browser. *)
Lemma browser_only_total {A} (m : SE World A) w :
  browser_only m -> total m -> exists a b, m w = (Ok a, set_browser b w).
Proof.
  intros Hb Ht. destruct (Hb w) as (r & b & E). destruct (Ht w) as (a & w' & E').
  rewrite E in E'. injection E' as -> _. exists a, b. exact E.
Qed.

(** ** [saveCartToStorage] and [saveFavoritesToStorage] *)

Lemma browser_only_cart_key : browser_only CartService.getStorageKey.
Proof. unfold CartService.getStorageKey. auto with frame. Qed.

Lemma total_cart_key : total CartService.getStorageKey.
Proof. unfold CartService.getStorageKey. auto with total. Qed.

Lemma browser_only_saveCart : browser_only CartService.saveCartToStorage.
Proof.
  unfold CartService.saveCartToStorage.
  apply browser_only_bind; [auto with frame|]. intros u.
  apply browser_only_if; [auto with frame|].
  apply browser_only_try_catch; [|auto with frame].
  apply browser_only_bind; [apply browser_only_cart_key|]. auto 6 with frame.
Qed.

Lemma total_saveCart : total CartService.saveCartToStorage.
Proof. unfold CartService.saveCartToStorage. auto with total. Qed.

Lemma saveCart_frame w :
  exists b, CartService.saveCartToStorage w = (Ok tt, set_browser b w).
Proof.
  destruct (browser_only_total _ w browser_only_saveCart total_saveCart)
    as ([] & b & E). eauto.
Qed.

Lemma browser_only_saveFavorites : browser_only FavoriteService.saveFavoritesToStorage.
Proof.
  unfold FavoriteService.saveFavoritesToStorage.
  apply browser_only_bind; [auto with frame|]. intros u.
  apply browser_only_if; [auto with frame|].
  apply browser_only_try_catch; [|auto with frame].
  apply browser_only_bind; [unfold FavoriteService.getStorageKey; auto with frame|].
  auto 6 with frame.
Qed.

Lemma total_saveFavorites : total FavoriteService.saveFavoritesToStorage.
Proof. unfold FavoriteService.saveFavoritesToStorage. auto with total. Qed.

Lemma saveFavorites_frame w :
  exists b, FavoriteService.saveFavoritesToStorage w = (Ok tt, set_browser b w).
Proof.
  destruct (browser_only_total _ w browser_only_saveFavorites total_saveFavorites)
    as ([] & b & E). eauto.
Qed.



(** * Cart merge on login *)
Module CartMerge.
Import CartService CartSpec Worlds.

Lemma has_id_true k x : has_id k x = true <-> CartItem.productId x = k.
Proof. unfold has_id. apply String.eqb_eq. Qed.

Lemma has_id_false k x : has_id k x = false <-> CartItem.productId x <> k.
Proof. unfold has_id. apply String.eqb_neq. Qed.

Lemma existsb_has_id k l : existsb (has_id k) l = true <-> In k (ids l).
Proof.
  rewrite existsb_exists. unfold ids. rewrite in_map_iff.
  split; intros (x & H1 & H2).
  - exists x. split; [apply has_id_true; exact H2 | exact H1].
  - exists x. split; [exact H2 | apply has_id_true; exact H1].
Qed.

Lemma existsb_has_id_false k l : existsb (has_id k) l = false <-> ~ In k (ids l).
Proof.
  rewrite <- existsb_has_id. destruct (existsb (has_id k) l); split; intros; congruence.
Qed.

Lemma find_absent k l : ~ In k (ids l) -> List.find (has_id k) l = None.
Proof.
  intros H. destruct (List.find (has_id k) l) as [x|] eqn:E; [|reflexivity].
  apply find_some in E. destruct E as [E1 E2]. exfalso. apply H.
  apply existsb_has_id. apply existsb_exists. eauto.
Qed.

Lemma with_quantity_id q x :
  CartItem.productId (CartItem.with_quantity q x) = CartItem.productId x.
Proof. reflexivity. Qed.

(** With unique product ids, the update at the index [findIndex] found
    rewrites the one line with that id. *)
Lemma insert_unique k (l : list CartItem.t) i x y :
  List.NoDup (ids l) -> findIndex (has_id k) l = Some i -> l !! i = Some x ->
  <[i := y]> l = map (fun s => if has_id k s then y else s) l.
Proof.
  revert i. induction l as [|a l IH]; intros i Hnd Hf Hx; simpl in *; [discriminate|].
  inversion Hnd as [|? ? Hna Hnd']; subst.
  destruct (has_id k a) eqn:Ha.
  - injection Hf as <-. simpl. f_equal.
    apply has_id_true in Ha.
    rewrite <- (map_id l) at 1. apply map_ext_in. intros s Hs.
    destruct (has_id k s) eqn:Hk; [|reflexivity].
    apply has_id_true in Hk. exfalso. apply Hna. rewrite Ha, <- Hk.
    apply in_map. exact Hs.
  - destruct (findIndex (has_id k) l) as [j|] eqn:Hj; [|discriminate].
    injection Hf as <-. simpl. f_equal. apply (IH j); auto.
Qed.

Lemma merge_step_ids_present acc l :
  In (CartItem.productId l) (ids acc) -> ids (merge_step acc l) = ids acc.
Proof.
  intros Hin. unfold merge_step.
  destruct (findIndex _ acc) as [i|] eqn:Hf.
  - destruct (findIndex_Some _ _ _ Hf) as (x & Hx & Hp & _). rewrite Hx.
    unfold ids. rewrite list_fmap_insert. simpl.
    apply list_insert_id. rewrite list_lookup_fmap, Hx. reflexivity.
  - apply findIndex_None in Hf. apply existsb_has_id_false in Hf. contradiction.
Qed.

Lemma merge_step_spec acc l :
  List.NoDup (ids acc) ->
  merge_step acc l =
    if existsb (has_id (CartItem.productId l)) acc
    then map (fun s => if has_id (CartItem.productId l) s
                       then CartItem.with_quantity (clamp s l) s else s) acc
    else acc ++ [l].
Proof.
  intros Hnd. unfold merge_step.
  destruct (findIndex _ acc) as [i|] eqn:Hf.
  - destruct (findIndex_Some _ _ _ Hf) as (x & Hx & Hp & _). rewrite Hx.
    assert (He : existsb (has_id (CartItem.productId l)) acc = true).
    { apply existsb_exists. exists x. split; [|exact Hp].
      apply list_elem_of_In. eapply list_elem_of_lookup_2. exact Hx. }
    rewrite He. rewrite (insert_unique _ _ _ _ _ Hnd Hf Hx).
    apply map_ext_in. intros s Hs. destruct (has_id _ s) eqn:Hs'; [|reflexivity].
    assert (s = x) as ->; [|reflexivity].
    apply has_id_true in Hs', Hp.
    apply list_elem_of_In, list_elem_of_lookup in Hs. destruct Hs as [j Hj].
    assert (j = i) as ->.
    { eapply NoDup_lookup; [apply NoDup_ListNoDup; exact Hnd| |].
      - unfold ids. rewrite list_lookup_fmap, Hj. simpl. reflexivity.
      - unfold ids. rewrite list_lookup_fmap, Hx. simpl. congruence. }
    congruence.
  - apply findIndex_None in Hf. rewrite Hf. reflexivity.
Qed.

Theorem merge_is_spec (serverCart localCart : list CartItem.t) :
  List.NoDup (ids serverCart) -> List.NoDup (ids localCart) ->
  merge serverCart localCart = merge_spec serverCart localCart.
Proof.
  unfold merge. revert serverCart.
  induction localCart as [|l rest IH]; intros server Hs Hl.
  - simpl. unfold merge_spec. simpl. rewrite app_nil_r.
    rewrite <- (map_id server) at 1. apply map_ext. intros s. reflexivity.
  - inversion Hl as [|? ? Hnl Hrest]; subst. simpl.
    rewrite (merge_step_spec _ _ Hs).
    destruct (existsb (has_id (CartItem.productId l)) server) eqn:He.
    + (* the product is on both sides *)
      rewrite IH; [| |exact Hrest].
      2:{ unfold ids. rewrite map_map.
          erewrite map_ext; [exact Hs|]. intros s. simpl.
          destruct (has_id _ s); reflexivity. }
      unfold merge_spec. simpl. rewrite He. simpl. f_equal.
      * rewrite map_map. apply map_ext_in. intros s Hin. unfold merged_line. simpl.
        destruct (has_id (CartItem.productId l) s) eqn:Hls.
        -- apply has_id_true in Hls.
           rewrite with_quantity_id, Hls. rewrite (find_absent _ _ Hnl).
           unfold has_id at 1. rewrite String.eqb_refl. reflexivity.
        -- assert (has_id (CartItem.productId s) l = false) as ->; [|reflexivity].
           apply has_id_false. apply has_id_false in Hls. congruence.
      * apply filter_ext. intros x. f_equal.
        apply existsb_map_ext. intros s. destruct (has_id _ s); reflexivity.
    + (* the product is only local *)
      apply existsb_has_id_false in He.
      rewrite IH; [| |exact Hrest].
      2:{ unfold ids. rewrite map_app. simpl. apply NoDup_ListNoDup.
          apply NoDup_app. split; [apply NoDup_ListNoDup; exact Hs|]. split.
          - intros x Hx Hx'. apply list_elem_of_In in Hx.
            apply list_elem_of_singleton in Hx'. subst. contradiction.
          - apply NoDup_singleton. }
      unfold merge_spec. rewrite map_app. simpl. rewrite <- app_assoc. simpl.
      assert (Hfalse : existsb (has_id (CartItem.productId l)) server = false)
        by (apply existsb_has_id_false; exact He).
      rewrite Hfalse. simpl. f_equal; [|f_equal].
      * apply map_ext_in. intros s Hin. unfold merged_line. simpl.
        assert (has_id (CartItem.productId s) l = false) as ->; [|reflexivity].
        apply has_id_false. intros E. apply He. rewrite E. apply in_map. exact Hin.
      * unfold merged_line. rewrite (find_absent _ _ Hnl). reflexivity.
      * apply filter_ext_in. intros x Hx. f_equal. rewrite existsb_app. simpl.
        rewrite orb_false_r.
        assert (has_id (CartItem.productId x) l = false) as ->;
          [|rewrite orb_false_r; reflexivity].
        apply has_id_false. intros E. apply Hnl. rewrite E. apply in_map. exact Hx.
Qed.

Lemma find_unique (l : CartItem.t) (L : list CartItem.t) :
  List.NoDup (ids L) -> In l L ->
  List.find (has_id (CartItem.productId l)) L = Some l.
Proof.
  induction L as [|a L IH]; intros Hnd Hin; [destruct Hin|].
  inversion Hnd as [|? ? Hna Hnd']; subst. simpl.
  destruct Hin as [->|Hin].
  - unfold has_id. rewrite String.eqb_refl. reflexivity.
  - destruct (has_id (CartItem.productId l) a) eqn:Ha.
    + apply has_id_true in Ha. exfalso. apply Hna. rewrite Ha.
      apply in_map. exact Hin.
    + apply IH; assumption.
Qed.

Lemma find_map_same_id k (f : CartItem.t -> CartItem.t) (L : list CartItem.t) :
  (forall x, CartItem.productId (f x) = CartItem.productId x) ->
  List.find (has_id k) (map f L) = option_map f (List.find (has_id k) L).
Proof.
  intros Hf. induction L as [|a L IH]; simpl; [reflexivity|].
  unfold has_id at 1. rewrite Hf. fold (has_id k a).
  destruct (has_id k a); [reflexivity | exact IH].
Qed.

Lemma find_app_cart k (L1 L2 : list CartItem.t) :
  List.find (has_id k) (L1 ++ L2)
  = match List.find (has_id k) L1 with
    | Some x => Some x
    | None => List.find (has_id k) L2
    end.
Proof.
  induction L1 as [|a L1 IH]; simpl; [reflexivity|].
  destruct (has_id k a); [reflexivity | exact IH].
Qed.

Lemma merged_line_id localCart s :
  CartItem.productId (merged_line localCart s) = CartItem.productId s.
Proof. unfold merged_line. destruct (List.find _ localCart); reflexivity. Qed.

Lemma NoDup_ids_filter (q : CartItem.t -> bool) (L : list CartItem.t) :
  List.NoDup (ids L) -> List.NoDup (ids (List.filter q L)).
Proof.
  induction L as [|a L IH]; intros Hnd; simpl; [constructor|].
  inversion Hnd as [|? ? Hna Hnd']; subst.
  destruct (q a); simpl; [|auto].
  constructor; [|auto]. intros Hin. apply Hna.
  unfold ids in *. apply in_map_iff in Hin. destruct Hin as (x & Hx & Hin).
  apply filter_In in Hin. rewrite <- Hx. apply in_map. tauto.
Qed.

Lemma mergeCartOnLogin_items serverCart w :
  exists b,
    mergeCartOnLogin serverCart w
    = (Ok tt, set_browser b (set_cartItems (merge serverCart (cartItems w)) w)).
Proof.
  unfold mergeCartOnLogin, bind, gets, modify.
  destruct (saveCart_frame (set_cartItems (merge serverCart (cartItems w)) w))
    as [b E].
  rewrite E. eauto.
Qed.

(** C1 as stated fails.  The server has [p1] with quantity 2 and a stock
    level of 5, the local cart has [p1] with quantity 4 and no stock
    level: the merged line has quantity 6, not 5, because the clamp reads
    the stock level of the local line only. *)
Lemma merge_example_is_six :
  let w := snd (mergeCartOnLogin [server_p1] (guest [local_p1] [])) in
  getItemQuantity "p1" w = 6 /\ getItemQuantity "p1" w <> 5.
Proof. vm_compute. split; [reflexivity | discriminate]. Qed.

(** C1 amended.  With each product at most once in either cart, the cart
    after [mergeCartOnLogin] is the server's lines in order, followed by
    the local lines for products the server does not have.  A product on
    both sides keeps the server's line with the quantity
    [min (server + local, local stock level or 99 when it is unset or 0,
    99)]; a product only in the local cart is appended as it is.  In the
    example the merged quantity is 5 when the local line carries the stock
    level 5, and 6 when it carries none. *)
Theorem mergeCartOnLogin_spec (serverCart : list CartItem.t) (w : World) :
  List.NoDup (ids serverCart) -> List.NoDup (ids (cartItems w)) ->
  cartItems (snd (mergeCartOnLogin serverCart w))
  = merge_spec serverCart (cartItems w)
  /\ (forall s l, In s serverCart -> In l (cartItems w) ->
        CartItem.productId s = CartItem.productId l ->
        getCartItem (CartItem.productId l) (snd (mergeCartOnLogin serverCart w))
        = Some (CartItem.with_quantity
                  (Z.min (Z.min (CartItem.quantity s + CartItem.quantity l)
                                (stock_or_max (CartItem.maxStock l)))
                         99) s))
  /\ (forall l, In l (cartItems w) ->
        ~ In (CartItem.productId l) (ids serverCart) ->
        getCartItem (CartItem.productId l) (snd (mergeCartOnLogin serverCart w))
        = Some l)
  /\ getItemQuantity "p1"
       (snd (mergeCartOnLogin [server_p1] (guest [local_p1_stock] []))) = 5
  /\ getItemQuantity "p1"
       (snd (mergeCartOnLogin [server_p1] (guest [local_p1] []))) = 6.
Proof.
  intros Hs Hl.
  assert (Hitems : forall server w', List.NoDup (ids server) ->
            List.NoDup (ids (cartItems w')) ->
            cartItems (snd (mergeCartOnLogin server w'))
            = merge_spec server (cartItems w')).
  { intros server w' H1 H2. destruct (mergeCartOnLogin_items server w') as [b E].
    rewrite E. simpl. apply merge_is_spec; assumption. }
  split; [apply Hitems; assumption|].
  split; [|split; [|split; vm_compute; reflexivity]].
  - intros s l Hins Hinl Hid. unfold getCartItem. rewrite (Hitems _ _ Hs Hl).
    unfold merge_spec. rewrite find_app_cart.
    rewrite (find_map_same_id _ _ _ (merged_line_id (cartItems w))).
    rewrite <- Hid, (find_unique s serverCart Hs Hins). simpl.
    unfold merged_line. rewrite Hid, (find_unique l (cartItems w) Hl Hinl).
    reflexivity.
  - intros l Hinl Hnot. unfold getCartItem. rewrite (Hitems _ _ Hs Hl).
    unfold merge_spec. rewrite find_app_cart.
    rewrite (find_map_same_id _ _ _ (merged_line_id (cartItems w))).
    rewrite (find_absent _ _ Hnot). simpl.
    apply find_unique.
    + apply NoDup_ids_filter. exact Hl.
    + apply filter_In. split; [exact Hinl|].
      apply negb_true_iff. apply existsb_has_id_false. exact Hnot.
Qed.

Lemma mergeCartOnLogin_spec_witness :
  cartItems (snd (mergeCartOnLogin [server_p1] (guest [local_p1_stock; local_p2] [])))
  = [CartItem.with_quantity 5 server_p1; local_p2].
Proof.
  pose proof (mergeCartOnLogin_spec [server_p1]
                (guest [local_p1_stock; local_p2] [])) as H.
  destruct H as [H _].
  - repeat constructor; simpl; intuition discriminate.
  - repeat constructor; simpl; intuition discriminate.
  - rewrite H. reflexivity.
Defined.

End CartMerge.

(** * Callback isolation *)
Module Notify.
Import AuthService.

Lemma notifyLogin_with_cons cb cbs userId w :
  notifyLogin_with (cb :: cbs) userId w
  = notifyLogin_with cbs userId (settle "Error in login callback:" (cb userId) w).
Proof.
  unfold notifyLogin_with, settle. simpl. unfold bind at 1, try_catch.
  destruct (cb userId w) as [[[]|e] w']; reflexivity.
Qed.

Lemma notifyLogout_with_cons cb cbs w :
  notifyLogout_with (cb :: cbs) w
  = notifyLogout_with cbs (settle "Error in logout callback:" cb w).
Proof.
  unfold notifyLogout_with, settle. simpl. unfold bind at 1, try_catch.
  destruct (cb w) as [[[]|e] w']; reflexivity.
Qed.

Lemma notifyLogin_fold (callbacks : list (string -> SE World unit)) userId w :
  notifyLogin_with callbacks userId w
  = (Ok tt,
     fold_left (fun w' callback => settle "Error in login callback:" (callback userId) w')
       callbacks w).
Proof.
  revert w. induction callbacks as [|cb cbs IH]; intros w; [reflexivity|].
  rewrite notifyLogin_with_cons, IH. reflexivity.
Qed.

Lemma notifyLogout_fold (callbacks : list (SE World unit)) w :
  notifyLogout_with callbacks w
  = (Ok tt,
     fold_left (fun w' callback => settle "Error in logout callback:" callback w')
       callbacks w).
Proof.
  revert w. induction callbacks as [|cb cbs IH]; intros w; [reflexivity|].
  rewrite notifyLogout_with_cons, IH. reflexivity.
Qed.

Lemma notifyLogin_run userId w :
  notifyLogin userId w
  = (Ok tt,
     fold_left (fun w' callback => settle "Error in login callback:" (callback userId) w')
       (map login_callback (onLoginCallbacks w)) w).
Proof. unfold notifyLogin, bind, gets. apply notifyLogin_fold. Qed.

Lemma notifyLogout_run w :
  notifyLogout w
  = (Ok tt,
     fold_left (fun w' callback => settle "Error in logout callback:" callback w')
       (map logout_callback (onLogoutCallbacks w)) w).
Proof. unfold notifyLogout, bind, gets. apply notifyLogout_fold. Qed.

Lemma fold_left_map {X Y S} (f : S -> Y -> S) (g : X -> Y) l (a : S) :
  fold_left f (map g l) a = fold_left (fun acc x => f acc (g x)) l a.
Proof. revert a. induction l as [|x l IH]; intros a; [reflexivity | apply IH]. Qed.

(** C9.  [onLogin] and [onLogout] put a callback at the end of the list
    of the registered ones.  [notifyLogin] runs the registered login
    callbacks, all of them, with the user id, from the first registered
    to the last, each on the state the previous ones left; its loop,
    over any list of callbacks whatever they do, is this: a callback that
    throws has its error printed and the next one runs all the same.  So
    the loop never ends early (whatever the callbacks before it did,
    every callback of the list is run, and the ones after it follow),
    [notifyLogout] does likewise with the registered logout callbacks,
    and neither ever throws to the login or logout flow that called it.
    The last part runs three callbacks of which the first two throw: all
    three have printed, in order. *)
Theorem notifyLogin_isolates (callbacks : list (string -> SE World unit))
  (userId : string) (w : World) :
  (forall s,
      onLogin s w = (Ok tt, set_onLoginCallbacks (onLoginCallbacks w ++ [s]) w)
      /\ onLogout s w = (Ok tt, set_onLogoutCallbacks (onLogoutCallbacks w ++ [s]) w))
  /\ notifyLogin userId w
     = notifyLogin_with (map login_callback (onLoginCallbacks w)) userId w
  /\ notifyLogin userId w
     = (Ok tt,
        fold_left
          (fun w' s => settle "Error in login callback:" (login_callback s userId) w')
          (onLoginCallbacks w) w)
  /\ notifyLogout w
     = (Ok tt,
        fold_left
          (fun w' s => settle "Error in logout callback:" (logout_callback s) w')
          (onLogoutCallbacks w) w)
  /\ notifyLogin_with callbacks userId w
  = (Ok tt,
     fold_left (fun w' callback => settle "Error in login callback:" (callback userId) w')
       callbacks w)
  /\ (forall before callback after,
        notifyLogin_with (before ++ callback :: after) userId w
        = notifyLogin_with after userId
            (settle "Error in login callback:" (callback userId)
               (snd (notifyLogin_with before userId w))))
  /\ (forall logoutCallbacks : list (SE World unit),
        notifyLogout_with logoutCallbacks w
        = (Ok tt,
           fold_left (fun w' callback => settle "Error in logout callback:" callback w')
             logoutCallbacks w))
  /\ returns (notifyLogin userId) w
  /\ returns notifyLogout w
  /\ Browser.console
       (browser
          (snd (notifyLogin_with
                  [Worlds.noisy "cart" true; Worlds.noisy "favorites" true;
                   Worlds.noisy "badge" false]
                  "A" Worlds.signed_in)))
     = ["cart got A"; "Error in login callback:";
        "favorites got A"; "Error in login callback:";
        "badge got A"].
Proof.
  split; [intros s; split; reflexivity|].
  split; [reflexivity|].
  split; [rewrite notifyLogin_run, fold_left_map; reflexivity|].
  split; [rewrite notifyLogout_run, fold_left_map; reflexivity|].
  split; [apply notifyLogin_fold|].
  split; [|split; [intros; apply notifyLogout_fold|split; [|split]]].
  - intros before callback after. rewrite !notifyLogin_fold. cbn [snd].
    rewrite fold_left_app. reflexivity.
  - unfold returns. rewrite notifyLogin_run. eauto.
  - unfold returns. rewrite notifyLogout_run. eauto.
  - reflexivity.
Qed.

End Notify.

(** * Remote sync *)
Module Sync.

Lemma syncCart_failure e w :
  CartService.syncCartWithBackend (HttpError e) w
  = (Ok (Next {| cart_success := false; cart := Some (cartItems w) |}),
     log_error "Error syncing cart with backend:" w).
Proof. reflexivity. Qed.

Lemma syncFavorites_failure e w :
  FavoriteService.syncFavoritesWithBackend (HttpError e) w
  = (Ok (Next {| fav_success := false; favorites := Some (favoriteItems w) |}),
     log_error "Error syncing favorites with backend:" w).
Proof. reflexivity. Qed.

Lemma syncCart_success c w :
  CartService.syncCartWithBackend
    (HttpOk {| cart_success := true; cart := Some c |}) w
  = (Ok (Next {| cart_success := true; cart := Some c |}),
     snd (CartService.saveCartToStorage (set_cartItems c w))).
Proof.
  destruct (saveCart_frame (set_cartItems c w)) as [b E].
  unfold CartService.syncCartWithBackend, catchError, tap, http, bind, ret,
    try_catch, modify. simpl.
  rewrite E. reflexivity.
Qed.

Lemma parseFavorites_id f : FavoriteService.parseFavorites f = f.
Proof.
  unfold FavoriteService.parseFavorites. rewrite <- (map_id f) at 2.
  apply map_ext. intros []. reflexivity.
Qed.

Lemma syncFavorites_success f w :
  FavoriteService.syncFavoritesWithBackend
    (HttpOk {| fav_success := true; favorites := Some f |}) w
  = (Ok (Next {| fav_success := true; favorites := Some f |}),
     snd (FavoriteService.saveFavoritesToStorage (set_favoriteItems f w))).
Proof.
  destruct (saveFavorites_frame (set_favoriteItems f w)) as [b E].
  unfold FavoriteService.syncFavoritesWithBackend, catchError, tap, http, bind,
    ret, try_catch, modify. simpl.
  rewrite parseFavorites_id, E. reflexivity.
Qed.

Lemma syncCart_resolves reply w :
  exists n w', CartService.syncCartWithBackend reply w = (Ok (Next n), w').
Proof.
  destruct reply as [[ok [c|]]|e]; [destruct ok| |].
  - rewrite syncCart_success. eauto.
  - eexists _, _. reflexivity.
  - eexists _, _. reflexivity.
  - rewrite syncCart_failure. eauto.
Qed.

Lemma syncFavorites_resolves reply w :
  exists n w', FavoriteService.syncFavoritesWithBackend reply w = (Ok (Next n), w').
Proof.
  destruct reply as [[ok [c|]]|e]; [destruct ok| |].
  - rewrite syncFavorites_success. eauto.
  - eexists _, _. reflexivity.
  - eexists _, _. reflexivity.
  - rewrite syncFavorites_failure. eauto.
Qed.

End Sync.



(** * Favorites *)
Module Favorites.
Import FavoriteService FavoriteSpec Worlds.

Lemma favorite_has_id_true k x : has_id k x = true <-> FavoriteItem.productId x = k.
Proof. unfold has_id. apply String.eqb_eq. Qed.

Lemma favorite_present_iff k l : existsb (has_id k) l = true <-> In k (ids l).
Proof.
  rewrite existsb_exists. unfold ids. rewrite in_map_iff.
  split; intros (x & H1 & H2).
  - exists x. split; [apply favorite_has_id_true; exact H2 | exact H1].
  - exists x. split; [exact H2 | apply favorite_has_id_true; exact H1].
Qed.

Lemma favorite_absent_iff k l : existsb (has_id k) l = false <-> ~ In k (ids l).
Proof.
  rewrite <- favorite_present_iff. destruct (existsb (has_id k) l); split; intros; congruence.
Qed.

Lemma filter_absent k l : ~ In k (ids l) -> List.filter (has_id k) l = [].
Proof.
  induction l as [|a l IH]; intros H; simpl; [reflexivity|].
  destruct (has_id k a) eqn:Ha.
  - apply favorite_has_id_true in Ha. exfalso. apply H. left. exact Ha.
  - apply IH. intros Hin. apply H. right. exact Hin.
Qed.

Lemma addToFavorites_present product w :
  existsb (has_id (Product.productId product)) (favoriteItems w) = true ->
  addToFavorites product w = (Ok tt, w).
Proof.
  intros H. unfold addToFavorites, bind, gets. rewrite H. reflexivity.
Qed.

Lemma addToFavorites_fresh product w :
  existsb (has_id (Product.productId product)) (favoriteItems w) = false ->
  exists b,
    addToFavorites product w
    = (Ok tt,
       set_browser b
         (set_favoriteItems
            (favoriteItems w
             ++ [FavoriteItem.of_product product (Browser.now (browser w))]) w)).
Proof.
  intros H. unfold addToFavorites, bind, gets. rewrite H. simpl.
  unfold storage, lift, Browser.Date_now, gets, modify. simpl.
  rewrite set_browser_same.
  destruct (saveFavorites_frame
              (set_favoriteItems
                 (favoriteItems w
                  ++ [FavoriteItem.of_product product (Browser.now (browser w))]) w))
    as [b E].
  rewrite E. eauto.
Qed.

(** C8.  Adding a product that is not yet a favorite, and later (the
    clock reading anything) adding a product with the same id and any
    other fields: the second add changes nothing at all, the collection
    ends with exactly one entry of that id, and its [addedAt] is the
    clock reading of the first add. *)
Theorem add_favorite_twice (first second : Product.t) (later : Z) (w : World) :
  Product.productId second = Product.productId first ->
  ~ In (Product.productId first) (ids (favoriteItems w)) ->
  let added := FavoriteItem.of_product first (Browser.now (browser w)) in
  let w1 := snd (addToFavorites first w) in
  let w2 := snd (storage (Browser.clock_reads later) w1) in
  favoriteItems w1 = favoriteItems w ++ [added]
  /\ addToFavorites second w2 = (Ok tt, w2)
  /\ List.filter (has_id (Product.productId first))
       (favoriteItems (snd (addToFavorites second w2)))
     = [added]
  /\ FavoriteItem.addedAt added = Browser.now (browser w).
Proof.
  intros Hsame Hfresh added w1 w2.
  destruct (addToFavorites_fresh first w) as [b E].
  { apply favorite_absent_iff. exact Hfresh. }
  assert (H1 : favoriteItems w1 = favoriteItems w ++ [added]).
  { unfold w1. rewrite E. reflexivity. }
  assert (H2 : favoriteItems w2 = favoriteItems w ++ [added]).
  { unfold w2. simpl. exact H1. }
  assert (Hnoop : addToFavorites second w2 = (Ok tt, w2)).
  { apply addToFavorites_present. rewrite Hsame, H2.
    apply favorite_present_iff. unfold ids. rewrite map_app. apply in_or_app.
    right. left. reflexivity. }
  split; [exact H1|]. split; [exact Hnoop|]. split; [|reflexivity].
  rewrite Hnoop. cbn [snd]. rewrite H2, List.filter_app, (filter_absent _ _ Hfresh).
  simpl. unfold has_id. simpl. rewrite String.eqb_refl. reflexivity.
Qed.

Lemma add_favorite_twice_witness :
  addToFavorites ticket_stock5
    (snd (storage (Browser.clock_reads 1700000009999)
            (snd (addToFavorites ticket signed_in))))
  = (Ok tt,
     snd (storage (Browser.clock_reads 1700000009999)
            (snd (addToFavorites ticket signed_in)))).
Proof.
  assert (Hfresh : ~ In (Product.productId ticket) (ids (favoriteItems signed_in)))
    by (simpl; tauto).
  destruct (add_favorite_twice ticket ticket_stock5 1700000009999 signed_in
              eq_refl Hfresh) as (_ & H & _).
  exact H.
Defined.

End Favorites.



(** * Ordered maps *)
Module JsMapFacts.
Section Facts.
Context {V : Type}.
Implicit Types (m : list (string * V)) (k : string) (v : V).

Lemma get_set_same k v m : JsMap.get k (JsMap.set k v m) = Some v.
Proof.
  induction m as [|[k' v'] m IH]; simpl.
  - rewrite String.eqb_refl. reflexivity.
  - destruct (String.eqb k k') eqn:E; simpl; rewrite E; [reflexivity | exact IH].
Qed.

Lemma get_set_other k k' v m :
  k <> k' -> JsMap.get k' (JsMap.set k v m) = JsMap.get k' m.
Proof.
  intros Hne. induction m as [|[k0 v0] m IH]; simpl.
  - apply String.eqb_neq in Hne. rewrite String.eqb_sym, Hne. reflexivity.
  - destruct (String.eqb k k0) eqn:E; simpl.
    + apply String.eqb_eq in E. subst k0.
      apply String.eqb_neq in Hne. rewrite String.eqb_sym, Hne. reflexivity.
    + destruct (String.eqb k' k0); [reflexivity | exact IH].
Qed.

Lemma get_None k m : JsMap.get k m = None <-> ~ In k (JsMap.keys m).
Proof.
  induction m as [|[k' v'] m IH]; simpl; [tauto|].
  destruct (String.eqb k k') eqn:E.
  - apply String.eqb_eq in E. subst. split; [discriminate | tauto].
  - apply String.eqb_neq in E. rewrite IH. split.
    + intros H [H'|H']; [congruence | tauto].
    + tauto.
Qed.

Lemma get_Some_In k v m : JsMap.get k m = Some v -> In (k, v) m.
Proof.
  induction m as [|[k' v'] m IH]; simpl; [discriminate|].
  destruct (String.eqb k k') eqn:E.
  - apply String.eqb_eq in E. subst. intros [= ->]. left. reflexivity.
  - intros H. right. exact (IH H).
Qed.

Lemma In_get k v m : List.NoDup (JsMap.keys m) -> In (k, v) m -> JsMap.get k m = Some v.
Proof.
  induction m as [|[k' v'] m IH]; intros Hnd Hin; [destruct Hin|].
  inversion Hnd as [|? ? Hna Hnd']; subst. simpl.
  destruct Hin as [[= -> ->]|Hin].
  - rewrite String.eqb_refl. reflexivity.
  - destruct (String.eqb k k') eqn:E; [|auto].
    apply String.eqb_eq in E. subst. exfalso. apply Hna.
    change k' with (fst (k', v)). apply in_map. exact Hin.
Qed.

Lemma keys_set k v m :
  JsMap.keys (JsMap.set k v m)
  = match JsMap.get k m with Some _ => JsMap.keys m | None => JsMap.keys m ++ [k] end.
Proof.
  induction m as [|[k' v'] m IH]; simpl; [reflexivity|].
  destruct (String.eqb k k') eqn:E; simpl; [reflexivity|].
  rewrite IH. destruct (JsMap.get k m); reflexivity.
Qed.

Lemma NoDup_keys_set k v m : List.NoDup (JsMap.keys m) -> List.NoDup (JsMap.keys (JsMap.set k v m)).
Proof.
  intros H. rewrite keys_set. destruct (JsMap.get k m) eqn:E; [exact H|].
  apply get_None in E. apply NoDup_ListNoDup. apply NoDup_app.
  split; [apply NoDup_ListNoDup; exact H|]. split; [|apply NoDup_singleton].
  intros x Hx Hx'. apply list_elem_of_singleton in Hx'. subst.
  apply list_elem_of_In in Hx. contradiction.
Qed.

Lemma In_set k v m k' v' :
  In (k', v') (JsMap.set k v m) -> (k' = k /\ v' = v) \/ In (k', v') m.
Proof.
  induction m as [|[k0 v0] m IH]; simpl.
  - intros [[= <- <-]|[]]. left. split; reflexivity.
  - destruct (String.eqb k k0) eqn:E.
    + apply String.eqb_eq in E. subst. intros [[= <- <-]|H]; [left; split; reflexivity|].
      right. right. exact H.
    + intros [H|H]; [right; left; exact H|].
      destruct (IH H) as [H'|H']; [left; exact H' | right; right; exact H'].
Qed.

End Facts.
End JsMapFacts.

(** * Favorites merge on login *)
Module FavoritesMerge.
Import FavoriteService FavoriteSpec Favorites JsMapFacts Worlds.

Lemma well_keyed_set (x : FavoriteItem.t) m :
  well_keyed m -> well_keyed (JsMap.set (FavoriteItem.productId x) x m).
Proof.
  intros [Hnd Hk]. split; [apply NoDup_keys_set; exact Hnd|].
  intros k v Hin. apply In_set in Hin. destruct Hin as [[-> ->]|Hin]; auto.
Qed.

Lemma well_keyed_seed_from server m :
  well_keyed m ->
  well_keyed (fold_left (fun m item => JsMap.set (FavoriteItem.productId item) item m)
                server m).
Proof.
  revert m. induction server as [|s server IH]; intros m Hm; simpl; [exact Hm|].
  apply IH. apply well_keyed_set. exact Hm.
Qed.

Lemma well_keyed_merge_step m l : well_keyed m -> well_keyed (merge_step m l).
Proof.
  intros Hm. unfold merge_step.
  destruct (JsMap.get _ m); [destruct (_ <? _)|]; auto using well_keyed_set.
Qed.

Lemma well_keyed_fold localFavorites m :
  well_keyed m -> well_keyed (fold_left merge_step localFavorites m).
Proof.
  revert m. induction localFavorites as [|l rest IH]; intros m Hm; simpl; [exact Hm|].
  apply IH. apply well_keyed_merge_step. exact Hm.
Qed.

Lemma get_seed_from k server m :
  JsMap.get k (fold_left (fun m item => JsMap.set (FavoriteItem.productId item) item m)
                 server m)
  = fold_left (fun cur s => if has_id k s then Some s else cur) server (JsMap.get k m).
Proof.
  revert m. induction server as [|s server IH]; intros m; simpl; [reflexivity|].
  rewrite IH. f_equal. unfold has_id.
  destruct (String.eqb (FavoriteItem.productId s) k) eqn:E.
  - apply String.eqb_eq in E. subst. apply get_set_same.
  - apply String.eqb_neq in E. apply get_set_other. exact E.
Qed.

Lemma get_merge_step k m l :
  JsMap.get k (merge_step m l) = pick k (JsMap.get k m) l.
Proof.
  unfold merge_step, pick, has_id, new_Date.
  destruct (String.eqb (FavoriteItem.productId l) k) eqn:E.
  - apply String.eqb_eq in E. subst.
    destruct (JsMap.get (FavoriteItem.productId l) m) as [e|] eqn:G.
    + destruct (_ <? _); [apply get_set_same | exact G].
    + apply get_set_same.
  - apply String.eqb_neq in E.
    destruct (JsMap.get (FavoriteItem.productId l) m) as [e|] eqn:G.
    + destruct (_ <? _); [apply get_set_other; exact E | reflexivity].
    + apply get_set_other. exact E.
Qed.

Lemma get_fold k localFavorites m :
  JsMap.get k (fold_left merge_step localFavorites m)
  = fold_left (pick k) localFavorites (JsMap.get k m).
Proof.
  revert m. induction localFavorites as [|l rest IH]; intros m; simpl; [reflexivity|].
  rewrite IH, get_merge_step. reflexivity.
Qed.

Lemma well_keyed_merged server localFavorites :
  well_keyed (fold_left merge_step localFavorites (seed server)).
Proof.
  apply well_keyed_fold. unfold seed. apply well_keyed_seed_from.
  split; [constructor | intros k v []].
Qed.

(** The merged list holds, for each product id, exactly the kept entry. *)
Lemma In_merge x server localFavorites :
  In x (merge server localFavorites)
  <-> kept (FavoriteItem.productId x) server localFavorites = Some x.
Proof.
  unfold merge, kept, seeded, JsMap.values.
  pose proof (well_keyed_merged server localFavorites) as [Hnd Hk].
  rewrite <- (get_seed_from _ server []). fold (seed server).
  rewrite <- get_fold. split.
  - intros Hin. apply in_map_iff in Hin. destruct Hin as ([k v] & Hv & Hin).
    simpl in Hv. subst v. rewrite (Hk _ _ Hin). apply In_get; assumption.
  - intros Hg. apply get_Some_In in Hg. apply in_map_iff.
    exists (FavoriteItem.productId x, x). split; [reflexivity | exact Hg].
Qed.

Lemma ids_merge server localFavorites :
  ids (merge server localFavorites)
  = JsMap.keys (fold_left merge_step localFavorites (seed server)).
Proof.
  unfold merge, JsMap.values, ids, JsMap.keys.
  pose proof (well_keyed_merged server localFavorites) as [_ Hk].
  rewrite map_map. apply map_ext_in. intros [k v] Hin. simpl. auto.
Qed.

Lemma seeded_from_Some k server cur :
  is_Some (fold_left (fun cur s => if has_id k s then Some s else cur) server cur)
  <-> is_Some cur \/ In k (ids server).
Proof.
  revert cur. induction server as [|s server IH]; intros cur; simpl.
  - tauto.
  - rewrite IH. destruct (has_id k s) eqn:E.
    + apply favorite_has_id_true in E. split; [intros _; right; left; exact E|].
      intros _. left. eauto.
    + assert (FavoriteItem.productId s <> k) by (intros H; apply favorite_has_id_true in H; congruence).
      tauto.
Qed.

Lemma pick_fold_Some k localFavorites cur :
  is_Some (fold_left (pick k) localFavorites cur)
  <-> is_Some cur \/ In k (ids localFavorites).
Proof.
  revert cur. induction localFavorites as [|l rest IH]; intros cur; simpl.
  - tauto.
  - rewrite IH. unfold pick. destruct (has_id k l) eqn:E.
    + apply favorite_has_id_true in E. split; [intros _; right; left; exact E|].
      intros _. left. destruct cur as [e|]; [destruct (_ <? _)|]; eauto.
    + assert (FavoriteItem.productId l <> k) by (intros H; apply favorite_has_id_true in H; congruence).
      tauto.
Qed.

Lemma kept_Some k server localFavorites :
  is_Some (kept k server localFavorites)
  <-> In k (ids server) \/ In k (ids localFavorites).
Proof.
  unfold kept, seeded. rewrite pick_fold_Some, seeded_from_Some.
  split; [intros [[H|H]|H]; auto; destruct H; discriminate | tauto].
Qed.


Lemma seeded_from_In k server cur x :
  fold_left (fun cur s => if has_id k s then Some s else cur) server cur = Some x ->
  cur = Some x \/ (In x server /\ FavoriteItem.productId x = k).
Proof.
  revert cur. induction server as [|s server IH]; intros cur H; simpl in H; [auto|].
  destruct (IH _ H) as [H'|[H' H'']]; [|right; split; [right|]; assumption].
  destruct (has_id k s) eqn:E; [|auto].
  injection H' as ->. right. split; [left; reflexivity | apply favorite_has_id_true; exact E].
Qed.

Lemma pick_fold_In k localFavorites cur x :
  fold_left (pick k) localFavorites cur = Some x ->
  cur = Some x \/ (In x localFavorites /\ FavoriteItem.productId x = k).
Proof.
  revert cur. induction localFavorites as [|l rest IH]; intros cur H; simpl in H; [auto|].
  destruct (IH _ H) as [H'|[H' H'']]; [|right; split; [right|]; assumption].
  unfold pick in H'. destruct (has_id k l) eqn:E; [|auto].
  apply favorite_has_id_true in E.
  destruct cur as [e|]; [destruct (_ <? _)|]; injection H' as <-;
    try (left; reflexivity); right; (split; [left; reflexivity | exact E]).
Qed.

(** The entry the loop ends with is no later than the entry it started
    with and than every local entry of that product. *)
Lemma pick_fold_earliest k localFavorites cur x :
  fold_left (pick k) localFavorites cur = Some x ->
  (forall c, cur = Some c -> FavoriteItem.addedAt x <= FavoriteItem.addedAt c)
  /\ (forall l, In l localFavorites -> FavoriteItem.productId l = k ->
        FavoriteItem.addedAt x <= FavoriteItem.addedAt l).
Proof.
  revert cur. induction localFavorites as [|l rest IH]; intros cur H; simpl in H.
  - split; [intros c Hc; rewrite Hc in H; injection H as ->; lia | intros l []].
  - destruct (IH _ H) as [Hcur Hrest]. unfold pick in Hcur.
    destruct (has_id k l) eqn:E.
    + split.
      * intros c ->. destruct (FavoriteItem.addedAt l <? FavoriteItem.addedAt c) eqn:Hlt.
        -- apply Z.ltb_lt in Hlt. specialize (Hcur l eq_refl). lia.
        -- apply Hcur. reflexivity.
      * intros l' [<-|Hin] Hid; [|auto].
        destruct cur as [c|].
        -- destruct (FavoriteItem.addedAt l <? FavoriteItem.addedAt c) eqn:Hlt.
           ++ apply Hcur. reflexivity.
           ++ apply Z.ltb_ge in Hlt. specialize (Hcur c eq_refl). lia.
        -- apply Hcur. reflexivity.
    + split; [exact Hcur|].
      intros l' [<-|Hin] Hid; [|auto].
      apply favorite_has_id_true in Hid. congruence.
Qed.

Lemma seeded_unique s server :
  List.NoDup (ids server) -> In s server ->
  seeded (FavoriteItem.productId s) server = Some s.
Proof.
  unfold seeded. generalize (@None FavoriteItem.t).
  induction server as [|a server IH]; intros cur Hnd Hin; [destruct Hin|].
  inversion Hnd as [|? ? Hna Hnd']; subst. simpl. destruct Hin as [->|Hin].
  - unfold has_id at 2. rewrite String.eqb_refl.
    destruct (seeded_from_Some (FavoriteItem.productId s) server (Some s)) as [_ H].
    destruct H as [y Hy]; [left; eauto|]. rewrite Hy.
    destruct (seeded_from_In _ _ _ _ Hy) as [H|[H H']]; [symmetry; exact H|].
    exfalso. apply Hna. rewrite <- H'. apply in_map. exact H.
  - apply IH; assumption.
Qed.

Lemma pick_fold_absent k localFavorites cur :
  ~ In k (ids localFavorites) -> fold_left (pick k) localFavorites cur = cur.
Proof.
  revert cur. induction localFavorites as [|l rest IH]; intros cur H; simpl; [reflexivity|].
  rewrite IH; [|intros Hin; apply H; right; exact Hin].
  unfold pick. destruct (has_id k l) eqn:E; [|reflexivity].
  apply favorite_has_id_true in E. exfalso. apply H. left. exact E.
Qed.

Lemma pick_fold_unique l localFavorites cur :
  List.NoDup (ids localFavorites) -> In l localFavorites ->
  fold_left (pick (FavoriteItem.productId l)) localFavorites cur
  = pick (FavoriteItem.productId l) cur l.
Proof.
  revert cur. induction localFavorites as [|a rest IH]; intros cur Hnd Hin; [destruct Hin|].
  inversion Hnd as [|? ? Hna Hnd']; subst. simpl. destruct Hin as [->|Hin].
  - apply pick_fold_absent. exact Hna.
  - rewrite IH by assumption. f_equal. unfold pick.
    destruct (has_id (FavoriteItem.productId l) a) eqn:E; [|reflexivity].
    apply favorite_has_id_true in E. exfalso. apply Hna. rewrite E. apply in_map. exact Hin.
Qed.

Lemma merge_earliest_wins (serverFavorites localFavorites : list FavoriteItem.t) :
  let merged := merge serverFavorites localFavorites in
  List.NoDup (ids merged)
  /\ (forall p, In p (ids merged) <-> In p (ids serverFavorites) \/ In p (ids localFavorites))
  /\ (forall x, In x merged -> In x serverFavorites \/ In x localFavorites)
  /\ (forall x l, In x merged -> In l localFavorites ->
        FavoriteItem.productId l = FavoriteItem.productId x ->
        FavoriteItem.addedAt x <= FavoriteItem.addedAt l)
  /\ (List.NoDup (ids serverFavorites) ->
      forall x s, In x merged -> In s serverFavorites ->
        FavoriteItem.productId s = FavoriteItem.productId x ->
        FavoriteItem.addedAt x <= FavoriteItem.addedAt s)
  /\ (List.NoDup (ids serverFavorites) -> List.NoDup (ids localFavorites) ->
      forall s l, In s serverFavorites -> In l localFavorites ->
        FavoriteItem.productId s = FavoriteItem.productId l ->
        In (if FavoriteItem.addedAt l <? FavoriteItem.addedAt s then l else s) merged)
  /\ merge [server_fav] [local_fav1; local_fav2] = [local_fav1; local_fav2].
Proof.
  intros merged. unfold merged.
  assert (Hid : forall k x, kept k serverFavorites localFavorites = Some x ->
                            FavoriteItem.productId x = k).
  { intros k x H. unfold kept in H.
    destruct (pick_fold_In _ _ _ _ H) as [H'|[_ H']]; [|exact H'].
    destruct (seeded_from_In _ _ _ _ H') as [?|[_ ?]]; [discriminate | assumption]. }
  split; [|split; [|split; [|split; [|split; [|split]]]]].
  - rewrite ids_merge. apply well_keyed_merged.
  - intros p. rewrite <- kept_Some. unfold ids. rewrite in_map_iff. split.
    + intros (x & Hx & Hin). apply In_merge in Hin. rewrite Hx in Hin. eauto.
    + intros [x Hx]. exists x. split; [eauto|]. apply In_merge.
      rewrite (Hid _ _ Hx). exact Hx.
  - intros x Hin. apply In_merge in Hin. unfold kept in Hin.
    destruct (pick_fold_In _ _ _ _ Hin) as [H|[H _]]; [|auto].
    destruct (seeded_from_In _ _ _ _ H) as [?|[? _]]; [discriminate | auto].
  - intros x l Hin Hl Hsame. apply In_merge in Hin.
    destruct (pick_fold_earliest _ _ _ _ Hin) as [_ H]. apply H; assumption.
  - intros Hnd x s Hin Hs Hsame. apply In_merge in Hin.
    destruct (pick_fold_earliest _ _ _ _ Hin) as [H _]. apply H.
    rewrite <- Hsame. apply seeded_unique; assumption.
  - intros Hs Hl s l Hins Hinl Hsame. apply In_merge.
    assert (Hk : FavoriteItem.productId
                   (if FavoriteItem.addedAt l <? FavoriteItem.addedAt s then l else s)
                 = FavoriteItem.productId l)
      by (destruct (_ <? _); congruence).
    rewrite Hk. unfold kept. rewrite (pick_fold_unique _ _ _ Hl Hinl).
    rewrite <- Hsame, (seeded_unique _ _ Hs Hins). unfold pick.
    rewrite Hsame. unfold has_id. rewrite String.eqb_refl. destruct (_ <? _); reflexivity.
  - reflexivity.
Qed.

Lemma mergeFavoritesOnLogin_items serverFavorites w :
  favoriteItems (snd (mergeFavoritesOnLogin serverFavorites w))
  = merge serverFavorites (favoriteItems w).
Proof.
  unfold mergeFavoritesOnLogin, bind, gets, modify.
  destruct (saveFavorites_frame
              (set_favoriteItems (merge serverFavorites (favoriteItems w)) w))
    as [b E].
  rewrite E. reflexivity.
Qed.

(** C5 as stated fails for a server list that names a product twice.
    The map is seeded from the server list, a later entry of a product
    replacing an earlier one; the local entry is then compared with the
    entry that is left.  With the server holding [p1] added at 50 and
    again at 100, and the local list [p1] added at 70, the entry kept is
    the local one: it is later than the server's first entry. *)
Lemma server_duplicate_hides_the_earliest :
  favoriteItems
    (snd (mergeFavoritesOnLogin [server_fav0; server_fav] (guest [] [local_fav0])))
  = [local_fav0]
  /\ In server_fav0 [server_fav0; server_fav]
  /\ FavoriteItem.productId server_fav0 = FavoriteItem.productId local_fav0
  /\ FavoriteItem.addedAt server_fav0 < FavoriteItem.addedAt local_fav0.
Proof.
  rewrite mergeFavoritesOnLogin_items.
  split; [reflexivity|]. split; [left; reflexivity|]. split; reflexivity.
Qed.

(** C5 amended.  After [mergeFavoritesOnLogin], for every server list and
    every local list: no product id occurs twice; the product ids are exactly
    those of the two lists; every entry is an entry of one of the lists;
    the entry kept for a product is no later than any local entry of that
    product, and no later than the server's entry when the server list
    has each product once.  With each product once on either side, a
    product on both sides keeps the local entry when it is strictly
    earlier and the server's entry otherwise.  In the example the result
    is [p1] added at 50 and [p2] added at 200. *)
Theorem favorites_merge_earliest_wins (serverFavorites : list FavoriteItem.t)
  (w : World) :
  let localFavorites := favoriteItems w in
  let merged := favoriteItems (snd (mergeFavoritesOnLogin serverFavorites w)) in
  List.NoDup (ids merged)
  /\ (forall p, In p (ids merged) <-> In p (ids serverFavorites) \/ In p (ids localFavorites))
  /\ (forall x, In x merged -> In x serverFavorites \/ In x localFavorites)
  /\ (forall x l, In x merged -> In l localFavorites ->
        FavoriteItem.productId l = FavoriteItem.productId x ->
        FavoriteItem.addedAt x <= FavoriteItem.addedAt l)
  /\ (List.NoDup (ids serverFavorites) ->
      forall x s, In x merged -> In s serverFavorites ->
        FavoriteItem.productId s = FavoriteItem.productId x ->
        FavoriteItem.addedAt x <= FavoriteItem.addedAt s)
  /\ (List.NoDup (ids serverFavorites) -> List.NoDup (ids localFavorites) ->
      forall s l, In s serverFavorites -> In l localFavorites ->
        FavoriteItem.productId s = FavoriteItem.productId l ->
        In (if FavoriteItem.addedAt l <? FavoriteItem.addedAt s then l else s) merged)
  /\ favoriteItems
       (snd (mergeFavoritesOnLogin [server_fav] (guest [] [local_fav1; local_fav2])))
     = [local_fav1; local_fav2].
Proof.
  intros localFavorites merged. unfold merged, localFavorites.
  rewrite mergeFavoritesOnLogin_items.
  destruct (merge_earliest_wins serverFavorites (favoriteItems w))
    as (H1 & H2 & H3 & H4 & H5 & H6 & _).
  repeat (split; [assumption|]). reflexivity.
Qed.

Lemma favorites_merge_witness :
  In local_fav1
    (favoriteItems
       (snd (mergeFavoritesOnLogin [server_fav] (guest [] [local_fav1; local_fav2])))).
Proof.
  pose proof (favorites_merge_earliest_wins [server_fav]
                (guest [] [local_fav1; local_fav2])) as H.
  destruct H as (_ & _ & _ & _ & _ & H & _).
  apply (H ltac:(repeat constructor; simpl; intuition discriminate)
           ltac:(repeat constructor; simpl; intuition discriminate)
           server_fav local_fav1); simpl; auto.
Defined.

End FavoritesMerge.



(** * Cart quantities *)
Module CartBounds.
Import CartService CartSpec CartMerge Worlds.

Lemma set_cartItems_same w : set_cartItems (cartItems w) w = w.
Proof. destruct w. reflexivity. Qed.

Lemma step_warn msg w : cart_step (storage (Browser.console_warn msg)) w (cartItems w).
Proof. eexists. rewrite set_cartItems_same. reflexivity. Qed.

Lemma step_ret w : cart_step (ret tt) w (cartItems w).
Proof. exists (browser w). rewrite set_cartItems_same, set_browser_same. reflexivity. Qed.

Lemma step_save items w :
  cart_step (modify (set_cartItems items) ;;; saveCartToStorage) w items.
Proof.
  unfold cart_step, bind, modify.
  destruct (saveCart_frame (set_cartItems items w)) as [b E]. rewrite E. eauto.
Qed.

Lemma step_gets (k : list CartItem.t -> SE World unit) w items' :
  cart_step (k (cartItems w)) w items' ->
  cart_step (items <- gets cartItems ;; k items) w items'.
Proof. intros H. exact H. Qed.

Lemma addToCart_step product quantity w :
  cart_step (addToCart product quantity) w (added product quantity (cartItems w)).
Proof.
  unfold addToCart, added. apply step_gets.
  destruct (findIndex _ (cartItems w)) as [i|].
  - destruct (cartItems w !! i) as [existing|]; [|apply step_ret].
    destruct (over_stock _ _); [apply step_warn|]. simpl.
    destruct (_ >? _); [apply step_warn | apply step_save].
  - destruct (over_stock _ _); [apply step_warn|]. simpl.
    destruct (_ >? _); [apply step_warn | apply step_save].
Qed.

Lemma removeFromCart_step productId w :
  cart_step (removeFromCart productId) w (removed productId (cartItems w)).
Proof. unfold removeFromCart. apply step_gets. apply step_save. Qed.

Lemma updateQuantity_step productId quantity w :
  cart_step (updateQuantity productId quantity) w
    (updated productId quantity (cartItems w)).
Proof.
  unfold updateQuantity, updated.
  destruct (quantity <=? 0); [apply removeFromCart_step|].
  destruct (quantity >? _); [apply step_warn|].
  apply step_gets.
  destruct (findIndex _ (cartItems w)) as [i|]; [|apply step_ret].
  destruct (cartItems w !! i) as [item|]; [|apply step_ret].
  destruct (over_stock _ _); [apply step_warn | apply step_save].
Qed.

Lemma run_op_step o w : cart_step (run_op o) w (after o (cartItems w)).
Proof.
  destruct o as [product quantity|productId quantity|productId|productId|productId]; simpl.
  - apply addToCart_step.
  - apply updateQuantity_step.
  - unfold incrementQuantity. apply step_gets.
    destruct (List.find _ _); [apply updateQuantity_step | apply step_ret].
  - unfold decrementQuantity. apply step_gets.
    destruct (List.find _ _); [apply updateQuantity_step | apply step_ret].
  - apply removeFromCart_step.
Qed.

Lemma run_ops_items ops w :
  exists b,
    run_ops ops w
    = (Ok tt, set_browser b (set_cartItems (fold_left (fun l o => after o l) ops (cartItems w)) w)).
Proof.
  revert w. induction ops as [|o ops IH]; intros w; simpl.
  - exists (browser w). rewrite set_cartItems_same, set_browser_same. reflexivity.
  - unfold run_ops. simpl. unfold bind.
    destruct (run_op_step o w) as [b ->].
    destruct (IH (set_browser b (set_cartItems (after o (cartItems w)) w))) as [b' E].
    unfold run_ops in E. rewrite E. exists b'. reflexivity.
Qed.


Lemma Forall_removed (P : CartItem.t -> Prop) productId items :
  Forall P items -> Forall P (removed productId items).
Proof.
  intros H. apply List.Forall_forall. intros x Hx. apply filter_In in Hx.
  rewrite List.Forall_forall in H. apply H. tauto.
Qed.

Lemma Forall_updated (P : CartItem.t -> Prop) productId quantity items :
  Forall P items ->
  (forall item, In item items -> P item ->
     0 < quantity -> quantity <= MAX_QUANTITY_PER_ITEM ->
     over_stock (CartItem.maxStock item) quantity = false ->
     P (CartItem.with_quantity quantity item)) ->
  Forall P (updated productId quantity items).
Proof.
  intros H Hq. unfold updated.
  destruct (quantity <=? 0) eqn:E0; [apply Forall_removed; exact H|].
  destruct (quantity >? MAX_QUANTITY_PER_ITEM) eqn:E1; [exact H|].
  destruct (findIndex _ items) as [i|]; [|exact H].
  destruct (items !! i) as [item|] eqn:Ei; [|exact H].
  destruct (over_stock _ _) eqn:E2; [exact H|].
  apply Forall_insert; [exact H|].
  assert (In item items) by (apply list_elem_of_In; eapply list_elem_of_lookup_2; eauto).
  apply Hq; auto.
  - rewrite List.Forall_forall in H. auto.
  - apply Z.leb_gt in E0. lia.
  - rewrite Z.gtb_ltb in E1. apply Z.ltb_ge in E1. exact E1.
Qed.

Lemma over_stock_false m q : over_stock (Some m) q = false -> m <> 0 -> q <= m.
Proof.
  unfold over_stock. intros H Hm. apply Z.eqb_neq in Hm. rewrite Hm in H. simpl in H.
  rewrite Z.gtb_ltb in H. apply Z.ltb_ge in H. exact H.
Qed.

(** Whatever is done to the cart, no line ever exceeds the global
    maximum. *)
Lemma never_above_maximum (ops : list cart_op) (w : World) :
  Forall (fun c => CartItem.quantity c <= MAX_QUANTITY_PER_ITEM) (cartItems w) ->
  Forall (fun c => CartItem.quantity c <= MAX_QUANTITY_PER_ITEM)
    (cartItems (snd (run_ops ops w))).
Proof.
  intros H. destruct (run_ops_items ops w) as [b ->]. simpl.
  revert H. generalize (cartItems w). clear w b.
  induction ops as [|o ops IH]; intros items H; simpl; [exact H|].
  apply IH. clear IH.
  assert (Hupd : forall productId quantity,
             Forall (fun c => CartItem.quantity c <= MAX_QUANTITY_PER_ITEM)
               (updated productId quantity items)).
  { intros productId quantity. apply Forall_updated; [exact H|]. intros; simpl; assumption. }
  destruct o as [product quantity|productId quantity|productId|productId|productId]; simpl.
  - unfold added. destruct (findIndex _ items) as [i|].
    + destruct (items !! i) as [existing|]; [|exact H].
      destruct (over_stock _ _); [exact H|]. simpl.
      destruct (_ >? _) eqn:E; [exact H|].
      apply Forall_insert; [exact H|]. simpl.
      rewrite Z.gtb_ltb in E. apply Z.ltb_ge in E. exact E.
    + destruct (over_stock _ _); [exact H|]. simpl.
      destruct (_ >? _) eqn:E; [exact H|].
      apply Forall_app. split; [exact H|]. constructor; [|constructor]. simpl.
      rewrite Z.gtb_ltb in E. apply Z.ltb_ge in E. exact E.
  - apply Hupd.
  - destruct (List.find _ items); [apply Hupd | exact H].
  - destruct (List.find _ items); [apply Hupd | exact H].
  - apply Forall_removed. exact H.
Qed.

Lemma bounds_after o items :
  respectful items o ->
  Forall within_bounds_truthy items -> Forall within_bounds_truthy (after o items).
Proof.
  intros Hok H.
  assert (Hupd : forall productId quantity,
             Forall within_bounds_truthy (updated productId quantity items)).
  { intros productId quantity. apply Forall_updated; [exact H|].
    intros item _ _ H0 H1 H2. unfold within_bounds_truthy. simpl.
    split; [lia|]. split; [exact H1|]. intros m Hm Hm0. rewrite Hm in H2.
    apply over_stock_false; assumption. }
  destruct o as [product quantity|productId quantity|productId|productId|productId]; simpl.
  - destruct Hok as [Hq Hstock]. unfold added.
    destruct (findIndex _ items) as [i|] eqn:Hf.
    + destruct (findIndex_Some _ _ _ Hf) as (x & Hx & Hp & _). rewrite Hx.
      destruct (over_stock _ _) eqn:E1; [exact H|]. simpl.
      destruct (_ >? _) eqn:E2; [exact H|].
      apply Forall_insert; [exact H|].
      assert (Hin : In x items)
        by (apply list_elem_of_In; eapply list_elem_of_lookup_2; eauto).
      rewrite List.Forall_forall in H. destruct (H x Hin) as (Hx1 & _ & _).
      unfold within_bounds_truthy. simpl. split; [lia|]. split.
      * rewrite Z.gtb_ltb in E2. apply Z.ltb_ge in E2. exact E2.
      * intros m Hm Hm0. apply has_id_true in Hp.
        rewrite (Hstock x Hin Hp) in Hm. rewrite Hm in E1.
        apply over_stock_false; assumption.
    + destruct (over_stock _ _) eqn:E1; [exact H|]. simpl.
      destruct (_ >? _) eqn:E2; [exact H|].
      apply Forall_app. split; [exact H|]. constructor; [|constructor].
      unfold within_bounds_truthy. simpl. split; [lia|]. split.
      * rewrite Z.gtb_ltb in E2. apply Z.ltb_ge in E2. exact E2.
      * intros m Hm Hm0. rewrite Hm in E1. apply over_stock_false; assumption.
  - apply Hupd.
  - destruct (List.find _ items); [apply Hupd | exact H].
  - destruct (List.find _ items); [apply Hupd | exact H].
  - apply Forall_removed. exact H.
Qed.

(** Under that contract the stated bounds hold after every sequence, a
    stock level of [0] counting as none. *)
Lemma bounds_hold_for_respectful_runs (ops : list cart_op) (w : World) :
  cartItems w = [] -> respectful_run [] ops ->
  Forall within_bounds_truthy (cartItems (snd (run_ops ops w))).
Proof.
  intros Hempty Hrun. destruct (run_ops_items ops w) as [b ->]. simpl.
  rewrite Hempty. clear w b Hempty.
  assert (H : Forall within_bounds_truthy []) by constructor.
  revert H Hrun. generalize (@nil CartItem.t).
  induction ops as [|o ops IH]; intros items H Hrun; simpl; [exact H|].
  destruct Hrun as [Ho Hrest]. apply IH; [|exact Hrest].
  apply bounds_after; assumption.
Qed.

(** C2.  On the empty cart of a signed-in user, [addToCart] with the
    quantity -5 is accepted: the cart has a line of quantity -5, which is
    outside the stated bounds.  [updateQuantity] removes the line at a
    quantity of zero or below; [addToCart] has no such test. *)
Theorem negative_add_breaks_bounds :
  let w := snd (run_ops [Add ticket (-5)] signed_in) in
  cartItems w = [CartItem.of_product ticket (-5)]
  /\ getItemQuantity "p1" w = -5
  /\ ~ Forall within_bounds (cartItems w).
Proof.
  split; [reflexivity|]. split; [reflexivity|].
  intros H. change (cartItems (snd (run_ops [Add ticket (-5)] signed_in)))
              with [CartItem.of_product ticket (-5)] in H.
  inversion H as [|? ? [H1 _] _]; subst. simpl in H1. lia.
Qed.

(** The stock level [addToCart] tests is the one quoted with the product
    of the call, not the one recorded on the line: after adding 3 with a
    stock level of 5, adding 10 of the same product without a stock level
    leaves a line of quantity 13 whose stock level is 5. *)
Lemma stock_of_the_line_is_not_tested :
  let w := snd (run_ops [Add ticket_stock5 3; Add ticket 10] signed_in) in
  cartItems w = [CartItem.of_product ticket_stock5 13]
  /\ ~ Forall within_bounds_truthy (cartItems w).
Proof.
  split; [reflexivity|].
  intros H. change (cartItems (snd (run_ops [Add ticket_stock5 3; Add ticket 10] signed_in)))
              with [CartItem.of_product ticket_stock5 13] in H.
  inversion H as [|? ? (_ & _ & H3) _]; subst.
  specialize (H3 5 eq_refl ltac:(discriminate)). simpl in H3. lia.
Qed.

End CartBounds.



(** * Strings and their characters *)

Lemma text_chars (s : string) : text (chars s) = s.
Proof. apply string_of_list_ascii_of_string. Qed.

Lemma chars_text (l : list ascii) : chars (text l) = l.
Proof. apply list_ascii_of_string_of_list_ascii. Qed.

Lemma chars_app (a b : string) : chars (a +:+ b) = chars a ++ chars b.
Proof. induction a as [|c a IH]; simpl; [reflexivity | rewrite <- IH; reflexivity]. Qed.

(** * [JSON.parse] inverts [JSON.stringify] *)
Module JsonRoundTrip.
Import JsonSpec.

(** ** Numbers *)

Lemma read_digits_printed d rest :
  continues_number rest = false ->
  read_digits (uint_chars d ++ rest) = (d, rest).
Proof.
  intros Hrest.
  induction d; simpl; try (rewrite IHd; reflexivity).
  destruct rest as [|c r]; [reflexivity|]. simpl in *.
  apply orb_false_iff in Hrest. destruct Hrest as [_ H].
  destruct (digit_of c); [discriminate | reflexivity].
Qed.

Lemma nzhead_not_D0 d : match Decimal.nzhead d with Decimal.D0 _ => False | _ => True end.
Proof. induction d; simpl; auto. Qed.

Lemma well_formed_unorm d : well_formed_digits (Decimal.unorm d) = true.
Proof.
  unfold Decimal.unorm. pose proof (nzhead_not_D0 d) as H.
  destruct (Decimal.nzhead d); simpl; auto; contradiction.
Qed.

Lemma to_uint_unorm p : Pos.to_uint p = Decimal.unorm (Pos.to_uint p).
Proof.
  pose proof (DecimalPos.Unsigned.to_of (Pos.to_uint p)) as H.
  rewrite DecimalPos.Unsigned.of_to in H. exact H.
Qed.

Lemma well_formed_to_uint p : well_formed_digits (Pos.to_uint p) = true.
Proof. rewrite to_uint_unorm. apply well_formed_unorm. Qed.

Lemma uint_chars_head d :
  well_formed_digits d = true ->
  exists c tl, uint_chars d = c :: tl /\ is_digit c = true.
Proof. destruct d; simpl; intros H; try discriminate; eexists _, _; split; reflexivity. Qed.

Lemma is_digit_not_minus c : is_digit c = true -> (c =? "-")%char = false.
Proof.
  destruct (Ascii.eqb_spec c "-"%char) as [->|]; [discriminate | reflexivity].
Qed.

Lemma parse_number_digits d rest :
  well_formed_digits d = true -> continues_number rest = false ->
  parse_number (uint_chars d ++ rest) = Some (Z.of_int (Decimal.Pos d), rest)
  /\ parse_number ("-"%char :: uint_chars d ++ rest)
     = Some (Z.of_int (Decimal.Neg d), rest).
Proof.
  intros Hd Hrest. unfold parse_number. split.
  - destruct (uint_chars_head _ Hd) as (c & tl & E & Hc).
    rewrite E. simpl. rewrite (is_digit_not_minus _ Hc).
    change (c :: tl ++ rest) with ((c :: tl) ++ rest). rewrite <- E.
    rewrite (read_digits_printed _ _ Hrest), Hd, Hrest. reflexivity.
  - simpl. rewrite (read_digits_printed _ _ Hrest), Hd, Hrest. reflexivity.
Qed.

Lemma parse_number_printed n rest :
  continues_number rest = false ->
  parse_number (print_Z n ++ rest) = Some (n, rest).
Proof.
  intros Hrest. unfold print_Z.
  pose proof (DecimalZ.of_to n) as Hn.
  destruct n as [|p|p]; simpl Z.to_int in *.
  - destruct (parse_number_digits (Decimal.D0 Decimal.Nil) rest eq_refl Hrest) as [H _].
    rewrite H, Hn. reflexivity.
  - destruct (parse_number_digits _ rest (well_formed_to_uint p) Hrest) as [H _].
    rewrite H, Hn. reflexivity.
  - destruct (parse_number_digits _ rest (well_formed_to_uint p) Hrest) as [_ H].
    simpl app. rewrite H, Hn. reflexivity.
Qed.

(** ** String literals *)

Lemma parse_string_plain c r :
  (c =? dq)%char || (c =? "\")%char || (N_of_ascii c <? 32)%N = false ->
  parse_string (c :: r)
  = match parse_string r with
    | Some (str, rest) => Some (c :: str, rest)
    | None => None
    end.
Proof.
  intros H. apply orb_false_iff in H. destruct H as [H H3].
  apply orb_false_iff in H. destruct H as [H1 H2].
  simpl. rewrite H1, H2, H3. reflexivity.
Qed.

Lemma parse_string_simple e x r :
  (e =? "u")%char = false -> unescape e = Some x ->
  parse_string ("\"%char :: e :: r)
  = match parse_string r with
    | Some (str, rest) => Some (x :: str, rest)
    | None => None
    end.
Proof.
  intros H1 H2. cbn [parse_string].
  change ("\" =? dq)%char with false. change ("\" =? "\")%char with true.
  cbv iota. rewrite H1, H2. reflexivity.
Qed.

Lemma parse_string_unicode h1 h2 h3 h4 x r :
  match hex_value h1, hex_value h2, hex_value h3, hex_value h4 with
  | Some a, Some b, Some c, Some d => utf8 (((a * 16 + b) * 16 + c) * 16 + d)%N
  | _, _, _, _ => None
  end = Some [x] ->
  parse_string ("\"%char :: "u"%char :: h1 :: h2 :: h3 :: h4 :: r)
  = match parse_string r with
    | Some (str, rest) => Some (x :: str, rest)
    | None => None
    end.
Proof.
  intros H. cbn [parse_string].
  change ("\" =? dq)%char with false. change ("\" =? "\")%char with true.
  change ("u" =? "u")%char with true. cbv iota.
  destruct (hex_value h1), (hex_value h2), (hex_value h3), (hex_value h4);
    try discriminate.
  rewrite H. destruct (parse_string r) as [[str rest]|]; reflexivity.
Qed.

Lemma parse_string_escape c r str rest :
  parse_string r = Some (str, rest) ->
  parse_string (escape_char c ++ r) = Some (c :: str, rest).
Proof.
  intros H.
  destruct c as [[] [] [] [] [] [] [] []];
    match goal with
    | |- parse_string (escape_char ?c ++ _) = _ =>
        let e := eval vm_compute in (escape_char c) in
        replace (escape_char c) with e by (vm_compute; reflexivity);
        cbn [app];
        first
          [ rewrite (parse_string_plain c) by (vm_compute; reflexivity)
          | rewrite (parse_string_simple _ c) by (vm_compute; reflexivity)
          | rewrite (parse_string_unicode _ _ _ _ c) by (vm_compute; reflexivity) ];
        rewrite H; reflexivity
    end.
Qed.

Lemma parse_string_printed cs rest :
  parse_string (flat_map escape_char cs ++ dq :: rest) = Some (cs, rest).
Proof.
  induction cs as [|c cs IH]; simpl.
  - reflexivity.
  - rewrite <- app_assoc. apply parse_string_escape. exact IH.
Qed.


(** ** Values *)

(** Induction on a value with the hypothesis for every item of an array
    and every member of an object. *)
Lemma json_ind (P : json -> Prop) :
  P JNull -> (forall b, P (JBool b)) -> (forall n, P (JNum n)) ->
  (forall s, P (JStr s)) ->
  (forall l, Forall P l -> P (JArr l)) ->
  (forall l, Forall (fun kv => P (snd kv)) l -> P (JObj l)) ->
  forall v, P v.
Proof.
  intros Hnull Hbool Hnum Hstr Harr Hobj.
  fix IH 1. intros [|b|n|s|l|l].
  - exact Hnull.
  - apply Hbool.
  - apply Hnum.
  - apply Hstr.
  - apply Harr. induction l as [|x l IHl]; constructor; [apply IH | exact IHl].
  - apply Hobj. induction l as [|[k x] l IHl]; constructor; [apply IH | exact IHl].
Qed.

Lemma distinct_NoDup l : distinct l = true -> List.NoDup l.
Proof.
  induction l as [|k r IH]; simpl; intros H; [constructor|].
  apply andb_true_iff in H. destruct H as [H1 H2]. constructor; [|auto].
  intros Hin. apply negb_true_iff in H1.
  assert (existsb (String.eqb k) r = true); [|congruence].
  apply existsb_exists. exists k. split; [exact Hin | apply String.eqb_refl].
Qed.

Lemma obj_of_members_distinct l :
  List.NoDup (map fst l) -> obj_of_members l = l.
Proof.
  unfold obj_of_members. change l with ([] ++ l) at 1 3.
  generalize (@nil (string * json)) as acc.
  induction l as [|[k v] l IH]; intros acc Hnd; simpl.
  - rewrite app_nil_r. reflexivity.
  - assert (Hset : JsMap.set k v acc = acc ++ [(k, v)]).
    { assert (Hk : ~ In k (map fst acc)).
      { rewrite map_app in Hnd. simpl in Hnd. apply NoDup_remove_2 in Hnd.
        intros Hin. apply Hnd. apply in_or_app. left. exact Hin. }
      clear -Hk. induction acc as [|[k' v'] acc IHa]; simpl; [reflexivity|].
      destruct (String.eqb k k') eqn:E.
      - apply String.eqb_eq in E. subst. exfalso. apply Hk. left. reflexivity.
      - rewrite IHa; [reflexivity|]. intros Hin. apply Hk. right. exact Hin. }
    rewrite Hset. rewrite (IH (acc ++ [(k, v)])).
    + rewrite <- app_assoc. reflexivity.
    + rewrite <- app_assoc. exact Hnd.
Qed.

Lemma quote_cons s : exists tl, quote s = dq :: tl.
Proof. unfold quote. eauto. Qed.

Lemma print_Z_head n :
  exists c tl, print_Z n = c :: tl /\ (is_digit c = true \/ c = "-"%char).
Proof.
  unfold print_Z. destruct n as [|p|p]; simpl.
  - eexists _, _. split; [reflexivity | left; reflexivity].
  - destruct (uint_chars_head _ (well_formed_to_uint p)) as (c & tl & E & Hc).
    rewrite E. eauto.
  - eexists _, _. split; [reflexivity | right; reflexivity].
Qed.

Lemma is_digit_cases c :
  is_digit c = true ->
  In c ["0"; "1"; "2"; "3"; "4"; "5"; "6"; "7"; "8"; "9"]%char.
Proof.
  unfold is_digit, digit_of.
  repeat match goal with
         | |- context [Ascii.eqb c ?d] =>
             destruct (Ascii.eqb_spec c d) as [->|_]; [simpl; tauto|]
         end.
  intros H. discriminate H.
Qed.

Lemma print_opens v : opens_value (print v).
Proof.
  destruct v as [|[]|n|s|l|l]; simpl;
    try (eexists _, _; repeat split; reflexivity).
  destruct (print_Z_head n) as (c & tl & E & [Hc| ->]); rewrite E.
  - exists c, tl. apply is_digit_cases in Hc. simpl in Hc.
    repeat (destruct Hc as [<-|Hc]; [repeat split; reflexivity|]). destruct Hc.
  - eexists _, _. repeat split; reflexivity.
Qed.


(** ** The parser, one step at a time *)

Lemma parse_elems_S fuel s :
  parse_elems (S fuel) s
  = match parse_value fuel s with
    | None => None
    | Some (v, r) =>
        match skip_ws r with
        | [] => None
        | c :: r' =>
            if (c =? ",")%char then
              match parse_elems fuel r' with
              | Some (vs, rest) => Some (v :: vs, rest)
              | None => None
              end
            else if (c =? "]")%char then Some ([v], r')
            else None
        end
    end.
Proof. reflexivity. Qed.

Lemma parse_members_S fuel r :
  parse_members (S fuel) (dq :: r)
  = match parse_string r with
    | None => None
    | Some (key, r1) =>
        match skip_ws r1 with
        | [] => None
        | colon :: r2 =>
            if negb (colon =? ":")%char then None
            else
              match parse_value fuel r2 with
              | None => None
              | Some (v, r3) =>
                  match skip_ws r3 with
                  | [] => None
                  | c :: r4 =>
                      if (c =? ",")%char then
                        match parse_members fuel r4 with
                        | Some (ms, rest) => Some ((text key, v) :: ms, rest)
                        | None => None
                        end
                      else if (c =? "}")%char then Some ([(text key, v)], r4)
                      else None
                  end
              end
        end
    end.
Proof. reflexivity. Qed.

Lemma parse_value_string fuel r :
  parse_value (S fuel) (dq :: r)
  = match parse_string r with
    | Some (str, rest) => Some (JStr (text str), rest)
    | None => None
    end.
Proof. reflexivity. Qed.

Lemma parse_value_array fuel r :
  parse_value (S fuel) ("["%char :: r)
  = match skip_ws r with
    | [] => None
    | c' :: r' =>
        if (c' =? "]")%char then Some (JArr [], r')
        else match parse_elems fuel r with
             | Some (vs, rest) => Some (JArr vs, rest)
             | None => None
             end
    end.
Proof. reflexivity. Qed.

Lemma parse_value_object fuel r :
  parse_value (S fuel) ("{"%char :: r)
  = match skip_ws r with
    | [] => None
    | c' :: r' =>
        if (c' =? "}")%char then Some (JObj [], r')
        else match parse_members fuel r with
             | Some (ms, rest) => Some (JObj (obj_of_members ms), rest)
             | None => None
             end
    end.
Proof. reflexivity. Qed.

Lemma parse_value_number fuel c tl :
  is_digit c = true \/ c = "-"%char ->
  parse_value (S fuel) (c :: tl)
  = match parse_number (c :: tl) with
    | Some (n, rest) => Some (JNum n, rest)
    | None => None
    end.
Proof.
  intros [Hc| ->]; [|reflexivity].
  apply is_digit_cases in Hc. simpl in Hc.
  repeat (destruct Hc as [<-|Hc]; [reflexivity|]). destruct Hc.
Qed.

Lemma skip_ws_opens s rest : opens_value s -> skip_ws (s ++ rest) = s ++ rest.
Proof. intros (c & tl & -> & Hc & _). simpl. rewrite Hc. reflexivity. Qed.

Lemma parse_value_array_items fuel s rest :
  opens_value s ->
  parse_value (S fuel) ("["%char :: s ++ rest)
  = match parse_elems fuel (s ++ rest) with
    | Some (vs, rest') => Some (JArr vs, rest')
    | None => None
    end.
Proof.
  intros H. rewrite parse_value_array, (skip_ws_opens _ _ H).
  destruct H as (c & tl & -> & _ & Hc & _). simpl. rewrite Hc. reflexivity.
Qed.

Lemma parse_value_object_members fuel s rest :
  opens_value s ->
  parse_value (S fuel) ("{"%char :: s ++ rest)
  = match parse_members fuel (s ++ rest) with
    | Some (ms, rest') => Some (JObj (obj_of_members ms), rest')
    | None => None
    end.
Proof.
  intros H. rewrite parse_value_object, (skip_ws_opens _ _ H).
  destruct H as (c & tl & -> & _ & _ & Hc). simpl. rewrite Hc. reflexivity.
Qed.

Lemma parse_elems_printed l :
  Forall parses_back l -> forallb unique_keys l = true -> l <> [] ->
  forall fuel rest, (list_sum (map (fun x => S (size x)) l) <= fuel)%nat ->
    parse_elems fuel (commas (map print l) ++ "]"%char :: rest) = Some (l, rest).
Proof.
  induction l as [|x l IHl]; intros Hall Huk Hne fuel rest Hfuel; [congruence|].
  inversion Hall as [|? ? Hx Hl]; subst.
  simpl in Huk. apply andb_true_iff in Huk. destruct Huk as [Hux Hul].
  simpl in Hfuel. destruct fuel as [|fuel]; [lia|].
  rewrite parse_elems_S. destruct l as [|y l'].
  - simpl commas. rewrite (Hx Hux); [reflexivity | lia | reflexivity].
  - change (commas (map print (x :: y :: l')))
      with (print x ++ ","%char :: commas (map print (y :: l'))).
    rewrite <- app_assoc. simpl app at 2.
    rewrite (Hx Hux); [|lia | reflexivity].
    cbn [skip_ws is_ws]. simpl.
    rewrite (IHl Hl Hul); [reflexivity | discriminate | simpl in *; lia].
Qed.

Lemma parse_members_printed l :
  Forall (fun kv => parses_back (snd kv)) l ->
  forallb (fun kv => unique_keys (snd kv)) l = true -> l <> [] ->
  forall fuel rest, (list_sum (map (fun kv => S (size (snd kv))) l) <= fuel)%nat ->
    parse_members fuel (commas (map print_member l) ++ "}"%char :: rest)
    = Some (l, rest).
Proof.
  induction l as [|[k x] l IHl]; intros Hall Huk Hne fuel rest Hfuel; [congruence|].
  inversion Hall as [|? ? Hx Hl]; subst. simpl in Hx.
  simpl in Huk. apply andb_true_iff in Huk. destruct Huk as [Hux Hul].
  simpl in Hfuel. destruct fuel as [|fuel]; [lia|].
  assert (Hhead : forall tail,
             parse_members (S fuel) (print_member (k, x) ++ tail)
             = match parse_value fuel (print x ++ tail) with
               | None => None
               | Some (v, r3) =>
                   match skip_ws r3 with
                   | [] => None
                   | c :: r4 =>
                       if (c =? ",")%char then
                         match parse_members fuel r4 with
                         | Some (ms, rest) => Some ((k, v) :: ms, rest)
                         | None => None
                         end
                       else if (c =? "}")%char then Some ([(k, v)], r4)
                       else None
                   end
               end).
  { intros tail. unfold print_member, quote. simpl fst. simpl snd.
    change ((dq :: flat_map escape_char (chars k) ++ [dq]) ++ ":"%char :: print x)
      with (dq :: (flat_map escape_char (chars k) ++ [dq]) ++ ":"%char :: print x).
    rewrite <- !app_assoc. simpl app.
    rewrite parse_members_S.
    rewrite <- app_assoc. simpl app.
    rewrite parse_string_printed. cbn [skip_ws is_ws]. simpl orb. cbv iota.
    change (negb (":" =? ":")%char) with false. cbv iota.
    rewrite text_chars. reflexivity. }
  destruct l as [|y l'].
  - simpl commas. rewrite Hhead. rewrite (Hx Hux); [reflexivity | lia | reflexivity].
  - change (commas (map print_member ((k, x) :: y :: l')))
      with (print_member (k, x) ++ ","%char :: commas (map print_member (y :: l'))).
    rewrite <- app_assoc. simpl app at 2. rewrite Hhead.
    rewrite (Hx Hux); [|lia | reflexivity].
    cbn [skip_ws is_ws]. simpl.
    rewrite (IHl Hl Hul); [reflexivity | discriminate | simpl in *; lia].
Qed.

Lemma commas_opens (l : list (list ascii)) :
  l <> [] -> Forall opens_value l -> opens_value (commas l).
Proof.
  intros Hne Hall. destruct l as [|x l]; [congruence|].
  inversion Hall as [|? ? (c & tl & -> & H) _]; subst.
  destruct l; simpl; exists c; eexists; (split; [reflexivity | exact H]).
Qed.

Theorem parse_value_printed v : parses_back v.
Proof.
  induction v as [|b|n|s|l IH|l IH] using json_ind;
    intros Huk fuel rest Hfuel Hrest; (destruct fuel as [|fuel]; [simpl in Hfuel; lia|]).
  - reflexivity.
  - destruct b; reflexivity.
  - simpl print. destruct (print_Z_head n) as (c & tl & E & Hc).
    pose proof (parse_number_printed n rest Hrest) as Hn. rewrite E in *.
    simpl app in *. rewrite (parse_value_number _ _ _ Hc), Hn. reflexivity.
  - simpl print. unfold quote. simpl app. rewrite <- app_assoc. simpl app.
    rewrite parse_value_string, parse_string_printed, text_chars. reflexivity.
  - simpl print. simpl app. rewrite <- app_assoc. simpl app.
    destruct l as [|x l'].
    + reflexivity.
    + assert (Hopen : opens_value (commas (map print (x :: l')))).
      { apply commas_opens; [discriminate|].
        apply List.Forall_forall. intros t Ht. apply in_map_iff in Ht.
        destruct Ht as (y & <- & _). apply print_opens. }
      rewrite (parse_value_array_items _ _ _ Hopen).
      simpl in Huk, Hfuel.
      rewrite (parse_elems_printed (x :: l') IH Huk); [reflexivity | discriminate|].
      simpl. lia.
  - simpl print. simpl app. rewrite <- app_assoc. simpl app.
    simpl in Huk. apply andb_true_iff in Huk. destruct Huk as [Hd Huk].
    destruct l as [|x l'].
    + reflexivity.
    + change (map (fun kv => quote (fst kv) ++ ":"%char :: print (snd kv)) (x :: l'))
        with (map print_member (x :: l')).
      assert (Hopen : opens_value (commas (map print_member (x :: l')))).
      { apply commas_opens; [discriminate|].
        apply List.Forall_forall. intros t Ht. apply in_map_iff in Ht.
        destruct Ht as (y & <- & _). unfold print_member, quote. simpl.
        eexists _, _. repeat split; reflexivity. }
      rewrite (parse_value_object_members _ _ _ Hopen).
      simpl in Hfuel.
      rewrite (parse_members_printed (x :: l') IH Huk); [|discriminate | simpl; lia].
      rewrite obj_of_members_distinct; [reflexivity|].
      apply distinct_NoDup. exact Hd.
Qed.


Lemma sum_le_commas {A} (f : A -> nat) (g : A -> list ascii) (l : list A) :
  Forall (fun x => (f x <= length (g x))%nat) l ->
  (list_sum (map (fun x => S (f x)) l) <= S (length (commas (map g l))))%nat.
Proof.
  induction l as [|x l IH]; intros H; [simpl; lia|].
  inversion H as [|? ? Hx Hl]; subst. specialize (IH Hl).
  destruct l as [|y l'].
  - simpl. lia.
  - change (commas (map g (x :: y :: l')))
      with (g x ++ ","%char :: commas (map g (y :: l'))).
    rewrite length_app. simpl length. simpl in IH |- *. lia.
Qed.

Lemma size_le_length v : (size v <= length (print v))%nat.
Proof.
  induction v as [|b|n|s|l IH|l IH] using json_ind.
  - simpl. lia.
  - destruct b; simpl; lia.
  - simpl. destruct (print_Z_head n) as (c & tl & -> & _). simpl. lia.
  - simpl. lia.
  - simpl. rewrite length_app. simpl.
    pose proof (sum_le_commas size print l IH). lia.
  - assert (Hall : Forall (fun kv : string * json =>
                (size (snd kv) <= length (print_member kv))%nat) l).
    { eapply List.Forall_impl; [|exact IH]. intros kv Hkv. simpl in Hkv.
      unfold print_member. rewrite length_app. simpl. lia. }
    pose proof (sum_le_commas (fun kv => size (snd kv)) print_member l Hall) as H.
    change (print (JObj l))
      with ("{"%char :: commas (map print_member l) ++ ["}"%char]).
    change (size (JObj l))
      with (S (list_sum (map (fun kv => S (size (snd kv))) l))).
    cbn [length]. rewrite length_app. cbn [length]. lia.
Qed.

(** Every value whose objects have each key once survives
    [JSON.parse(JSON.stringify(v))]. *)
Theorem JSON_parse_stringify v :
  unique_keys v = true -> JSON_parse (JSON_stringify v) = Some v.
Proof.
  intros Huk. unfold JSON_parse, JSON_stringify. rewrite chars_text.
  pose proof (parse_value_printed v Huk (S (length (print v))) []) as H.
  rewrite app_nil_r in H. rewrite H; [reflexivity | | reflexivity].
  pose proof (size_le_length v). lia.
Qed.

Lemma JSON_stringify_nonempty v : String.eqb (JSON_stringify v) "" = false.
Proof.
  unfold JSON_stringify. destruct (print_opens v) as (c & tl & -> & _). reflexivity.
Qed.

(** ** The typed collections *)

Lemma cart_item_back c : CartItem.of_json (CartItem.to_json c) = Some c.
Proof. destruct c as [i p n pr q [im|] [ms|]]; reflexivity. Qed.

Lemma cart_back l : CartItem.list_of_json (CartItem.list_to_json l) = Some l.
Proof.
  unfold CartItem.list_of_json, CartItem.list_to_json.
  induction l as [|c l IH]; [reflexivity|].
  cbn [map Field.all]. rewrite cart_item_back, IH. reflexivity.
Qed.

Lemma cart_unique_keys l : unique_keys (CartItem.list_to_json l) = true.
Proof.
  unfold CartItem.list_to_json. cbn [unique_keys].
  induction l as [|c l IH]; [reflexivity|].
  cbn [map forallb]. rewrite IH, andb_true_r.
  destruct c as [i p n pr q [im|] [ms|]]; reflexivity.
Qed.

Lemma favorite_item_back f : FavoriteItem.of_json (FavoriteItem.to_json f) = Some f.
Proof. destruct f as [i p n pr [im|] a]; reflexivity. Qed.

Lemma favorites_back l :
  FavoriteItem.list_of_json (FavoriteItem.list_to_json l) = Some l.
Proof.
  unfold FavoriteItem.list_of_json, FavoriteItem.list_to_json.
  induction l as [|c l IH]; [reflexivity|].
  cbn [map Field.all]. rewrite favorite_item_back, IH. reflexivity.
Qed.

Lemma favorites_unique_keys l : unique_keys (FavoriteItem.list_to_json l) = true.
Proof.
  unfold FavoriteItem.list_to_json. cbn [unique_keys].
  induction l as [|c l IH]; [reflexivity|].
  cbn [map forallb]. rewrite IH, andb_true_r.
  destruct c as [i p n pr [im|] a]; reflexivity.
Qed.

End JsonRoundTrip.



(** * The cookie tier *)
Module Cookies.
Import Browser JsMapFacts StoreSpec JsonSpec.

(** ** Percent-encoding *)

Lemma decode_plain c r :
  (c =? "%")%char = false ->
  Uri.decode (c :: r) = option_map (cons c) (Uri.decode r).
Proof. intros H. simpl. rewrite H. reflexivity. Qed.

Lemma decode_escape h1 h2 x r :
  match hex_value h1, hex_value h2 with
  | Some a, Some b => Some (ascii_of_N (a * 16 + b))
  | _, _ => None
  end = Some x ->
  Uri.decode ("%"%char :: h1 :: h2 :: r) = option_map (cons x) (Uri.decode r).
Proof.
  intros H. cbn [Uri.decode]. change ("%" =? "%")%char with true. cbv iota.
  destruct (hex_value h1), (hex_value h2); try discriminate.
  injection H as <-. destruct (Uri.decode r); reflexivity.
Qed.

Lemma decode_encode_char c r :
  Uri.decode (Uri.encode_char c ++ r) = option_map (cons c) (Uri.decode r).
Proof.
  destruct c as [[] [] [] [] [] [] [] []];
    match goal with
    | |- Uri.decode (Uri.encode_char ?c ++ _) = _ =>
        let e := eval vm_compute in (Uri.encode_char c) in
        replace (Uri.encode_char c) with e by (vm_compute; reflexivity);
        cbn [app];
        first
          [ apply (decode_plain c); vm_compute; reflexivity
          | apply (decode_escape _ _ c); vm_compute; reflexivity ]
    end.
Qed.

Lemma decode_encode cs : Uri.decode (Uri.encode cs) = Some cs.
Proof.
  unfold Uri.encode. induction cs as [|c cs IH]; simpl; [reflexivity|].
  rewrite decode_encode_char, IH. reflexivity.
Qed.

Lemma encode_char_plain c : forallb plain (Uri.encode_char c) = true.
Proof. destruct c as [[] [] [] [] [] [] [] []]; vm_compute; reflexivity. Qed.

Lemma encode_plain cs : forallb plain (Uri.encode cs) = true.
Proof.
  unfold Uri.encode. induction cs as [|c cs IH]; simpl; [reflexivity|].
  rewrite forallb_app, encode_char_plain, IH. reflexivity.
Qed.

(** ** Cutting and trimming *)

Lemma cut_absent sep s :
  forallb (fun c => negb (c =? sep)%char) s = true -> cut sep s = (s, None).
Proof.
  induction s as [|c s IH]; simpl; intros H; [reflexivity|].
  apply andb_true_iff in H. destruct H as [H1 H2]. apply negb_true_iff in H1.
  rewrite H1, (IH H2). reflexivity.
Qed.

Lemma cut_first sep a b :
  forallb (fun c => negb (c =? sep)%char) a = true ->
  cut sep (a ++ sep :: b) = (a, Some b).
Proof.
  induction a as [|c a IH]; simpl; intros H.
  - rewrite Ascii.eqb_refl. reflexivity.
  - apply andb_true_iff in H. destruct H as [H1 H2]. apply negb_true_iff in H1.
    rewrite H1, (IH H2). reflexivity.
Qed.

Lemma plain_forall (q : ascii -> bool) s :
  (forall c, plain c = true -> q c = true) ->
  forallb plain s = true -> forallb q s = true.
Proof.
  intros Hq H. apply forallb_forall. intros c Hc.
  apply Hq. rewrite forallb_forall in H. auto.
Qed.

Lemma plain_not d :
  plain d = false -> forall c, plain c = true -> negb (c =? d)%char = true.
Proof.
  intros Hd c Hc. destruct (Ascii.eqb_spec c d) as [->|]; [congruence | reflexivity].
Qed.

Lemma plain_not_blank c : plain c = true -> is_blank c = false.
Proof.
  unfold plain, is_blank. intros H. apply negb_true_iff in H.
  repeat (apply orb_false_iff in H; destruct H as [H ?]).
  apply orb_false_iff. split; assumption.
Qed.

Lemma strip_blanks_plain s : forallb plain s = true -> strip_blanks s = s.
Proof.
  destruct s as [|c s]; simpl; [reflexivity|]. intros H.
  apply andb_true_iff in H. destruct H as [H _].
  rewrite (plain_not_blank _ H). reflexivity.
Qed.

Lemma forallb_rev {A} (q : A -> bool) l : forallb q (rev l) = forallb q l.
Proof.
  induction l as [|x l IH]; simpl; [reflexivity|].
  rewrite forallb_app, IH. simpl. rewrite andb_true_r, andb_comm. reflexivity.
Qed.

Lemma trim_plain s : forallb plain s = true -> trim s = s.
Proof.
  intros H. unfold trim. rewrite (strip_blanks_plain _ H).
  rewrite strip_blanks_plain; [apply rev_involutive|].
  rewrite forallb_rev. exact H.
Qed.

Lemma parse_pair_plain name value :
  forallb plain (chars name) = true -> forallb plain (chars value) = true ->
  parse_pair (chars (name +:+ "=" +:+ value)) = (name, value).
Proof.
  intros Hn Hv. unfold parse_pair. rewrite !chars_app. simpl app.
  rewrite (cut_absent ";"%char).
  2:{ rewrite forallb_app. simpl.
      rewrite (plain_forall _ _ (plain_not ";"%char eq_refl) Hn).
      rewrite (plain_forall _ _ (plain_not ";"%char eq_refl) Hv). reflexivity. }
  simpl fst. rewrite cut_first.
  2:{ apply (plain_forall _ _ (plain_not "="%char eq_refl) Hn). }
  rewrite (trim_plain _ Hn), (trim_plain _ Hv), !text_chars. reflexivity.
Qed.


(** ** Reading [document.cookie] back *)

Lemma split_on_absent sep s :
  forallb (fun c => negb (c =? sep)%char) s = true -> split_on sep s = [s].
Proof.
  induction s as [|c s IH]; simpl; intros H; [reflexivity|].
  apply andb_true_iff in H. destruct H as [H1 H2]. apply negb_true_iff in H1.
  rewrite H1, (IH H2). reflexivity.
Qed.

Lemma split_on_first sep a b :
  forallb (fun c => negb (c =? sep)%char) a = true ->
  split_on sep (a ++ sep :: b) = a :: split_on sep b.
Proof.
  induction a as [|c a IH]; simpl; intros H.
  - rewrite Ascii.eqb_refl. reflexivity.
  - apply andb_true_iff in H. destruct H as [H1 H2]. apply negb_true_iff in H1.
    rewrite H1, (IH H2). reflexivity.
Qed.

Lemma cookie_name_parts n :
  cookie_name n = true -> n <> "" /\ forallb plain (chars n) = true.
Proof.
  unfold cookie_name. intros H. apply andb_true_iff in H. destruct H as [H1 H2].
  split; [|exact H2]. apply negb_true_iff in H1. apply String.eqb_neq. exact H1.
Qed.

Lemma render_named n v :
  cookie_name n = true -> render_cookie (n, v) = chars n ++ "="%char :: chars v.
Proof.
  intros H. apply cookie_name_parts in H. destruct H as [H _].
  unfold render_cookie. simpl. apply String.eqb_neq in H. rewrite H. reflexivity.
Qed.

Lemma render_jar_cons c r :
  render_jar (c :: r)
  = render_cookie c ++ match r with
                       | [] => []
                       | _ :: _ => ";"%char :: " "%char :: render_jar r
                       end.
Proof. destruct r; simpl; [rewrite app_nil_r|]; reflexivity. Qed.

Lemma starts_with_name name n v :
  forallb plain (chars name) = true -> forallb plain (chars n) = true ->
  starts_with (chars name ++ ["="%char]) (chars n ++ "="%char :: v)
  = String.eqb name n.
Proof.
  revert n. induction name as [|a name IH]; intros [|b n] Hname Hn;
    cbn [list_ascii_of_string app starts_with forallb String.eqb] in *.
  - rewrite Ascii.eqb_refl. reflexivity.
  - apply andb_true_iff in Hn. destruct Hn as [Hb _].
    destruct (Ascii.eqb_spec "="%char b) as [<-|]; [discriminate | reflexivity].
  - apply andb_true_iff in Hname. destruct Hname as [Ha _].
    destruct (Ascii.eqb_spec a "="%char) as [->|]; [discriminate | reflexivity].
  - apply andb_true_iff in Hname, Hn. destruct Hname as [_ Hname], Hn as [_ Hn].
    rewrite (IH n Hname Hn). destruct (a =? b)%char; reflexivity.
Qed.

Lemma strip_spaces_named n v :
  cookie_name n = true ->
  strip_spaces (chars n ++ "="%char :: v) = chars n ++ "="%char :: v.
Proof.
  intros H. apply cookie_name_parts in H. destruct H as [Hne Hp].
  destruct n as [|c n]; [congruence|].
  cbn [list_ascii_of_string app strip_spaces forallb] in *.
  apply andb_true_iff in Hp. destruct Hp as [Hc _].
  destruct (Ascii.eqb_spec c " "%char) as [->|]; [discriminate | reflexivity].
Qed.

Lemma strip_spaces_lead pre s :
  Forall (fun c => c = " "%char) pre -> strip_spaces (pre ++ s) = strip_spaces s.
Proof. induction 1 as [|c pre -> _ IH]; simpl; [reflexivity | exact IH]. Qed.

Lemma getCookie_loop_jar name jar pre :
  cookie_name name = true -> jar_ok jar = true ->
  Forall (fun c => c = " "%char) pre ->
  getCookie_loop (chars name ++ ["="%char]) (split_on ";" (pre ++ render_jar jar))
  = match JsMap.get name jar with
    | Some v => read_value v
    | None => ret JNull
    end.
Proof.
  intros Hname. pose proof (cookie_name_parts _ Hname) as [_ Hplain].
  revert pre. induction jar as [|[n v] jar IH]; intros pre Hjar Hpre.
  - simpl render_jar. rewrite app_nil_r, split_on_absent.
    2:{ apply forallb_forall. intros c Hc. rewrite List.Forall_forall in Hpre.
        rewrite (Hpre c Hc). reflexivity. }
    simpl. rewrite <- (app_nil_r pre), (strip_spaces_lead _ _ Hpre). simpl.
    destruct (chars name); reflexivity.
  - simpl in Hjar. apply andb_true_iff in Hjar. destruct Hjar as [Hc Hjar].
    apply andb_true_iff in Hc. destruct Hc as [Hn Hv]. simpl in Hn, Hv.
    pose proof (cookie_name_parts _ Hn) as [_ Hnp].
    assert (Hpiece : forallb (fun c => negb (c =? ";")%char)
                       (pre ++ render_cookie (n, v)) = true).
    { rewrite forallb_app. apply andb_true_iff. split.
      - apply forallb_forall. intros c Hc. rewrite List.Forall_forall in Hpre.
        rewrite (Hpre c Hc). reflexivity.
      - rewrite (render_named _ _ Hn), forallb_app. simpl.
        rewrite (plain_forall _ _ (plain_not ";"%char eq_refl) Hnp).
        exact Hv. }
    assert (Hloop : forall rest,
               getCookie_loop (chars name ++ ["="%char])
                 ((pre ++ render_cookie (n, v)) :: rest)
               = if String.eqb name n then read_value v
                 else getCookie_loop (chars name ++ ["="%char]) rest).
    { intros rest. cbn [getCookie_loop].
      rewrite (strip_spaces_lead _ _ Hpre), (render_named _ _ Hn).
      rewrite (strip_spaces_named _ _ Hn), (starts_with_name _ _ _ Hplain Hnp).
      destruct (String.eqb name n) eqn:E; [|reflexivity].
      apply String.eqb_eq in E. subst n. unfold read_value.
      change (chars name ++ "="%char :: chars v)
        with (chars name ++ ["="%char] ++ chars v).
      rewrite app_assoc, drop_app_length. reflexivity. }
    rewrite render_jar_cons. cbn [JsMap.get]. destruct jar as [|c' jar'].
    + rewrite app_nil_r, (split_on_absent _ _ Hpiece), Hloop.
      destruct (String.eqb name n); reflexivity.
    + rewrite app_assoc, (split_on_first _ _ _ Hpiece), Hloop.
      destruct (String.eqb name n); [reflexivity|].
      apply (IH [" "%char]); [exact Hjar | repeat constructor].
Qed.


(** ** The methods on a browser that works *)

Lemma getCookie_blocked name b :
  cookieFault b = true ->
  getCookie name b = (Ok JNull, log "Error getting cookie:" b).
Proof.
  intros H. unfold getCookie, try_catch, bind, document_cookie. rewrite H.
  reflexivity.
Qed.

Lemma getCookie_absent name b :
  cookieFault b = false -> cookie_name name = true ->
  jar_ok (cookieJar b) = true -> JsMap.get name (cookieJar b) = None ->
  getCookie name b = (Ok JNull, b).
Proof.
  intros Hf Hname Hjar Hget.
  unfold getCookie, try_catch, bind, document_cookie. rewrite Hf.
  rewrite chars_text, chars_app. change (chars "=") with ["="%char].
  pose proof (getCookie_loop_jar name (cookieJar b) [] Hname Hjar (List.Forall_nil _)) as H.
  simpl app in H. rewrite H, Hget. reflexivity.
Qed.

Lemma getCookie_stored name s b :
  cookieFault b = false -> cookie_name name = true ->
  jar_ok (cookieJar b) = true ->
  JsMap.get name (cookieJar b) = Some (Uri.encodeURIComponent s) ->
  getCookie name b = (Ok (reread s), b).
Proof.
  intros Hf Hname Hjar Hget.
  unfold getCookie, try_catch, bind, document_cookie. rewrite Hf.
  rewrite chars_text, chars_app. change (chars "=") with ["="%char].
  pose proof (getCookie_loop_jar name (cookieJar b) [] Hname Hjar (List.Forall_nil _)) as H.
  simpl app in H. rewrite H, Hget. unfold read_value, Uri.decodeURIComponent,
    Uri.encodeURIComponent. rewrite chars_text, decode_encode, text_chars.
  unfold reread, parse, try_catch. destruct (JSON_parse s); reflexivity.
Qed.

Lemma no_semicolon_encoded s : no_semicolon (Uri.encodeURIComponent s) = true.
Proof.
  unfold no_semicolon, Uri.encodeURIComponent. rewrite chars_text.
  apply (plain_forall _ _ (plain_not ";"%char eq_refl)). apply encode_plain.
Qed.

Lemma jar_ok_set name v jar :
  cookie_name name = true -> no_semicolon v = true -> jar_ok jar = true ->
  jar_ok (JsMap.set name v jar) = true.
Proof.
  intros Hn Hv. induction jar as [|[k x] jar IH]; simpl; intros H.
  - rewrite Hn, Hv. reflexivity.
  - apply andb_true_iff in H. destruct H as [H1 H2].
    apply andb_true_iff in H1. destruct H1 as [Hk Hx]. simpl in Hk, Hx.
    destruct (String.eqb name k); simpl.
    + rewrite Hk, Hv, H2. reflexivity.
    + rewrite Hk, Hx, (IH H2). reflexivity.
Qed.

Lemma jar_ok_remove name jar : jar_ok jar = true -> jar_ok (jar_remove name jar) = true.
Proof.
  unfold jar_ok, jar_remove. intros H. apply forallb_forall. intros c Hc.
  apply filter_In in Hc. rewrite forallb_forall in H. apply H. tauto.
Qed.

Lemma get_remove name k (jar : list (string * string)) :
  JsMap.get k (jar_remove name jar)
  = if String.eqb name k then None else JsMap.get k jar.
Proof.
  induction jar as [|[k' v] jar IH]; simpl.
  - destruct (String.eqb name k); reflexivity.
  - destruct (String.eqb name k') eqn:E1; simpl.
    + apply String.eqb_eq in E1. subst k'. rewrite IH.
      rewrite (String.eqb_sym k name). destruct (String.eqb name k); reflexivity.
    + rewrite IH. destruct (String.eqb k k') eqn:E2; [|reflexivity].
      apply String.eqb_eq in E2. subst k'. rewrite E1. reflexivity.
Qed.

Lemma setCookie_working name value days b :
  cookieFault b = false -> cookie_name name = true -> 0 < days ->
  setCookie name value days b
  = (Ok tt,
     set_cookieJar
       (JsMap.set name (Uri.encodeURIComponent (cookieValue value)) (cookieJar b)) b).
Proof.
  intros Hf Hname Hdays. pose proof (cookie_name_parts _ Hname) as [Hne Hplain].
  unfold setCookie, try_catch, bind, Date_now, gets, document_cookie_assign.
  rewrite Hf. rewrite parse_pair_plain; [|exact Hplain|].
  2:{ unfold Uri.encodeURIComponent. rewrite chars_text. apply encode_plain. }
  apply String.eqb_neq in Hne. rewrite Hne. simpl andb.
  assert ((now b + days * 24 * 60 * 60 * 1000 <=? now b) = false) as ->
    by (apply Z.leb_gt; lia).
  reflexivity.
Qed.

Lemma setCookie_blocked name value days b :
  cookieFault b = true ->
  setCookie name value days b = (Ok tt, log "Error setting cookie:" b).
Proof.
  intros Hf. unfold setCookie, try_catch, bind, Date_now, gets, document_cookie_assign.
  rewrite Hf. reflexivity.
Qed.


Lemma setSessionItem_working key value b :
  sessionFault b = false ->
  setSessionItem key value b
  = (Ok tt, set_sessionStorage (<[key := JSON_stringify value]> (sessionStorage b)) b).
Proof.
  intros Hf. unfold setSessionItem, try_catch, sessionStorage_setItem. rewrite Hf.
  reflexivity.
Qed.

Lemma getSessionItem_blocked key b :
  sessionFault b = true ->
  getSessionItem key b = (Ok JNull, log "Error getting session item:" b).
Proof.
  intros Hf. unfold getSessionItem, try_catch, bind, sessionStorage_getItem.
  rewrite Hf. reflexivity.
Qed.

Lemma getSessionItem_absent key b :
  sessionFault b = false -> sessionStorage b !! key = None ->
  getSessionItem key b = (Ok JNull, b).
Proof.
  intros Hf Hk. unfold getSessionItem, try_catch, bind, sessionStorage_getItem.
  rewrite Hf, Hk. reflexivity.
Qed.

Lemma getSessionItem_stored key v b :
  sessionFault b = false -> unique_keys v = true ->
  sessionStorage b !! key = Some (JSON_stringify v) ->
  getSessionItem key b = (Ok v, b).
Proof.
  intros Hf Hv Hk. unfold getSessionItem, try_catch, bind, sessionStorage_getItem.
  rewrite Hf, Hk, JsonRoundTrip.JSON_stringify_nonempty. unfold parse.
  rewrite (JsonRoundTrip.JSON_parse_stringify _ Hv). reflexivity.
Qed.


End Cookies.



(** * Token expiry with nothing stored *)
Module TokenExpiry.
Import Browser AuthService Cookies StoreSpec.

Lemma getSessionItem_nothing key b :
  sessionStorage b !! key = None ->
  exists b', getSessionItem key b = (Ok JNull, b')
             /\ cookieJar b' = cookieJar b /\ cookieFault b' = cookieFault b.
Proof.
  intros H. destruct (sessionFault b) eqn:Hf.
  - rewrite (getSessionItem_blocked _ _ Hf). eauto.
  - rewrite (getSessionItem_absent _ _ Hf H). eauto.
Qed.

Lemma getCookie_nothing name b :
  cookie_name name = true -> jar_ok (cookieJar b) = true ->
  JsMap.get name (cookieJar b) = None ->
  exists b', getCookie name b = (Ok JNull, b').
Proof.
  intros Hn Hj Hg. destruct (cookieFault b) eqn:Hf.
  - rewrite (getCookie_blocked _ _ Hf). eauto.
  - rewrite (getCookie_absent _ _ Hf Hn Hj Hg). eauto.
Qed.

Lemma session_or_cookie_nothing key w :
  cookie_name key = true ->
  sessionStorage (browser w) !! key = None ->
  jar_ok (cookieJar (browser w)) = true ->
  JsMap.get key (cookieJar (browser w)) = None ->
  exists w', session_or_cookie key w = (Ok JNull, w').
Proof.
  intros Hn Hs Hj Hg. unfold session_or_cookie, bind, storage, lift.
  destruct (getSessionItem_nothing key (browser w) Hs) as (b1 & -> & Hjar & Hcf).
  simpl. rewrite <- Hjar in Hj, Hg.
  destruct (getCookie_nothing key b1 Hn Hj Hg) as (b2 & ->). eauto.
Qed.

(** C10.  With no expiry stored under [auth_token_expiry] in either
    tier, whether or not the tiers can be read, [isTokenExpired] answers
    [true] and [isTokenExpiringSoon] answers [false]. *)
Theorem no_expiry_stored (w : World) :
  sessionStorage (browser w) !! TOKEN_EXPIRY_KEY = None ->
  jar_ok (cookieJar (browser w)) = true ->
  JsMap.get "auth_token_expiry" (cookieJar (browser w)) = None ->
  fst (isTokenExpired w) = Ok true /\ fst (isTokenExpiringSoon w) = Ok false.
Proof.
  intros Hs Hj Hg.
  destruct (session_or_cookie_nothing TOKEN_EXPIRY_KEY w eq_refl Hs Hj Hg) as [w' E].
  unfold isTokenExpired, isTokenExpiringSoon, bind. rewrite E. split; reflexivity.
Qed.

Lemma no_expiry_stored_witness :
  fst (isTokenExpired Worlds.signed_in) = Ok true
  /\ fst (isTokenExpiringSoon Worlds.signed_in) = Ok false.
Proof.
  apply (no_expiry_stored Worlds.signed_in); reflexivity.
Defined.

End TokenExpiry.

(** * Round trips through the two tiers *)
Module TierRoundTrip.
Import Browser Cookies JsonRoundTrip StoreSpec JsonSpec Worlds.

Lemma reread_cookieValue v :
  unique_keys v = true -> reread (cookieValue v) = through_cookie v.
Proof.
  intros H. destruct v; simpl; try reflexivity;
    unfold reread; rewrite (JSON_parse_stringify _ H); reflexivity.
Qed.

Lemma through_cookie_falsy v : truthy v = false -> through_cookie v = v.
Proof.
  destruct v as [|b|n|s|l|l]; simpl; try reflexivity.
  intros H. apply negb_false_iff, String.eqb_eq in H. subst. reflexivity.
Qed.

Section Working.
Variables (key : string) (v : json) (b : Browser.t).
Hypothesis Hkey : cookie_name key = true.
Hypothesis Hv : unique_keys v = true.
Hypothesis Hsession : sessionFault b = false.
Hypothesis Hcookie : cookieFault b = false.
Hypothesis Hjar : jar_ok (cookieJar b) = true.

Lemma set_writes : DualTier.set key v b = (Ok tt, written key v b).
Proof using Hkey Hsession Hcookie.
  unfold DualTier.set, bind. rewrite (setSessionItem_working _ _ _ Hsession).
  rewrite setCookie_working; [reflexivity | exact Hcookie | exact Hkey | lia].
Qed.

Lemma getCookie_written b' :
  cookieFault b' = false -> cookieJar b' = cookieJar (written key v b) ->
  getCookie key b' = (Ok (through_cookie v), b').
Proof using Hkey Hv Hjar.
  intros Hf Hj. rewrite (getCookie_stored key (cookieValue v)); auto.
  - rewrite (reread_cookieValue _ Hv). reflexivity.
  - rewrite Hj. simpl. apply jar_ok_set; auto. apply no_semicolon_encoded.
  - rewrite Hj. simpl. apply JsMapFacts.get_set_same.
Qed.

Lemma get_after_set : DualTier.get key (written key v b) = (Ok v, written key v b).
Proof using Hkey Hv Hsession Hcookie Hjar.
  unfold DualTier.get, bind.
  rewrite (getSessionItem_stored key v (written key v b) Hsession Hv).
  2:{ simpl. apply lookup_insert_eq. }
  destruct (truthy v) eqn:Ht; [reflexivity|].
  rewrite (getCookie_written (written key v b) Hcookie eq_refl).
  rewrite (through_cookie_falsy _ Ht). reflexivity.
Qed.

Lemma get_after_clear :
  fst ((clearSession ;;; DualTier.get key) (written key v b)) = Ok (through_cookie v).
Proof using Hkey Hv Hsession Hcookie Hjar.
  unfold bind at 1, clearSession, try_catch, sessionStorage_clear. simpl.
  rewrite Hsession. unfold DualTier.get, bind.
  rewrite getSessionItem_absent; [|exact Hsession | apply lookup_empty].
  simpl. rewrite getCookie_written; [reflexivity | exact Hcookie | reflexivity].
Qed.

End Working.

(** C3 as stated fails.  The string ["123"] written to both tiers comes
    back from the cookie tier, once the session tier is cleared, as the
    number 123: [setCookie] stores a string as it is and [getCookie]
    parses whatever parses. *)
Lemma string_of_digits_comes_back_a_number :
  fst ((DualTier.set "k" (JStr "123") ;;; clearSession ;;; DualTier.get "k") fresh_browser)
  = Ok (JNum 123)
  /\ JNum 123 <> JStr "123".
Proof. split; [vm_compute; reflexivity | discriminate]. Qed.

(** C3 amended.  For a key that is a cookie name, a value whose objects
    have each key once and which, if it is a string, is a text within
    the numbers and strings of the model ([exact_value]: no fraction, no
    exponent, at most fifteen digits in a row, no escaped surrogate), and
    a browser whose two tiers work: reading right after writing gives the
    value back; after the session tier is cleared, the read gives back
    what the cookie tier holds, which is the value itself unless the
    value is a string that is JSON text, and then it is what that text
    parses to. *)
Theorem two_tier_round_trip (key : string) (v : json) (b : Browser.t) :
  cookie_name key = true -> unique_keys v = true -> exact_value v = true ->
  sessionFault b = false -> cookieFault b = false -> jar_ok (cookieJar b) = true ->
  fst ((DualTier.set key v ;;; DualTier.get key) b) = Ok v
  /\ fst ((DualTier.set key v ;;; clearSession ;;; DualTier.get key) b)
     = Ok (through_cookie v)
  /\ ((forall s, v <> JStr s) -> through_cookie v = v)
  /\ (forall s, v = JStr s -> JSON_parse s = None -> through_cookie v = v)
  /\ (forall s j, v = JStr s -> JSON_parse s = Some j -> through_cookie v = j).
Proof.
  intros Hkey Hv _ Hs Hc Hjar. split; [|split; [|split; [|split]]].
  - unfold bind at 1. rewrite (set_writes key v b Hkey Hs Hc).
    rewrite (get_after_set key v b Hkey Hv Hs Hc Hjar). reflexivity.
  - unfold bind at 1. rewrite (set_writes key v b Hkey Hs Hc).
    apply (get_after_clear key v b Hkey Hv Hs Hc Hjar).
  - intros H. destruct v; try reflexivity. exfalso. eapply H. reflexivity.
  - intros s -> H. simpl. unfold reread. rewrite H. reflexivity.
  - intros s j -> H. simpl. unfold reread. rewrite H. reflexivity.
Qed.

Lemma two_tier_round_trip_witness :
  fst ((DualTier.set "cart_user_A" (JArr [JNum 7; JStr "seat 12"; JNull]) ;;;
        clearSession ;;; DualTier.get "cart_user_A") fresh_browser)
  = Ok (JArr [JNum 7; JStr "seat 12"; JNull]).
Proof.
  destruct (two_tier_round_trip "cart_user_A" (JArr [JNum 7; JStr "seat 12"; JNull])
              fresh_browser eq_refl eq_refl eq_refl eq_refl eq_refl eq_refl)
    as (_ & H & _).
  exact H.
Defined.

End TierRoundTrip.



(** * Logout, then login again *)
Module LogoutLogin.
Import Browser Cookies JsonRoundTrip CartService AuthService Notify StoreSpec JsonSpec CartSpec Worlds.

Lemma same_store_refl b : same_store b b.
Proof. repeat split. Qed.

Lemma same_store_trans b1 b2 b3 :
  same_store b1 b2 -> same_store b2 b3 -> same_store b1 b3.
Proof.
  intros (H1 & H2 & H3 & H4 & H5) (G1 & G2 & G3 & G4 & G5).
  repeat split; congruence.
Qed.

Lemma same_store_log msg b : same_store b (log msg b).
Proof. repeat split. Qed.

Lemma getSessionItem_reads key b : same_store b (snd (getSessionItem key b)).
Proof.
  unfold getSessionItem, try_catch, bind, sessionStorage_getItem.
  destruct (sessionFault b); [apply same_store_log|].
  destruct (sessionStorage b !! key) as [s|]; [|apply same_store_refl].
  destruct (String.eqb s ""); [apply same_store_refl|].
  unfold parse. destruct (JSON_parse s); [apply same_store_refl | apply same_store_log].
Qed.

Lemma getCookie_loop_reads nameEQ ca b : snd (getCookie_loop nameEQ ca b) = b.
Proof.
  induction ca as [|c ca IH]; simpl; [reflexivity|].
  destruct (starts_with _ _); [|exact IH].
  destruct (Uri.decodeURIComponent _); [|reflexivity].
  unfold try_catch, parse. destruct (JSON_parse _); reflexivity.
Qed.

Lemma getCookie_reads name b : same_store b (snd (getCookie name b)).
Proof.
  unfold getCookie, try_catch, bind, document_cookie.
  destruct (cookieFault b); [apply same_store_log|].
  pose proof (getCookie_loop_reads (chars (name +:+ "="))
                (split_on ";" (chars (text (render_jar (cookieJar b))))) b) as H.
  destruct (getCookie_loop _ _ b) as [[r|e] b']; simpl in H; subst b';
    [apply same_store_refl | apply same_store_log].
Qed.

(** ** The callbacks of the favorites cache leave the cart and the stored
    data alone *)

Lemma cart_untouched_refl w : cart_untouched w w.
Proof. repeat split. Qed.

Lemma cart_untouched_trans w1 w2 w3 :
  cart_untouched w1 w2 -> cart_untouched w2 w3 -> cart_untouched w1 w3.
Proof.
  intros (H1 & H2 & H3 & H4 & H5) (G1 & G2 & G3 & G4 & G5).
  repeat split; try congruence; apply (same_store_trans _ _ _ H5 G5).
Qed.

Lemma keeps_ret {A} (a : A) : keeps_cart (ret a).
Proof. intros w. apply cart_untouched_refl. Qed.

Lemma keeps_gets {A} (f : World -> A) : keeps_cart (gets f).
Proof. intros w. apply cart_untouched_refl. Qed.

Lemma keeps_bind {A B} (m : SE World A) (k : A -> SE World B) :
  keeps_cart m -> (forall a, keeps_cart (k a)) -> keeps_cart (bind m k).
Proof.
  intros Hm Hk w. unfold bind. specialize (Hm w).
  destruct (m w) as [[a|e] w1]; simpl in Hm; [|exact Hm].
  eapply cart_untouched_trans; [exact Hm | apply Hk].
Qed.

Lemma keeps_try_catch {A} (m : SE World A) (h : exn -> SE World A) :
  keeps_cart m -> (forall e, keeps_cart (h e)) -> keeps_cart (try_catch m h).
Proof.
  intros Hm Hh w. unfold try_catch. specialize (Hm w).
  destruct (m w) as [[a|e] w1]; simpl in Hm; [exact Hm|].
  eapply cart_untouched_trans; [exact Hm | apply Hh].
Qed.

Lemma keeps_if {A} (c : bool) (m1 m2 : SE World A) :
  keeps_cart m1 -> keeps_cart m2 -> keeps_cart (if c then m1 else m2).
Proof. destruct c; auto. Qed.

Lemma keeps_storage {A} (m : SE Browser.t A) :
  reads_only m -> keeps_cart (storage m).
Proof.
  intros Hm w. unfold storage, lift. specialize (Hm (browser w)).
  destruct (m (browser w)) as [r b]. simpl in *.
  split; [reflexivity|]. split; [reflexivity|]. split; [reflexivity|].
  split; [reflexivity|]. exact Hm.
Qed.

Lemma keeps_set_favoriteItems l : keeps_cart (modify (set_favoriteItems l)).
Proof. intros w. repeat split. Qed.

Lemma keeps_set_favUserId u : keeps_cart (modify (set_favUserId u)).
Proof. intros w. repeat split. Qed.

Lemma reads_console_error msg : reads_only (console_error msg).
Proof. intros b. repeat split. Qed.

Lemma reads_getSessionItem key : reads_only (getSessionItem key).
Proof. intros b. apply getSessionItem_reads. Qed.

Lemma reads_getCookie name : reads_only (getCookie name).
Proof. intros b. apply getCookie_reads. Qed.

Create HintDb keeps.
#[export] Hint Resolve keeps_ret keeps_gets keeps_bind keeps_try_catch keeps_if
  keeps_storage keeps_set_favoriteItems keeps_set_favUserId reads_console_error
  reads_getSessionItem reads_getCookie : keeps.





(** ** The persisted cart of one user *)

Section Scenario.
Variable A : string.
Hypothesis A_truthy : String.eqb A "" = false.
Hypothesis A_cookie : cookie_name (CART_STORAGE_PREFIX +:+ A) = true.

Lemma stored_same_store C b b' : stored A C b -> same_store b b' -> stored A C b'.
Proof.
  intros (H1 & H2 & H3 & H4 & H5) (G1 & G2 & G3 & G4 & G5).
  unfold stored. rewrite G1, G2, G3, G4. auto.
Qed.

Lemma stored_reads C b :
  stored A C b ->
  getSessionItem (cart_key A) b = (Ok (CartItem.list_to_json C), b)
  /\ getCookie (cart_key A) b = (Ok (CartItem.list_to_json C), b).
Proof using A_cookie.
  intros (H1 & H2 & H3 & H4 & H5). split.
  - apply getSessionItem_stored; [exact H1 | apply cart_unique_keys | exact H4].
  - rewrite (getCookie_stored (cart_key A) (JSON_stringify (CartItem.list_to_json C)));
      auto.
    unfold reread. rewrite JSON_parse_stringify; [reflexivity|].
    apply cart_unique_keys.
Qed.

Lemma getStorageKey_A w :
  cartUserId w = Some A -> getStorageKey w = (Ok (cart_key A), w).
Proof using A_truthy.
  intros H. unfold getStorageKey, bind, gets, ret. rewrite H, A_truthy. reflexivity.
Qed.

Lemma save_stores w :
  cartUserId w = Some A ->
  sessionFault (browser w) = false -> cookieFault (browser w) = false ->
  jar_ok (cookieJar (browser w)) = true ->
  exists b, saveCartToStorage w = (Ok tt, set_browser b w)
            /\ stored A (cartItems w) b.
Proof using A_truthy A_cookie.
  intros Hu Hs Hc Hj. unfold saveCartToStorage, bind at 1, gets.
  rewrite Hu. change (truthy_str (Some A)) with (negb (String.eqb A "")).
  rewrite A_truthy. cbn [negb]. cbv beta iota.
  unfold try_catch, bind at 1. rewrite (getStorageKey_A w Hu).
  unfold bind at 1, gets. unfold bind, storage, lift.
  rewrite (setSessionItem_working _ _ _ Hs). cbn [browser set_browser].
  rewrite setCookie_working; [|exact Hc | exact A_cookie | lia].
  eexists. split; [reflexivity|]. unfold stored. simpl.
  split; [exact Hs|]. split; [exact Hc|]. split.
  - apply jar_ok_set; [exact A_cookie | apply no_semicolon_encoded | exact Hj].
  - split; [apply lookup_insert_eq | apply JsMapFacts.get_set_same].
Qed.

Lemma load_restores C w :
  stored A C (browser w) ->
  loadCartForUser A w = (Ok tt, set_cartItems C (set_cartUserId (Some A) w)).
Proof using A_truthy A_cookie.
  intros Hst. unfold loadCartForUser, bind at 1, modify.
  unfold loadCartFromStorage, bind at 1, gets. cbn [cartUserId set_cartUserId].
  change (truthy_str (Some A)) with (negb (String.eqb A "")).
  rewrite A_truthy. cbn [negb]. cbv beta iota.
  unfold try_catch, bind at 1.
  rewrite (getStorageKey_A (set_cartUserId (Some A) w) eq_refl).
  unfold bind at 1, storage, lift. cbn [browser set_cartUserId].
  destruct (stored_reads C _ Hst) as [-> _].
  cbn [truthy CartItem.list_to_json negb]. cbv iota. unfold modify, as_cart.
  change (JArr (map CartItem.to_json C)) with (CartItem.list_to_json C).
  rewrite cart_back. destruct w. reflexivity.
Qed.






(** ** One callback at a time *)








(** ** The two flows *)

Lemma bind_ok {S X Y} (m : SE S X) (k : X -> SE S Y) s a s' :
  m s = (Ok a, s') -> bind m k s = k a s'.
Proof. intros E. unfold bind. rewrite E. reflexivity. Qed.

Lemma bind_modify {S Y} (f : S -> S) (k : unit -> SE S Y) s :
  bind (modify f) k s = k tt (f s).
Proof. reflexivity. Qed.

Lemma storage_ok {X} (m : SE Browser.t X) w a b' :
  m (browser w) = (Ok a, b') -> storage m w = (Ok a, set_browser b' w).
Proof. intros E. unfold storage, lift. rewrite E. reflexivity. Qed.


Lemma toISOString_ok t w : valid_time t = true -> toISOString t w = (Ok tt, w).
Proof. intros H. unfold toISOString. rewrite H. reflexivity. Qed.





End Scenario.





End LogoutLogin.

(* ================================================================= *)
(** * The storage tiers: faults, unreadable values, removal *)
Module StorageEdges.
Import Browser JsMapFacts Cookies StoreSpec JsonSpec.

Lemma deleteCookie_removes name b :
  cookieFault b = false -> cookie_name name = true -> 1000 <= now b ->
  deleteCookie name b = (Ok tt, set_cookieJar (jar_remove name (cookieJar b)) b).
Proof.
  intros Hf Hname Hnow. pose proof (cookie_name_parts _ Hname) as [Hne Hplain].
  unfold deleteCookie, try_catch, bind, document_cookie_assign. rewrite Hf.
  change (name +:+ "=") with (name +:+ "=" +:+ "").
  rewrite parse_pair_plain; [|exact Hplain | reflexivity].
  apply String.eqb_neq in Hne. rewrite Hne. simpl andb.
  assert ((1000 <=? now b) = true) as -> by (apply Z.leb_le; exact Hnow).
  reflexivity.
Qed.

Lemma get_removed name (jar : list (string * string)) :
  JsMap.get name (jar_remove name jar) = None.
Proof. rewrite get_remove, String.eqb_refl. reflexivity. Qed.

(** When a tier refuses access, each guarded method of that tier returns
    normally, prints one error, and leaves everything else as it was; the
    readers answer [null] and [hasCookie] answers [false]. *)
Theorem storage_faults_degrade (key : string) (value : json) (days : Z)
  (b c : Browser.t) :
  sessionFault b = true -> cookieFault c = true ->
  (setSessionItem key value b = (Ok tt, log "Error setting session item:" b)
   /\ getSessionItem key b = (Ok JNull, log "Error getting session item:" b)
   /\ removeSessionItem key b = (Ok tt, log "Error removing session item:" b)
   /\ clearSession b = (Ok tt, log "Error clearing session:" b))
  /\ (setCookie key value days c = (Ok tt, log "Error setting cookie:" c)
      /\ getCookie key c = (Ok JNull, log "Error getting cookie:" c)
      /\ deleteCookie key c = (Ok tt, log "Error deleting cookie:" c)
      /\ hasCookie key c = (Ok false, log "Error getting cookie:" c)).
Proof.
  intros Hb Hc. split.
  - unfold setSessionItem, getSessionItem, removeSessionItem, clearSession,
      try_catch, bind, sessionStorage_setItem, sessionStorage_getItem,
      sessionStorage_removeItem, sessionStorage_clear.
    rewrite Hb. repeat split.
  - split; [apply setCookie_blocked; exact Hc|].
    split; [apply getCookie_blocked; exact Hc|].
    split.
    + unfold deleteCookie, try_catch, document_cookie_assign. rewrite Hc. reflexivity.
    + unfold hasCookie, bind. rewrite (getCookie_blocked _ _ Hc). reflexivity.
Qed.

Lemma storage_faults_degrade_witness :
  getSessionItem "cart_user_A" Worlds.blocked_browser
  = (Ok JNull, log "Error getting session item:" Worlds.blocked_browser).
Proof.
  destruct (storage_faults_degrade "cart_user_A" JNull 30
              Worlds.blocked_browser Scenes.no_cookies
              eq_refl eq_refl) as ((_ & H & _) & _).
  exact H.
Defined.

Lemma getCookie_foreign (name value : string) (b : Browser.t) :
  cookieFault b = false -> cookie_name name = true ->
  jar_ok (cookieJar b) = true ->
  JsMap.get name (cookieJar b) = Some value ->
  getCookie name b
  = match Uri.decodeURIComponent (chars value) with
    | None => (Ok JNull, log "Error getting cookie:" b)
    | Some d =>
        match JSON_parse (text d) with
        | Some v => (Ok v, b)
        | None => (Ok (JStr (text d)), b)
        end
    end.
Proof.
  intros Hf Hname Hjar Hget.
  unfold getCookie, try_catch, bind, document_cookie. rewrite Hf.
  rewrite chars_text, chars_app. change (chars "=") with ["="%char].
  pose proof (getCookie_loop_jar name (cookieJar b) [] Hname Hjar (List.Forall_nil _)) as H.
  simpl app in H. rewrite H, Hget. unfold read_value.
  destruct (Uri.decodeURIComponent (chars value)) as [d|]; [|reflexivity].
  unfold parse, try_catch. destruct (JSON_parse (text d)); reflexivity.
Qed.

Lemma getSessionItem_foreign (key item : string) (b : Browser.t) :
  sessionFault b = false -> sessionStorage b !! key = Some item ->
  getSessionItem key b
  = match JSON_parse item with
    | Some v => (Ok v, b)
    | None => if String.eqb item "" then (Ok JNull, b)
              else (Ok JNull, log "Error getting session item:" b)
    end.
Proof.
  intros Hf Hk. unfold getSessionItem, try_catch, bind, sessionStorage_getItem.
  rewrite Hf, Hk. destruct (String.eqb item "") eqn:E.
  - apply String.eqb_eq in E. subst item. reflexivity.
  - unfold parse. destruct (JSON_parse item); reflexivity.
Qed.

(** What the two readers make of values the code did not write, on a
    browser [b] whose [sessionStorage] can be read and a browser [c]
    whose cookies can be read, for texts within the numbers and strings
    of the model ([exact_text]: no fraction, no exponent, at most fifteen
    digits in a row, no escaped surrogate) and cookie values whose
    escapes stand for ASCII bytes ([ascii_escapes]).  [getSessionItem]:
    text that is JSON is given back parsed; the empty text reads as
    [null]; any other text reads as [null] and the error is printed.
    [getCookie]: a value with a malformed escape reads as [null] and the
    error is printed; a value that is not JSON is given back as text; a
    value that is JSON is given back parsed. *)
Theorem reading_what_others_wrote (key name : string) (b c : Browser.t) :
  sessionFault b = false ->
  cookieFault c = false -> cookie_name name = true -> jar_ok (cookieJar c) = true ->
  (forall item,
      exact_text item = true ->
      sessionStorage b !! key = Some item ->
      getSessionItem key b
      = match JSON_parse item with
        | Some v => (Ok v, b)
        | None => if String.eqb item "" then (Ok JNull, b)
                  else (Ok JNull, log "Error getting session item:" b)
        end)
  /\ (forall value,
        ascii_escapes (chars value) = true ->
        (forall d, Uri.decodeURIComponent (chars value) = Some d ->
                   exact_text (text d) = true) ->
        JsMap.get name (cookieJar c) = Some value ->
        getCookie name c
        = match Uri.decodeURIComponent (chars value) with
          | None => (Ok JNull, log "Error getting cookie:" c)
          | Some d =>
              match JSON_parse (text d) with
              | Some v => (Ok v, c)
              | None => (Ok (JStr (text d)), c)
              end
          end).
Proof.
  intros Hs Hc Hname Hjar. split.
  - intros item _. apply getSessionItem_foreign. exact Hs.
  - intros value _ _. apply getCookie_foreign; assumption.
Qed.

Lemma reading_what_others_wrote_witness :
  getSessionItem "k" Scenes.garbled_session
  = (Ok JNull, log "Error getting session item:" Scenes.garbled_session)
  /\ getCookie "theme" Scenes.foreign_cookies
     = (Ok (JStr "dark mode"), Scenes.foreign_cookies).
Proof.
  assert (H : sessionStorage Scenes.garbled_session !! "k" = Some "{oops")
    by (vm_compute; reflexivity).
  destruct (reading_what_others_wrote "k" "theme" Scenes.garbled_session
              Scenes.foreign_cookies eq_refl eq_refl eq_refl eq_refl) as [H1 H2].
  assert (Hd : forall d, Uri.decodeURIComponent (chars "dark%20mode") = Some d ->
                         exact_text (text d) = true).
  { intros d E. injection E as <-. reflexivity. }
  rewrite (H1 "{oops" eq_refl H), (H2 "dark%20mode" eq_refl Hd eq_refl).
  split; reflexivity.
Defined.

(** The session tier on a browser whose [sessionStorage] works: an item
    written is read back as the same value and reported present; the
    items under other keys are as they were; once removed the item reads
    as [null] and is reported absent. *)
Theorem session_item_life_cycle (key : string) (value : json) (b : Browser.t) :
  sessionFault b = false -> unique_keys value = true ->
  let b1 := snd (setSessionItem key value b) in
  let b2 := snd (removeSessionItem key b1) in
  getSessionItem key b1 = (Ok value, b1)
  /\ hasSessionItem key b1 = (Ok true, b1)
  /\ (forall k, k <> key -> sessionStorage b1 !! k = sessionStorage b !! k)
  /\ getSessionItem key b2 = (Ok JNull, b2)
  /\ hasSessionItem key b2 = (Ok false, b2)
  /\ (forall k, k <> key -> sessionStorage b2 !! k = sessionStorage b !! k).
Proof.
  intros Hf Hv b1 b2.
  assert (E1 : b1 = set_sessionStorage (<[key := JSON_stringify value]> (sessionStorage b)) b).
  { unfold b1. rewrite (setSessionItem_working _ _ _ Hf). reflexivity. }
  assert (Hf1 : sessionFault b1 = false) by (rewrite E1; exact Hf).
  assert (E2 : b2 = set_sessionStorage (delete key (sessionStorage b1)) b1).
  { unfold b2, removeSessionItem, try_catch, sessionStorage_removeItem.
    rewrite Hf1. reflexivity. }
  assert (Hf2 : sessionFault b2 = false) by (rewrite E2; exact Hf1).
  assert (L1 : sessionStorage b1 !! key = Some (JSON_stringify value)).
  { rewrite E1. simpl. apply lookup_insert_eq. }
  assert (L2 : sessionStorage b2 !! key = None).
  { rewrite E2. simpl. apply lookup_delete_eq. }
  split; [apply getSessionItem_stored; assumption|].
  split; [unfold hasSessionItem, bind, sessionStorage_getItem; rewrite Hf1, L1; reflexivity|].
  split; [intros k Hk; rewrite E1; simpl; apply lookup_insert_ne; congruence|].
  split; [apply getSessionItem_absent; assumption|].
  split; [unfold hasSessionItem, bind, sessionStorage_getItem; rewrite Hf2, L2; reflexivity|].
  intros k Hk. rewrite E2. simpl. rewrite lookup_delete_ne by congruence.
  rewrite E1. simpl. apply lookup_insert_ne. congruence.
Qed.

Lemma session_item_life_cycle_witness :
  getSessionItem "seats" (snd (setSessionItem "seats" (JArr [JNum 4; JNum 5])
                                 Worlds.fresh_browser))
  = (Ok (JArr [JNum 4; JNum 5]),
     snd (setSessionItem "seats" (JArr [JNum 4; JNum 5]) Worlds.fresh_browser)).
Proof.
  destruct (session_item_life_cycle "seats" (JArr [JNum 4; JNum 5])
              Worlds.fresh_browser eq_refl eq_refl) as (H & _).
  exact H.
Defined.

(** The cookie tier on a browser whose cookies work, for a name that is a
    cookie name and a value that, if it is a string, is a text within the
    numbers and strings of the model ([exact_value]): after [setCookie]
    the cookie reads as what its text
    parses to, and [hasCookie] reports it present unless that is [null]
    (a stored [null] and the stored text [null] are reported absent);
    after [deleteCookie], the clock being past the first second of 1970,
    the cookie reads as [null], is reported absent, and the other cookies
    are as they were. *)
Theorem cookie_life_cycle (name : string) (value : json) (b : Browser.t) :
  cookieFault b = false -> cookie_name name = true ->
  jar_ok (cookieJar b) = true -> unique_keys value = true ->
  exact_value value = true -> 1000 <= now b ->
  let b1 := snd (setCookie name value 30 b) in
  let b2 := snd (deleteCookie name b1) in
  getCookie name b1 = (Ok (through_cookie value), b1)
  /\ hasCookie name b1
     = (Ok (match through_cookie value with JNull => false | _ => true end), b1)
  /\ getCookie name b2 = (Ok JNull, b2)
  /\ hasCookie name b2 = (Ok false, b2)
  /\ (forall k, k <> name -> JsMap.get k (cookieJar b2) = JsMap.get k (cookieJar b)).
Proof.
  intros Hf Hname Hjar Hv _ Hnow b1 b2.
  assert (E1 : b1 = set_cookieJar
                      (JsMap.set name (Uri.encodeURIComponent (cookieValue value))
                         (cookieJar b)) b).
  { unfold b1. rewrite (setCookie_working name value 30 b Hf Hname); [reflexivity | lia]. }
  assert (Hf1 : cookieFault b1 = false) by (rewrite E1; exact Hf).
  assert (Hjar1 : jar_ok (cookieJar b1) = true).
  { rewrite E1. simpl. apply jar_ok_set; auto. apply no_semicolon_encoded. }
  assert (G1 : getCookie name b1 = (Ok (through_cookie value), b1)).
  { rewrite (getCookie_stored name (cookieValue value) b1 Hf1 Hname Hjar1).
    - rewrite (TierRoundTrip.reread_cookieValue _ Hv). reflexivity.
    - rewrite E1. simpl. apply get_set_same. }
  assert (E2 : b2 = set_cookieJar (jar_remove name (cookieJar b1)) b1).
  { unfold b2. rewrite (deleteCookie_removes name b1 Hf1 Hname); [reflexivity|].
    rewrite E1. exact Hnow. }
  assert (Hf2 : cookieFault b2 = false) by (rewrite E2; exact Hf1).
  assert (G2 : getCookie name b2 = (Ok JNull, b2)).
  { apply getCookie_absent; auto.
    - rewrite E2. simpl. apply jar_ok_remove. exact Hjar1.
    - rewrite E2. simpl. apply get_removed. }
  split; [exact G1|].
  split; [unfold hasCookie, bind; rewrite G1; reflexivity|].
  split; [exact G2|].
  split; [unfold hasCookie, bind; rewrite G2; reflexivity|].
  intros k Hk. rewrite E2. simpl. rewrite get_remove.
  assert (String.eqb name k = false) as -> by (apply String.eqb_neq; congruence).
  rewrite E1. simpl. apply get_set_other. congruence.
Qed.

Lemma cookie_life_cycle_witness :
  hasCookie "flag" (snd (setCookie "flag" JNull 30 Worlds.fresh_browser))
  = (Ok false, snd (setCookie "flag" JNull 30 Worlds.fresh_browser)).
Proof.
  destruct (cookie_life_cycle "flag" JNull Worlds.fresh_browser
              eq_refl eq_refl eq_refl eq_refl eq_refl ltac:(vm_compute; discriminate))
    as (_ & H & _).
  exact H.
Defined.

Lemma forEach_deleteCookie names b :
  cookieFault b = false -> Forall (fun n => cookie_name n = true) names ->
  1000 <= now b ->
  forEach names (fun name => deleteCookie name) b
  = (Ok tt,
     set_cookieJar (fold_left (fun j n => jar_remove n j) names (cookieJar b)) b).
Proof.
  intros Hf Hnames Hnow. revert b Hf Hnow.
  induction Hnames as [|n names Hn _ IH]; intros b Hf Hnow.
  - destruct b. reflexivity.
  - cbn [forEach]. unfold bind at 1.
    rewrite (deleteCookie_removes n b Hf Hn Hnow).
    rewrite IH by assumption. reflexivity.
Qed.

Lemma get_fold_remove names k (jar : list (string * string)) :
  JsMap.get k (fold_left (fun j n => jar_remove n j) names jar)
  = if existsb (String.eqb k) names then None else JsMap.get k jar.
Proof.
  revert jar. induction names as [|n names IH]; intros jar; [reflexivity|].
  cbn [fold_left existsb]. rewrite IH, get_remove.
  rewrite (String.eqb_sym k n).
  destruct (String.eqb n k), (existsb (String.eqb k) names); reflexivity.
Qed.

(** [clearAll] on a browser whose two tiers work, the names being cookie
    names and the clock past the first second of 1970: it returns, the
    session tier is empty, none of the named cookies is left, the other
    cookies are as they were, and nothing is printed. *)
Theorem clearAll_clears (cookieNames : list string) (b : Browser.t) :
  sessionFault b = false -> cookieFault b = false ->
  Forall (fun n => cookie_name n = true) cookieNames -> 1000 <= now b ->
  let b' := snd (clearAll cookieNames b) in
  fst (clearAll cookieNames b) = Ok tt
  /\ sessionStorage b' = empty
  /\ (forall key, getSessionItem key b' = (Ok JNull, b'))
  /\ (forall name, In name cookieNames -> JsMap.get name (cookieJar b') = None)
  /\ (forall name, ~ In name cookieNames ->
        JsMap.get name (cookieJar b') = JsMap.get name (cookieJar b))
  /\ console b' = console b.
Proof.
  intros Hs Hc Hnames Hnow b'.
  assert (E : clearAll cookieNames b
              = (Ok tt,
                 set_cookieJar
                   (fold_left (fun j n => jar_remove n j) cookieNames (cookieJar b))
                   (set_sessionStorage empty b))).
  { unfold clearAll. unfold bind at 1.
    unfold clearSession, try_catch, sessionStorage_clear. rewrite Hs.
    rewrite forEach_deleteCookie; auto. }
  unfold b'. rewrite E. cbn [fst snd].
  split; [reflexivity|]. split; [reflexivity|].
  split.
  { intros key. apply getSessionItem_absent; [exact Hs | apply lookup_empty]. }
  split.
  { intros name Hin. cbn. rewrite get_fold_remove.
    assert (existsb (String.eqb name) cookieNames = true) as ->; [|reflexivity].
    apply existsb_exists. exists name. split; [exact Hin | apply String.eqb_refl]. }
  split; [|reflexivity].
  intros name Hout. cbn. rewrite get_fold_remove.
  destruct (existsb (String.eqb name) cookieNames) eqn:Ex; [|reflexivity].
  apply existsb_exists in Ex. destruct Ex as (x & Hx & Heq).
  apply String.eqb_eq in Heq. subst x. contradiction.
Qed.

Lemma clearAll_clears_witness :
  JsMap.get "theme" (cookieJar (snd (clearAll ["theme"] Scenes.foreign_cookies))) = None
  /\ JsMap.get "n" (cookieJar (snd (clearAll ["theme"] Scenes.foreign_cookies)))
     = Some "%7B%7D".
Proof.
  assert (Hn : Forall (fun n => cookie_name n = true) ["theme"])
    by (repeat constructor).
  assert (Hnow : 1000 <= now Scenes.foreign_cookies) by (vm_compute; discriminate).
  destruct (clearAll_clears ["theme"] Scenes.foreign_cookies eq_refl eq_refl Hn Hnow)
    as (_ & _ & _ & Hin & Hout & _).
  split.
  - apply Hin. simpl. auto.
  - rewrite Hout; [reflexivity|]. simpl. intros [H|[]]. discriminate.
Defined.

End StorageEdges.

(* ================================================================= *)
(** * The cart: lines, sums and the stored copy *)
Module CartLines.
Import Browser Cookies CartService CartSpec CartMerge CartBounds StoreSpec
  CartStore Worlds.

(** ** Product ids *)

Lemma ids_insert (items : list CartItem.t) i x q :
  items !! i = Some x -> ids (<[i := CartItem.with_quantity q x]> items) = ids items.
Proof.
  intros Hx. unfold ids. change (@map CartItem.t string) with (@fmap list _ CartItem.t string).
  rewrite list_fmap_insert. apply list_insert_id.
  rewrite list_lookup_fmap, Hx. reflexivity.
Qed.

Lemma ids_removed productId items :
  List.NoDup (ids items) -> List.NoDup (ids (removed productId items)).
Proof. apply NoDup_ids_filter. Qed.

Lemma ids_updated productId quantity items :
  List.NoDup (ids items) -> List.NoDup (ids (updated productId quantity items)).
Proof.
  intros H. unfold updated.
  destruct (quantity <=? 0); [apply ids_removed; exact H|].
  destruct (quantity >? _); [exact H|].
  destruct (findIndex _ items) as [i|]; [|exact H].
  destruct (items !! i) as [item|] eqn:Ei; [|exact H].
  destruct (over_stock _ _); [exact H|].
  rewrite (ids_insert _ _ _ _ Ei). exact H.
Qed.

Lemma ids_after o items :
  List.NoDup (ids items) -> List.NoDup (ids (after o items)).
Proof.
  intros H.
  destruct o as [product quantity|productId quantity|productId|productId|productId]; simpl.
  - unfold added. destruct (findIndex _ items) as [i|] eqn:Hf.
    + destruct (items !! i) as [existing|] eqn:Ei; [|exact H].
      destruct (_ || _); [exact H|]. rewrite (ids_insert _ _ _ _ Ei). exact H.
    + destruct (_ || _); [exact H|].
      unfold ids. rewrite map_app. fold (ids items). simpl.
      apply findIndex_None in Hf. apply existsb_has_id_false in Hf.
      apply NoDup_ListNoDup. apply NoDup_app. repeat split.
      * apply NoDup_ListNoDup. exact H.
      * intros x Hx Hx'. apply list_elem_of_In in Hx.
        apply list_elem_of_In in Hx'. simpl in Hx'. destruct Hx' as [<-|[]].
        contradiction.
      * apply NoDup_singleton.
  - apply ids_updated. exact H.
  - destruct (List.find _ items); [apply ids_updated|]; exact H.
  - destruct (List.find _ items); [apply ids_updated|]; exact H.
  - apply ids_removed. exact H.
Qed.

(** No sequence of [addToCart], [updateQuantity], [incrementQuantity],
    [decrementQuantity] and [removeFromCart] gives a product a second
    line: a cart with each product id once stays so. *)
Theorem product_ids_stay_unique (ops : list cart_op) (w : World) :
  List.NoDup (ids (cartItems w)) ->
  List.NoDup (ids (cartItems (snd (run_ops ops w)))).
Proof.
  intros H. destruct (run_ops_items ops w) as [b ->]. simpl.
  revert H. generalize (cartItems w). clear w b.
  induction ops as [|o ops IH]; intros items H; simpl; [exact H|].
  apply IH. apply ids_after. exact H.
Qed.

Lemma product_ids_stay_unique_witness :
  List.NoDup
    (ids (cartItems
            (snd (run_ops [Add ticket 1; Add popcorn 2; Add ticket 3; Decrement "p2"]
                    signed_in)))).
Proof.
  apply (product_ids_stay_unique
           [Add ticket 1; Add popcorn 2; Add ticket 3; Decrement "p2"] signed_in).
  simpl. constructor.
Defined.

Lemma never_above_maximum_witness :
  Forall (fun c => CartItem.quantity c <= MAX_QUANTITY_PER_ITEM)
    (cartItems (snd (run_ops [Add ticket 60; Add ticket 60; Increment "p1"] signed_in))).
Proof.
  apply (never_above_maximum [Add ticket 60; Add ticket 60; Increment "p1"] signed_in).
  simpl. constructor.
Defined.

Lemma bounds_hold_for_respectful_runs_witness :
  Forall within_bounds_truthy
    (cartItems
       (snd (run_ops [Add ticket_stock5 2; Increment "p1"; Add popcorn 1; Decrement "p2"]
               signed_in))).
Proof.
  apply (bounds_hold_for_respectful_runs
           [Add ticket_stock5 2; Increment "p1"; Add popcorn 1; Decrement "p2"] signed_in).
  - reflexivity.
  - simpl. repeat split; try lia.
    intros c [<-|[]]. simpl. discriminate.
Defined.

(** ** Saving *)

Lemma keeps_warn msg w :
  saves_or_keeps (storage (console_warn msg)) w (cartItems w).
Proof.
  right. split; [reflexivity|]. eexists. split; [reflexivity|].
  apply LogoutLogin.same_store_log.
Qed.

Lemma keeps_as_it_is w : saves_or_keeps (ret tt) w (cartItems w).
Proof.
  right. split; [reflexivity|]. exists (browser w). split.
  - unfold ret. rewrite set_browser_same. reflexivity.
  - apply LogoutLogin.same_store_refl.
Qed.

Lemma saves items w :
  saves_or_keeps (modify (set_cartItems items) ;;; saveCartToStorage) w items.
Proof. left. reflexivity. Qed.

Lemma saves_gets (k : list CartItem.t -> SE World unit) w items' :
  saves_or_keeps (k (cartItems w)) w items' ->
  saves_or_keeps (items <- gets cartItems ;; k items) w items'.
Proof. intros H. exact H. Qed.

Lemma addToCart_saves product quantity w :
  saves_or_keeps (addToCart product quantity) w (added product quantity (cartItems w)).
Proof.
  unfold addToCart, added. apply saves_gets.
  destruct (findIndex _ (cartItems w)) as [i|].
  - destruct (cartItems w !! i) as [existing|]; [|apply keeps_as_it_is].
    destruct (over_stock _ _); [apply keeps_warn|]. simpl.
    destruct (_ >? _); [apply keeps_warn | apply saves].
  - destruct (over_stock _ _); [apply keeps_warn|]. simpl.
    destruct (_ >? _); [apply keeps_warn | apply saves].
Qed.

Lemma removeFromCart_saves productId w :
  saves_or_keeps (removeFromCart productId) w (removed productId (cartItems w)).
Proof. unfold removeFromCart. apply saves_gets. apply saves. Qed.

Lemma updateQuantity_saves productId quantity w :
  saves_or_keeps (updateQuantity productId quantity) w
    (updated productId quantity (cartItems w)).
Proof.
  unfold updateQuantity, updated.
  destruct (quantity <=? 0); [apply removeFromCart_saves|].
  destruct (quantity >? _); [apply keeps_warn|].
  apply saves_gets.
  destruct (findIndex _ (cartItems w)) as [i|]; [|apply keeps_as_it_is].
  destruct (cartItems w !! i) as [item|]; [|apply keeps_as_it_is].
  destruct (over_stock _ _); [apply keeps_warn | apply saves].
Qed.

Lemma run_op_saves o w : saves_or_keeps (run_op o) w (after o (cartItems w)).
Proof.
  destruct o as [product quantity|productId quantity|productId|productId|productId]; simpl.
  - apply addToCart_saves.
  - apply updateQuantity_saves.
  - unfold incrementQuantity. apply saves_gets.
    destruct (List.find _ _); [apply updateQuantity_saves | apply keeps_as_it_is].
  - unfold decrementQuantity. apply saves_gets.
    destruct (List.find _ _); [apply updateQuantity_saves | apply keeps_as_it_is].
  - apply removeFromCart_saves.
Qed.

(** ** A signed-in user: the stored copy follows the cart *)

Section SignedIn.
Variable A : string.
Hypothesis A_truthy : String.eqb A "" = false.
Hypothesis A_cookie : cookie_name (CART_STORAGE_PREFIX +:+ A) = true.

Lemma synced_after_save items w :
  cart_synced A w ->
  cart_synced A (snd ((modify (set_cartItems items) ;;; saveCartToStorage) w))
  /\ fst ((modify (set_cartItems items) ;;; saveCartToStorage) w) = Ok tt
  /\ cartItems (snd ((modify (set_cartItems items) ;;; saveCartToStorage) w)) = items.
Proof.
  intros (Hu & Hs & Hc & Hj & _).
  assert (Hm : (modify (set_cartItems items) ;;; saveCartToStorage) w
               = saveCartToStorage (set_cartItems items w)) by reflexivity.
  rewrite Hm.
  destruct (LogoutLogin.save_stores A A_truthy A_cookie (set_cartItems items w)
              Hu Hs Hc Hj) as (b & E & Hst).
  rewrite E. cbn [fst snd]. split; [|split; reflexivity].
  destruct Hst as (H1 & H2 & H3 & H4 & H5).
  unfold cart_synced. cbn. repeat split; auto.
  left. repeat split; assumption.
Qed.

Lemma synced_same_store w b :
  cart_synced A w -> same_store (browser w) b -> cart_synced A (set_browser b w).
Proof.
  intros (Hu & Hs & Hc & Hj & Hd) Hsame.
  pose proof Hsame as (S1 & S2 & S3 & S4 & S5).
  unfold cart_synced. cbn. rewrite S2, S3, S4. repeat split; auto.
  destruct Hd as [Hst | (He & N1 & N2)].
  - left. eapply LogoutLogin.stored_same_store; eauto.
  - right. split; [exact He|]. unfold nothing_stored. rewrite S1, S2. split; assumption.
Qed.

Lemma synced_step (m : SE World unit) w items' :
  saves_or_keeps m w items' -> cart_synced A w ->
  fst (m w) = Ok tt /\ cart_synced A (snd (m w)) /\ cartItems (snd (m w)) = items'.
Proof.
  intros [E | (-> & b & E & Hsame)] Hsync.
  - rewrite E. destruct (synced_after_save items' w Hsync) as (H1 & H2 & H3). auto.
  - rewrite E. cbn [fst snd]. split; [reflexivity|]. split; [|reflexivity].
    apply synced_same_store; assumption.
Qed.

Lemma synced_run ops w :
  cart_synced A w ->
  fst (run_ops ops w) = Ok tt /\ cart_synced A (snd (run_ops ops w)).
Proof.
  revert w. induction ops as [|o ops IH]; intros w Hsync.
  - split; [reflexivity | exact Hsync].
  - unfold run_ops. cbn [forEach]. unfold bind.
    destruct (synced_step _ _ _ (run_op_saves o w) Hsync) as (H1 & H2 & _).
    destruct (run_op o w) as [r w1]. cbn [fst snd] in H1, H2. subst r.
    apply (IH w1 H2).
Qed.

Lemma synced_reload w :
  cart_synced A w ->
  loadCartForUser A w = (Ok tt, w).
Proof.
  intros (Hu & Hs & Hc & Hj & Hd).
  assert (Hw : set_cartItems (cartItems w) (set_cartUserId (Some A) w) = w).
  { destruct w. cbn in *. subst. reflexivity. }
  destruct Hd as [Hst | (He & N1 & N2)].
  - rewrite (LogoutLogin.load_restores A A_truthy A_cookie _ _ Hst). rewrite Hw. reflexivity.
  - unfold loadCartForUser. rewrite LogoutLogin.bind_modify.
    unfold loadCartFromStorage. unfold bind at 1. unfold gets at 1.
    cbn [cartUserId set_cartUserId].
    change (truthy_str (Some A)) with (negb (String.eqb A "")). rewrite A_truthy.
    cbn [negb]. cbv beta iota.
    unfold try_catch. unfold bind at 1.
    rewrite (LogoutLogin.getStorageKey_A A A_truthy) by reflexivity.
    unfold bind at 1.
    rewrite (LogoutLogin.storage_ok (getSessionItem (cart_key A)) _ JNull (browser w)).
    2:{ apply getSessionItem_absent; assumption. }
    cbn [truthy negb]. cbv beta iota. unfold bind at 1.
    rewrite (LogoutLogin.storage_ok (getCookie (cart_key A)) _ JNull (browser w)).
    2:{ apply getCookie_absent; assumption. }
    cbn [truthy]. cbv beta iota. unfold modify.
    rewrite <- Hw at 4. rewrite He. reflexivity.
Qed.

Lemma load_nothing w :
  sessionFault (browser w) = false -> cookieFault (browser w) = false ->
  jar_ok (cookieJar (browser w)) = true ->
  nothing_stored A (browser w) ->
  loadCartForUser A w = (Ok tt, set_cartItems [] (set_cartUserId (Some A) w)).
Proof.
  intros Hs Hc Hj (N1 & N2).
  unfold loadCartForUser. rewrite LogoutLogin.bind_modify.
  unfold loadCartFromStorage. unfold bind at 1. unfold gets at 1.
  cbn [cartUserId set_cartUserId].
  change (truthy_str (Some A)) with (negb (String.eqb A "")). rewrite A_truthy.
  cbn [negb]. cbv beta iota.
  unfold try_catch. unfold bind at 1.
  rewrite (LogoutLogin.getStorageKey_A A A_truthy) by reflexivity.
  unfold bind at 1.
  rewrite (LogoutLogin.storage_ok (getSessionItem (cart_key A)) _ JNull (browser w)).
  2:{ apply getSessionItem_absent; assumption. }
  cbn [truthy negb]. cbv beta iota. unfold bind at 1.
  rewrite (LogoutLogin.storage_ok (getCookie (cart_key A)) _ JNull (browser w)).
  2:{ apply getCookie_absent; assumption. }
  cbn [truthy]. cbv beta iota. unfold modify. reflexivity.
Qed.

(** Loading reads back the cart the two tiers hold. *)
Lemma load_held C w :
  sessionFault (browser w) = false -> cookieFault (browser w) = false ->
  jar_ok (cookieJar (browser w)) = true ->
  SessionSpec.cart_held A C (browser w) ->
  loadCartForUser A w = (Ok tt, set_cartItems C (set_cartUserId (Some A) w)).
Proof.
  intros Hs Hc Hj [Hst | (-> & Hn)].
  - apply (LogoutLogin.load_restores A A_truthy A_cookie _ _ Hst).
  - apply load_nothing; assumption.
Qed.

Lemma load_from_cookie C w :
  sessionFault (browser w) = false -> cookieFault (browser w) = false ->
  jar_ok (cookieJar (browser w)) = true ->
  sessionStorage (browser w) !! cart_key A = None ->
  JsMap.get (cart_key A) (cookieJar (browser w))
  = Some (Uri.encodeURIComponent (JSON_stringify (CartItem.list_to_json C))) ->
  loadCartForUser A w = (Ok tt, set_cartItems C (set_cartUserId (Some A) w)).
Proof.
  intros Hs Hc Hj N1 N2.
  unfold loadCartForUser. rewrite LogoutLogin.bind_modify.
  unfold loadCartFromStorage. unfold bind at 1. unfold gets at 1.
  cbn [cartUserId set_cartUserId].
  change (truthy_str (Some A)) with (negb (String.eqb A "")). rewrite A_truthy.
  cbn [negb]. cbv beta iota.
  unfold try_catch. unfold bind at 1.
  rewrite (LogoutLogin.getStorageKey_A A A_truthy) by reflexivity.
  unfold bind at 1.
  rewrite (LogoutLogin.storage_ok (getSessionItem (cart_key A)) _ JNull (browser w)).
  2:{ apply getSessionItem_absent; assumption. }
  cbn [truthy negb]. cbv beta iota. unfold bind at 1.
  rewrite (LogoutLogin.storage_ok (getCookie (cart_key A)) _
             (CartItem.list_to_json C) (browser w)).
  2:{ rewrite (getCookie_stored (cart_key A) (JSON_stringify (CartItem.list_to_json C)));
        auto.
      unfold reread. rewrite JsonRoundTrip.JSON_parse_stringify; [reflexivity|].
      apply JsonRoundTrip.cart_unique_keys. }
  cbn [truthy CartItem.list_to_json]. cbv beta iota. unfold modify, as_cart.
  change (JArr (map CartItem.to_json C)) with (CartItem.list_to_json C).
  rewrite JsonRoundTrip.cart_back. destruct w. reflexivity.
Qed.

Lemma synced_new_tab w :
  cart_synced A w ->
  cartItems (snd ((storage clearSession ;;; loadCartForUser A) w)) = cartItems w.
Proof.
  intros (Hu & Hs & Hc & Hj & Hd).
  unfold bind at 1.
  rewrite (LogoutLogin.storage_ok clearSession w tt
             (set_sessionStorage empty (browser w))).
  2:{ unfold clearSession, try_catch, sessionStorage_clear. rewrite Hs. reflexivity. }
  destruct Hd as [(_ & _ & _ & _ & H5) | (He & N1 & N2)].
  - rewrite (load_from_cookie (cartItems w)); auto.
  - assert (Hsync : cart_synced A (set_browser (set_sessionStorage empty (browser w)) w)).
    { unfold cart_synced. cbn. repeat split; auto. right. split; [exact He|].
      split; [apply lookup_empty | exact N2]. }
    rewrite (synced_reload _ Hsync). reflexivity.
Qed.

End SignedIn.

(** For a signed-in user whose stored cart is the cart in memory, both
    tiers working: after every sequence of cart operations the stored
    cart is again the cart in memory.  Reloading it from storage changes
    nothing, and a reload with the session tier emptied, as in a new tab,
    finds the same lines in the cookie. *)
Theorem stored_cart_follows_the_cart (A : string) (ops : list cart_op) (w : World) :
  String.eqb A "" = false -> cookie_name (CART_STORAGE_PREFIX +:+ A) = true ->
  cart_synced A w ->
  let w' := snd (run_ops ops w) in
  fst (run_ops ops w) = Ok tt
  /\ cart_synced A w'
  /\ loadCartForUser A w' = (Ok tt, w')
  /\ cartItems (snd ((storage clearSession ;;; loadCartForUser A) w')) = cartItems w'.
Proof.
  intros HA Hkey Hsync w'.
  destruct (synced_run A HA Hkey ops w Hsync) as (H1 & H2).
  split; [exact H1|]. split; [exact H2|]. split.
  - apply (synced_reload A HA Hkey). exact H2.
  - apply (synced_new_tab A HA Hkey). exact H2.
Qed.

Lemma stored_cart_follows_the_cart_witness :
  cartItems
    (snd ((storage clearSession ;;; loadCartForUser "A")
            (snd (run_ops [Add ticket 2; Add popcorn 1; Increment "p1"] signed_in))))
  = cartItems (snd (run_ops [Add ticket 2; Add popcorn 1; Increment "p1"] signed_in)).
Proof.
  assert (Hsync : cart_synced "A" signed_in).
  { unfold cart_synced. repeat split. right. repeat split. }
  destruct (stored_cart_follows_the_cart "A"
              [Add ticket 2; Add popcorn 1; Increment "p1"] signed_in
              eq_refl eq_refl Hsync) as (_ & _ & _ & H).
  exact H.
Defined.

(** ** Nobody signed in: nothing is stored *)

Lemma guest_save w :
  truthy_str (cartUserId w) = false -> saveCartToStorage w = (Ok tt, w).
Proof.
  intros H. unfold saveCartToStorage, bind, gets. rewrite H. reflexivity.
Qed.

Lemma guest_step (m : SE World unit) w items' :
  saves_or_keeps m w items' -> truthy_str (cartUserId w) = false ->
  exists b, m w = (Ok tt, set_browser b (set_cartItems items' w))
            /\ same_store (browser w) b.
Proof.
  intros [E | (-> & b & E & Hsame)] Hg.
  - exists (browser w). split; [|apply LogoutLogin.same_store_refl].
    rewrite E. unfold bind, modify. rewrite guest_save by exact Hg.
    destruct w. reflexivity.
  - exists b. split; [|exact Hsame]. rewrite E, set_cartItems_same. reflexivity.
Qed.

Lemma guest_run ops w :
  truthy_str (cartUserId w) = false ->
  exists b, run_ops ops w
            = (Ok tt, set_browser b
                        (set_cartItems (fold_left (fun l o => after o l) ops (cartItems w)) w))
            /\ same_store (browser w) b.
Proof.
  revert w. induction ops as [|o ops IH]; intros w Hg.
  - exists (browser w). split; [|apply LogoutLogin.same_store_refl].
    cbn. rewrite set_cartItems_same, set_browser_same. reflexivity.
  - unfold run_ops. cbn [forEach fold_left]. unfold bind.
    destruct (guest_step _ _ _ (run_op_saves o w) Hg) as (b & -> & Hsame).
    destruct (IH (set_browser b (set_cartItems (after o (cartItems w)) w)) Hg)
      as (b' & E & Hsame').
    unfold run_ops in E. rewrite E. exists b'. split; [reflexivity|].
    eapply LogoutLogin.same_store_trans; eauto.
Qed.

(** With nobody signed in, no sequence of cart operations writes to
    either tier: the lines change in memory only, both tiers hold what
    they held, and loading the cart from storage gives the empty cart. *)
Theorem guest_cart_is_never_stored (ops : list cart_op) (w : World) :
  truthy_str (cartUserId w) = false ->
  let w' := snd (run_ops ops w) in
  fst (run_ops ops w) = Ok tt
  /\ cartItems w' = fold_left (fun l o => after o l) ops (cartItems w)
  /\ sessionStorage (browser w') = sessionStorage (browser w)
  /\ cookieJar (browser w') = cookieJar (browser w)
  /\ cartItems (snd (loadCartFromStorage w')) = [].
Proof.
  intros Hg w'. destruct (guest_run ops w Hg) as (b & E & S1 & S2 & _).
  unfold w'. rewrite E. cbn [fst snd].
  split; [reflexivity|]. split; [reflexivity|].
  split; [exact S1|]. split; [exact S2|].
  unfold loadCartFromStorage, bind, gets. cbn [cartUserId set_browser set_cartItems].
  rewrite Hg. reflexivity.
Qed.

Lemma guest_cart_is_never_stored_witness :
  let w' := snd (run_ops [Add ticket 2; Add popcorn 1] (guest [] [])) in
  cartItems w' = [CartItem.of_product ticket 2; CartItem.of_product popcorn 1]
  /\ cookieJar (browser w') = [].
Proof.
  destruct (guest_cart_is_never_stored [Add ticket 2; Add popcorn 1] (guest [] [])
              eq_refl) as (_ & H1 & _ & H2 & _).
  split; [exact H1 | exact H2].
Defined.

(** ** The count and the total *)

Lemma fold_add (f : CartItem.t -> Z) l a :
  fold_left (fun total item => total + f item) l a = a + sum_of f l.
Proof.
  unfold sum_of. revert a. induction l as [|x l IH]; intros a; simpl; [lia|].
  rewrite (IH (a + f x)), (IH (0 + f x)). lia.
Qed.

Lemma sum_of_nil f : sum_of f [] = 0.
Proof. reflexivity. Qed.

Lemma sum_of_cons f x l : sum_of f (x :: l) = f x + sum_of f l.
Proof. unfold sum_of at 1. simpl. rewrite fold_add. lia. Qed.

Lemma sum_of_app f l1 l2 : sum_of f (l1 ++ l2) = sum_of f l1 + sum_of f l2.
Proof.
  induction l1 as [|x l1 IH]; [reflexivity|].
  simpl app. rewrite !sum_of_cons, IH. lia.
Qed.

Lemma sum_of_insert f (l : list CartItem.t) i x y :
  l !! i = Some x -> sum_of f (<[i := y]> l) = sum_of f l - f x + f y.
Proof.
  revert i. induction l as [|z l IH]; intros i Hi; [discriminate|].
  destruct i as [|i]; simpl in *.
  - injection Hi as ->. rewrite !sum_of_cons. lia.
  - rewrite !sum_of_cons, (IH i Hi). lia.
Qed.

Lemma find_insert_first (p : CartItem.t -> bool) l i y :
  findIndex p l = Some i -> p y = true -> List.find p (<[i := y]> l) = Some y.
Proof.
  revert i. induction l as [|z l IH]; intros i Hi Hy; [discriminate|].
  simpl in Hi. destruct (p z) eqn:Hz.
  - injection Hi as <-. simpl. rewrite Hy. reflexivity.
  - destruct (findIndex p l) as [j|] eqn:Hj; [|discriminate].
    injection Hi as <-. simpl. rewrite Hz. apply IH; auto.
Qed.

Lemma sum_of_removed f k l :
  List.NoDup (ids l) ->
  sum_of f (removed k l)
  = sum_of f l - match List.find (has_id k) l with
                 | Some line => f line
                 | None => 0
                 end.
Proof.
  induction l as [|x l IH]; intros Hnd; [reflexivity|].
  inversion Hnd as [|? ? Hx Hl]; subst. unfold removed in *. simpl.
  destruct (has_id k x) eqn:E; simpl.
  - apply has_id_true in E. subst k.
    rewrite sum_of_cons. rewrite IH by exact Hl.
    rewrite (find_absent _ _ Hx). lia.
  - rewrite !sum_of_cons, IH by exact Hl. lia.
Qed.

(** How the count and the total of the cart move.  An [addToCart] that
    is not turned down raises the count by the quantity added and the
    total by that quantity at the price of the line the cart then has for
    the product, which for a product new to the cart is the price quoted.
    In a cart with each product once, [removeFromCart] lowers them by the
    quantity and the value of the line removed. *)
Theorem count_and_total_follow_the_lines (w : World) :
  (forall product quantity,
      let w' := snd (addToCart product quantity w) in
      cartItems w' = cartItems w
      \/ (cartCount w' = cartCount w + quantity
          /\ exists line,
               getCartItem (Product.productId product) w' = Some line
               /\ cartTotal w' = cartTotal w + CartItem.price line * quantity
               /\ (isInCart (Product.productId product) w = false ->
                   CartItem.price line = Product.price product)))
  /\ (forall productId,
         List.NoDup (ids (cartItems w)) ->
         let w' := snd (removeFromCart productId w) in
         isInCart productId w' = false
         /\ cartCount w' = cartCount w - getItemQuantity productId w
         /\ cartTotal w'
            = cartTotal w - match getCartItem productId w with
                            | Some line => CartItem.price line * CartItem.quantity line
                            | None => 0
                            end).
Proof.
  split.
  - intros product quantity w'.
    destruct (addToCart_step product quantity w) as [b E].
    unfold w'. rewrite E. cbn [snd set_browser set_cartItems cartItems].
    unfold cartCount, cartTotal, getCartItem, isInCart.
    cbn [cartItems set_browser set_cartItems].
    fold (sum_of CartItem.quantity (added product quantity (cartItems w))).
    fold (sum_of CartItem.quantity (cartItems w)).
    fold (sum_of (fun item => CartItem.price item * CartItem.quantity item)
            (added product quantity (cartItems w))).
    fold (sum_of (fun item => CartItem.price item * CartItem.quantity item) (cartItems w)).
    generalize (cartItems w). clear. intros items. unfold added.
    destruct (findIndex _ items) as [i|] eqn:Hf.
    + destruct (findIndex_Some _ _ _ Hf) as (x & Hx & Hp & _). rewrite Hx.
      destruct (_ || _); [left; reflexivity|]. right.
      rewrite !(sum_of_insert _ _ _ _ _ Hx). cbn [CartItem.quantity CartItem.with_quantity
        CartItem.price]. split; [lia|].
      exists (CartItem.with_quantity (CartItem.quantity x + quantity) x).
      split; [apply find_insert_first; [exact Hf | exact Hp]|].
      split; [cbn; lia|].
      intros Habs. apply findIndex_None in Habs. congruence.
    + destruct (_ || _); [left; reflexivity|]. right.
      rewrite !sum_of_app, !sum_of_cons, !sum_of_nil.
      cbn [CartItem.quantity CartItem.of_product CartItem.price]. split; [lia|].
      exists (CartItem.of_product product quantity).
      split.
      * rewrite find_app_cart.
        apply findIndex_None in Hf. apply existsb_has_id_false in Hf.
        rewrite (find_absent _ _ Hf). cbn. unfold has_id. cbn.
        rewrite String.eqb_refl. reflexivity.
      * split; [cbn; lia | reflexivity].
  - intros productId Hnd w'.
    destruct (removeFromCart_step productId w) as [b E].
    unfold w'. rewrite E. cbn [snd].
    unfold cartCount, cartTotal, getItemQuantity, getCartItem, isInCart.
    cbn [cartItems set_browser set_cartItems].
    fold (sum_of CartItem.quantity (removed productId (cartItems w))).
    fold (sum_of CartItem.quantity (cartItems w)).
    fold (sum_of (fun item => CartItem.price item * CartItem.quantity item)
            (removed productId (cartItems w))).
    fold (sum_of (fun item => CartItem.price item * CartItem.quantity item) (cartItems w)).
    rewrite !sum_of_removed by exact Hnd.
    split.
    + apply existsb_has_id_false. unfold removed, ids. intros Hin.
      apply in_map_iff in Hin. destruct Hin as (x & Hid & Hx).
      apply filter_In in Hx. destruct Hx as [_ Hx].
      apply negb_true_iff in Hx. apply has_id_false in Hx. contradiction.
    + destruct (List.find _ (cartItems w)); split; reflexivity.
Qed.

(** ** One step up, one step down *)

Lemma find_findIndex (p : CartItem.t -> bool) l x :
  List.find p l = Some x -> exists i, findIndex p l = Some i /\ l !! i = Some x.
Proof.
  induction l as [|z l IH]; intros H; [discriminate|].
  simpl in *. destruct (p z).
  - injection H as ->. exists O. split; reflexivity.
  - destruct (IH H) as (i & -> & Hi). exists (S i). split; [reflexivity | exact Hi].
Qed.

Lemma find_has_id k l x : List.find (has_id k) l = Some x -> has_id k x = true.
Proof. intros H. apply find_some in H. tauto. Qed.

Lemma updated_line productId quantity items line :
  List.find (has_id productId) items = Some line ->
  0 < quantity -> quantity <= MAX_QUANTITY_PER_ITEM ->
  over_stock (CartItem.maxStock line) quantity = false ->
  List.find (has_id productId) (updated productId quantity items)
  = Some (CartItem.with_quantity quantity line).
Proof.
  intros Hfind H0 H99 Hstock. unfold updated.
  assert ((quantity <=? 0) = false) as -> by (apply Z.leb_gt; lia).
  assert ((quantity >? MAX_QUANTITY_PER_ITEM) = false) as ->
    by (rewrite Z.gtb_ltb; apply Z.ltb_ge; lia).
  destruct (find_findIndex _ _ _ Hfind) as (i & Hi & Hx). rewrite Hi, Hx, Hstock.
  apply find_insert_first; [exact Hi|].
  apply find_has_id in Hfind. exact Hfind.
Qed.

Lemma updated_refused productId quantity items line :
  List.find (has_id productId) items = Some line ->
  0 < quantity ->
  MAX_QUANTITY_PER_ITEM < quantity \/ over_stock (CartItem.maxStock line) quantity = true ->
  updated productId quantity items = items.
Proof.
  intros Hfind H0 Hno. unfold updated.
  assert ((quantity <=? 0) = false) as -> by (apply Z.leb_gt; lia).
  destruct (quantity >? MAX_QUANTITY_PER_ITEM) eqn:E; [reflexivity|].
  destruct Hno as [Hno | Hno].
  { rewrite Z.gtb_ltb in E. apply Z.ltb_ge in E. lia. }
  destruct (find_findIndex _ _ _ Hfind) as (i & Hi & Hx). rewrite Hi, Hx, Hno.
  reflexivity.
Qed.

(** [incrementQuantity] and [decrementQuantity].  For a product that is
    not in the cart both do nothing at all.  For a product in the cart
    with quantity [q] on its line, whatever [q] is.  A step down takes
    the product out of the cart when [q <= 1]; otherwise it leaves the
    cart as it is when [q - 1] is above 99 or above the stock level of
    the line, and else leaves [q - 1] on the line.  A step up takes the
    product out of the cart when [q < 0]; otherwise it leaves the cart as
    it is when [q + 1] is above 99 or above the stock level of the line,
    and else leaves [q + 1] on the line. *)
Theorem stepping_a_quantity (productId : string) (w : World) :
  (getCartItem productId w = None ->
     incrementQuantity productId w = (Ok tt, w)
     /\ decrementQuantity productId w = (Ok tt, w))
  /\ (forall line, getCartItem productId w = Some line ->
        let q := CartItem.quantity line in
        let down := snd (decrementQuantity productId w) in
        let up := snd (incrementQuantity productId w) in
        (q <= 1 ->
           cartItems down = removed productId (cartItems w)
           /\ isInCart productId down = false)
        /\ (1 < q ->
            100 < q \/ over_stock (CartItem.maxStock line) (q - 1) = true ->
            cartItems down = cartItems w)
        /\ (1 < q -> q <= 100 -> over_stock (CartItem.maxStock line) (q - 1) = false ->
            getCartItem productId down = Some (CartItem.with_quantity (q - 1) line))
        /\ (q < 0 ->
            cartItems up = removed productId (cartItems w)
            /\ isInCart productId up = false)
        /\ (0 <= q ->
            99 <= q \/ over_stock (CartItem.maxStock line) (q + 1) = true ->
            cartItems up = cartItems w)
        /\ (0 <= q -> q < 99 -> over_stock (CartItem.maxStock line) (q + 1) = false ->
            getCartItem productId up = Some (CartItem.with_quantity (q + 1) line))).
Proof.
  split.
  - unfold getCartItem, incrementQuantity, decrementQuantity, bind, gets.
    intros ->. split; reflexivity.
  - intros line Hline q down up.
    assert (Hdown : cartItems down = updated productId (q - 1) (cartItems w)).
    { unfold down, decrementQuantity, bind, gets. unfold getCartItem in Hline.
      rewrite Hline. destruct (updateQuantity_step productId (q - 1) w) as [b E].
      fold q. rewrite E. reflexivity. }
    assert (Hup : cartItems up = updated productId (q + 1) (cartItems w)).
    { unfold up, incrementQuantity, bind, gets. unfold getCartItem in Hline.
      rewrite Hline. destruct (updateQuantity_step productId (q + 1) w) as [b E].
      fold q. rewrite E. reflexivity. }
    assert (Hgone : isInCart productId
                      (set_cartItems (removed productId (cartItems w)) w) = false).
    { unfold isInCart. cbn [cartItems set_cartItems].
      apply existsb_has_id_false. unfold removed, ids. intros Hin.
      apply in_map_iff in Hin. destruct Hin as (x & Hid & Hx).
      apply filter_In in Hx. destruct Hx as [_ Hx].
      apply negb_true_iff in Hx. apply has_id_false in Hx. contradiction. }
    unfold getCartItem, isInCart in *. rewrite Hdown, Hup.
    cbn [cartItems set_cartItems] in Hgone.
    split; [|split; [|split; [|split; [|split]]]].
    + intros H1. unfold updated.
      assert ((q - 1 <=? 0) = true) as -> by (apply Z.leb_le; lia).
      split; [reflexivity | exact Hgone].
    + intros H1 H2. apply (updated_refused _ _ _ line); auto; [lia|].
      destruct H2 as [H2|H2]; [left; unfold MAX_QUANTITY_PER_ITEM; lia | right; exact H2].
    + intros H1 H2 H3. apply updated_line; auto; unfold MAX_QUANTITY_PER_ITEM; lia.
    + intros H1. unfold updated.
      assert ((q + 1 <=? 0) = true) as -> by (apply Z.leb_le; lia).
      split; [reflexivity | exact Hgone].
    + intros H1 H2. apply (updated_refused _ _ _ line); auto; [lia|].
      destruct H2 as [H2|H2]; [left; unfold MAX_QUANTITY_PER_ITEM; lia | right; exact H2].
    + intros H1 H2 H3. apply updated_line; auto; unfold MAX_QUANTITY_PER_ITEM; lia.
Qed.

(** ** Emptying the cart for good *)

Lemma clearCart_effect A w :
  String.eqb A "" = false -> cookie_name (CART_STORAGE_PREFIX +:+ A) = true ->
  cartUserId w = Some A ->
  sessionFault (browser w) = false -> cookieFault (browser w) = false ->
  1000 <= now (browser w) ->
  clearCart w
  = (Ok tt,
     set_browser
       (set_cookieJar (jar_remove (cart_key A) (cookieJar (browser w)))
          (set_sessionStorage (delete (cart_key A) (sessionStorage (browser w)))
             (browser w)))
       (set_cartItems [] w)).
Proof.
  intros HA Hkey Hu Hs Hc Hnow.
  unfold clearCart. rewrite LogoutLogin.bind_modify.
  unfold bind at 1. unfold gets at 1. cbn [cartUserId set_cartItems].
  rewrite Hu. change (truthy_str (Some A)) with (negb (String.eqb A "")).
  rewrite HA. cbn [negb]. cbv beta iota.
  unfold bind at 1. rewrite (LogoutLogin.getStorageKey_A A HA) by exact Hu.
  unfold bind at 1.
  rewrite (LogoutLogin.storage_ok (removeSessionItem (cart_key A)) _ tt
             (set_sessionStorage (delete (cart_key A) (sessionStorage (browser w)))
                (browser w))).
  2:{ cbn [browser set_cartItems].
      unfold removeSessionItem, try_catch, sessionStorage_removeItem.
      rewrite Hs. reflexivity. }
  rewrite (LogoutLogin.storage_ok (deleteCookie (cart_key A)) _ tt
             (set_cookieJar (jar_remove (cart_key A) (cookieJar (browser w)))
                (set_sessionStorage (delete (cart_key A) (sessionStorage (browser w)))
                   (browser w)))).
  2:{ cbn [browser set_browser set_cartItems].
      rewrite StorageEdges.deleteCookie_removes; auto. }
  reflexivity.
Qed.

(** [clearCart] for a signed-in user, both tiers working and the clock
    past the first second of 1970: the cart in memory is empty, neither
    tier holds a cart for the user any more, so that loading the cart
    from storage finds none, and what the tiers hold under other keys is
    as it was. *)
Theorem clearCart_forgets_the_stored_cart (A : string) (w : World) :
  String.eqb A "" = false -> cookie_name (CART_STORAGE_PREFIX +:+ A) = true ->
  cartUserId w = Some A ->
  sessionFault (browser w) = false -> cookieFault (browser w) = false ->
  jar_ok (cookieJar (browser w)) = true ->
  1000 <= now (browser w) ->
  let w' := snd (clearCart w) in
  fst (clearCart w) = Ok tt
  /\ cartItems w' = []
  /\ nothing_stored A (browser w')
  /\ loadCartForUser A w' = (Ok tt, w')
  /\ cartItems (snd ((storage clearSession ;;; loadCartForUser A) w')) = []
  /\ (forall k, k <> cart_key A ->
        sessionStorage (browser w') !! k = sessionStorage (browser w) !! k
        /\ JsMap.get k (cookieJar (browser w')) = JsMap.get k (cookieJar (browser w))).
Proof.
  intros HA Hkey Hu Hs Hc Hj Hnow w'.
  unfold w'. rewrite (clearCart_effect A w HA Hkey Hu Hs Hc Hnow). cbn [fst snd].
  set (w1 := set_browser _ (set_cartItems [] w)).
  assert (Hnone : nothing_stored A (browser w1)).
  { split; cbn; [apply lookup_delete_eq | apply StorageEdges.get_removed]. }
  assert (Hsync : cart_synced A w1).
  { unfold cart_synced. cbn.
    split; [exact Hu|]. split; [exact Hs|]. split; [exact Hc|].
    split; [apply jar_ok_remove; exact Hj|].
    right. split; [reflexivity | exact Hnone]. }
  split; [reflexivity|]. split; [reflexivity|]. split; [exact Hnone|].
  split; [apply (synced_reload A HA Hkey); exact Hsync|].
  split; [rewrite (synced_new_tab A HA Hkey w1 Hsync); reflexivity|].
  intros k Hk. cbn. split.
  - apply lookup_delete_ne. congruence.
  - rewrite get_remove.
    assert (String.eqb (cart_key A) k = false) as -> by (apply String.eqb_neq; congruence).
    reflexivity.
Qed.

Lemma clearCart_forgets_the_stored_cart_witness :
  let w := snd (addToCart ticket 2 signed_in) in
  JsMap.get "cart_user_A" (cookieJar (browser w)) <> None
  /\ JsMap.get "cart_user_A" (cookieJar (browser (snd (clearCart w)))) = None.
Proof.
  intros w. split; [vm_compute; discriminate|].
  assert (Hnow : 1000 <= now (browser w)) by (vm_compute; discriminate).
  destruct (clearCart_forgets_the_stored_cart "A" w eq_refl eq_refl eq_refl
              eq_refl eq_refl eq_refl Hnow) as (_ & _ & (_ & H) & _).
  exact H.
Defined.

End CartLines.

(* ================================================================= *)
(** * Requests to the backend: loading and validating *)
Module Backend.
Import Browser CartService CartSpec CartMerge CartBounds Worlds.

(** [loadCartFromBackend] and [loadFavoritesFromBackend].  When the
    request fails the error is printed, the stream delivers the empty
    list, and the collection in memory stays as it was.  When the backend
    answers with a list, that list replaces the collection in memory and
    is saved.  Whatever the reply, the stream delivers a value: it
    neither errors nor throws. *)
Lemma loading_from_the_backend_never_fails :
  (forall e w,
      loadCartFromBackend (HttpError e) w
      = (Ok (Next []), log_error "Error loading cart from backend:" w))
  /\ (forall c w,
      loadCartFromBackend (HttpOk c) w
      = (Ok (Next c), snd (saveCartToStorage (set_cartItems c w)))
      /\ cartItems (snd (loadCartFromBackend (HttpOk c) w)) = c)
  /\ (forall e w,
      FavoriteService.loadFavoritesFromBackend (HttpError e) w
      = (Ok (Next []), log_error "Error loading favorites from backend:" w))
  /\ (forall f w,
      FavoriteService.loadFavoritesFromBackend (HttpOk f) w
      = (Ok (Next f),
         snd (FavoriteService.saveFavoritesToStorage (set_favoriteItems f w)))
      /\ favoriteItems (snd (FavoriteService.loadFavoritesFromBackend (HttpOk f) w)) = f).
Proof.
  assert (Hc : forall c w,
             loadCartFromBackend (HttpOk c) w
             = (Ok (Next c), snd (saveCartToStorage (set_cartItems c w)))).
  { intros c w. destruct (saveCart_frame (set_cartItems c w)) as [b E].
    unfold loadCartFromBackend, catchError, tap, http, bind, ret, try_catch, modify.
    simpl. rewrite E. reflexivity. }
  assert (Hf : forall f w,
             FavoriteService.loadFavoritesFromBackend (HttpOk f) w
             = (Ok (Next f),
                snd (FavoriteService.saveFavoritesToStorage (set_favoriteItems f w)))).
  { intros f w. destruct (saveFavorites_frame (set_favoriteItems f w)) as [b E].
    unfold FavoriteService.loadFavoritesFromBackend, catchError, tap, http, bind,
      ret, try_catch, modify. simpl.
    rewrite Sync.parseFavorites_id, E. reflexivity. }
  split; [reflexivity|]. split; [|split; [reflexivity|]].
  - intros c w. split; [apply Hc|]. rewrite Hc.
    destruct (saveCart_frame (set_cartItems c w)) as [b ->]. reflexivity.
  - intros f w. split; [apply Hf|]. rewrite Hf.
    destruct (saveFavorites_frame (set_favoriteItems f w)) as [b ->]. reflexivity.
Qed.

(** ** [validateCart] *)

Lemma filter_twice {A} (f g : A -> bool) (l : list A) :
  List.filter f (List.filter g l) = List.filter (fun x => g x && f x) l.
Proof.
  induction l as [|x l IH]; [reflexivity|]. simpl.
  destruct (g x); simpl; [destruct (f x)|]; rewrite ?IH; reflexivity.
Qed.

Lemma removed_all productIds items :
  fold_left (fun l p => removed p l) productIds items
  = List.filter
      (fun item => negb (existsb (String.eqb (CartItem.productId item)) productIds))
      items.
Proof.
  revert items. induction productIds as [|p ps IH]; intros items.
  - simpl. induction items as [|x l IHl]; [reflexivity|]. simpl. rewrite <- IHl at 1.
    reflexivity.
  - cbn [fold_left]. rewrite IH. unfold removed. rewrite filter_twice.
    apply List.filter_ext. intros item. cbn [existsb]. unfold has_id.
    rewrite negb_orb. reflexivity.
Qed.

Lemma forEach_removeFromCart productIds w :
  exists b,
    forEach productIds (fun productId => removeFromCart productId) w
    = (Ok tt,
       set_browser b
         (set_cartItems (fold_left (fun l p => removed p l) productIds (cartItems w)) w)).
Proof.
  revert w. induction productIds as [|p ps IH]; intros w.
  - exists (browser w). cbn. rewrite set_cartItems_same, set_browser_same. reflexivity.
  - cbn [forEach fold_left]. unfold bind.
    destruct (removeFromCart_step p w) as [b ->].
    destruct (IH (set_browser b (set_cartItems (removed p (cartItems w)) w))) as [b' E].
    rewrite E. exists b'. reflexivity.
Qed.

(** [validateCart].  When the request fails the error is printed, the
    cart stays as it is, and the stream delivers [{ valid: true,
    invalidItems: [] }].  When the backend answers, the stream delivers
    the answer; if the answer says the cart is not valid, every line whose
    product id the answer lists is taken out of the cart and the other
    lines stay, in order; otherwise the cart stays as it is. *)
Theorem validateCart_drops_the_listed_lines :
  (forall e w,
      validateCart (HttpError e) w
      = (Ok (Next (CartValidation.mk true [])), log_error "Error validating cart:" w))
  /\ (forall response w,
      let w' := snd (validateCart (HttpOk response) w) in
      fst (validateCart (HttpOk response) w) = Ok (Next response)
      /\ cartItems w'
         = (if CartValidation.valid response then cartItems w
            else List.filter
                   (fun item =>
                      negb (existsb (String.eqb (CartItem.productId item))
                              (CartValidation.invalidItems response)))
                   (cartItems w))
      /\ (CartValidation.valid response = false ->
          forall productId, In productId (CartValidation.invalidItems response) ->
            isInCart productId w' = false)).
Proof.
  split; [reflexivity|].
  intros [valid invalid] w w'.
  assert (E : exists b,
             validateCart (HttpOk (CartValidation.mk valid invalid)) w
             = (Ok (Next (CartValidation.mk valid invalid)),
                set_browser b
                  (set_cartItems
                     (if valid then cartItems w
                      else List.filter
                             (fun item =>
                                negb (existsb (String.eqb (CartItem.productId item)) invalid))
                             (cartItems w)) w))).
  { unfold validateCart, catchError, tap, http. unfold bind at 1 2. unfold ret at 1.
    cbn [CartValidation.valid CartValidation.invalidItems]. unfold try_catch, bind.
    destruct valid; cbn [negb andb].
    - exists (browser w). rewrite set_cartItems_same, set_browser_same. reflexivity.
    - destruct invalid as [|p ps].
      + exists (browser w). rewrite <- (removed_all [] (cartItems w)).
        cbn [fold_left]. rewrite set_cartItems_same, set_browser_same. reflexivity.
      + assert ((0 <? Z.of_nat (length (p :: ps))) = true) as ->
          by (apply Z.ltb_lt; cbn [length]; lia).
        destruct (forEach_removeFromCart (p :: ps) w) as [b ->].
        rewrite removed_all. exists b. reflexivity. }
  destruct E as [b E]. unfold w'. rewrite E. cbn [fst snd].
  split; [reflexivity|]. split; [reflexivity|].
  cbn [CartValidation.valid CartValidation.invalidItems]. intros -> productId Hin.
  unfold isInCart. cbn [cartItems set_browser set_cartItems].
  apply existsb_has_id_false. unfold ids. intros Hin'.
  apply in_map_iff in Hin'. destruct Hin' as (x & Hid & Hx).
  apply filter_In in Hx. destruct Hx as [_ Hx].
  apply negb_true_iff in Hx.
  assert (existsb (String.eqb (CartItem.productId x)) invalid = true); [|congruence].
  apply existsb_exists. exists productId. split; [exact Hin|].
  apply String.eqb_eq. exact Hid.
Qed.

End Backend.

(* ================================================================= *)
(** * The favorites: toggling, bulk changes and order *)
Module FavoriteLists.
Import Browser FavoriteService FavoriteSpec Favorites FavoriteOps Worlds.

Lemma set_favoriteItems_same w : set_favoriteItems (favoriteItems w) w = w.
Proof. destruct w. reflexivity. Qed.

(** What a method does to the favorites: it returns, leaves [items'] as
    the favorites, and touches only the browser besides. *)
Lemma removeFromFavorites_items productId w :
  exists b,
    removeFromFavorites productId w
    = (Ok tt,
       set_browser b
         (set_favoriteItems
            (List.filter (fun item => negb (has_id productId item)) (favoriteItems w)) w)).
Proof.
  unfold removeFromFavorites, bind, gets, modify.
  destruct (saveFavorites_frame
              (set_favoriteItems
                 (List.filter (fun item => negb (has_id productId item)) (favoriteItems w)) w))
    as [b E].
  rewrite E. exists b. reflexivity.
Qed.

Lemma not_favorite_after_filter productId (items : list FavoriteItem.t) :
  existsb (has_id productId)
    (List.filter (fun item => negb (has_id productId item)) items) = false.
Proof.
  induction items as [|x l IH]; [reflexivity|]. simpl.
  destruct (has_id productId x) eqn:E; simpl; [exact IH|]. rewrite E. exact IH.
Qed.

Lemma filter_not_present productId (items : list FavoriteItem.t) :
  existsb (has_id productId) items = false ->
  List.filter (fun item => negb (has_id productId item)) items = items.
Proof.
  induction items as [|x l IH]; [reflexivity|]. simpl.
  destruct (has_id productId x); [discriminate|]. simpl. intros H. rewrite IH; auto.
Qed.

Lemma toggleFavorite_items product w :
  exists b,
    toggleFavorite product w
    = (Ok tt,
       set_browser b
         (set_favoriteItems (toggled product (now (browser w)) (favoriteItems w)) w)).
Proof.
  unfold toggleFavorite, bind at 1, gets at 1, toggled, isFavorite.
  destruct (existsb _ (favoriteItems w)) eqn:Hfav.
  - apply removeFromFavorites_items.
  - apply addToFavorites_fresh. exact Hfav.
Qed.

Lemma present_after_append productId (x : FavoriteItem.t) items :
  FavoriteItem.productId x = productId ->
  existsb (has_id productId) (items ++ [x]) = true.
Proof.
  intros H. rewrite existsb_app. cbn. unfold has_id at 2. rewrite H, String.eqb_refl.
  apply orb_true_r.
Qed.

Lemma filter_drops_last productId (x : FavoriteItem.t) items :
  FavoriteItem.productId x = productId ->
  List.filter (fun item => negb (has_id productId item)) (items ++ [x])
  = List.filter (fun item => negb (has_id productId item)) items.
Proof.
  intros H. rewrite List.filter_app. cbn. unfold has_id at 2.
  rewrite H, String.eqb_refl. cbn. apply app_nil_r.
Qed.

(** [toggleFavorite] called twice for the same product.  The first call
    flips whether the product is a favorite and the second flips it back.
    A product that was not a favorite leaves the list exactly as it was.
    A product that was a favorite comes back as a new entry at the end of
    the list, stamped with the time of the second call: the entry it had,
    and its [addedAt], are gone. *)
Theorem toggling_twice (product : Product.t) (w : World) :
  let productId := Product.productId product in
  let w1 := snd (toggleFavorite product w) in
  let w2 := snd (toggleFavorite product w1) in
  isFavorite productId w1 = negb (isFavorite productId w)
  /\ isFavorite productId w2 = isFavorite productId w
  /\ favoriteItems w2
     = (if isFavorite productId w
        then List.filter (fun item => negb (has_id productId item)) (favoriteItems w)
             ++ [FavoriteItem.of_product product (now (browser w1))]
        else favoriteItems w).
Proof.
  intros productId w1 w2.
  destruct (toggleFavorite_items product w) as [b E].
  assert (E1 : w1 = set_browser b
                      (set_favoriteItems
                         (toggled product (now (browser w)) (favoriteItems w)) w))
    by (unfold w1; rewrite E; reflexivity).
  destruct (toggleFavorite_items product w1) as [b' E'].
  assert (E2 : favoriteItems w2
               = toggled product (now (browser w1)) (favoriteItems w1))
    by (unfold w2; rewrite E'; reflexivity).
  assert (F1 : favoriteItems w1 = toggled product (now (browser w)) (favoriteItems w))
    by (rewrite E1; reflexivity).
  unfold isFavorite. rewrite E2, F1. clear. unfold toggled. fold productId.
  generalize (favoriteItems w) (now (browser w)) (now (browser w1)).
  intros items t t'.
  destruct (existsb (has_id productId) items) eqn:Hfav.
  - rewrite not_favorite_after_filter.
    split; [reflexivity|]. split; [|reflexivity].
    apply present_after_append. reflexivity.
  - rewrite present_after_append by reflexivity.
    split; [reflexivity|]. split; [apply not_favorite_after_filter|].
    rewrite filter_drops_last by reflexivity.
    apply filter_not_present. exact Hfav.
Qed.

(** ** Every mutation, one by one *)

Lemma run_fav_op_items o w :
  exists b,
    run_fav_op o w
    = (Ok tt,
       set_browser b
         (set_favoriteItems (fav_after (now (browser w)) o (favoriteItems w)) w)).
Proof.
  destruct o as [product|productId|product|products|productIds|serverFavorites];
    cbn [run_fav_op fav_after].
  - destruct (existsb (has_id (Product.productId product)) (favoriteItems w)) eqn:E.
    + rewrite (addToFavorites_present _ _ E). exists (browser w).
      rewrite set_favoriteItems_same, set_browser_same. reflexivity.
    + apply addToFavorites_fresh. exact E.
  - apply removeFromFavorites_items.
  - apply toggleFavorite_items.
  - unfold addMultipleToFavorites, bind at 1, gets at 1, bind at 1, storage, lift, Date_now.
    cbn [gets fst snd]. rewrite set_browser_same.
    set (news := map _ (List.filter _ products)).
    clearbody news. destruct news as [|x rest].
    + exists (browser w). cbn. rewrite app_nil_r, set_favoriteItems_same, set_browser_same.
      reflexivity.
    + assert ((0 <? Z.of_nat (length (x :: rest))) = true) as ->
        by (apply Z.ltb_lt; cbn [length]; lia).
      unfold bind, modify.
      destruct (saveFavorites_frame
                  (set_favoriteItems (favoriteItems w ++ x :: rest) w)) as [b E].
      rewrite E. exists b. reflexivity.
  - unfold removeMultipleFromFavorites, bind, gets, modify.
    destruct (saveFavorites_frame
                (set_favoriteItems
                   (List.filter
                      (fun item =>
                         negb (existsb (String.eqb (FavoriteItem.productId item)) productIds))
                      (favoriteItems w)) w)) as [b E].
    rewrite E. exists b. reflexivity.
  - unfold mergeFavoritesOnLogin, bind, gets, modify.
    destruct (saveFavorites_frame
                (set_favoriteItems (merge serverFavorites (favoriteItems w)) w)) as [b E].
    rewrite E. exists b. reflexivity.
Qed.

Lemma NoDup_fav_ids_filter (q : FavoriteItem.t -> bool) (l : list FavoriteItem.t) :
  List.NoDup (ids l) -> List.NoDup (ids (List.filter q l)).
Proof.
  induction l as [|x l IH]; intros H; [constructor|].
  inversion H as [|? ? Hx Hl]; subst. simpl. destruct (q x); [|auto].
  simpl. constructor; [|auto].
  intros Hin. apply Hx. unfold ids in *. apply in_map_iff in Hin.
  destruct Hin as (y & Hy & Hin). apply filter_In in Hin.
  apply in_map_iff. exists y. tauto.
Qed.

Lemma NoDup_ids_append (items : list FavoriteItem.t) x :
  List.NoDup (ids items) -> ~ In (FavoriteItem.productId x) (ids items) ->
  List.NoDup (ids (items ++ [x])).
Proof.
  intros H Hx. unfold ids. rewrite map_app. simpl.
  apply NoDup_ListNoDup. apply NoDup_app. repeat split.
  - apply NoDup_ListNoDup. exact H.
  - intros y Hy Hy'. apply list_elem_of_In in Hy. apply list_elem_of_In in Hy'.
    simpl in Hy'. destruct Hy' as [<-|[]]. contradiction.
  - apply NoDup_singleton.
Qed.

Lemma NoDup_ids_bulk t products (items : list FavoriteItem.t) :
  List.NoDup (ids items) -> List.NoDup (map Product.productId products) ->
  List.NoDup
    (ids (items
          ++ map (fun product => FavoriteItem.of_product product t)
               (List.filter
                  (fun product =>
                     negb (existsb (has_id (Product.productId product)) items))
                  products))).
Proof.
  intros Hit Hps. unfold ids. rewrite map_app, map_map. cbn [FavoriteItem.productId
    FavoriteItem.of_product].
  apply NoDup_ListNoDup. apply NoDup_app. repeat split.
  - apply NoDup_ListNoDup. exact Hit.
  - intros y Hy Hy'. apply list_elem_of_In in Hy. apply list_elem_of_In in Hy'.
    apply in_map_iff in Hy'. destruct Hy' as (p & <- & Hp).
    apply filter_In in Hp. destruct Hp as [_ Hp]. apply negb_true_iff in Hp.
    apply favorite_absent_iff in Hp. contradiction.
  - apply NoDup_ListNoDup. clear Hit. induction products as [|p ps IH]; [constructor|].
    inversion Hps as [|? ? Hp Hrest]; subst. simpl.
    destruct (negb _); [|auto]. simpl. constructor; [|auto].
    intros Hin. apply Hp. apply in_map_iff in Hin. destruct Hin as (q & Hq & Hin).
    apply filter_In in Hin. apply in_map_iff. exists q. tauto.
Qed.

Lemma fav_after_unique t o items :
  one_each o -> List.NoDup (ids items) -> List.NoDup (ids (fav_after t o items)).
Proof.
  intros Ho H.
  destruct o as [product|productId|product|products|productIds|serverFavorites];
    cbn [fav_after].
  - destruct (existsb _ items) eqn:E; [exact H|].
    apply NoDup_ids_append; [exact H|]. apply favorite_absent_iff. exact E.
  - apply NoDup_fav_ids_filter. exact H.
  - unfold toggled. destruct (existsb _ items) eqn:E.
    + apply NoDup_fav_ids_filter. exact H.
    + apply NoDup_ids_append; [exact H|]. apply favorite_absent_iff. exact E.
  - apply NoDup_ids_bulk; [exact H | exact Ho].
  - apply NoDup_fav_ids_filter. exact H.
  - apply (FavoritesMerge.merge_earliest_wins serverFavorites items).
Qed.

(** No sequence of [addToFavorites], [removeFromFavorites],
    [toggleFavorite], [removeMultipleFromFavorites],
    [mergeFavoritesOnLogin], and [addMultipleToFavorites] with a list
    that names no product twice, gives a product a second entry: every
    call returns, and favorites with each product id once stay so.  A
    list that names a product twice is not covered:
    [addMultipleToFavorites] compares with the favorites it finds, not
    with the entries it is about to add, and adds both. *)
Theorem favorites_stay_unique (ops : list fav_op) (w : World) :
  List.NoDup (ids (favoriteItems w)) -> Forall one_each ops ->
  fst (run_fav_ops ops w) = Ok tt
  /\ List.NoDup (ids (favoriteItems (snd (run_fav_ops ops w))))
  /\ favoriteIds
       (snd (run_fav_ops [AddManyFav [Scenes.dune; Scenes.dune]] (guest [] [])))
     = ["p1"; "p1"].
Proof.
  intros H Hops. split; [|split; [|reflexivity]].
  - clear H Hops. revert w. induction ops as [|o ops IH]; intros w; [reflexivity|].
    unfold run_fav_ops. cbn [forEach]. unfold bind.
    destruct (run_fav_op_items o w) as [b ->]. apply IH.
  - revert w H. induction Hops as [|o ops Ho _ IH]; intros w H; [exact H|].
    unfold run_fav_ops. cbn [forEach]. unfold bind.
    destruct (run_fav_op_items o w) as [b ->]. apply IH.
    cbn [favoriteItems set_browser set_favoriteItems].
    apply fav_after_unique; assumption.
Qed.

Lemma favorites_stay_unique_witness :
  List.NoDup
    (ids (favoriteItems
            (snd (run_fav_ops
                    [AddFav Scenes.dune; ToggleFav Scenes.heat;
                     AddManyFav [Scenes.dune; Scenes.alien]; RemoveFav "p2";
                     MergeFav [server_fav]]
                    signed_in)))).
Proof.
  assert (H0 : List.NoDup (ids (favoriteItems signed_in))) by constructor.
  assert (Hops : Forall one_each
                   [AddFav Scenes.dune; ToggleFav Scenes.heat;
                    AddManyFav [Scenes.dune; Scenes.alien]; RemoveFav "p2";
                    MergeFav [server_fav]]).
  { repeat constructor; simpl; intuition discriminate. }
  destruct (favorites_stay_unique _ signed_in H0 Hops) as (_ & H & _).
  exact H.
Defined.

(** ** Bulk changes *)

(** [addMultipleToFavorites].  The favorites there were stay, in order,
    at the head of the list; every product of the call is a favorite
    afterwards; every entry is one there was or one made from a product
    of the call at the time of the call; and calling it again with the
    same products changes nothing at all. *)
Theorem adding_many (products : list Product.t) (w : World) :
  let w1 := snd (addMultipleToFavorites products w) in
  (exists news, favoriteItems w1 = favoriteItems w ++ news)
  /\ (forall product, In product products ->
        isFavorite (Product.productId product) w1 = true)
  /\ (forall x, In x (favoriteItems w1) ->
        In x (favoriteItems w)
        \/ exists product,
             In product products
             /\ x = FavoriteItem.of_product product (now (browser w)))
  /\ addMultipleToFavorites products w1 = (Ok tt, w1).
Proof.
  intros w1.
  destruct (run_fav_op_items (AddManyFav products) w) as [b E].
  cbn [run_fav_op fav_after] in E.
  set (news := map (fun product => FavoriteItem.of_product product (now (browser w)))
                 (List.filter
                    (fun product =>
                       negb (existsb (has_id (Product.productId product)) (favoriteItems w)))
                    products)) in *.
  assert (E1 : w1 = set_browser b (set_favoriteItems (favoriteItems w ++ news) w))
    by (unfold w1; rewrite E; reflexivity).
  assert (Hall : forall product, In product products ->
                   isFavorite (Product.productId product) w1 = true).
  { intros product Hin. rewrite E1. unfold isFavorite.
    cbn [favoriteItems set_browser set_favoriteItems]. rewrite existsb_app.
    destruct (existsb (has_id (Product.productId product)) (favoriteItems w)) eqn:Ex;
      [reflexivity|].
    apply favorite_present_iff. unfold ids, news. rewrite map_map.
    apply in_map_iff. exists product. split; [reflexivity|].
    apply filter_In. split; [exact Hin|]. rewrite Ex. reflexivity. }
  split; [exists news; rewrite E1; reflexivity|].
  split; [exact Hall|]. split.
  - intros x Hx. rewrite E1 in Hx. cbn [favoriteItems set_browser set_favoriteItems] in Hx.
    apply in_app_iff in Hx. destruct Hx as [Hx|Hx]; [left; exact Hx|]. right.
    unfold news in Hx. apply in_map_iff in Hx. destruct Hx as (p & <- & Hp).
    apply filter_In in Hp. exists p. split; [tauto | reflexivity].
  - unfold addMultipleToFavorites, bind at 1, gets at 1, bind at 1, storage, lift, Date_now.
    cbn [gets fst snd]. rewrite set_browser_same.
    assert (List.filter
              (fun product =>
                 negb (existsb (has_id (Product.productId product)) (favoriteItems w1)))
              products = []) as ->; [|reflexivity].
    clear -Hall. clearbody w1. induction products as [|p ps IH]; [reflexivity|].
    simpl. unfold isFavorite in Hall. rewrite (Hall p) by (left; reflexivity).
    simpl. apply IH. intros q Hq. apply Hall. right. exact Hq.
Qed.

Lemma filter_filter_ids productId productIds (items : list FavoriteItem.t) :
  List.filter
    (fun item => negb (existsb (String.eqb (FavoriteItem.productId item)) productIds))
    (List.filter (fun item => negb (has_id productId item)) items)
  = List.filter
      (fun item =>
         negb (existsb (String.eqb (FavoriteItem.productId item)) (productId :: productIds)))
      items.
Proof.
  rewrite Backend.filter_twice. apply List.filter_ext. intros item.
  cbn [existsb]. unfold has_id. rewrite negb_orb. reflexivity.
Qed.

Lemma forEach_removeFromFavorites productIds w :
  exists b,
    forEach productIds (fun productId => removeFromFavorites productId) w
    = (Ok tt,
       set_browser b
         (set_favoriteItems
            (List.filter
               (fun item =>
                  negb (existsb (String.eqb (FavoriteItem.productId item)) productIds))
               (favoriteItems w)) w)).
Proof.
  revert w. induction productIds as [|p ps IH]; intros w.
  - exists (browser w). cbn [forEach existsb negb].
    assert (List.filter (fun _ : FavoriteItem.t => true) (favoriteItems w) = favoriteItems w)
      as ->.
    { induction (favoriteItems w) as [|x l IHl]; [reflexivity|]. simpl. rewrite IHl.
      reflexivity. }
    rewrite set_favoriteItems_same, set_browser_same. reflexivity.
  - cbn [forEach]. unfold bind.
    destruct (removeFromFavorites_items p w) as [b ->].
    destruct (IH (set_browser b
                    (set_favoriteItems
                       (List.filter (fun item => negb (has_id p item)) (favoriteItems w)) w)))
      as [b' E].
    rewrite E. exists b'. cbn [favoriteItems set_browser set_favoriteItems].
    rewrite filter_filter_ids. reflexivity.
Qed.

Lemma find_filter_keep (p q : FavoriteItem.t -> bool) (l : list FavoriteItem.t) :
  (forall x, p x = true -> q x = true) ->
  List.find p (List.filter q l) = List.find p l.
Proof.
  intros H. induction l as [|x l IH]; [reflexivity|]. simpl.
  destruct (q x) eqn:Hq; simpl.
  - destruct (p x); [reflexivity | exact IH].
  - destruct (p x) eqn:Hp; [|exact IH]. rewrite (H x Hp) in Hq. discriminate.
Qed.

(** [removeMultipleFromFavorites] leaves the favorites that removing the
    listed products one by one with [removeFromFavorites] leaves: none of
    the listed products is a favorite afterwards, and the entry of every
    other product is as it was. *)
Theorem removing_many (productIds : list string) (w : World) :
  let w' := snd (removeMultipleFromFavorites productIds w) in
  favoriteItems w'
  = favoriteItems
      (snd (forEach productIds (fun productId => removeFromFavorites productId) w))
  /\ (forall productId, In productId productIds -> isFavorite productId w' = false)
  /\ (forall productId, ~ In productId productIds ->
        getFavoriteItem productId w' = getFavoriteItem productId w).
Proof.
  intros w'.
  destruct (run_fav_op_items (RemoveManyFav productIds) w) as [b E].
  cbn [run_fav_op fav_after] in E.
  destruct (forEach_removeFromFavorites productIds w) as [b' E'].
  unfold w'. rewrite E, E'. cbn [snd favoriteItems set_browser set_favoriteItems].
  split; [reflexivity|]. split.
  - intros productId Hin. unfold isFavorite.
    cbn [favoriteItems set_browser set_favoriteItems].
    apply favorite_absent_iff. unfold ids. intros Hin'.
    apply in_map_iff in Hin'. destruct Hin' as (x & Hid & Hx).
    apply filter_In in Hx. destruct Hx as [_ Hx]. apply negb_true_iff in Hx.
    assert (existsb (String.eqb (FavoriteItem.productId x)) productIds = true);
      [|congruence].
    apply existsb_exists. exists productId. split; [exact Hin|].
    apply String.eqb_eq. exact Hid.
  - intros productId Hout. unfold getFavoriteItem.
    cbn [favoriteItems set_browser set_favoriteItems].
    apply find_filter_keep. intros x Hx. apply favorite_has_id_true in Hx.
    apply negb_true_iff. destruct (existsb _ productIds) eqn:Ex; [|reflexivity].
    apply existsb_exists in Ex. destruct Ex as (y & Hy & Heq).
    apply String.eqb_eq in Heq. subst. contradiction.
Qed.

(** ** Order *)

Section Sorting.
Context {A : Type} (key : A -> Z) (compare : A -> A -> Z) (R : A -> A -> Prop).
Hypothesis compare_R : forall a b, compare a b <= 0 <-> R a b.
Hypothesis compare_eq : forall a b, key a = key b -> compare a b <= 0.
Hypothesis R_total : forall a b, R a b \/ R b a.
Hypothesis R_trans : forall a b c, R a b -> R b c -> R a c.

Lemma sort_insert_perm x l : Permutation (sort_insert compare x l) (x :: l).
Proof.
  induction l as [|y l IH]; [reflexivity|]. simpl.
  destruct (compare x y <=? 0); [reflexivity|].
  rewrite IH. apply perm_swap.
Qed.

Lemma sort_perm l : Permutation (sort compare l) l.
Proof.
  induction l as [|x l IH]; [reflexivity|].
  unfold sort in *. simpl. rewrite sort_insert_perm. constructor. exact IH.
Qed.

Lemma sort_insert_sorted x l :
  StronglySorted R l -> StronglySorted R (sort_insert compare x l).
Proof.
  induction 1 as [|y l Hl IH Hy]; simpl.
  - constructor; constructor.
  - destruct (compare x y <=? 0) eqn:E.
    + apply Z.leb_le, compare_R in E. constructor.
      * constructor; assumption.
      * constructor; [exact E|]. eapply List.Forall_impl; [|exact Hy].
        intros z Hz. eapply R_trans; eauto.
    + apply Z.leb_gt in E. constructor; [exact IH|].
      assert (Hyx : R y x).
      { destruct (R_total x y) as [H|H]; [|exact H].
        apply compare_R in H. lia. }
      rewrite List.Forall_forall in *. intros z Hz.
      apply (Permutation_in _ (sort_insert_perm x l)) in Hz.
      destruct Hz as [<-|Hz]; [exact Hyx | apply Hy; exact Hz].
Qed.

Lemma sort_sorted l : StronglySorted R (sort compare l).
Proof.
  induction l as [|x l IH]; [constructor|].
  unfold sort in *. simpl. apply sort_insert_sorted. exact IH.
Qed.

Lemma filter_sort_insert t x l :
  List.filter (fun y => key y =? t) (sort_insert compare x l)
  = List.filter (fun y => key y =? t) (x :: l).
Proof.
  induction l as [|y l IH]; [reflexivity|]. cbn [sort_insert].
  destruct (compare x y <=? 0) eqn:E; [reflexivity|].
  apply Z.leb_gt in E. cbn [List.filter] in *. rewrite IH.
  destruct (key x =? t) eqn:Hx, (key y =? t) eqn:Hy; try reflexivity.
  apply Z.eqb_eq in Hx, Hy. pose proof (compare_eq x y ltac:(congruence)). lia.
Qed.

Lemma filter_sort t l :
  List.filter (fun y => key y =? t) (sort compare l)
  = List.filter (fun y => key y =? t) l.
Proof.
  induction l as [|x l IH]; [reflexivity|].
  unfold sort in *. cbn [fold_right]. rewrite filter_sort_insert.
  cbn [List.filter]. rewrite IH. reflexivity.
Qed.

End Sorting.

(** [getFavoritesSorted] gives back the favorites, each as often as it is
    in the list, from the latest to the earliest for ['desc'] and from the
    earliest to the latest for ['asc']; entries added at the same instant
    keep the order they have in the list.  The list in memory is not
    touched. *)
Theorem favorites_sorted_by_date (order : order) (w : World) :
  let sorted := getFavoritesSorted order w in
  Permutation sorted (favoriteItems w)
  /\ match order with
     | desc => latest_first sorted
     | asc => earliest_first sorted
     end
  /\ (forall instant,
        List.filter (fun item => FavoriteItem.addedAt item =? instant) sorted
        = List.filter (fun item => FavoriteItem.addedAt item =? instant)
            (favoriteItems w)).
Proof.
  intros sorted. unfold sorted, getFavoritesSorted, new_Date.
  split; [apply sort_perm|]. split.
  - destruct order; unfold latest_first, earliest_first.
    + apply sort_sorted; intros; lia.
    + apply sort_sorted; intros; lia.
  - intros instant. destruct order.
    + apply (filter_sort FavoriteItem.addedAt). intros a b H. lia.
    + apply (filter_sort FavoriteItem.addedAt). intros a b H. lia.
Qed.

(** ** The stored copy *)

Lemma fav_op_saves o w :
  saves_or_skips (run_fav_op o) w (fav_after (now (browser w)) o (favoriteItems w)).
Proof.
  destruct o as [product|productId|product|products|productIds|serverFavorites];
    cbn [run_fav_op fav_after].
  - destruct (existsb (has_id (Product.productId product)) (favoriteItems w)) eqn:E.
    + left. split; [apply addToFavorites_present; exact E | reflexivity].
    + right. unfold addToFavorites, bind at 1, gets at 1. rewrite E. cbn [negb].
      unfold bind at 1, storage at 1, lift, Date_now. cbn [gets fst snd].
      rewrite set_browser_same. reflexivity.
  - right. reflexivity.
  - unfold saves_or_skips, toggled.
    assert (Ht : toggleFavorite product w
                 = if existsb (has_id (Product.productId product)) (favoriteItems w)
                   then removeFromFavorites (Product.productId product) w
                   else addToFavorites product w).
    { unfold toggleFavorite, bind, gets, isFavorite.
      destruct (existsb _ (favoriteItems w)); reflexivity. }
    rewrite Ht.
    destruct (existsb (has_id (Product.productId product)) (favoriteItems w)) eqn:E.
    + right. reflexivity.
    + right. unfold addToFavorites, bind at 1, gets at 1. rewrite E. cbn [negb].
      unfold bind at 1, storage at 1, lift, Date_now. cbn [gets fst snd].
      rewrite set_browser_same. reflexivity.
  - unfold saves_or_skips.
    set (news := map _ (List.filter _ products)).
    assert (Hm : addMultipleToFavorites products w
                 = if 0 <? Z.of_nat (length news)
                   then (modify (set_favoriteItems (favoriteItems w ++ news)) ;;;
                         saveFavoritesToStorage) w
                   else (Ok tt, w)).
    { unfold addMultipleToFavorites, bind at 1, gets at 1, bind at 1, storage, lift,
        Date_now.
      cbn [gets fst snd]. rewrite set_browser_same. fold news.
      destruct (0 <? Z.of_nat (length news)); reflexivity. }
    rewrite Hm. clear Hm. clearbody news. destruct news as [|x rest].
    + left. split; [reflexivity | apply app_nil_r].
    + right.
      assert ((0 <? Z.of_nat (length (x :: rest))) = true) as ->
        by (apply Z.ltb_lt; cbn [length]; lia).
      reflexivity.
  - right. reflexivity.
  - right. reflexivity.
Qed.

Section SignedIn.
Variable A : string.
Hypothesis A_truthy : String.eqb A "" = false.
Hypothesis A_cookie : StoreSpec.cookie_name (STORAGE_PREFIX +:+ A) = true.

Lemma fav_getStorageKey_A w :
  favUserId w = Some A -> getStorageKey w = (Ok (fav_key A), w).
Proof.
  intros H. unfold getStorageKey, bind, gets, ret. rewrite H, A_truthy. reflexivity.
Qed.

Lemma fav_save_stores w :
  favUserId w = Some A ->
  sessionFault (browser w) = false -> cookieFault (browser w) = false ->
  StoreSpec.jar_ok (cookieJar (browser w)) = true ->
  exists b, saveFavoritesToStorage w = (Ok tt, set_browser b w)
            /\ fav_stored A (favoriteItems w) b.
Proof.
  intros Hu Hs Hc Hj. unfold saveFavoritesToStorage, bind at 1, gets.
  rewrite Hu. change (truthy_str (Some A)) with (negb (String.eqb A "")).
  rewrite A_truthy. cbn [negb]. cbv beta iota.
  unfold try_catch, bind at 1. rewrite (fav_getStorageKey_A w Hu).
  unfold bind at 1, gets. unfold bind, storage, lift.
  rewrite (Cookies.setSessionItem_working _ _ _ Hs). cbn [browser set_browser].
  rewrite Cookies.setCookie_working; [|exact Hc | exact A_cookie | lia].
  eexists. split; [reflexivity|]. unfold fav_stored. simpl.
  split; [exact Hs|]. split; [exact Hc|]. split.
  - apply Cookies.jar_ok_set; [exact A_cookie | apply Cookies.no_semicolon_encoded | exact Hj].
  - split; [apply lookup_insert_eq | apply JsMapFacts.get_set_same].
Qed.

(** What [loadFavoritesForUser] does, given what the two tiers hold. *)
Lemma load_reads w :
  sessionFault (browser w) = false -> cookieFault (browser w) = false ->
  StoreSpec.jar_ok (cookieJar (browser w)) = true ->
  forall F,
    (sessionStorage (browser w) !! fav_key A
     = Some (JSON_stringify (FavoriteItem.list_to_json F))
     \/ (sessionStorage (browser w) !! fav_key A = None
         /\ JsMap.get (fav_key A) (cookieJar (browser w))
            = Some (Uri.encodeURIComponent
                      (JSON_stringify (FavoriteItem.list_to_json F))))
     \/ (sessionStorage (browser w) !! fav_key A = None
         /\ JsMap.get (fav_key A) (cookieJar (browser w)) = None /\ F = [])) ->
    loadFavoritesForUser A w
    = (Ok tt, set_favoriteItems F (set_favUserId (Some A) w)).
Proof.
  intros Hs Hc Hj F Hheld.
  unfold loadFavoritesForUser. rewrite LogoutLogin.bind_modify.
  unfold loadFavoritesFromStorage. unfold bind at 1. unfold gets at 1.
  cbn [favUserId set_favUserId].
  change (truthy_str (Some A)) with (negb (String.eqb A "")). rewrite A_truthy.
  cbn [negb]. cbv beta iota.
  unfold try_catch. unfold bind at 1.
  rewrite fav_getStorageKey_A by reflexivity.
  unfold bind at 1.
  assert (Hback : as_favorites (FavoriteItem.list_to_json F) = F).
  { unfold as_favorites. rewrite JsonRoundTrip.favorites_back. reflexivity. }
  destruct Hheld as [H1 | [(H1 & H2) | (H1 & H2 & ->)]].
  - rewrite (LogoutLogin.storage_ok (getSessionItem (fav_key A)) _
               (FavoriteItem.list_to_json F) (browser w)).
    2:{ apply Cookies.getSessionItem_stored;
          [exact Hs | apply JsonRoundTrip.favorites_unique_keys | exact H1]. }
    cbn [truthy FavoriteItem.list_to_json negb]. cbv beta iota. unfold modify.
    change (JArr (map FavoriteItem.to_json F)) with (FavoriteItem.list_to_json F).
    rewrite Hback, Sync.parseFavorites_id. destruct w. reflexivity.
  - rewrite (LogoutLogin.storage_ok (getSessionItem (fav_key A)) _ JNull (browser w)).
    2:{ apply Cookies.getSessionItem_absent; assumption. }
    cbn [truthy negb]. cbv beta iota. unfold bind at 1.
    rewrite (LogoutLogin.storage_ok (getCookie (fav_key A)) _
               (FavoriteItem.list_to_json F) (browser w)).
    2:{ rewrite (Cookies.getCookie_stored (fav_key A)
                   (JSON_stringify (FavoriteItem.list_to_json F))); auto.
        unfold StoreSpec.reread. rewrite JsonRoundTrip.JSON_parse_stringify; [reflexivity|].
        apply JsonRoundTrip.favorites_unique_keys. }
    cbn [truthy FavoriteItem.list_to_json]. cbv beta iota. unfold modify.
    change (JArr (map FavoriteItem.to_json F)) with (FavoriteItem.list_to_json F).
    rewrite Hback, Sync.parseFavorites_id. destruct w. reflexivity.
  - rewrite (LogoutLogin.storage_ok (getSessionItem (fav_key A)) _ JNull (browser w)).
    2:{ apply Cookies.getSessionItem_absent; assumption. }
    cbn [truthy negb]. cbv beta iota. unfold bind at 1.
    rewrite (LogoutLogin.storage_ok (getCookie (fav_key A)) _ JNull (browser w)).
    2:{ apply Cookies.getCookie_absent; assumption. }
    cbn [truthy]. cbv beta iota. unfold modify. destruct w. reflexivity.
Qed.

Lemma fav_synced_after_save items w :
  fav_synced A w ->
  fst ((modify (set_favoriteItems items) ;;; saveFavoritesToStorage) w) = Ok tt
  /\ fav_synced A (snd ((modify (set_favoriteItems items) ;;; saveFavoritesToStorage) w))
  /\ favoriteItems (snd ((modify (set_favoriteItems items) ;;; saveFavoritesToStorage) w))
     = items.
Proof.
  intros (Hu & Hs & Hc & Hj & _).
  assert (Hm : (modify (set_favoriteItems items) ;;; saveFavoritesToStorage) w
               = saveFavoritesToStorage (set_favoriteItems items w)) by reflexivity.
  rewrite Hm.
  destruct (fav_save_stores (set_favoriteItems items w) Hu Hs Hc Hj) as (b & E & Hst).
  rewrite E. cbn [fst snd]. split; [reflexivity|]. split; [|reflexivity].
  destruct Hst as (H1 & H2 & H3 & H4 & H5).
  unfold fav_synced. cbn.
  split; [exact Hu|]. split; [exact H1|]. split; [exact H2|]. split; [exact H3|].
  left. repeat split; assumption.
Qed.

Lemma fav_synced_run ops w :
  fav_synced A w ->
  fst (run_fav_ops ops w) = Ok tt /\ fav_synced A (snd (run_fav_ops ops w)).
Proof.
  revert w. induction ops as [|o ops IH]; intros w Hsync.
  - split; [reflexivity | exact Hsync].
  - unfold run_fav_ops. cbn [forEach]. unfold bind.
    destruct (fav_op_saves o w) as [(E & _) | E]; rewrite E.
    + apply IH. exact Hsync.
    + destruct (fav_synced_after_save (fav_after (now (browser w)) o (favoriteItems w)) w Hsync)
        as (H1 & H2 & _).
      destruct ((modify _ ;;; saveFavoritesToStorage) w) as [r w1].
      cbn [fst snd] in H1, H2. subst r. apply (IH w1 H2).
Qed.

Lemma fav_synced_reload w :
  fav_synced A w ->
  (clearFavoritesOnLogout ;;; loadFavoritesForUser A) w = (Ok tt, w)
  /\ favoriteItems
       (snd ((clearFavoritesOnLogout ;;; storage clearSession ;;; loadFavoritesForUser A) w))
     = favoriteItems w.
Proof.
  intros (Hu & Hs & Hc & Hj & Hd).
  assert (Hw : forall b,
             set_favoriteItems (favoriteItems w)
               (set_favUserId (Some A)
                  (set_browser b (set_favUserId None (set_favoriteItems [] w))))
             = set_browser b w).
  { intros b. destruct w. cbn in *. subst. reflexivity. }
  assert (Hclear : clearFavoritesOnLogout w
                   = (Ok tt, set_favUserId None (set_favoriteItems [] w)))
    by reflexivity.
  split.
  - rewrite (LogoutLogin.bind_ok _ _ _ _ _ Hclear).
    rewrite (load_reads (set_favUserId None (set_favoriteItems [] w)) Hs Hc Hj
               (favoriteItems w)).
    + rewrite <- (set_browser_same w) at 3. rewrite <- (Hw (browser w)).
      destruct w; reflexivity.
    + cbn [browser set_favUserId set_favoriteItems].
      destruct Hd as [(_ & _ & _ & H4 & _) | (He & N1 & N2)]; [left; exact H4|].
      right. right. auto.
  - rewrite (LogoutLogin.bind_ok _ _ _ _ _ Hclear).
    unfold bind at 1.
    rewrite (LogoutLogin.storage_ok clearSession _ tt
               (set_sessionStorage empty (browser w))).
    2:{ cbn [browser set_favUserId set_favoriteItems].
        unfold clearSession, try_catch, sessionStorage_clear. rewrite Hs. reflexivity. }
    rewrite (load_reads
               (set_browser (set_sessionStorage empty (browser w))
                  (set_favUserId None (set_favoriteItems [] w)))
               Hs Hc Hj (favoriteItems w)); [reflexivity|].
    cbn [browser set_browser set_favUserId set_favoriteItems sessionStorage cookieJar
         set_sessionStorage].
    right. destruct Hd as [(_ & _ & _ & _ & H5) | (He & N1 & N2)].
    + left. split; [apply lookup_empty | exact H5].
    + right. split; [apply lookup_empty|]. auto.
Qed.

End SignedIn.

(** For a signed-in user whose stored favorites are the favorites in
    memory, both tiers working: after every sequence of mutations of the
    favorites the stored favorites are again those in memory.  Clearing
    them as the logout callback does and loading them again as the login
    callback does brings the same state back; the same with the session
    tier emptied in between, as in a new tab, brings the same favorites
    back from the cookie. *)
Theorem stored_favorites_follow_the_favorites (A : string) (ops : list fav_op)
  (w : World) :
  String.eqb A "" = false -> StoreSpec.cookie_name (STORAGE_PREFIX +:+ A) = true ->
  fav_synced A w ->
  let w' := snd (run_fav_ops ops w) in
  fst (run_fav_ops ops w) = Ok tt
  /\ fav_synced A w'
  /\ (clearFavoritesOnLogout ;;; loadFavoritesForUser A) w' = (Ok tt, w')
  /\ favoriteItems
       (snd ((clearFavoritesOnLogout ;;; storage clearSession ;;;
              loadFavoritesForUser A) w'))
     = favoriteItems w'.
Proof.
  intros HA Hkey Hsync w'.
  destruct (fav_synced_run A HA Hkey ops w Hsync) as (H1 & H2).
  destruct (fav_synced_reload A HA Hkey _ H2) as (H3 & H4).
  split; [exact H1|]. split; [exact H2|]. split; [exact H3 | exact H4].
Qed.

Lemma stored_favorites_follow_the_favorites_witness :
  let w' := snd (run_fav_ops [AddFav Scenes.dune; ToggleFav Scenes.heat] signed_in) in
  favoriteItems
    (snd ((clearFavoritesOnLogout ;;; storage clearSession ;;;
           loadFavoritesForUser "A") w'))
  = favoriteItems w'.
Proof.
  assert (Hsync : fav_synced "A" signed_in).
  { unfold fav_synced. repeat split. right. repeat split. }
  destruct (stored_favorites_follow_the_favorites "A"
              [AddFav Scenes.dune; ToggleFav Scenes.heat] signed_in
              eq_refl eq_refl Hsync) as (_ & _ & _ & H).
  exact H.
Defined.

End FavoriteLists.

(* ================================================================= *)
(** * Remote sync: what is in memory and what is stored afterwards *)
Module SyncStores.
Import Browser StoreSpec CartService FavoriteService FavoriteOps SessionSpec Worlds.

Lemma syncCart_stores A c w :
  String.eqb A "" = false -> cookie_name (cart_key A) = true ->
  cartUserId w = Some A -> working (browser w) ->
  exists b,
    CartService.syncCartWithBackend
      (HttpOk {| cart_success := true; cart := Some c |}) w
    = (Ok (Next {| cart_success := true; cart := Some c |}),
       set_browser b (set_cartItems c w))
    /\ stored A c b.
Proof.
  intros HA Hkey Hu (Hs & Hc & Hj). rewrite Sync.syncCart_success.
  destruct (LogoutLogin.save_stores A HA Hkey (set_cartItems c w) Hu Hs Hc Hj)
    as (b & E & Hst).
  exists b. rewrite E. split; [reflexivity | exact Hst].
Qed.

Lemma syncFavorites_stores A f w :
  String.eqb A "" = false -> cookie_name (fav_key A) = true ->
  favUserId w = Some A -> working (browser w) ->
  exists b,
    FavoriteService.syncFavoritesWithBackend
      (HttpOk {| fav_success := true; favorites := Some f |}) w
    = (Ok (Next {| fav_success := true; favorites := Some f |}),
       set_browser b (set_favoriteItems f w))
    /\ fav_stored A f b.
Proof.
  intros HA Hkey Hu (Hs & Hc & Hj). rewrite Sync.syncFavorites_success.
  destruct (FavoriteLists.fav_save_stores A HA Hkey (set_favoriteItems f w) Hu Hs Hc Hj)
    as (b & E & Hst).
  exists b. rewrite E. split; [reflexivity | exact Hst].
Qed.

(** C7.  When the request fails, [syncCartWithBackend] and
    [syncFavoritesWithBackend] print the error and deliver
    [{ success: false }] with the collection in memory, which is left as
    it was, and so is everything else.  When the backend answers
    [{ success: true }] with a collection, that collection replaces the
    one in memory and is saved: for a signed-in user [A] whose key is a
    cookie name, on a browser whose two tiers work, both tiers hold the
    server's collection under the key of [A] afterwards; with no user,
    saving writes nothing, as everywhere.  An answer without
    [success: true] or without a collection changes nothing.  Whatever
    the reply and the browser, the stream delivers a value: it neither
    errors nor throws. *)
Theorem sync_never_throws :
  (forall e w,
      CartService.syncCartWithBackend (HttpError e) w
      = (Ok (Next {| cart_success := false; cart := Some (cartItems w) |}),
         log_error "Error syncing cart with backend:" w)
      /\ cartItems (snd (CartService.syncCartWithBackend (HttpError e) w))
         = cartItems w)
  /\ (forall e w,
      FavoriteService.syncFavoritesWithBackend (HttpError e) w
      = (Ok (Next {| fav_success := false; favorites := Some (favoriteItems w) |}),
         log_error "Error syncing favorites with backend:" w)
      /\ favoriteItems (snd (FavoriteService.syncFavoritesWithBackend (HttpError e) w))
         = favoriteItems w)
  /\ (forall c w,
      CartService.syncCartWithBackend
        (HttpOk {| cart_success := true; cart := Some c |}) w
      = (Ok (Next {| cart_success := true; cart := Some c |}),
         snd (CartService.saveCartToStorage (set_cartItems c w)))
      /\ cartItems (snd (CartService.syncCartWithBackend
                           (HttpOk {| cart_success := true; cart := Some c |}) w))
         = c)
  /\ (forall f w,
      FavoriteService.syncFavoritesWithBackend
        (HttpOk {| fav_success := true; favorites := Some f |}) w
      = (Ok (Next {| fav_success := true; favorites := Some f |}),
         snd (FavoriteService.saveFavoritesToStorage (set_favoriteItems f w)))
      /\ favoriteItems (snd (FavoriteService.syncFavoritesWithBackend
                               (HttpOk {| fav_success := true; favorites := Some f |}) w))
         = f)
  /\ (forall A c w,
      String.eqb A "" = false -> cookie_name (cart_key A) = true ->
      cartUserId w = Some A -> working (browser w) ->
      let w' := snd (CartService.syncCartWithBackend
                       (HttpOk {| cart_success := true; cart := Some c |}) w) in
      cartItems w' = c /\ stored A c (browser w')
      /\ fst (getSessionItem (cart_key A) (browser w')) = Ok (CartItem.list_to_json c)
      /\ fst (getCookie (cart_key A) (browser w')) = Ok (CartItem.list_to_json c))
  /\ (forall A f w,
      String.eqb A "" = false -> cookie_name (fav_key A) = true ->
      favUserId w = Some A -> working (browser w) ->
      let w' := snd (FavoriteService.syncFavoritesWithBackend
                       (HttpOk {| fav_success := true; favorites := Some f |}) w) in
      favoriteItems w' = f /\ fav_stored A f (browser w'))
  /\ (forall c w,
      cartUserId w = None ->
      snd (CartService.syncCartWithBackend
             (HttpOk {| cart_success := true; cart := Some c |}) w)
      = set_cartItems c w)
  /\ (forall f w,
      favUserId w = None ->
      snd (FavoriteService.syncFavoritesWithBackend
             (HttpOk {| fav_success := true; favorites := Some f |}) w)
      = set_favoriteItems f w)
  /\ (forall response w,
      cart_success response = false \/ cart response = None ->
      CartService.syncCartWithBackend (HttpOk response) w = (Ok (Next response), w))
  /\ (forall response w,
      fav_success response = false \/ favorites response = None ->
      FavoriteService.syncFavoritesWithBackend (HttpOk response) w
      = (Ok (Next response), w))
  /\ (forall reply w,
      exists n w', CartService.syncCartWithBackend reply w = (Ok (Next n), w'))
  /\ (forall reply w,
      exists n w',
        FavoriteService.syncFavoritesWithBackend reply w = (Ok (Next n), w')).
Proof.
  split; [|split; [|split; [|split; [|split; [|split; [|split; [|split;
    [|split; [|split; [|split]]]]]]]]]].
  - intros e w. split; reflexivity.
  - intros e w. split; reflexivity.
  - intros c w. split; [apply Sync.syncCart_success|].
    rewrite Sync.syncCart_success.
    destruct (saveCart_frame (set_cartItems c w)) as [b ->]. reflexivity.
  - intros f w. split; [apply Sync.syncFavorites_success|].
    rewrite Sync.syncFavorites_success.
    destruct (saveFavorites_frame (set_favoriteItems f w)) as [b ->]. reflexivity.
  - intros A c w HA Hkey Hu Hw w'.
    destruct (syncCart_stores A c w HA Hkey Hu Hw) as (b & E & Hst).
    unfold w'. rewrite E. cbn [snd browser set_browser cartItems set_cartItems].
    split; [destruct w; reflexivity|]. split; [exact Hst|].
    destruct (LogoutLogin.stored_reads A Hkey c b Hst) as [R1 R2].
    rewrite R1, R2. split; reflexivity.
  - intros A f w HA Hkey Hu Hw w'.
    destruct (syncFavorites_stores A f w HA Hkey Hu Hw) as (b & E & Hst).
    unfold w'. rewrite E. cbn [snd browser set_browser].
    split; [destruct w; reflexivity | exact Hst].
  - intros c w Hu. rewrite Sync.syncCart_success.
    unfold CartService.saveCartToStorage, bind, gets.
    cbn [cartUserId set_cartItems]. rewrite Hu. reflexivity.
  - intros f w Hu. rewrite Sync.syncFavorites_success.
    unfold FavoriteService.saveFavoritesToStorage, bind, gets.
    cbn [favUserId set_favoriteItems]. rewrite Hu. reflexivity.
  - intros [ok [c|]] w [H|H]; cbn in H; subst; try discriminate; reflexivity.
  - intros [ok [c|]] w [H|H]; cbn in H; subst; try discriminate; reflexivity.
  - apply Sync.syncCart_resolves.
  - apply Sync.syncFavorites_resolves.
Qed.

Lemma sync_never_throws_witness :
  stored "A" [server_p1]
    (browser (snd (CartService.syncCartWithBackend
                     (HttpOk {| cart_success := true; cart := Some [server_p1] |})
                     signed_in))).
Proof.
  assert (Hw : working (browser signed_in)) by (repeat split).
  destruct sync_never_throws as (_ & _ & _ & _ & H & _).
  destruct (H "A" [server_p1] signed_in eq_refl eq_refl eq_refl Hw) as (_ & Hst & _).
  exact Hst.
Defined.

End SyncStores.

(* ================================================================= *)
(** * The session: signing in, checking, signing out *)
Module Session.
Import Browser JsMapFacts Cookies StoreSpec JsonSpec AuthService SessionSpec Worlds.

(** ** [toString] and [parseInt] *)

Lemma digits_value_acc d acc :
  digits_value (Z.pos acc) (uint_chars d) = Z.pos (Pos.of_uint_acc d acc).
Proof.
  revert acc. induction d; intros acc; cbn [uint_chars digits_value Pos.of_uint_acc];
    [reflexivity| | | | | | | | | |];
    cbn -[Z.mul Z.add Pos.mul Pos.add];
    rewrite <- IHd; f_equal; lia.
Qed.

Lemma digits_value_uint d :
  digits_value 0 (uint_chars d) = Z.of_N (Pos.of_uint d).
Proof.
  induction d; cbn [uint_chars digits_value Pos.of_uint]; [reflexivity| | | | | | | | | |];
    cbn -[Z.mul Z.add Pos.of_uint_acc Pos.of_uint digits_value];
    try exact IHd;
    rewrite <- digits_value_acc; reflexivity.
Qed.

Lemma is_digit_starts c r : is_digit c = true -> starts_with_digit (c :: r) = true.
Proof.
  unfold is_digit, digit_of.
  repeat match goal with
         | |- context [Ascii.eqb c ?d] =>
             destruct (Ascii.eqb_spec c d) as [->|_]; [reflexivity|]
         end.
  discriminate.
Qed.

Lemma is_digit_plain c :
  is_digit c = true ->
  is_space c = false /\ (c =? "-")%char = false /\ (c =? "+")%char = false.
Proof.
  unfold is_digit, digit_of.
  repeat match goal with
         | |- context [Ascii.eqb c ?d] =>
             destruct (Ascii.eqb_spec c d) as [->|_]; [intros _; repeat split; reflexivity|]
         end.
  discriminate.
Qed.

Lemma parseInt_digits d :
  well_formed_digits d = true ->
  parseInt (JStr (text (uint_chars d))) = Some (Z.of_N (Pos.of_uint d))
  /\ parseInt (JStr (text ("-"%char :: uint_chars d))) = Some (- Z.of_N (Pos.of_uint d)).
Proof.
  intros Hd. destruct (JsonRoundTrip.uint_chars_head _ Hd) as (c & tl & E & Hc).
  unfold parseInt. cbn [js_String]. rewrite !chars_text. split.
  - rewrite E. destruct (is_digit_plain c Hc) as (H1 & H2 & H3).
    cbn [trim_start]. rewrite H1, H2, H3, (is_digit_starts c tl Hc), <- E.
    rewrite digits_value_uint. reflexivity.
  - cbn [trim_start]. change (is_space "-"%char) with false. cbv iota.
    change ("-" =? "-")%char with true. cbv iota.
    rewrite E, (is_digit_starts c tl Hc), <- E.
    rewrite digits_value_uint. reflexivity.
Qed.

(** [parseInt] reads the digits of [n] as [n]. *)
Lemma parseInt_of_digits n : parseInt (JStr (digits n)) = Some n.
Proof.
  unfold digits, print_Z. destruct n as [|p|p]; cbn [Z.to_int].
  - reflexivity.
  - destruct (parseInt_digits _ (JsonRoundTrip.well_formed_to_uint p)) as [-> _].
    rewrite DecimalPos.Unsigned.of_to. reflexivity.
  - destruct (parseInt_digits _ (JsonRoundTrip.well_formed_to_uint p)) as [_ ->].
    rewrite DecimalPos.Unsigned.of_to. reflexivity.
Qed.

Lemma digits_nonempty n : String.eqb (digits n) "" = false.
Proof.
  unfold digits, print_Z. destruct n as [|p|p]; cbn [Z.to_int]; [reflexivity| |reflexivity].
  destruct (JsonRoundTrip.uint_chars_head _ (JsonRoundTrip.well_formed_to_uint p))
    as (c & tl & -> & _).
  reflexivity.
Qed.

(** Below 10^21 [toString] gives the digits, and [parseInt] of the number
    is the number. *)
Lemma toString_digits n : Z.abs n < 10 ^ 21 -> toString n = digits n.
Proof.
  intros H. unfold toString, number_text, digits.
  apply Z.ltb_lt in H. rewrite H. reflexivity.
Qed.

Lemma parseInt_number n : Z.abs n < 10 ^ 21 -> parseInt (JNum n) = Some n.
Proof.
  intros H. pose proof (parseInt_of_digits n) as E.
  unfold parseInt, digits in *. cbn [js_String] in *. rewrite chars_text in E.
  unfold number_text. apply Z.ltb_lt in H. rewrite H. exact E.
Qed.

(** A time that is a date is far below 10^21. *)
Lemma valid_time_range t :
  valid_time t = true -> - MAX_TIME <= t <= MAX_TIME /\ Z.abs t < 10 ^ 21.
Proof.
  unfold valid_time, MAX_TIME. intros H. apply andb_true_iff in H.
  destruct H as [H1 H2]. apply Z.leb_le in H1, H2.
  split; [lia|]. apply Z.abs_lt. split; [|]; lia.
Qed.

(** ** What the callbacks of the caches leave alone *)

Lemma session_untouched_refl w : session_untouched w w.
Proof. repeat split. Qed.

Lemma session_untouched_trans w1 w2 w3 :
  session_untouched w1 w2 -> session_untouched w2 w3 -> session_untouched w1 w3.
Proof.
  intros (A1 & A2 & A3 & A4 & A5 & A6) (B1 & B2 & B3 & B4 & B5 & B6).
  unfold session_untouched. rewrite B1, B2, B3, B4, B5. repeat split; auto.
  all: eapply LogoutLogin.same_store_trans; eauto.
Qed.

Lemma session_ret {A} (a : A) : keeps_session (ret a).
Proof. intros w. apply session_untouched_refl. Qed.

Lemma session_gets {A} (f : World -> A) : keeps_session (gets f).
Proof. intros w. apply session_untouched_refl. Qed.

Lemma session_bind {A B} (m : SE World A) (k : A -> SE World B) :
  keeps_session m -> (forall a, keeps_session (k a)) -> keeps_session (bind m k).
Proof.
  intros Hm Hk w. unfold bind. specialize (Hm w).
  destruct (m w) as [[a|e] w1]; simpl in Hm; [|exact Hm].
  eapply session_untouched_trans; [exact Hm | apply Hk].
Qed.

Lemma session_try_catch {A} (m : SE World A) (h : exn -> SE World A) :
  keeps_session m -> (forall e, keeps_session (h e)) -> keeps_session (try_catch m h).
Proof.
  intros Hm Hh w. unfold try_catch. specialize (Hm w).
  destruct (m w) as [[a|e] w1]; simpl in Hm; [exact Hm|].
  eapply session_untouched_trans; [exact Hm | apply Hh].
Qed.

Lemma session_if {A} (c : bool) (m1 m2 : SE World A) :
  keeps_session m1 -> keeps_session m2 -> keeps_session (if c then m1 else m2).
Proof. destruct c; auto. Qed.

Lemma session_storage {A} (m : SE Browser.t A) :
  reads_only m -> keeps_session (storage m).
Proof.
  intros Hm w. unfold storage, lift. specialize (Hm (browser w)).
  destruct (m (browser w)) as [r b]. simpl in *. repeat split; apply Hm.
Qed.

Lemma session_set_cartItems l : keeps_session (modify (set_cartItems l)).
Proof. intros w. repeat split. Qed.

Lemma session_set_cartUserId u : keeps_session (modify (set_cartUserId u)).
Proof. intros w. repeat split. Qed.

Lemma session_set_favoriteItems l : keeps_session (modify (set_favoriteItems l)).
Proof. intros w. repeat split. Qed.

Lemma session_set_favUserId u : keeps_session (modify (set_favUserId u)).
Proof. intros w. repeat split. Qed.

Create HintDb session.
#[export] Hint Resolve session_ret session_gets session_bind session_try_catch
  session_if session_storage session_set_cartItems session_set_cartUserId
  session_set_favoriteItems session_set_favUserId LogoutLogin.reads_console_error
  LogoutLogin.reads_getSessionItem LogoutLogin.reads_getCookie : session.

Lemma session_login_callback s userId : keeps_session (login_callback s userId).
Proof.
  destruct s; cbn [login_callback].
  - unfold CartService.loadCartForUser, CartService.loadCartFromStorage,
      CartService.getStorageKey.
    auto 12 with session.
  - unfold FavoriteService.loadFavoritesForUser,
      FavoriteService.loadFavoritesFromStorage, FavoriteService.getStorageKey.
    auto 12 with session.
Qed.

Lemma session_logout_callback s : keeps_session (logout_callback s).
Proof.
  destruct s; cbn [logout_callback].
  - unfold CartService.clearCartOnLogout. auto with session.
  - unfold FavoriteService.clearFavoritesOnLogout. auto with session.
Qed.

Lemma session_settle msg (m : SE World unit) w :
  keeps_session m -> session_untouched w (settle msg m w).
Proof.
  intros Hk. unfold settle. specialize (Hk w).
  destruct (m w) as [[[]|e] w']; simpl in Hk; [exact Hk|].
  eapply session_untouched_trans; [exact Hk|].
  repeat split. all: apply LogoutLogin.same_store_log.
Qed.

Lemma session_notifyLogin userId w :
  exists w', notifyLogin userId w = (Ok tt, w') /\ session_untouched w w'.
Proof.
  rewrite Notify.notifyLogin_run. eexists. split; [reflexivity|].
  generalize (onLoginCallbacks w) as l. intros l. revert w.
  induction l as [|s l IH]; intros w; [apply session_untouched_refl|].
  cbn [map fold_left]. eapply session_untouched_trans; [|apply IH].
  apply session_settle. apply session_login_callback.
Qed.

Lemma session_notifyLogout w :
  exists w', notifyLogout w = (Ok tt, w') /\ session_untouched w w'.
Proof.
  rewrite Notify.notifyLogout_run. eexists. split; [reflexivity|].
  generalize (onLogoutCallbacks w) as l. intros l. revert w.
  induction l as [|s l IH]; intros w; [apply session_untouched_refl|].
  cbn [map fold_left]. eapply session_untouched_trans; [|apply IH].
  apply session_settle. apply session_logout_callback.
Qed.

(** ** Signing in *)

Lemma same_store_working b b' : same_store b b' -> working b -> working b'.
Proof.
  intros (S1 & S2 & S3 & S4 & S5) (W1 & W2 & W3). unfold working.
  rewrite S2, S3, S4. auto.
Qed.

Lemma same_store_session res expiry b b' :
  same_store b b' -> session_credentials res expiry b -> session_credentials res expiry b'.
Proof. intros (S1 & _) H. unfold session_credentials. rewrite S1. exact H. Qed.

Lemma same_store_cookies res expiry b b' :
  same_store b b' -> cookie_credentials res expiry b -> cookie_credentials res expiry b'.
Proof. intros (_ & S2 & _) H. unfold cookie_credentials. rewrite S2. exact H. Qed.

(** The expiry is no date: [handleAuthSuccess] throws when it prints the
    expiry, with the user of the reply made the current user and nothing
    else done. *)
Lemma handleAuthSuccess_no_date res w :
  valid_time (expiry_of res (now (browser w))) = false ->
  handleAuthSuccess res w
  = (Throw RangeError, set_isAuthenticated true (set_currentUser (Some (user res)) w)).
Proof.
  intros H. unfold handleAuthSuccess. rewrite !LogoutLogin.bind_modify.
  set (w0 := set_isAuthenticated true (set_currentUser (Some (user res)) w)).
  rewrite (LogoutLogin.bind_ok _ _ _ (now (browser w0)) w0).
  2:{ unfold storage, lift, Date_now, gets. rewrite set_browser_same. reflexivity. }
  unfold bind at 1, toISOString.
  change (now (browser w0) + expiry_seconds res * 1000)
    with (expiry_of res (now (browser w))).
  rewrite H. reflexivity.
Qed.

Lemma handleAuthSuccess_effect res w :
  working (browser w) ->
  valid_time (expiry_of res (now (browser w))) = true ->
  exists w',
    handleAuthSuccess res w = (Ok tt, w')
    /\ currentUser w' = Some (user res) /\ isAuthenticated w' = true
    /\ navigations w' = navigations w
    /\ working (browser w') /\ now (browser w') = now (browser w)
    /\ session_credentials res (expiry_of res (now (browser w))) (browser w')
    /\ cookie_credentials res (expiry_of res (now (browser w))) (browser w').
Proof.
  intros (Hs & Hc & Hj) Hdate. unfold handleAuthSuccess.
  rewrite !LogoutLogin.bind_modify.
  set (w0 := set_isAuthenticated true (set_currentUser (Some (user res)) w)).
  rewrite (LogoutLogin.bind_ok _ _ _ (now (browser w0)) w0).
  2:{ unfold storage, lift, Date_now, gets. rewrite set_browser_same. reflexivity. }
  change (now (browser w0) + expiry_seconds res * 1000)
    with (expiry_of res (now (browser w))).
  set (expiry := expiry_of res (now (browser w))) in *.
  rewrite (LogoutLogin.bind_ok _ _ _ _ _ (LogoutLogin.toISOString_ok _ w0 Hdate)).
  rewrite (toString_digits expiry) by (apply valid_time_range; exact Hdate).
  set (v1 := JStr (JSON_stringify (User.to_json (user res)))).
  set (v3 := JStr (digits expiry)).
  pose proof (setSessionItem_working STORAGE_KEY v1 (browser w0) Hs) as E1.
  set (b1 := set_sessionStorage _ (browser w0)) in E1.
  rewrite (LogoutLogin.bind_ok _ _ _ _ _ (LogoutLogin.storage_ok _ w0 _ _ E1)).
  pose proof (setSessionItem_working TOKEN_KEY (JStr (token res)) b1 Hs) as E2.
  set (b2 := set_sessionStorage _ b1) in E2.
  rewrite (LogoutLogin.bind_ok _ _ _ _ _
             (LogoutLogin.storage_ok _ (set_browser b1 w0) _ _ E2)).
  pose proof (setSessionItem_working TOKEN_EXPIRY_KEY v3 b2 Hs) as E3.
  set (b3 := set_sessionStorage _ b2) in E3.
  rewrite (LogoutLogin.bind_ok _ _ _ _ _
             (LogoutLogin.storage_ok _ (set_browser b2 _) _ _ E3)).
  pose proof (setCookie_working "auth_user" (User.to_json (user res)) 30 b3 Hc eq_refl
                ltac:(lia)) as E4.
  set (b4 := set_cookieJar _ b3) in E4.
  rewrite (LogoutLogin.bind_ok _ _ _ _ _
             (LogoutLogin.storage_ok _ (set_browser b3 _) _ _ E4)).
  pose proof (setCookie_working "auth_token" (JStr (token res)) 30 b4 Hc eq_refl
                ltac:(lia)) as E5.
  set (b5 := set_cookieJar _ b4) in E5.
  rewrite (LogoutLogin.bind_ok _ _ _ _ _
             (LogoutLogin.storage_ok _ (set_browser b4 _) _ _ E5)).
  pose proof (setCookie_working "auth_token_expiry" v3 30 b5 Hc eq_refl ltac:(lia)) as E6.
  set (b6 := set_cookieJar _ b5) in E6.
  rewrite (LogoutLogin.bind_ok _ _ _ _ _
             (LogoutLogin.storage_ok _ (set_browser b5 _) _ _ E6)).
  set (w1 := set_browser b6 _).
  assert (Hget : storage (sessionStorage_getItem "auth_token") w1
                 = (Ok (sessionStorage b6 !! "auth_token"), w1)).
  { unfold storage, lift, sessionStorage_getItem. unfold w1 at 1 2.
    cbn [browser set_browser]. change (sessionFault b6) with (sessionFault (browser w)).
    rewrite Hs. reflexivity. }
  rewrite (LogoutLogin.bind_ok _ _ _ _ _ Hget).
  destruct (session_notifyLogin (User.id (user res)) w1)
    as (w' & -> & (N1 & N2 & N3 & N4 & N5 & N6)).
  exists w'. split; [reflexivity|].
  split; [rewrite N1; reflexivity|]. split; [rewrite N2; reflexivity|].
  split; [rewrite N3; reflexivity|].
  assert (W6 : working b6).
  { unfold working. split; [exact Hs|]. split; [exact Hc|].
    cbn [b6 b5 b4 cookieJar set_cookieJar].
    repeat (apply jar_ok_set; [reflexivity | apply no_semicolon_encoded |]).
    exact Hj. }
  assert (S6 : session_credentials res expiry b6).
  { unfold session_credentials. cbn [b6 b5 b4 b3 b2 b1 sessionStorage set_cookieJar
      set_sessionStorage].
    split; [|split].
    - rewrite lookup_insert_ne by discriminate.
      rewrite lookup_insert_ne by discriminate. apply lookup_insert_eq.
    - rewrite lookup_insert_ne by discriminate. apply lookup_insert_eq.
    - apply lookup_insert_eq. }
  assert (C6 : cookie_credentials res expiry b6).
  { unfold cookie_credentials. cbn [b6 b5 b4 cookieJar set_cookieJar cookieValue].
    split; [|split].
    - rewrite get_set_other by discriminate.
      rewrite get_set_other by discriminate. apply get_set_same.
    - rewrite get_set_other by discriminate. apply get_set_same.
    - apply get_set_same. }
  split; [exact (same_store_working _ _ N6 W6)|].
  split; [destruct N6 as (_ & _ & _ & _ & ->); reflexivity|].
  split; [exact (same_store_session _ _ _ _ N6 S6)|].
  exact (same_store_cookies _ _ _ _ N6 C6).
Qed.

Lemma session_or_cookie_session key v w :
  sessionFault (browser w) = false -> unique_keys v = true -> truthy v = true ->
  sessionStorage (browser w) !! key = Some (JSON_stringify v) ->
  session_or_cookie key w = (Ok v, w).
Proof.
  intros Hs Hv Ht Hk. unfold session_or_cookie.
  rewrite (LogoutLogin.bind_ok _ _ _ _ _
             (LogoutLogin.storage_ok _ w _ _ (getSessionItem_stored key v _ Hs Hv Hk))).
  rewrite Ht, set_browser_same. reflexivity.
Qed.

Lemma session_or_cookie_cookie key v s w :
  sessionFault (browser w) = false -> cookieFault (browser w) = false ->
  jar_ok (cookieJar (browser w)) = true -> cookie_name key = true ->
  unique_keys v = true -> truthy v = false ->
  sessionStorage (browser w) !! key = Some (JSON_stringify v) ->
  JsMap.get key (cookieJar (browser w)) = Some (Uri.encodeURIComponent s) ->
  session_or_cookie key w = (Ok (reread s), w).
Proof.
  intros Hs Hc Hj Hkey Hv Ht Hk Hget. unfold session_or_cookie.
  rewrite (LogoutLogin.bind_ok _ _ _ _ _
             (LogoutLogin.storage_ok _ w _ _ (getSessionItem_stored key v _ Hs Hv Hk))).
  rewrite Ht, set_browser_same.
  rewrite (LogoutLogin.storage_ok _ w _ _ (getCookie_stored key s _ Hc Hkey Hj Hget)).
  rewrite set_browser_same. reflexivity.
Qed.

Lemma expiry_checks expiry later w :
  sessionFault (browser w) = false -> now (browser w) = later ->
  sessionStorage (browser w) !! "auth_token_expiry"
  = Some (JSON_stringify (JStr (digits expiry))) ->
  isTokenExpired w = (Ok (later >=? expiry), w)
  /\ isTokenExpiringSoon w = (Ok (expiry <? later + 24 * 60 * 60 * 1000), w).
Proof.
  intros Hs Hnow Hk.
  assert (Hread : session_or_cookie TOKEN_EXPIRY_KEY w = (Ok (JStr (digits expiry)), w)).
  { apply session_or_cookie_session; auto.
    cbn [truthy]. rewrite digits_nonempty. reflexivity. }
  assert (Hclock : storage Date_now w = (Ok later, w)).
  { unfold storage, lift, Date_now, gets. rewrite set_browser_same, Hnow. reflexivity. }
  unfold isTokenExpired, isTokenExpiringSoon.
  rewrite !(LogoutLogin.bind_ok _ _ _ _ _ Hread).
  cbn [truthy]. rewrite digits_nonempty. cbn [negb].
  rewrite !(LogoutLogin.bind_ok _ _ _ _ _ Hclock).
  rewrite parseInt_of_digits. split; reflexivity.
Qed.

(** [handleAuthSuccess] on a browser whose two tiers work.  The expiry is
    the reading of the clock plus [expiresIn] seconds (thirty days when
    [expiresIn] is missing or zero).  When it is a date, that is, within
    8.64e15 ms of the epoch: the method returns; the user of the reply is
    the current user and is authenticated; both tiers hold the user, the
    token and the expiry; [getToken] gives the token of the reply; and at
    any later reading of the clock [isTokenExpired] says whether that
    reading has reached the expiry, and [isTokenExpiringSoon] whether the
    expiry is less than a day away.  When it is no date, the method
    throws a [RangeError] where it prints the expiry: the user of the
    reply has been made the current, authenticated user, nothing has been
    stored and no callback has run. *)
Theorem signing_in_sets_up_the_session (res : AuthResponse) (w : World) :
  working (browser w) ->
  let expiry := expiry_of res (now (browser w)) in
  let w' := snd (handleAuthSuccess res w) in
  (valid_time expiry = true ->
   fst (handleAuthSuccess res w) = Ok tt
   /\ currentUser w' = Some (user res) /\ isAuthenticated w' = true
   /\ getCurrentUserId w' = Some (User.id (user res))
   /\ fst (getToken w') = Ok (JStr (token res))
   /\ (forall later,
         let w'' := snd (storage (clock_reads later) w') in
         fst (isTokenExpired w'') = Ok (later >=? expiry)
         /\ fst (isTokenExpiringSoon w'') = Ok (expiry <? later + 24 * 60 * 60 * 1000))
   /\ working (browser w')
   /\ session_credentials res expiry (browser w')
   /\ cookie_credentials res expiry (browser w'))
  /\ (valid_time expiry = false ->
      handleAuthSuccess res w
      = (Throw RangeError,
         set_isAuthenticated true (set_currentUser (Some (user res)) w))).
Proof.
  intros Hw expiry w'. split; [|apply handleAuthSuccess_no_date].
  intros Hdate.
  destruct (handleAuthSuccess_effect res w Hw Hdate)
    as (w1 & E & U & Au & _ & (Hs & Hc & Hj) & Hnow & (S1 & S2 & S3) & (C1 & C2 & C3)).
  unfold w'. rewrite E. cbn [fst snd].
  split; [reflexivity|]. split; [exact U|]. split; [exact Au|].
  split; [unfold getCurrentUserId; rewrite U; reflexivity|].
  split.
  { unfold getToken. destruct (String.eqb (token res) "") eqn:Et.
    + rewrite (session_or_cookie_cookie TOKEN_KEY (JStr (token res)) (token res) w1);
        auto.
      * cbn [fst]. unfold reread. apply String.eqb_eq in Et. rewrite Et. reflexivity.
      * cbn [truthy]. rewrite Et. reflexivity.
    + rewrite (session_or_cookie_session TOKEN_KEY (JStr (token res)) w1); auto.
      cbn [truthy]. rewrite Et. reflexivity. }
  split.
  - intros later. set (w'' := snd (storage (clock_reads later) w1)).
    destruct (expiry_checks expiry later w'') as [-> ->]; [exact Hs | reflexivity | exact S3|].
    split; reflexivity.
  - split; [repeat split; assumption|]. split; repeat split; assumption.
Qed.

Lemma signing_in_sets_up_the_session_witness :
  fst (getToken (snd (handleAuthSuccess ann signed_in))) = Ok (JStr (token ann))
  /\ fst (isTokenExpiringSoon
            (snd (storage (clock_reads 1700000000000)
                    (snd (handleAuthSuccess ann signed_in)))))
     = Ok false.
Proof.
  assert (Hw : working (browser signed_in)) by (repeat split).
  destruct (signing_in_sets_up_the_session ann signed_in Hw) as [H _].
  destruct (H eq_refl) as (_ & _ & _ & _ & H1 & H2 & _).
  split; [exact H1|].
  destruct (H2 1700000000000) as [_ H3]. exact H3.
Defined.

(** ** Signing out *)

Lemma storage_step {X} (m : SE Browser.t X) w :
  total m -> exists a b, storage m w = (Ok a, set_browser b w) /\ m (browser w) = (Ok a, b).
Proof.
  intros Ht. destruct (Ht (browser w)) as (a & b & E).
  exists a, b. split; [|exact E]. unfold storage, lift. rewrite E. reflexivity.
Qed.

(** In any state [logout] returns, with nobody signed in and one more
    navigation to the start page. *)
Lemma logout_always w :
  exists w',
    logout w = (Ok tt, w')
    /\ currentUser w' = None /\ isAuthenticated w' = false
    /\ navigations w' = navigations w ++ ["/"].
Proof.
  unfold logout. rewrite !LogoutLogin.bind_modify.
  set (w0 := set_isAuthenticated false (set_currentUser None w)).
  destruct (session_notifyLogout w0) as (w1 & E0 & (N1 & N2 & N3 & _)).
  rewrite (LogoutLogin.bind_ok _ _ _ _ _ E0).
  destruct (storage_step (removeSessionItem STORAGE_KEY) w1
              (total_removeSessionItem _)) as ([] & b1 & E1 & _).
  rewrite (LogoutLogin.bind_ok _ _ _ _ _ E1). set (w2 := set_browser b1 w1).
  destruct (storage_step (removeSessionItem TOKEN_KEY) w2
              (total_removeSessionItem _)) as ([] & b2 & E2 & _).
  rewrite (LogoutLogin.bind_ok _ _ _ _ _ E2). set (w3 := set_browser b2 w2).
  destruct (storage_step (removeSessionItem TOKEN_EXPIRY_KEY) w3
              (total_removeSessionItem _)) as ([] & b3 & E3 & _).
  rewrite (LogoutLogin.bind_ok _ _ _ _ _ E3). set (w4 := set_browser b3 w3).
  destruct (storage_step (deleteCookie "auth_user") w4
              (total_deleteCookie _)) as ([] & b4 & E4 & _).
  rewrite (LogoutLogin.bind_ok _ _ _ _ _ E4). set (w5 := set_browser b4 w4).
  destruct (storage_step (deleteCookie "auth_token") w5
              (total_deleteCookie _)) as ([] & b5 & E5 & _).
  rewrite (LogoutLogin.bind_ok _ _ _ _ _ E5). set (w6 := set_browser b5 w5).
  destruct (storage_step (deleteCookie "auth_token_expiry") w6
              (total_deleteCookie _)) as ([] & b6 & E6 & _).
  rewrite (LogoutLogin.bind_ok _ _ _ _ _ E6).
  eexists. split; [reflexivity|]. cbn. rewrite N1, N2, N3. repeat split.
Qed.

Lemma logout_clears w :
  working (browser w) -> 1000 <= now (browser w) ->
  exists w',
    logout w = (Ok tt, w')
    /\ working (browser w') /\ no_credentials (browser w').
Proof.
  intros Hw Hnow. unfold logout. rewrite !LogoutLogin.bind_modify.
  set (w0 := set_isAuthenticated false (set_currentUser None w)).
  destruct (session_notifyLogout w0) as (w1 & E0 & (_ & _ & _ & _ & _ & Hsame)).
  rewrite (LogoutLogin.bind_ok _ _ _ _ _ E0).
  pose proof (same_store_working _ _ Hsame Hw) as (Hs & Hc & Hj).
  assert (Hnow1 : 1000 <= now (browser w1)).
  { destruct Hsame as (_ & _ & _ & _ & ->). exact Hnow. }
  assert (R : forall key b, sessionFault b = false ->
                removeSessionItem key b
                = (Ok tt, set_sessionStorage (delete key (sessionStorage b)) b)).
  { intros key b H. unfold removeSessionItem, try_catch, sessionStorage_removeItem.
    rewrite H. reflexivity. }
  pose proof (R STORAGE_KEY (browser w1) Hs) as E1.
  set (b1 := set_sessionStorage _ (browser w1)) in E1.
  rewrite (LogoutLogin.bind_ok _ _ _ _ _ (LogoutLogin.storage_ok _ w1 _ _ E1)).
  pose proof (R TOKEN_KEY b1 Hs) as E2.
  set (b2 := set_sessionStorage _ b1) in E2.
  rewrite (LogoutLogin.bind_ok _ _ _ _ _
             (LogoutLogin.storage_ok _ (set_browser b1 w1) _ _ E2)).
  pose proof (R TOKEN_EXPIRY_KEY b2 Hs) as E3.
  set (b3 := set_sessionStorage _ b2) in E3.
  rewrite (LogoutLogin.bind_ok _ _ _ _ _
             (LogoutLogin.storage_ok _ (set_browser b2 _) _ _ E3)).
  pose proof (StorageEdges.deleteCookie_removes "auth_user" b3 Hc eq_refl Hnow1) as E4.
  set (b4 := set_cookieJar _ b3) in E4.
  rewrite (LogoutLogin.bind_ok _ _ _ _ _
             (LogoutLogin.storage_ok _ (set_browser b3 _) _ _ E4)).
  pose proof (StorageEdges.deleteCookie_removes "auth_token" b4 Hc eq_refl Hnow1) as E5.
  set (b5 := set_cookieJar _ b4) in E5.
  rewrite (LogoutLogin.bind_ok _ _ _ _ _
             (LogoutLogin.storage_ok _ (set_browser b4 _) _ _ E5)).
  pose proof (StorageEdges.deleteCookie_removes "auth_token_expiry" b5 Hc eq_refl Hnow1)
    as E6.
  set (b6 := set_cookieJar _ b5) in E6.
  rewrite (LogoutLogin.bind_ok _ _ _ _ _
             (LogoutLogin.storage_ok _ (set_browser b5 _) _ _ E6)).
  eexists. split; [reflexivity|]. cbn [browser set_navigations set_browser].
  split.
  - unfold working. split; [exact Hs|]. split; [exact Hc|].
    cbn [b6 b5 b4 cookieJar set_cookieJar]. repeat apply jar_ok_remove. exact Hj.
  - unfold no_credentials. cbn [b6 b5 b4 b3 b2 b1 sessionStorage cookieJar set_cookieJar
      set_sessionStorage].
    split; [split; [|split] | split; [|split]].
    + rewrite lookup_delete_ne by discriminate.
      rewrite lookup_delete_ne by discriminate. apply lookup_delete_eq.
    + rewrite lookup_delete_ne by discriminate. apply lookup_delete_eq.
    + apply lookup_delete_eq.
    + rewrite !get_remove. reflexivity.
    + rewrite !get_remove. reflexivity.
    + rewrite !get_remove. reflexivity.
Qed.

(** [logout] on a browser whose two tiers work, the clock past the first
    second of 1970.  It returns; nobody is signed in; the start page is
    navigated to; neither tier holds a credential any more, so [getToken]
    gives [null], [isTokenExpired] says yes and [isTokenExpiringSoon]
    says no. *)
Theorem signing_out_ends_the_session (w : World) :
  working (browser w) -> 1000 <= now (browser w) ->
  let w' := snd (logout w) in
  fst (logout w) = Ok tt
  /\ currentUser w' = None /\ isAuthenticated w' = false
  /\ getCurrentUserId w' = None
  /\ navigations w' = navigations w ++ ["/"]
  /\ no_credentials (browser w')
  /\ fst (getToken w') = Ok JNull
  /\ fst (isTokenExpired w') = Ok true
  /\ fst (isTokenExpiringSoon w') = Ok false.
Proof.
  intros Hw Hnow w'.
  destruct (logout_always w) as (w1 & E & U & Au & Nav).
  destruct (logout_clears w Hw Hnow) as (w2 & E' & (Hs & Hc & Hj) & Hnone).
  rewrite E in E'. injection E' as <-.
  unfold w'. rewrite E. cbn [fst snd].
  destruct Hnone as ((S1 & S2 & S3) & (C1 & C2 & C3)).
  destruct (TokenExpiry.session_or_cookie_nothing TOKEN_KEY w1 eq_refl S2 Hj C2)
    as (wt & Et).
  destruct (TokenExpiry.session_or_cookie_nothing TOKEN_EXPIRY_KEY w1 eq_refl S3 Hj C3)
    as (we & Ee).
  split; [reflexivity|]. split; [exact U|]. split; [exact Au|].
  split; [unfold getCurrentUserId; rewrite U; reflexivity|].
  split; [exact Nav|].
  split; [repeat split; assumption|].
  split; [unfold getToken; rewrite Et; reflexivity|].
  unfold isTokenExpired, isTokenExpiringSoon, bind. rewrite Ee. split; reflexivity.
Qed.

Lemma signing_out_ends_the_session_witness :
  fst (getToken (snd (logout (snd (handleAuthSuccess ann signed_in))))) = Ok JNull.
Proof.
  assert (Hw0 : working (browser signed_in)) by (repeat split).
  destruct (handleAuthSuccess_effect ann signed_in Hw0 eq_refl)
    as (w & E & _ & _ & _ & Hw & Hnow & _).
  rewrite E. cbn [snd].
  assert (Hclock : 1000 <= now (browser w)) by (rewrite Hnow; discriminate).
  destruct (signing_out_ends_the_session w Hw Hclock) as (_ & _ & _ & _ & _ & _ & H & _).
  exact H.
Defined.

(** ** Checking the session with the backend *)

(** [verifySession] never errors.  It delivers [true] exactly when the
    backend answers that the session is valid, and then changes nothing.
    In every other case, the backend answering that the session is not
    valid or the request failing, it delivers [false] after a [logout]:
    nobody is signed in afterwards. *)
Theorem verifying_the_session (reply : Http SessionCheck.t) (w : World) :
  let delivered := match reply with
                   | HttpOk r => SessionCheck.valid r
                   | HttpError _ => false
                   end in
  let w' := snd (verifySession reply w) in
  fst (verifySession reply w) = Ok (Next delivered)
  /\ (delivered = true -> w' = w)
  /\ (delivered = false ->
      w' = snd (logout w) /\ currentUser w' = None /\ isAuthenticated w' = false
      /\ navigations w' = navigations w ++ ["/"]).
Proof.
  intros delivered w'.
  destruct (logout_always w) as (w1 & E & U & Au & Nav).
  assert (H : verifySession reply w
              = (Ok (Next delivered), if delivered then w else w1)).
  { unfold verifySession, rx_map, catchError, tap, http, delivered.
    destruct reply as [[valid]|e].
    - destruct valid.
      + reflexivity.
      + unfold bind, ret, try_catch. cbn -[logout]. rewrite E. reflexivity.
    - unfold bind, ret, of_. cbn -[logout]. rewrite E. reflexivity. }
  unfold w'. rewrite H. cbn [fst snd]. split; [reflexivity|]. split.
  - intros ->. reflexivity.
  - intros ->. rewrite E. cbn [snd]. auto.
Qed.

(** ** The requests that sign in *)

Lemma handled_reply (msg : string) (res : AuthResponse) (w : World) :
  forall (h : exn -> SE World (Notification AuthResponse)),
    (forall err w0, h err w0 = (Ok (Error err), log_error msg w0)) ->
    catchError h (tap (fun res => handleAuthSuccess res) (http (HttpOk res))) w
    = match handleAuthSuccess res w with
      | (Ok _, w') => (Ok (Next res), w')
      | (Throw err, w') => (Ok (Error err), log_error msg w')
      end.
Proof.
  intros h Hh. unfold catchError, tap, http, bind, ret, try_catch.
  destruct (handleAuthSuccess res w) as [[[]|err] w']; [reflexivity|]. apply Hh.
Qed.

(** The requests that sign a user in.  When the request fails, [login],
    [register] and [loginWithGoogleBackend] print the failure and hand
    the error on to the subscriber, the state being otherwise as it was;
    [handleGoogleToken] prints it and delivers [null] instead;
    [refreshToken] prints it, logs out, and hands the error on.  When the
    backend answers, both tiers work and the expiry of the answer is a
    date, each of them runs [handleAuthSuccess] on the answer and
    delivers the answer.  When the backend answers with an expiry that is
    no date, [handleAuthSuccess] throws a [RangeError] once the user is
    set, and each request treats it as it treats a failed request. *)
Theorem requests_that_sign_in (w : World) :
  (forall e,
      login (HttpError e) w = (Ok (Error e), log_error "Login failed" w)
      /\ register (HttpError e) w = (Ok (Error e), log_error "Register failed" w)
      /\ loginWithGoogleBackend (HttpError e) w
         = (Ok (Error e), log_error "Google login backend failed:" w)
      /\ handleGoogleToken (HttpError e) w
         = (Ok (Next None), log_error "Google login failed" w)
      /\ refreshToken (HttpError e) w
         = (Ok (Error e), snd (logout (log_error "Token refresh failed" w)))
      /\ currentUser (snd (refreshToken (HttpError e) w)) = None
      /\ isAuthenticated (snd (refreshToken (HttpError e) w)) = false)
  /\ (working (browser w) ->
      forall res,
        valid_time (expiry_of res (now (browser w))) = true ->
        let signed := snd (handleAuthSuccess res w) in
        login (HttpOk res) w = (Ok (Next res), signed)
        /\ register (HttpOk res) w = (Ok (Next res), signed)
        /\ loginWithGoogleBackend (HttpOk res) w = (Ok (Next res), signed)
        /\ handleGoogleToken (HttpOk res) w = (Ok (Next (Some res)), signed)
        /\ refreshToken (HttpOk res) w = (Ok (Next res), signed)
        /\ currentUser signed = Some (user res))
  /\ (forall res,
        valid_time (expiry_of res (now (browser w))) = false ->
        let half := set_isAuthenticated true (set_currentUser (Some (user res)) w) in
        handleAuthSuccess res w = (Throw RangeError, half)
        /\ login (HttpOk res) w
           = (Ok (Error RangeError), log_error "Login failed" half)
        /\ register (HttpOk res) w
           = (Ok (Error RangeError), log_error "Register failed" half)
        /\ loginWithGoogleBackend (HttpOk res) w
           = (Ok (Error RangeError), log_error "Google login backend failed:" half)
        /\ handleGoogleToken (HttpOk res) w
           = (Ok (Next None), log_error "Google login failed" half)
        /\ refreshToken (HttpOk res) w
           = (Ok (Error RangeError),
              snd (logout (log_error "Token refresh failed" half)))
        /\ currentUser (snd (refreshToken (HttpOk res) w)) = None).
Proof.
  split; [|split].
  - intros e.
    destruct (logout_always (log_error "Token refresh failed" w)) as (w1 & E & U & Au & _).
    assert (R : refreshToken (HttpError e) w = (Ok (Error e), w1)).
    { unfold refreshToken, catchError, tap, http, bind, ret, throwError, storage, lift,
        console_error, modify. cbn -[logout].
      change (set_browser _ w) with (log_error "Token refresh failed" w).
      rewrite E. reflexivity. }
    split; [reflexivity|]. split; [reflexivity|]. split; [reflexivity|].
    split; [reflexivity|]. rewrite R, E. cbn [snd]. auto.
  - intros Hw res Hdate signed.
    destruct (handleAuthSuccess_effect res w Hw Hdate) as (w1 & E & U & _).
    assert (Hs : signed = w1) by (unfold signed; rewrite E; reflexivity).
    rewrite Hs.
    split; [|split; [|split; [|split; [|split]]]].
    + unfold login. rewrite (handled_reply "Login failed"); [rewrite E; reflexivity|].
      reflexivity.
    + unfold register.
      rewrite (handled_reply "Register failed"); [rewrite E; reflexivity|].
      reflexivity.
    + unfold loginWithGoogleBackend.
      rewrite (handled_reply "Google login backend failed:");
        [rewrite E; reflexivity|].
      reflexivity.
    + unfold handleGoogleToken, catchError, rx_map, tap, http, bind, ret, try_catch.
      rewrite E. reflexivity.
    + unfold refreshToken, catchError, tap, http, bind, ret, try_catch.
      rewrite E. reflexivity.
    + exact U.
  - intros res Hdate half.
    pose proof (handleAuthSuccess_no_date res w Hdate) as E. fold half in E.
    destruct (logout_always (log_error "Token refresh failed" half))
      as (w1 & El & U & _).
    assert (R : refreshToken (HttpOk res) w
                = (Ok (Error RangeError),
                   snd (logout (log_error "Token refresh failed" half)))).
    { unfold refreshToken, catchError, tap, http, bind, ret, try_catch. rewrite E.
      unfold throwError, storage, lift, console_error, modify, ret. cbn -[logout].
      change (set_browser _ half) with (log_error "Token refresh failed" half).
      rewrite El. reflexivity. }
    split; [exact E|].
    split.
    { unfold login. rewrite (handled_reply "Login failed"); [rewrite E; reflexivity|].
      reflexivity. }
    split.
    { unfold register.
      rewrite (handled_reply "Register failed"); [rewrite E; reflexivity|].
      reflexivity. }
    split.
    { unfold loginWithGoogleBackend.
      rewrite (handled_reply "Google login backend failed:");
        [rewrite E; reflexivity|].
      reflexivity. }
    split.
    { unfold handleGoogleToken, catchError, rx_map, tap, http, bind, ret, try_catch.
      rewrite E. reflexivity. }
    split; [exact R|].
    rewrite R, El. exact U.
Qed.

Lemma requests_that_sign_in_witness :
  fst (login (HttpOk ann) signed_in) = Ok (Next ann).
Proof.
  assert (Hw0 : working (browser signed_in)) by (repeat split).
  destruct (requests_that_sign_in signed_in) as (_ & H & _).
  destruct (H Hw0 ann eq_refl) as (E & _).
  rewrite E. reflexivity.
Defined.

(** ** A browser that refuses [sessionStorage] *)

Lemma setSessionItem_flag key value b :
  sessionFault b = true ->
  sessionFault (snd (setSessionItem key value b)) = true.
Proof.
  intros H. unfold setSessionItem, try_catch, sessionStorage_setItem. rewrite H.
  exact H.
Qed.

Lemma setCookie_flag name value days b :
  sessionFault (snd (setCookie name value days b)) = sessionFault b.
Proof.
  unfold setCookie, try_catch, bind, Date_now, gets, document_cookie_assign.
  destruct (cookieFault b); [reflexivity|].
  destruct (parse_pair _) as [n v].
  destruct (_ && _); [reflexivity|]. destruct (_ <=? _); reflexivity.
Qed.

(** [handleAuthSuccess] reads [sessionStorage] once outside any [try].
    On a browser that refuses [sessionStorage], and for a reply whose
    expiry is a date, it therefore throws the browser's error, after it
    has made the user of the reply the current, authenticated user and
    before it has run any login callback: the cart and the favorites are
    those there were.  [login] hands the error to its subscriber. *)
Theorem refused_session_storage_fails_the_login (res : AuthResponse) (w : World) :
  sessionFault (browser w) = true ->
  valid_time (expiry_of res (now (browser w))) = true ->
  let w' := snd (handleAuthSuccess res w) in
  fst (handleAuthSuccess res w) = Throw SecurityError
  /\ currentUser w' = Some (user res) /\ isAuthenticated w' = true
  /\ cartItems w' = cartItems w /\ cartUserId w' = cartUserId w
  /\ favoriteItems w' = favoriteItems w /\ favUserId w' = favUserId w
  /\ fst (login (HttpOk res) w) = Ok (Error SecurityError).
Proof.
  intros Hs Hdate w'.
  assert (E : exists b, handleAuthSuccess res w
                        = (Throw SecurityError,
                           set_browser b
                             (set_isAuthenticated true
                                (set_currentUser (Some (user res)) w)))).
  { unfold handleAuthSuccess. rewrite !LogoutLogin.bind_modify.
    set (w0 := set_isAuthenticated true (set_currentUser (Some (user res)) w)).
    rewrite (LogoutLogin.bind_ok _ _ _ (now (browser w0)) w0).
    2:{ unfold storage, lift, Date_now, gets. rewrite set_browser_same. reflexivity. }
    rewrite (LogoutLogin.bind_ok _ _ _ tt w0) by (apply LogoutLogin.toISOString_ok; exact Hdate).
    set (v1 := JStr (JSON_stringify (User.to_json (user res)))).
    set (v3 := JStr (toString _)).
    destruct (storage_step (setSessionItem STORAGE_KEY v1) w0 (total_setSessionItem _ _))
      as ([] & b1 & E1 & F1).
    rewrite (LogoutLogin.bind_ok _ _ _ _ _ E1). set (w1 := set_browser b1 w0).
    assert (H1 : sessionFault b1 = true).
    { pose proof (setSessionItem_flag STORAGE_KEY v1 (browser w0) Hs) as H.
      rewrite F1 in H. exact H. }
    destruct (storage_step (setSessionItem TOKEN_KEY (JStr (token res))) w1
                (total_setSessionItem _ _)) as ([] & b2 & E2 & F2).
    rewrite (LogoutLogin.bind_ok _ _ _ _ _ E2). set (w2 := set_browser b2 w1).
    assert (H2 : sessionFault b2 = true).
    { pose proof (setSessionItem_flag TOKEN_KEY (JStr (token res)) (browser w1) H1) as H.
      rewrite F2 in H. exact H. }
    destruct (storage_step (setSessionItem TOKEN_EXPIRY_KEY v3) w2
                (total_setSessionItem _ _)) as ([] & b3 & E3 & F3).
    rewrite (LogoutLogin.bind_ok _ _ _ _ _ E3). set (w3 := set_browser b3 w2).
    assert (H3 : sessionFault b3 = true).
    { pose proof (setSessionItem_flag TOKEN_EXPIRY_KEY v3 (browser w2) H2) as H.
      rewrite F3 in H. exact H. }
    destruct (storage_step (setCookie "auth_user" (User.to_json (user res)) 30) w3
                (total_setCookie _ _ _)) as ([] & b4 & E4 & F4).
    rewrite (LogoutLogin.bind_ok _ _ _ _ _ E4). set (w4 := set_browser b4 w3).
    assert (H4 : sessionFault b4 = true).
    { pose proof (setCookie_flag "auth_user" (User.to_json (user res)) 30 (browser w3))
        as H.
      rewrite F4 in H. cbn [snd] in H. rewrite H. exact H3. }
    destruct (storage_step (setCookie "auth_token" (JStr (token res)) 30) w4
                (total_setCookie _ _ _)) as ([] & b5 & E5 & F5).
    rewrite (LogoutLogin.bind_ok _ _ _ _ _ E5). set (w5 := set_browser b5 w4).
    assert (H5 : sessionFault b5 = true).
    { pose proof (setCookie_flag "auth_token" (JStr (token res)) 30 (browser w4)) as H.
      rewrite F5 in H. cbn [snd] in H. rewrite H. exact H4. }
    destruct (storage_step (setCookie "auth_token_expiry" v3 30) w5
                (total_setCookie _ _ _)) as ([] & b6 & E6 & F6).
    rewrite (LogoutLogin.bind_ok _ _ _ _ _ E6). set (w6 := set_browser b6 w5).
    assert (H6 : sessionFault b6 = true).
    { pose proof (setCookie_flag "auth_token_expiry" v3 30 (browser w5)) as H.
      rewrite F6 in H. cbn [snd] in H. rewrite H. exact H5. }
    exists b6. unfold bind, storage, lift, sessionStorage_getItem.
    cbn [browser w6 set_browser]. rewrite H6. reflexivity. }
  destruct E as [b E]. unfold w'. rewrite E. cbn [fst snd].
  split; [reflexivity|]. repeat (split; [reflexivity|]).
  unfold login. rewrite (handled_reply "Login failed"); [|reflexivity].
  rewrite E. reflexivity.
Qed.

Lemma refused_session_storage_fails_the_login_witness :
  fst (login (HttpOk ann) Scenes.refused) = Ok (Error SecurityError).
Proof.
  destruct (refused_session_storage_fails_the_login ann Scenes.refused eq_refl eq_refl)
    as (_ & _ & _ & _ & _ & _ & _ & H).
  exact H.
Defined.

(** ** Coming back: [loadUserFromStorage] *)

Lemma user_back u : User.of_json (User.to_json u) = Some u.
Proof. destruct u as [i n e [a|]]; reflexivity. Qed.

Lemma user_unique_keys u : unique_keys (User.to_json u) = true.
Proof. destruct u as [i n e [a|]]; reflexivity. Qed.

Lemma user_parses u : JSON_parse (JSON_stringify (User.to_json u)) = Some (User.to_json u).
Proof. apply JsonRoundTrip.JSON_parse_stringify, user_unique_keys. Qed.

Lemma number_parses n : JSON_parse (digits n) = Some (JNum n).
Proof. apply (JsonRoundTrip.JSON_parse_stringify (JNum n)). reflexivity. Qed.

Lemma read_session key v w :
  sessionFault (browser w) = false -> unique_keys v = true ->
  sessionStorage (browser w) !! key = Some (JSON_stringify v) ->
  storage (getSessionItem key) w = (Ok v, w).
Proof.
  intros Hs Hv Hk.
  rewrite (LogoutLogin.storage_ok _ w _ _ (getSessionItem_stored key v _ Hs Hv Hk)).
  rewrite set_browser_same. reflexivity.
Qed.

Lemma read_no_session key w :
  sessionFault (browser w) = false -> sessionStorage (browser w) !! key = None ->
  storage (getSessionItem key) w = (Ok JNull, w).
Proof.
  intros Hs Hk.
  rewrite (LogoutLogin.storage_ok _ w _ _ (getSessionItem_absent key _ Hs Hk)).
  rewrite set_browser_same. reflexivity.
Qed.

Lemma read_cookie key s w :
  cookieFault (browser w) = false -> jar_ok (cookieJar (browser w)) = true ->
  cookie_name key = true ->
  JsMap.get key (cookieJar (browser w)) = Some (Uri.encodeURIComponent s) ->
  storage (getCookie key) w = (Ok (reread s), w).
Proof.
  intros Hc Hj Hkey Hget.
  rewrite (LogoutLogin.storage_ok _ w _ _ (getCookie_stored key s _ Hc Hkey Hj Hget)).
  rewrite set_browser_same. reflexivity.
Qed.

Lemma read_clock w : storage Date_now w = (Ok (now (browser w)), w).
Proof. unfold storage, lift, Date_now, gets. rewrite set_browser_same. reflexivity. Qed.

(** The session tier still holds what [handleAuthSuccess] wrote. *)
Lemma reload_in_the_tab res expiry w :
  sessionFault (browser w) = false ->
  session_credentials res expiry (browser w) ->
  String.eqb (token res) "" = false ->
  loadUserFromStorage w
  = if now (browser w) <? expiry
    then (Ok (Some (User.id (user res))),
          set_isAuthenticated true (set_currentUser (Some (user res)) w))
    else (logout ;;; ret None) w.
Proof.
  intros Hs (S1 & S2 & S3) Ht. unfold loadUserFromStorage.
  rewrite (LogoutLogin.bind_ok _ _ _ _ _
             (read_session STORAGE_KEY (JStr (JSON_stringify (User.to_json (user res))))
                w Hs eq_refl S1)).
  rewrite (LogoutLogin.bind_ok _ _ _ _ _
             (read_session TOKEN_KEY (JStr (token res)) w Hs eq_refl S2)).
  rewrite (LogoutLogin.bind_ok _ _ _ _ _
             (read_session TOKEN_EXPIRY_KEY (JStr (digits expiry)) w Hs eq_refl S3)).
  cbn [truthy]. rewrite JsonRoundTrip.JSON_stringify_nonempty, Ht, digits_nonempty.
  cbn [negb orb]. cbv iota.
  rewrite (LogoutLogin.bind_ok _ _ _ _ _ (read_clock w)).
  unfold before_expiry. rewrite parseInt_of_digits.
  destruct (now (browser w) <? expiry); [|reflexivity].
  cbn [js_String]. rewrite text_chars. unfold parse. rewrite user_parses.
  unfold bind, ret, modify. rewrite user_back. reflexivity.
Qed.

(** A new tab: the session tier is empty and the cookies hold what
    [handleAuthSuccess] wrote. *)
Lemma reload_in_a_new_tab res expiry w :
  working (browser w) ->
  sessionStorage (browser w) !! "auth_user" = None ->
  sessionStorage (browser w) !! "auth_token" = None ->
  sessionStorage (browser w) !! "auth_token_expiry" = None ->
  cookie_credentials res expiry (browser w) ->
  opaque (token res) -> now (browser w) < expiry -> 0 <= now (browser w) ->
  expiry < 10 ^ 21 ->
  loadUserFromStorage w
  = (Ok (Some (User.id (user res))),
     set_browser
       (set_sessionStorage
          (<["auth_token_expiry" := JSON_stringify (JNum expiry)]>
             (<["auth_token" := JSON_stringify (JStr (token res))]>
                (<["auth_user" := JSON_stringify (User.to_json (user res))]>
                   (sessionStorage (browser w)))))
          (browser w))
       (set_isAuthenticated true (set_currentUser (Some (user res)) w))).
Proof.
  intros (Hs & Hc & Hj) N1 N2 N3 (C1 & C2 & C3) (Ht & Hopaque & _) Hfresh Hpos Hdate.
  unfold loadUserFromStorage.
  rewrite (LogoutLogin.bind_ok _ _ _ _ _ (read_no_session STORAGE_KEY w Hs N1)).
  rewrite (LogoutLogin.bind_ok _ _ _ _ _ (read_no_session TOKEN_KEY w Hs N2)).
  rewrite (LogoutLogin.bind_ok _ _ _ _ _ (read_no_session TOKEN_EXPIRY_KEY w Hs N3)).
  cbn [truthy negb orb]. cbv iota.
  rewrite (LogoutLogin.bind_ok _ _ _ _ _
             (read_cookie "auth_user" (JSON_stringify (User.to_json (user res))) w
                Hc Hj eq_refl C1)).
  rewrite (LogoutLogin.bind_ok _ _ _ _ _
             (read_cookie "auth_token" (token res) w Hc Hj eq_refl C2)).
  rewrite (LogoutLogin.bind_ok _ _ _ _ _
             (read_cookie "auth_token_expiry" (digits expiry) w Hc Hj eq_refl C3)).
  unfold reread. rewrite user_parses, Hopaque, number_parses.
  assert (Htruthy : truthy (User.to_json (user res)) && truthy (JStr (token res))
                    && truthy (JNum expiry) = true).
  { cbn [truthy User.to_json]. rewrite Ht. cbn [negb andb].
    apply negb_true_iff, Z.eqb_neq. lia. }
  rewrite Htruthy.
  rewrite (LogoutLogin.bind_ok _ _ _ _ _ (read_clock w)).
  unfold before_expiry. rewrite parseInt_number by lia.
  assert ((now (browser w) <? expiry) = true) as -> by (apply Z.ltb_lt; exact Hfresh).
  rewrite !LogoutLogin.bind_modify.
  rewrite user_back.
  unfold bind, storage, lift, ret. cbn [browser set_browser set_isAuthenticated
    set_currentUser].
  rewrite !setSessionItem_working by exact Hs.
  cbn [sessionStorage set_sessionStorage sessionFault].
  rewrite ?setSessionItem_working by exact Hs.
  cbn [sessionStorage set_sessionStorage sessionFault].
  rewrite ?setSessionItem_working by exact Hs.
  reflexivity.
Qed.

(** With no callback registered [logout] leaves the two caches alone. *)
Lemma logout_memory w :
  onLogoutCallbacks w = [] ->
  let w' := snd (logout w) in
  cartItems w' = cartItems w /\ cartUserId w' = cartUserId w
  /\ favoriteItems w' = favoriteItems w /\ favUserId w' = favUserId w
  /\ onLoginCallbacks w' = onLoginCallbacks w
  /\ onLogoutCallbacks w' = onLogoutCallbacks w.
Proof.
  intros Hnone w'. unfold w', logout. rewrite !LogoutLogin.bind_modify.
  set (w0 := set_isAuthenticated false (set_currentUser None w)).
  assert (E0 : notifyLogout w0 = (Ok tt, w0)).
  { rewrite Notify.notifyLogout_run. unfold w0.
    cbn [onLogoutCallbacks set_isAuthenticated set_currentUser]. rewrite Hnone.
    reflexivity. }
  rewrite (LogoutLogin.bind_ok _ _ _ _ _ E0).
  destruct (storage_step (removeSessionItem STORAGE_KEY) w0
              (total_removeSessionItem _)) as ([] & b1 & E1 & _).
  rewrite (LogoutLogin.bind_ok _ _ _ _ _ E1). set (w2 := set_browser b1 w0).
  destruct (storage_step (removeSessionItem TOKEN_KEY) w2
              (total_removeSessionItem _)) as ([] & b2 & E2 & _).
  rewrite (LogoutLogin.bind_ok _ _ _ _ _ E2). set (w3 := set_browser b2 w2).
  destruct (storage_step (removeSessionItem TOKEN_EXPIRY_KEY) w3
              (total_removeSessionItem _)) as ([] & b3 & E3 & _).
  rewrite (LogoutLogin.bind_ok _ _ _ _ _ E3). set (w4 := set_browser b3 w3).
  destruct (storage_step (deleteCookie "auth_user") w4
              (total_deleteCookie _)) as ([] & b4 & E4 & _).
  rewrite (LogoutLogin.bind_ok _ _ _ _ _ E4). set (w5 := set_browser b4 w4).
  destruct (storage_step (deleteCookie "auth_token") w5
              (total_deleteCookie _)) as ([] & b5 & E5 & _).
  rewrite (LogoutLogin.bind_ok _ _ _ _ _ E5). set (w6 := set_browser b5 w5).
  destruct (storage_step (deleteCookie "auth_token_expiry") w6
              (total_deleteCookie _)) as ([] & b6 & E6 & _).
  rewrite (LogoutLogin.bind_ok _ _ _ _ _ E6).
  cbn. repeat split.
Qed.

(** The constructors of the caches and the timer, after
    [loadUserFromStorage] returned [scheduled] in the world [w1]. *)
Lemma bootstrap_after scheduled w w1 :
  loadUserFromStorage w = (Ok scheduled, w1) ->
  App.bootstrap w
  = runScheduled scheduled
      (set_onLogoutCallbacks
         ((onLogoutCallbacks w1 ++ [CartSubscriber]) ++ [FavoriteSubscriber])
         (set_onLoginCallbacks
            ((onLoginCallbacks w1 ++ [CartSubscriber]) ++ [FavoriteSubscriber])
            w1)).
Proof.
  intros E. unfold App.bootstrap. rewrite (LogoutLogin.bind_ok _ _ _ _ _ E).
  unfold App.CartService_constructor, App.FavoriteService_constructor,
    onLogin, onLogout, bind, modify.
  destruct w1. reflexivity.
Qed.

(** A page reload in the tab in which the user signed in: the session
    tier holds what [handleAuthSuccess] wrote and the two tiers hold the
    cart [C] and the favorites [F] of the user.  Before the token expires
    the page comes up with the user signed in and the cart and the
    favorites back in memory, the stored data untouched.  From the
    instant of expiry on, the page comes up signed out at the start page,
    the caches empty and no credential left in either tier. *)
Theorem reloading_the_page (res : AuthResponse) (expiry : Z) (b : Browser.t)
  (C : list CartItem.t) (F : list FavoriteItem.t) :
  working b ->
  session_credentials res expiry b ->
  String.eqb (token res) "" = false ->
  String.eqb (User.id (user res)) "" = false ->
  cookie_name (cart_key (User.id (user res))) = true ->
  cookie_name (FavoriteOps.fav_key (User.id (user res))) = true ->
  cart_held (User.id (user res)) C b ->
  favorites_held (User.id (user res)) F b ->
  (now b < expiry ->
   exists w',
     App.bootstrap (page_load b) = (Ok tt, w')
     /\ currentUser w' = Some (user res) /\ isAuthenticated w' = true
     /\ cartItems w' = C /\ favoriteItems w' = F
     /\ browser w' = b /\ navigations w' = [])
  /\ (expiry <= now b -> 1000 <= now b ->
      exists w',
        App.bootstrap (page_load b) = (Ok tt, w')
        /\ currentUser w' = None /\ isAuthenticated w' = false
        /\ cartItems w' = [] /\ favoriteItems w' = []
        /\ no_credentials (browser w') /\ navigations w' = ["/"]).
Proof.
  intros Hw Hcred Ht HA Hck Hfk Hcart Hfav.
  pose proof Hw as (Hs & Hc & Hj).
  pose proof (reload_in_the_tab res expiry (page_load b) Hs Hcred Ht) as Hload.
  cbn [browser page_load] in Hload.
  split.
  - intros Hbefore.
    assert ((now b <? expiry) = true) as Hlt by (apply Z.ltb_lt; exact Hbefore).
    rewrite Hlt in Hload.
    rewrite (bootstrap_after _ _ _ Hload). unfold runScheduled.
    rewrite Notify.notifyLogin_run.
    cbn [onLoginCallbacks set_onLoginCallbacks set_onLogoutCallbacks
           set_isAuthenticated set_currentUser page_load app map fold_left].
    unfold settle at 2. cbn [login_callback].
    match goal with
    | |- context [CartService.loadCartForUser _ ?w] =>
        rewrite (CartLines.load_held _ HA Hck C w Hs Hc Hj Hcart)
    end.
    unfold settle. cbn [login_callback].
    match goal with
    | |- context [FavoriteService.loadFavoritesForUser _ ?w] =>
        rewrite (FavoriteLists.load_reads _ HA Hfk w Hs Hc Hj F)
    end.
    2:{ destruct Hfav as [(_ & _ & _ & S1 & _) | (-> & N1 & N2)].
        - left. exact S1.
        - right. right. repeat split; assumption. }
    eexists. split; [reflexivity|]. cbn. repeat split.
  - intros Hafter Hnow.
    assert ((now b <? expiry) = false) as Hge by (apply Z.ltb_ge; exact Hafter).
    rewrite Hge in Hload.
    destruct (logout_always (page_load b)) as (w1 & E & U & Au & Nav).
    destruct (logout_clears (page_load b) Hw Hnow) as (w2 & E' & _ & Hnone).
    rewrite E in E'. injection E' as <-.
    pose proof (logout_memory (page_load b) eq_refl) as M. rewrite E in M.
    cbn [snd page_load cartItems favoriteItems] in M.
    destruct M as (M1 & _ & M3 & _).
    assert (Hload' : loadUserFromStorage (page_load b) = (Ok None, w1)).
    { rewrite Hload. rewrite (LogoutLogin.bind_ok _ _ _ _ _ E). reflexivity. }
    rewrite (bootstrap_after _ _ _ Hload'). unfold runScheduled, ret.
    eexists. split; [reflexivity|].
    cbn [currentUser isAuthenticated cartItems favoriteItems browser navigations
           set_onLoginCallbacks set_onLogoutCallbacks].
    rewrite Nav.
    split; [exact U|]. split; [exact Au|]. split; [exact M1|]. split; [exact M3|].
    split; [exact Hnone | reflexivity].
Qed.

(** The browser of the examples. *)
Lemma returning_working : working Scenes.returning.
Proof.
  split; [reflexivity|]. split; [reflexivity|].
  unfold Scenes.returning. cbn [cookieJar].
  repeat (apply jar_ok_set; [reflexivity | apply no_semicolon_encoded |]).
  reflexivity.
Qed.

Lemma returning_session : session_credentials ann Scenes.ann_expiry Scenes.returning.
Proof.
  unfold session_credentials, Scenes.returning. cbn [sessionStorage].
  split; [|split].
  - rewrite lookup_insert_ne by discriminate.
    rewrite lookup_insert_ne by discriminate. apply lookup_insert_eq.
  - rewrite lookup_insert_ne by discriminate. apply lookup_insert_eq.
  - apply lookup_insert_eq.
Qed.

Lemma returning_cookies : cookie_credentials ann Scenes.ann_expiry Scenes.returning.
Proof.
  unfold cookie_credentials, Scenes.returning. cbn [cookieJar].
  split; [|split].
  - rewrite get_set_other by discriminate.
    rewrite get_set_other by discriminate. apply get_set_same.
  - rewrite get_set_other by discriminate. apply get_set_same.
  - apply get_set_same.
Qed.

Lemma returning_holds_nothing key :
  key <> "auth_user" -> key <> "auth_token" -> key <> "auth_token_expiry" ->
  sessionStorage Scenes.returning !! key = None
  /\ JsMap.get key (cookieJar Scenes.returning) = None.
Proof.
  intros N1 N2 N3. unfold Scenes.returning. cbn [sessionStorage cookieJar]. split.
  - rewrite !lookup_insert_ne by congruence. apply lookup_empty.
  - rewrite !get_set_other by congruence. reflexivity.
Qed.

Lemma reloading_the_page_witness :
  exists w',
    App.bootstrap (page_load Scenes.returning) = (Ok tt, w')
    /\ currentUser w' = Some (user ann) /\ cartItems w' = [].
Proof.
  assert (Hcart : cart_held "A" [] Scenes.returning).
  { right. split; [reflexivity|].
    apply (returning_holds_nothing (cart_key "A")); discriminate. }
  assert (Hfav : favorites_held "A" [] Scenes.returning).
  { right. split; [reflexivity|].
    apply (returning_holds_nothing (FavoriteOps.fav_key "A")); discriminate. }
  destruct (reloading_the_page ann Scenes.ann_expiry Scenes.returning [] []
              returning_working returning_session eq_refl eq_refl eq_refl eq_refl
              Hcart Hfav) as [H _].
  destruct H as (w' & E & U & _ & Hc & _); [reflexivity|].
  exists w'. split; [exact E|]. split; assumption.
Defined.

(** ** A new tab *)

Lemma not_json_object_text : JSON_parse "[object Object]" = None.
Proof. vm_compute. reflexivity. Qed.

(** A new tab of a browser whose cookies hold what [handleAuthSuccess]
    wrote, before the token expires, the token being a text that is no
    JSON and the expiry one that prints in digits (below [10^21], as
    every date is): [loadUserFromStorage] restores the
    user from the cookies and schedules the login notification.  It
    copies the user into the session tier as the object it read, not as
    the text [handleAuthSuccess] stores there, and the expiry as a
    number.  The next page load in that tab takes this copy for the text
    of a user: as long as the token has not expired,
    [loadUserFromStorage], and with it the constructor of [AuthService],
    throws a [SyntaxError]. *)
Theorem a_new_tab_restores_the_user_once (res : AuthResponse) (expiry : Z)
  (b : Browser.t) :
  working b ->
  cookie_credentials res expiry b ->
  opaque (token res) ->
  0 <= now b -> now b < expiry -> expiry < 10 ^ 21 ->
  exists w',
    loadUserFromStorage (page_load (new_tab b))
    = (Ok (Some (User.id (user res))), w')
    /\ currentUser w' = Some (user res) /\ isAuthenticated w' = true
    /\ cookieJar (browser w') = cookieJar b
    /\ sessionStorage (browser w') !! "auth_user"
       = Some (JSON_stringify (User.to_json (user res)))
    /\ (forall b2,
          sessionFault b2 = false ->
          sessionStorage b2 = sessionStorage (browser w') ->
          now b2 < expiry ->
          fst (loadUserFromStorage (page_load b2)) = Throw SyntaxError).
Proof.
  intros Hw Hcookies Hopaque Hpos Hbefore Hdate.
  pose proof Hw as (Hs & Hc & Hj).
  assert (Hw' : working (browser (page_load (new_tab b)))) by (repeat split; assumption).
  rewrite (reload_in_a_new_tab res expiry (page_load (new_tab b)) Hw'
             (lookup_empty _) (lookup_empty _) (lookup_empty _) Hcookies Hopaque
             Hbefore Hpos Hdate).
  eexists. split; [reflexivity|].
  cbn [currentUser isAuthenticated browser set_browser set_isAuthenticated
         set_currentUser page_load new_tab cookieJar sessionStorage
         set_sessionStorage].
  split; [reflexivity|]. split; [reflexivity|]. split; [reflexivity|].
  split.
  { rewrite lookup_insert_ne by discriminate.
    rewrite lookup_insert_ne by discriminate. apply lookup_insert_eq. }
  intros b2 Hs2 Hsame Hbefore2.
  set (w2 := page_load b2).
  assert (S1 : sessionStorage (browser w2) !! STORAGE_KEY
               = Some (JSON_stringify (User.to_json (user res)))).
  { cbn [w2 browser page_load]. rewrite Hsame.
    rewrite lookup_insert_ne by discriminate.
    rewrite lookup_insert_ne by discriminate. apply lookup_insert_eq. }
  assert (S2 : sessionStorage (browser w2) !! TOKEN_KEY
               = Some (JSON_stringify (JStr (token res)))).
  { cbn [w2 browser page_load]. rewrite Hsame.
    rewrite lookup_insert_ne by discriminate. apply lookup_insert_eq. }
  assert (S3 : sessionStorage (browser w2) !! TOKEN_EXPIRY_KEY
               = Some (JSON_stringify (JNum expiry))).
  { cbn [w2 browser page_load]. rewrite Hsame. apply lookup_insert_eq. }
  unfold loadUserFromStorage.
  rewrite (LogoutLogin.bind_ok _ _ _ _ _
             (read_session STORAGE_KEY (User.to_json (user res)) w2 Hs2
                (user_unique_keys _) S1)).
  rewrite (LogoutLogin.bind_ok _ _ _ _ _
             (read_session TOKEN_KEY (JStr (token res)) w2 Hs2 eq_refl S2)).
  rewrite (LogoutLogin.bind_ok _ _ _ _ _
             (read_session TOKEN_EXPIRY_KEY (JNum expiry) w2 Hs2 eq_refl S3)).
  destruct Hopaque as [Ht _].
  assert (Htruthy : negb (truthy (User.to_json (user res)))
                    || negb (truthy (JStr (token res)))
                    || negb (truthy (JNum expiry)) = false).
  { cbn [truthy User.to_json]. rewrite Ht. cbn [negb orb].
    apply negb_false_iff, negb_true_iff, Z.eqb_neq. lia. }
  rewrite Htruthy.
  rewrite (LogoutLogin.bind_ok _ _ _ _ _ (read_clock w2)).
  unfold before_expiry. rewrite parseInt_number by lia.
  assert ((now (browser w2) <? expiry) = true) as -> by (apply Z.ltb_lt; exact Hbefore2).
  cbn [User.to_json js_String]. unfold parse at 1.
  change (text (chars "[object Object]")) with "[object Object]".
  rewrite not_json_object_text. reflexivity.
Qed.

Lemma a_new_tab_restores_the_user_once_witness :
  fst (loadUserFromStorage (page_load (new_tab Scenes.returning)))
  = Ok (Some (User.id (user ann))).
Proof.
  assert (Hopaque : opaque (token ann)) by (repeat split; reflexivity).
  assert (Hpos : 0 <= now Scenes.returning) by discriminate.
  assert (Hbefore : now Scenes.returning < Scenes.ann_expiry) by reflexivity.
  assert (Hdate : Scenes.ann_expiry < 10 ^ 21) by reflexivity.
  destruct (a_new_tab_restores_the_user_once ann Scenes.ann_expiry Scenes.returning
              returning_working returning_cookies Hopaque Hpos Hbefore Hdate)
    as (w' & E & _).
  rewrite E. reflexivity.
Defined.

End Session.

(* ================================================================= *)
(** * The interceptor: the header a request goes out with *)
Module Interceptor.
Import Browser StoreSpec Worlds AuthService SessionSpec AuthInterceptor Cookies.

(** ** The token cookie in [document.cookie] *)

Lemma trim_start_lead pre s :
  Forall (fun c => c = " "%char) pre -> trim_start (pre ++ s) = trim_start s.
Proof. induction 1 as [|c pre -> _ IH]; simpl; [reflexivity | exact IH]. Qed.

Lemma trim_start_stops x c y :
  is_space c = false -> trim_start (x ++ c :: y) = trim_start x ++ c :: y.
Proof.
  intros Hc. induction x as [|a x IH]; cbn [app trim_start].
  - rewrite Hc. reflexivity.
  - destruct (is_space a); [exact IH | reflexivity].
Qed.

(** Trimming a piece of [document.cookie] keeps the name and the equals
    sign in front. *)
Lemma js_trim_named pre n v :
  Forall (fun c => c = " "%char) pre -> cookie_name n = true ->
  forallb token_char (chars n) = true ->
  js_trim (pre ++ chars n ++ "="%char :: v)
  = chars n ++ "="%char :: rev (trim_start (rev v)).
Proof.
  intros Hpre Hn Hsp. apply cookie_name_parts in Hn. destruct Hn as [Hne _].
  unfold js_trim. rewrite (trim_start_lead _ _ Hpre).
  assert (Hfirst : trim_start (chars n ++ "="%char :: v) = chars n ++ "="%char :: v).
  { destruct n as [|c n]; [congruence|].
    cbn [list_ascii_of_string app trim_start forallb] in *.
    apply andb_true_iff in Hsp. destruct Hsp as [Hc _].
    apply andb_true_iff in Hc. destruct Hc as [Hc _].
    apply negb_true_iff in Hc. rewrite Hc. reflexivity. }
  rewrite Hfirst, rev_app_distr. cbn [rev]. rewrite <- app_assoc. cbn [app].
  rewrite (trim_start_stops _ "="%char _ eq_refl).
  rewrite rev_app_distr. cbn [rev]. rewrite rev_involutive, <- app_assoc.
  reflexivity.
Qed.

(** What [tokenCookie.split('=')[1]] is for the piece the interceptor
    finds: the value of the cookie named [auth_token], up to its first
    equals sign. *)
Lemma token_cookie_found jar pre :
  jar_ok jar = true -> token_names jar = true ->
  Forall (fun c => c = " "%char) pre ->
  option_map (fun piece => nth 1 (split_on "=" piece) [])
    (List.find (fun c => starts_with (chars "auth_token=") (js_trim c))
       (split_on ";" (pre ++ render_jar jar)))
  = option_map (fun v => nth 0 (split_on "=" (chars v)) [])
      (JsMap.get "auth_token" jar).
Proof.
  revert pre. induction jar as [|[n v] jar IH]; intros pre Hjar Hnames Hpre.
  - simpl render_jar. rewrite app_nil_r, split_on_absent.
    2:{ apply forallb_forall. intros c Hc. rewrite List.Forall_forall in Hpre.
        rewrite (Hpre c Hc). reflexivity. }
    cbn [List.find JsMap.get option_map].
    assert (Hblank : js_trim pre = []).
    { unfold js_trim. rewrite <- (app_nil_r pre), (trim_start_lead _ _ Hpre).
      reflexivity. }
    rewrite Hblank. reflexivity.
  - simpl in Hjar. apply andb_true_iff in Hjar. destruct Hjar as [Hc Hjar].
    apply andb_true_iff in Hc. destruct Hc as [Hn Hv]. simpl in Hn, Hv.
    pose proof (cookie_name_parts _ Hn) as [_ Hnp].
    cbn [token_names forallb fst] in Hnames.
    apply andb_true_iff in Hnames. destruct Hnames as [Hsp Hnames].
    assert (Hpiece : forallb (fun c => negb (c =? ";")%char)
                       (pre ++ render_cookie (n, v)) = true).
    { rewrite forallb_app. apply andb_true_iff. split.
      - apply forallb_forall. intros c Hc. rewrite List.Forall_forall in Hpre.
        rewrite (Hpre c Hc). reflexivity.
      - rewrite (render_named _ _ Hn), forallb_app. simpl.
        rewrite (plain_forall _ _ (plain_not ";"%char eq_refl) Hnp).
        exact Hv. }
    assert (Hhead : forallb (fun c => negb (c =? "=")%char) (pre ++ chars n) = true).
    { rewrite forallb_app. apply andb_true_iff. split.
      - apply forallb_forall. intros c Hc. rewrite List.Forall_forall in Hpre.
        rewrite (Hpre c Hc). reflexivity.
      - apply (plain_forall _ _ (plain_not "="%char eq_refl) Hnp). }
    assert (Htest : starts_with (chars "auth_token=")
                      (js_trim (pre ++ render_cookie (n, v)))
                    = String.eqb "auth_token" n).
    { rewrite (render_named _ _ Hn), (js_trim_named _ _ _ Hpre Hn Hsp).
      apply (starts_with_name "auth_token" n _ eq_refl Hnp). }
    assert (Hvalue : nth 1 (split_on "=" (pre ++ render_cookie (n, v))) []
                     = nth 0 (split_on "=" (chars v)) []).
    { rewrite (render_named _ _ Hn), app_assoc, (split_on_first _ _ _ Hhead).
      reflexivity. }
    rewrite render_jar_cons. cbn [JsMap.get]. destruct jar as [|c' jar'].
    + rewrite app_nil_r, (split_on_absent _ _ Hpiece). cbn [List.find].
      rewrite Htest. destruct (String.eqb "auth_token" n); [|reflexivity].
      cbn [option_map]. rewrite Hvalue. reflexivity.
    + rewrite app_assoc, (split_on_first _ _ _ Hpiece). cbn [List.find].
      rewrite Htest. destruct (String.eqb "auth_token" n).
      * cbn [option_map]. rewrite Hvalue. reflexivity.
      * apply (IH [" "%char]); [exact Hjar | exact Hnames | repeat constructor].
Qed.

Lemma encoded_in_one_piece s :
  nth 0 (split_on "=" (chars (Uri.encodeURIComponent s))) []
  = chars (Uri.encodeURIComponent s).
Proof.
  unfold Uri.encodeURIComponent. rewrite chars_text.
  rewrite split_on_absent; [reflexivity|].
  apply (plain_forall _ _ (plain_not "="%char eq_refl)), encode_plain.
Qed.

Lemma encoded_nonempty s :
  String.eqb s "" = false -> String.eqb (Uri.encodeURIComponent s) "" = false.
Proof.
  intros H. destruct s as [|c s]; [discriminate|].
  unfold Uri.encodeURIComponent, Uri.encode.
  cbn [list_ascii_of_string flat_map]. unfold Uri.encode_char.
  destruct (Uri.unreserved c); reflexivity.
Qed.

(** ** The header *)

Lemma read_token_item b :
  sessionFault b = false ->
  sessionStorage_getItem "auth_token" b = (Ok (sessionStorage b !! "auth_token"), b).
Proof. intros H. unfold sessionStorage_getItem. rewrite H. reflexivity. Qed.

(** With no token in the session tier the interceptor goes by the
    cookies. *)
Lemma interceptor_by_cookie b :
  sessionFault b = false -> cookieFault b = false ->
  jar_ok (cookieJar b) = true -> token_names (cookieJar b) = true ->
  sessionStorage b !! "auth_token" = None ->
  authInterceptor b
  = (Ok match JsMap.get "auth_token" (cookieJar b) with
        | Some v =>
            let t := text (nth 0 (split_on "=" (chars v)) []) in
            if negb (String.eqb t "") then WithAuthorization ("Bearer " +:+ t)
            else Unchanged
        | None => Unchanged
        end, b).
Proof.
  intros Hs Hc Hj Hn Hnone. unfold authInterceptor.
  unfold bind at 1. rewrite (read_token_item b Hs), Hnone.
  cbn [truthy_str negb]. cbv iota.
  unfold bind at 1. unfold bind at 1. unfold document_cookie. rewrite Hc. cbv beta iota zeta.
  rewrite chars_text.
  pose proof (token_cookie_found (cookieJar b) [] Hj Hn (List.Forall_nil _)) as Hfind.
  cbn [app] in Hfind.
  destruct (List.find _ (split_on ";" (render_jar (cookieJar b)))) as [piece|];
    destruct (JsMap.get "auth_token" (cookieJar b)) as [v|];
    cbn [option_map] in Hfind; try discriminate.
  - injection Hfind as Hfind. unfold ret. rewrite Hfind.
    destruct (negb _); reflexivity.
  - reflexivity.
Qed.

(** The [Authorization] header [authInterceptor] puts on a request, on a
    browser whose two tiers work and whose cookies are named by tokens of
    ASCII.  In the tab in which the user signed
    in it is [Bearer] followed by the token as JSON text, that is, with
    its double quotes and escapes: the interceptor reads the raw item
    that [setSessionItem] wrote.  In a new tab it is [Bearer] followed by
    the URI-encoded token from the cookie, without quotes.  With no
    credential in either tier, as after [logout], the request goes out
    unchanged.  The browser is left as it was. *)
Theorem the_authorization_header (res : AuthResponse) (expiry : Z) (b : Browser.t) :
  working b ->
  token_names (cookieJar b) = true ->
  (session_credentials res expiry b ->
   authInterceptor b
   = (Ok (WithAuthorization ("Bearer " +:+ JSON_stringify (JStr (token res)))), b))
  /\ (cookie_credentials res expiry b ->
      String.eqb (token res) "" = false ->
      authInterceptor (new_tab b)
      = (Ok (WithAuthorization ("Bearer " +:+ Uri.encodeURIComponent (token res))),
         new_tab b))
  /\ (no_credentials b -> authInterceptor b = (Ok Unchanged, b)).
Proof.
  intros (Hs & Hc & Hj) Hn. split; [|split].
  - intros (_ & S2 & _). unfold authInterceptor.
    unfold bind at 1. rewrite (read_token_item b Hs), S2.
    cbn [truthy_str]. rewrite JsonRoundTrip.JSON_stringify_nonempty.
    cbn [negb]. cbv iota. unfold bind, ret.
    rewrite JsonRoundTrip.JSON_stringify_nonempty. reflexivity.
  - intros (_ & C2 & _) Ht.
    rewrite (interceptor_by_cookie (new_tab b) Hs Hc Hj Hn (lookup_empty _)).
    cbn [new_tab cookieJar set_sessionStorage]. rewrite C2. cbv zeta.
    rewrite encoded_in_one_piece, text_chars, (encoded_nonempty _ Ht). reflexivity.
  - intros ((_ & S2 & _) & (_ & C2 & _)).
    rewrite (interceptor_by_cookie b Hs Hc Hj Hn S2), C2. reflexivity.
Qed.

Lemma the_authorization_header_witness :
  fst (authInterceptor Scenes.returning)
  = Ok (WithAuthorization ("Bearer " +:+ JSON_stringify (JStr (token ann))))
  /\ fst (authInterceptor (new_tab Scenes.returning))
     = Ok (WithAuthorization ("Bearer " +:+ Uri.encodeURIComponent (token ann))).
Proof.
  assert (Hn : token_names (cookieJar Scenes.returning) = true) by reflexivity.
  destruct (the_authorization_header ann Scenes.ann_expiry Scenes.returning
              Session.returning_working Hn) as (H1 & H2 & _).
  rewrite (H1 Session.returning_session), (H2 Session.returning_cookies eq_refl).
  split; reflexivity.
Defined.

End Interceptor.

(* ================================================================= *)
(** * The profile: updating the user, and the initials *)
Module Profile.
Import Browser StoreSpec Worlds AuthService SessionSpec Cookies JsMapFacts.

(** ** Updating the profile *)

(** A reply that [tap] handles without an exception goes through
    [catchError] as it is. *)
Lemma tapped_reply {A} (f : A -> SE World unit)
  (h : exn -> SE World (Notification A)) a w w' :
  f a w = (Ok tt, w') ->
  catchError h (tap f (http (HttpOk a))) w = (Ok (Next a), w').
Proof.
  intros E. unfold catchError, tap, http, try_catch, bind, ret. rewrite E.
  reflexivity.
Qed.

Lemma split_on_nonempty sep s : split_on sep s <> [].
Proof.
  destruct s as [|c s]; cbn [split_on]; [discriminate|].
  destruct (c =? sep)%char; [discriminate|]. destruct (split_on sep s); discriminate.
Qed.

Lemma split_on_head sep c s :
  (c =? sep)%char = false ->
  exists w ws, split_on sep (c :: s) = (c :: w) :: ws.
Proof.
  intros H. cbn [split_on]. rewrite H. destruct (split_on sep s) as [|w ws]; eauto.
Qed.

(** [updateUserProfile] on a browser whose two tiers work and hold the
    credentials of a login.  When the backend answers with the updated
    user, that user becomes the current user and replaces the stored one
    in both tiers, in the form [handleAuthSuccess] writes: the token and
    its expiry stay, so that a page load restores the updated user.
    Whether anyone counts as authenticated is left as it was.  When the
    request fails, the failure is printed and handed on, and nothing else
    changes. *)
Theorem updating_the_profile (res : AuthResponse) (expiry : Z) (u : User.t)
  (w : World) :
  working (browser w) ->
  session_credentials res expiry (browser w) ->
  cookie_credentials res expiry (browser w) ->
  let res' := {| user := u; token := token res; expiresIn := expiresIn res |} in
  (exists w',
      updateUserProfile (HttpOk u) w = (Ok (Next u), w')
      /\ currentUser w' = Some u /\ isAuthenticated w' = isAuthenticated w
      /\ working (browser w')
      /\ session_credentials res' expiry (browser w')
      /\ cookie_credentials res' expiry (browser w'))
  /\ (forall e,
        updateUserProfile (HttpError e) w
        = (Ok (Error e), log_error "Profile update failed" w)).
Proof.
  intros (Hs & Hc & Hj) (S1 & S2 & S3) (C1 & C2 & C3) res'. split; [|reflexivity].
  unfold updateUserProfile.
  set (w0 := set_currentUser (Some u) w).
  pose proof (setSessionItem_working STORAGE_KEY
                (JStr (JSON_stringify (User.to_json u))) (browser w0) Hs) as E1.
  set (b1 := set_sessionStorage _ (browser w0)) in E1.
  pose proof (setCookie_working "auth_user" (User.to_json u) 30 b1 Hc eq_refl
                ltac:(lia)) as E2.
  set (b2 := set_cookieJar _ b1) in E2.
  assert (Hrun : (modify (set_currentUser (Some u)) ;;;
                  storage (setSessionItem STORAGE_KEY
                             (JStr (JSON_stringify (User.to_json u)))) ;;;
                  storage (setCookie "auth_user" (User.to_json u) 30)) w
                 = (Ok tt, set_browser b2 (set_browser b1 w0))).
  { rewrite LogoutLogin.bind_modify.
    rewrite (LogoutLogin.bind_ok _ _ _ _ _ (LogoutLogin.storage_ok _ w0 _ _ E1)).
    apply (LogoutLogin.storage_ok _ (set_browser b1 w0) _ _ E2). }
  eexists. split; [apply tapped_reply; exact Hrun|].
  cbn [currentUser isAuthenticated browser set_browser w0 set_currentUser].
  split; [reflexivity|]. split; [reflexivity|].
  split; [|split].
  - unfold working. split; [exact Hs|]. split; [exact Hc|].
    cbn [b2 cookieJar set_cookieJar].
    apply jar_ok_set; [reflexivity | apply no_semicolon_encoded | exact Hj].
  - unfold session_credentials.
    cbn [b2 b1 sessionStorage set_cookieJar set_sessionStorage res' user token].
    split; [apply lookup_insert_eq|].
    split; (rewrite lookup_insert_ne by discriminate); assumption.
  - unfold cookie_credentials.
    cbn [b2 b1 cookieJar set_cookieJar set_sessionStorage res' user token cookieValue].
    split; [apply get_set_same|].
    split; (rewrite get_set_other by discriminate); assumption.
Qed.

Lemma updating_the_profile_witness :
  exists w',
    updateUserProfile (HttpOk (User.mk "A" "Ann Lee" "ann@example.org" None))
      (page_load Scenes.returning)
    = (Ok (Next (User.mk "A" "Ann Lee" "ann@example.org" None)), w')
    /\ currentUser w' = Some (User.mk "A" "Ann Lee" "ann@example.org" None).
Proof.
  destruct (updating_the_profile ann Scenes.ann_expiry
              (User.mk "A" "Ann Lee" "ann@example.org" None)
              (page_load Scenes.returning)
              Session.returning_working Session.returning_session
              Session.returning_cookies) as [(w' & E & U & _) _].
  exists w'. split; assumption.
Defined.

(** ** The initials *)

Lemma two_names (x y : list ascii) l :
  (2 <=? Z.of_nat (length (x :: y :: l))) = true.
Proof. apply Z.leb_le. cbn [length]. lia. Qed.

Lemma second_word_blank rest :
  rest = [] \/ (exists r, rest = " "%char :: r) ->
  exists ws, split_on " " rest = [] :: ws.
Proof. intros [-> | (r & ->)]; cbn [split_on Ascii.eqb Bool.eqb]; eauto. Qed.

(** [getUserInitials] for a signed-in user whose name is in ASCII, by
    the shape of the name.  Two words in front, separated by one blank, give their first letters
    in upper case; a name of one word gives its first two characters in
    upper case.  A blank where a word should start makes that word empty:
    when the name begins with a blank, or its first word is followed by
    the end of the name or by a second blank, the text [UNDEFINED] stands
    in for the missing letter; when both are missing, as for a name that
    is one blank or begins with two, the method throws a [TypeError]. *)
Theorem initials_of_the_user (u : User.t) (w : World) :
  currentUser w = Some u ->
  ascii_text (chars (User.name u)) = true ->
  (forall a first b rest,
      chars (User.name u) = a :: first ++ " "%char :: b :: rest ->
      a <> " "%char -> b <> " "%char ->
      forallb (fun c => negb (c =? " ")%char) first = true ->
      getUserInitials w = (Ok (text [to_upper a; to_upper b]), w))
  /\ (forallb (fun c => negb (c =? " ")%char) (chars (User.name u)) = true ->
      getUserInitials w
      = (Ok (text (toUpperCase (firstn 2 (chars (User.name u))))), w))
  /\ (forall b rest,
        chars (User.name u) = " "%char :: b :: rest -> b <> " "%char ->
        getUserInitials w = (Ok (text (chars "UNDEFINED" ++ [to_upper b])), w))
  /\ (forall a first rest,
        chars (User.name u) = a :: first ++ " "%char :: rest ->
        a <> " "%char ->
        forallb (fun c => negb (c =? " ")%char) first = true ->
        rest = [] \/ (exists r, rest = " "%char :: r) ->
        getUserInitials w = (Ok (text (to_upper a :: chars "UNDEFINED")), w))
  /\ (forall rest,
        chars (User.name u) = " "%char :: rest ->
        rest = [] \/ (exists r, rest = " "%char :: r) ->
        fst (getUserInitials w) = Throw (Thrown "TypeError")).
Proof.
  intros Hu _.
  assert (Hrun : getUserInitials w
                 = let names := split_on " " (chars (User.name u)) in
                   if 2 <=? Z.of_nat (length names) then
                     match plus_chars (head (nth 0 names [])) (head (nth 1 names [])) with
                     | Ok s => (Ok (text (toUpperCase s)), w)
                     | Throw e => (Throw e, w)
                     end
                   else (Ok (text (toUpperCase (firstn 2 (chars (User.name u))))), w)).
  { unfold getUserInitials, bind, gets. rewrite Hu. cbv zeta.
    destruct (2 <=? _); [|reflexivity]. destruct (plus_chars _ _); reflexivity. }
  rewrite Hrun. cbv zeta.
  split; [|split; [|split; [|split]]].
  - intros a first b rest Hname Ha Hb Hfirst.
    apply Ascii.eqb_neq in Ha, Hb.
    assert (Hword : forallb (fun c => negb (c =? " ")%char) (a :: first) = true).
    { cbn [forallb]. rewrite Ha, Hfirst. reflexivity. }
    rewrite Hname. change (a :: first ++ " "%char :: b :: rest)
      with ((a :: first) ++ " "%char :: b :: rest).
    rewrite (split_on_first _ _ _ Hword).
    destruct (split_on_head " " b rest Hb) as (w2 & ws & ->).
    rewrite two_names. reflexivity.
  - intros Hword. rewrite (split_on_absent _ _ Hword). reflexivity.
  - intros b rest Hname Hb. apply Ascii.eqb_neq in Hb. rewrite Hname.
    change (split_on " " (" "%char :: b :: rest)) with ([] :: split_on " " (b :: rest)).
    destruct (split_on_head " " b rest Hb) as (w2 & ws & ->).
    rewrite two_names. reflexivity.
  - intros a first rest Hname Ha Hfirst Hrest.
    apply Ascii.eqb_neq in Ha.
    assert (Hword : forallb (fun c => negb (c =? " ")%char) (a :: first) = true).
    { cbn [forallb]. rewrite Ha, Hfirst. reflexivity. }
    rewrite Hname. change (a :: first ++ " "%char :: rest)
      with ((a :: first) ++ " "%char :: rest).
    rewrite (split_on_first _ _ _ Hword).
    destruct (second_word_blank rest Hrest) as (ws & ->).
    rewrite two_names. reflexivity.
  - intros rest Hname Hrest. rewrite Hname.
    change (split_on " " (" "%char :: rest)) with ([] :: split_on " " rest).
    destruct (second_word_blank rest Hrest) as (ws & ->).
    rewrite two_names. reflexivity.
Qed.

Lemma initials_of_the_user_witness :
  getUserInitials Scenes.named = (Ok "AL", Scenes.named).
Proof.
  destruct (initials_of_the_user (User.mk "A" "ann lee" "ann@example.org" None)
              Scenes.named eq_refl eq_refl) as (H & _).
  apply (H "a"%char (chars "nn") "l"%char (chars "ee") eq_refl);
    [discriminate | discriminate | reflexivity].
Defined.

End Profile.
